(* ===== verification/_CoqProject ===== *)
-Q . S2P
Prelude.v
Mem.v
Context.v
CString.v
Snprintf.v
Console.v
Pmm.v
Fdt.v
Devices.v
Atomic.v
Htif.v
Spike.v
HtifHost.v
Sv39.v
Vmm.v
KernVm.v
Space.v
Kstate.v
Mmode.v
Robust.v
Sched.v
Process.v
NewProc.v
Vmspace.v
Fork.v
Regs.v
Syscall.v
Strap.v
System.v
User.v
UserFork.v
Isolation.v
IsolationFork.v
Paging.v
IsolationTrap.v
App.v
Elf.v
ElfLoad.v
IsolationLoad.v
Boot.v
Examples.v
BootExamples.v
AppExamples.v
ForkExamples.v
IsolationExamples.v
HtifExamples.v
