(* ===== verification/Prelude.v ===== *)
(** * The proxy kernel: a verification development

    The program is a RISC-V proxy kernel: a supervisor that runs user programs
    in Sv39 address spaces, schedules them round-robin, and leaves files and
    the console to the emulator it runs on (Spike), which it reaches through
    the HTIF registers.  The development is a shallow embedding: every function
    of the source is a definition of the same name in a state monad whose
    outcomes are a result with a new state, or a stop (a panic, a shutdown, a
    return to user mode, a bad access), and the theorems are about these
    definitions.

    ** Parts, files and interfaces

    - [Prelude]: machine integers as [Z] with explicit wrap-around ([u64],
      [s32], ...); the monad [M], its weakest precondition [wp] and the loops;
      lenses ([Lens]), through which a component works on its part of the
      state of the kernel.
    - [Mem], [Context]: memory as a finite map from addresses to bytes, general
      registers, CSRs, the console; util/load_store.S and
      kernel/strap_vector.S, instruction by instruction.
    - [CString] (util/string.c), [Snprintf] (util/snprintf.c), [Console]
      (formatted output, panic, assert and shutdown of
      spike_interface/spike_utils.c).
    - [Pmm] (kernel/pmm.c): the free list, threaded through the free pages.
      [pmm_free s l] is its abstraction: the allocator owns the pages [l].
    - [Sv39], [Vmm], [KernVm] (kernel/vmm.c, the macros of kernel/riscv.h): page
      tables in memory.  [pt_wf] is the invariant of a table, [entry] the
      abstract map from virtual addresses to leaf entries, [vm_inv] both with
      the allocator.
    - [Space]: the interface between virtual memory and its clients.  [aspace]
      describes an address space that is being built; one rule per operation.
    - [Kstate], [Sched] (kernel/sched.c, switch_to), [Process]
      (kernel/process.c), [Syscall] (kernel/syscall.c), [Strap]
      (kernel/strap.c): the kernel proper, over the process table, the queue of
      ready processes (linked through the table) and the counters.
    - [NewProc], [Fork]: alloc_process and do_fork at the level of memory.
      [Vmspace]: print_proc_vmspace, the report of the regions of a process.
      [Regs]: what the kernel leaves of the registers of the hart.
    - [Fdt], [Devices] (spike_interface/dts_parse.c, spike_memory.c and the
      discovery part of spike_htif.c): the device tree.
    - [Atomic] (atomic.h): the spin lock.
    - [Htif] (the rest of spike_htif.c): the protocol of the HTIF registers,
      with the device as a parameter.
    - [Spike] (spike_file.c, frontend_syscall): host files.  The host that
      serves a system call is the parameter [Host].  [HtifHost] shows that the
      protocol of [Htif] implements the atomic request that [Spike] uses.
    - [Mmode] (kernel/machine): reset to supervisor mode, machine-mode traps;
      [image] is the state of the whole kernel.
    - [Robust], [System]: what operations leave alone ([keeps]), the invariant
      of the process table and the refinement of the abstract scheduler.
    - [Elf], [ElfLoad] (kernel/elf.c), [Boot] (kernel/kernel.c).
    - [User] (user/user_lib.c): the library of user programs, and its calls
      through the trap vector into the kernel and back; [UserFork]: its fork,
      down to do_fork.
    - [Isolation]: the partition of memory between processes ([isolated]):
      tables, trap frames, kernel stacks and tables of regions of each process
      and the free pages are apart from each other and out of reach of user
      programs, and no page is writable for two processes.  [IsolationFork]:
      alloc_process and do_fork keep it.  [Paging]: pages on demand.
      [IsolationTrap]: traps that ask for no memory keep it.  [IsolationLoad]:
      the loader keeps it, and gives the segments pages of their own.
    - [App] (user/app_wait.c): the application, and the execution of a program
      by several processes.
    - [Examples], [BootExamples], [ForkExamples], [IsolationExamples],
      [HtifExamples]: concrete states and the theorems on them.  [AppExamples]:
      a sample run of the application, by evaluation.

    ** What the theorems show

    - The system: from reset the machine boots into user mode or stops on an
      error, and from then on every trap is a step of an abstract round-robin
      scheduler, for arbitrary user programs and arbitrary memory
      ([machine_refines_scheduler], [kernel_refines_scheduler],
      [trap_handled], [s_start_enters_user]); no process starves
      ([no_starvation]); the functional behaviour of exit, fork, wait, yield
      and of the queue.
    - Memory: the allocator, the page tables on every outcome of map_pages, the
      identity map of the kernel, the address spaces of a new process, of a
      forked process and of a loaded program, and what the code does with
      double frees and unmapped addresses.
    - Protection: memory is partitioned between the processes.  A store of a
      user program touches no page of the kernel, no free page and no page that
      another process may write ([user_stores_confined]); page faults, malloc
      and free, alloc_process, fork and the loader keep the partition
      ([store_pages_in], [malloc_free_roundtrip], [alloc_process_isolated],
      [fork_keeps_isolation], [elf_load_keeps_isolation]), with what they do to
      the address spaces, and so does every trap that asks for no memory
      ([light_traps_keep_isolation]).  Where the code runs out of memory, and
      where a program frees a page that its child executes, the partition is
      lost: these theorems ask for free pages, and malloc_free_roundtrip frees
      the page that was allocated.
    - Utilities: string functions and formatted output against reference
      definitions; what vsnprintf prints in a buffer is what atol reads there
      ([atol_reads_printed]).
    - The environment: device tree walks, host files, the HTIF protocol as an
      implementation of an atomic request, and machine-mode start-up.
    - From end to end: a call of the user library, from the ecall over the trap
      vector and the kernel function that serves it to the instruction behind
      the ecall ([printu_prints], [fork_returns_twice]); a process of the
      application prints its own flag and leaves those of the others alone
      ([flag_is_private]).

    ** Bounds and fuel

    A C loop is [loop] with a number of rounds that the theorems show to be
    enough (the loops of strings have as many rounds as there are addresses
    above their start, the scan of a device tree the length of its structure
    block, the loop over program headers 2^16 + 1 since e_phnum has sixteen
    bits); running out of it is the outcome [OutOfFuel], an error that no
    theorem counts as success.  Only the spinning on locks has one round: there
    is one hart, so that nothing would change the lock between two rounds, and
    in the same way the rounds of waiting for the host are as many as its
    parameters allow.

    ** Not modelled

    - The static data of the kernel lies outside of [mem]: a wild store cannot
      change the process table, and stores to the text of the kernel do not
      fault.  Accesses outside of the memory that the kernel maps do.
    - The TLB, caches and instruction fetch: the switch of page tables inside
      the trampoline is the change of satp alone.
    - The device behind the HTIF registers and the file system of the host are
      parameters, the device with a bound on the time it takes to respond: a
      request for a character that nobody types is not answered in the program
      either.  The variant of spike_htif.c for 32 bits is not compiled.
      Addresses of local variables on the kernel stack are too
      where the host writes to them.
    - Values of a panic message (do_panic hands a va_list to a variadic
      function) are not printed.
    - User programs are arbitrary changes of user-visible state between traps,
      but for the library calls of [User] and the application of [App]; these
      are not interrupted by the timer. *)
From coqutil Require Export Byte Word.LittleEndianList.
From Stdlib Require Export ZArith Lia.
From stdpp Require Export base numbers strings gmap list.

Abbreviation byte := Init.Byte.byte.

#[global] Open Scope Z_scope.

Declare Scope pke_scope.
Delimit Scope pke_scope with pke.
#[global] Open Scope pke_scope.

(** * Machine integers

    A C value of an unsigned type of [w] bits is a [Z] in [0, 2^w); of a
    signed type, a [Z] in [-2^(w-1), 2^(w-1)).  The conversions below are the
    casts and the wrap-around of the types of [util/types.h]. *)

Definition wrap (w z : Z) : Z := z mod 2 ^ w.
Definition swrap (w z : Z) : Z := (z + 2 ^ (w - 1)) mod 2 ^ w - 2 ^ (w - 1).

Definition u8 : Z -> Z := wrap 8.
Definition u16 : Z -> Z := wrap 16.
Definition u32 : Z -> Z := wrap 32.
Definition u64 : Z -> Z := wrap 64.
Definition s32 : Z -> Z := swrap 32.
Definition s64 : Z -> Z := swrap 64.

Lemma wrap_range w z : 0 <= w -> 0 <= wrap w z < 2 ^ w.
Proof. intros. apply Z.mod_pos_bound. apply Z.pow_pos_nonneg; lia. Qed.

Lemma wrap_small w z : 0 <= z < 2 ^ w -> wrap w z = z.
Proof. apply Z.mod_small. Qed.

Lemma swrap_small w z : 0 < w -> - 2 ^ (w - 1) <= z < 2 ^ (w - 1) -> swrap w z = z.
Proof.
  intros Hw Hz. unfold swrap.
  assert (2 ^ w = 2 * 2 ^ (w - 1)) as E.
  { rewrite <- Z.pow_succ_r by lia. f_equal. lia. }
  rewrite Z.mod_small; lia.
Qed.

Lemma u64_range z : 0 <= u64 z < 2 ^ 64.
Proof. apply wrap_range. lia. Qed.

Lemma u64_small z : 0 <= z < 2 ^ 64 -> u64 z = z.
Proof. apply wrap_small. Qed.

Lemma u64_add_u64 a b : u64 (u64 a + b) = u64 (a + b).
Proof. unfold u64, wrap. apply Zplus_mod_idemp_l. Qed.

Lemma u32_small z : 0 <= z < 2 ^ 32 -> u32 z = z.
Proof. apply wrap_small. Qed.

Lemma s32_u64 z : s32 (u64 z) = s32 z.
Proof.
  unfold s32, swrap, u64, wrap. f_equal. rewrite <- Z.add_mod_idemp_l by lia.
  rewrite Z.mod_mod_divide by (by exists (2 ^ 32)). by rewrite Z.add_mod_idemp_l by lia.
Qed.

Lemma s32_small z : - 2 ^ 31 <= z < 2 ^ 31 -> s32 z = z.
Proof. intros. apply swrap_small; simpl in *; lia. Qed.

Lemma s32_s32 z : s32 (s32 z) = s32 z.
Proof.
  apply s32_small. unfold s32, swrap. pose proof (Z.mod_pos_bound (z + 2 ^ (32 - 1)) (2 ^ 32)). lia.
Qed.

Lemma s64_small z : - 2 ^ 63 <= z < 2 ^ 63 -> s64 z = z.
Proof. intros. apply swrap_small; simpl in *; lia. Qed.

Lemma s64_range z : - 2 ^ 63 <= s64 z < 2 ^ 63.
Proof.
  unfold s64, swrap. change (64 - 1) with 63.
  pose proof (Z.mod_pos_bound (z + 2 ^ 63) (2 ^ 64)). lia.
Qed.

(** [dlia]: [lia] after replacing every [/] and [mod] by its defining
    equations. *)
Ltac dlia := Z.to_euclidean_division_equations; lia.

(** [tuple_lia]: equality of tuples of integers. *)
Ltac tuple_lia :=
  repeat match goal with |- (_, _) = (_, _) => apply f_equal2 end; lia.

(** * Outcomes

    A kernel operation returns, or stops for one of the reasons below; a
    function declared [noreturn] in C never produces [Ok].
    - [Shutdown code]: [shutdown(code)] of spike_utils.c, also the end of every
      [panic] and [kassert] (with code -1);
    - [PowerOff]: the end of a failed [assert], through [die] and [poweroff];
    - [SRet]: [return_to_user] has executed [sret]: user code runs next;
    - [BadAccess a]: a load or store at [a] faults in supervisor mode;
    - [Undefined]: the C program has undefined behaviour here;
    - [OutOfFuel]: the loop bound of the model is exhausted. *)
Inductive stop : Type :=
| Shutdown (code : Z)
| PowerOff
| SRet
| BadAccess (a : Z)
| Undefined
| OutOfFuel.

#[export] Instance stop_eq_dec : EqDecision stop.
Proof. solve_decision. Defined.

Inductive outcome (S A : Type) : Type :=
| Ok (a : A) (s : S)
| Stop (e : stop) (s : S).
Arguments Ok {S A} a s.
Arguments Stop {S A} e s.

(** A computation over a state [S]. *)
Definition M (S A : Type) : Type := S -> outcome S A.

Section Monad.
Context {S : Type}.

Definition ret {A} (a : A) : M S A := fun s => Ok a s.

Definition bind {A B} (c : M S A) (f : A -> M S B) : M S B :=
  fun s => match c s with
           | Ok a s' => f a s'
           | Stop e s' => Stop e s'
           end.

Definition halt {A} (e : stop) : M S A := fun s => Stop e s.
Definition get_st : M S S := fun s => Ok s s.
Definition gets {A} (f : S -> A) : M S A := fun s => Ok (f s) s.
Definition modify (f : S -> S) : M S unit := fun s => Ok tt (f s).

(** [iterate fuel body x]: run [body] from [x] as long as it answers [inl],
    at most [fuel] times.  The bound is binary, so that a large one costs
    nothing to evaluate. *)
Fixpoint iterate {X R} (fuel : positive) (body : X -> M S (X + R)) (x : X) : M S (X + R) :=
  let andthen (p : positive) (c : M S (X + R)) : M S (X + R) :=
    bind c (fun r => match r with
                     | inl x' => iterate p body x'
                     | inr v => ret (inr v)
                     end) in
  match fuel with
  | xH => body x
  | xO p => andthen p (iterate p body x)
  | xI p => andthen p (andthen p (body x))
  end.

(** A C loop: [iterate], where using up the bound is an outcome of its own. *)
Definition loop {X R} (fuel : positive) (body : X -> M S (X + R)) (x : X) : M S R :=
  bind (iterate fuel body x) (fun r => match r with
                                       | inl _ => halt OutOfFuel
                                       | inr v => ret v
                                       end).

(** [for (x in l) body x] *)
Fixpoint for_each {X} (l : list X) (body : X -> M S unit) : M S unit :=
  match l with
  | [] => ret tt
  | x :: l' => bind (body x) (fun _ => for_each l' body)
  end.
End Monad.

Notation "x <- c ;; k" := (bind c (fun x => k))
  (at level 100, c at next level, right associativity) : pke_scope.
Notation "c ;;; k" := (bind c (fun _ => k))
  (at level 100, right associativity) : pke_scope.

(** * Weakest preconditions

    [wp c Q E s]: run from [s], [c] either returns with [Q] or stops with [E].
    Since [OutOfFuel] is a way of stopping, [wp c Q E s] with
    [E OutOfFuel _ = False] says that the loops of [c] terminate. *)
Definition wp {S A} (c : M S A) (Q : A -> S -> Prop) (E : stop -> S -> Prop) (s : S) : Prop :=
  match c s with
  | Ok a s' => Q a s'
  | Stop e s' => E e s'
  end.

(** The exceptional postcondition of an operation that must return. *)
Definition never {S : Type} : stop -> S -> Prop := fun _ _ => False.

Section Wp.
Context {S : Type}.
Implicit Types (s : S) (E : stop -> S -> Prop).

Lemma wp_ret {A} (a : A) Q E s : Q a s -> wp (ret a) Q E s.
Proof. done. Qed.

Lemma wp_halt {A} e (Q : A -> S -> Prop) E s : E e s -> wp (halt e) Q E s.
Proof. done. Qed.

Lemma wp_gets {A} (f : S -> A) Q E s : Q (f s) s -> wp (gets f) Q E s.
Proof. done. Qed.

Lemma wp_get_st (Q : S -> S -> Prop) E s : Q s s -> wp get_st Q E s.
Proof. done. Qed.

Lemma wp_modify (f : S -> S) Q E s : Q tt (f s) -> wp (modify f) Q E s.
Proof. done. Qed.

Lemma wp_bind {A B} (c : M S A) (f : A -> M S B) Q E s :
  wp c (fun a s' => wp (f a) Q E s') E s -> wp (bind c f) Q E s.
Proof. unfold wp, bind. destruct (c s); done. Qed.

Lemma bind_ok {A B} (a : A) s' (c : M S A) (f : A -> M S B) r s :
  c s = Ok a s' -> f a s' = r -> bind c f s = r.
Proof. unfold bind. by intros ->. Qed.

Lemma bind_step {A B} (a : A) s' (c : M S A) (f : A -> M S B) s :
  c s = Ok a s' -> bind c f s = f a s'.
Proof. unfold bind. by intros ->. Qed.

Lemma bind_stop {A B} e s' (c : M S A) (f : A -> M S B) s :
  c s = Stop e s' -> bind c f s = Stop e s'.
Proof. unfold bind. by intros ->. Qed.

Lemma bind_congr_l {A B} (c c' : M S A) (f : A -> M S B) s :
  c s = c' s -> bind c f s = bind c' f s.
Proof. unfold bind. by intros ->. Qed.

Lemma bind_assoc {A B C} (c : M S A) (f : A -> M S B) (g : B -> M S C) s :
  bind (bind c f) g s = bind c (fun a => bind (f a) g) s.
Proof. unfold bind. by destruct (c s). Qed.

Lemma wp_assoc {A B C} (c : M S A) (f : A -> M S B) (g : B -> M S C) Q E s :
  wp (bind c (fun a => bind (f a) g)) Q E s -> wp (bind (bind c f) g) Q E s.
Proof. unfold wp. by rewrite bind_assoc. Qed.

Lemma wp_bind_ret {A} (c : M S A) Q E s : wp (bind c ret) Q E s -> wp c Q E s.
Proof. unfold wp, bind, ret. by destruct (c s). Qed.

Lemma wp_bind_ok {A B} (a : A) s' (c : M S A) (f : A -> M S B) Q E s :
  c s = Ok a s' -> wp (f a) Q E s' -> wp (bind c f) Q E s.
Proof. unfold wp, bind. by intros ->. Qed.

Lemma wp_bind_inv {A B} (c : M S A) (f : A -> M S B) Q E s :
  wp (bind c f) Q E s -> wp c (fun a s' => wp (f a) Q E s') E s.
Proof. unfold wp, bind. destruct (c s); done. Qed.

Lemma wp_mono {A} (c : M S A) (Q Q' : A -> S -> Prop) (E E' : stop -> S -> Prop) s :
  wp c Q E s ->
  (forall a s', Q a s' -> Q' a s') ->
  (forall e s', E e s' -> E' e s') ->
  wp c Q' E' s.
Proof. unfold wp. destruct (c s); eauto. Qed.

(** Sequencing through a specification of the first computation. *)
Lemma wp_seq {A B} (c : M S A) (f : A -> M S B) (P : A -> S -> Prop)
    (Q : B -> S -> Prop) (E E' : stop -> S -> Prop) s :
  wp c P E' s ->
  (forall e s', E' e s' -> E e s') ->
  (forall a s', P a s' -> wp (f a) Q E s') ->
  wp (bind c f) Q E s.
Proof. intros H HE HQ. apply wp_bind. eapply wp_mono; eauto. Qed.

Lemma wp_ok {A} (c : M S A) (Q : A -> S -> Prop) s :
  wp c Q never s -> exists a s', c s = Ok a s' /\ Q a s'.
Proof. unfold wp, never. destruct (c s); [eauto | done]. Qed.

Lemma wp_stop {A} (c : M S A) E s :
  wp c (fun _ _ => False) E s -> exists e s', c s = Stop e s' /\ E e s'.
Proof. unfold wp. destruct (c s); [done|eauto]. Qed.

Lemma wp_stop_inv {A} (c : M S A) Q E s e s' : wp c Q E s -> c s = Stop e s' -> E e s'.
Proof. unfold wp. intros H Hs. by rewrite Hs in H. Qed.

Lemma wp_and {A} (c : M S A) (Q1 Q2 : A -> S -> Prop) (E1 E2 : stop -> S -> Prop) s :
  wp c Q1 E1 s -> wp c Q2 E2 s ->
  wp c (fun a s' => Q1 a s' /\ Q2 a s') (fun e s' => E1 e s' /\ E2 e s') s.
Proof. unfold wp. by destruct (c s). Qed.

Lemma wp_intro {A} (c : M S A) (Q : A -> S -> Prop) E s a s' :
  c s = Ok a s' -> Q a s' -> wp c Q E s.
Proof. unfold wp. by intros ->. Qed.

Lemma wp_for_each {X} (l : list X) (body : X -> M S unit)
    (I : list X -> S -> Prop) Q E s :
  I l s ->
  (forall x l' s', I (x :: l') s' -> wp (body x) (fun _ s'' => I l' s'') E s') ->
  (forall s', I [] s' -> Q tt s') ->
  wp (for_each l body) Q E s.
Proof.
  intros HI Hb HQ. revert s HI.
  induction l as [|x l IH]; intros s HI; simpl; [by apply HQ|].
  apply wp_bind. eapply wp_mono; [by apply Hb| |done].
  intros a s' HI'. destruct a. by apply IH.
Qed.

(** [iterate] under an invariant [I n x s] with a bound [n] on the number of
    iterations that are left. *)
Lemma wp_iterate {X R} (body : X -> M S (X + R)) (I : Z -> X -> S -> Prop)
    (Q : R -> S -> Prop) E fuel n x s :
  I n x s ->
  (forall n x s, I n x s ->
     wp (body x) (fun r s' => match r with
                              | inl x' => exists n', n' < n /\ I n' x' s'
                              | inr v => Q v s'
                              end) E s) ->
  wp (iterate fuel body x)
     (fun r s' => match r with
                  | inl x' => exists n', n' + Zpos fuel <= n /\ I n' x' s'
                  | inr v => Q v s'
                  end) E s.
Proof.
  intros HI Hb. revert n x s HI.
  induction fuel as [p IH|p IH|]; intros n x s HI; simpl.
  - apply wp_bind, wp_bind.
    eapply wp_mono; [by eapply Hb| |done]. intros [x1|v] s1 H; [|done].
    destruct H as (n1 & M1 & H1). eapply wp_mono; [by eapply IH| |done].
    intros [x2|v] s2 H; [|done]. destruct H as (n2 & M2 & H2).
    eapply wp_mono; [by eapply IH| |done].
    intros [x3|v] s3 H; [|done]. destruct H as (n3 & M3 & H3). exists n3. split; [lia|done].
  - apply wp_bind. eapply wp_mono; [by eapply IH| |done].
    intros [x2|v] s2 H; [|done]. destruct H as (n2 & M2 & H2).
    eapply wp_mono; [by eapply IH| |done].
    intros [x3|v] s3 H; [|done]. destruct H as (n3 & M3 & H3). exists n3. split; [lia|done].
  - eapply wp_mono; [by eapply Hb| |done].
    intros [x2|v] s2 H; [|done]. destruct H as (n2 & M2 & H2). exists n2. split; [lia|done].
Qed.

(** Total correctness of [loop]: the bound is never negative, and the fuel
    is above it at the start. *)
Lemma wp_loop_bound {X R} (body : X -> M S (X + R)) (I : Z -> X -> S -> Prop)
    (Q : R -> S -> Prop) E fuel n x s :
  I n x s -> n < Zpos fuel -> (forall n x s, I n x s -> 0 <= n) ->
  (forall n x s, I n x s ->
     wp (body x) (fun r s' => match r with
                              | inl x' => exists n', n' < n /\ I n' x' s'
                              | inr v => Q v s'
                              end) E s) ->
  wp (loop fuel body x) Q E s.
Proof.
  intros HI Hm Hpos Hb. apply wp_bind.
  eapply wp_mono; [by apply (wp_iterate body I Q E fuel n)| |done].
  intros [x'|v] s' H; [|done]. destruct H as (n' & Hd & HI').
  specialize (Hpos _ _ _ HI'). lia.
Qed.

(** The same with a measure on the loop variable and the state. *)
Lemma wp_loop {X R} (body : X -> M S (X + R)) (I : X -> S -> Prop)
    (measure : X -> S -> Z) (Q : R -> S -> Prop) E fuel x s :
  I x s ->
  measure x s < Zpos fuel ->
  (forall x s, I x s -> 0 <= measure x s) ->
  (forall x s, I x s ->
     wp (body x) (fun r s' => match r with
                              | inl x' => I x' s' /\ measure x' s' < measure x s
                              | inr v => Q v s'
                              end) E s) ->
  wp (loop fuel body x) Q E s.
Proof.
  intros HI Hm Hpos Hb.
  apply (wp_loop_bound _ (fun n x s => I x s /\ n = measure x s) _ _ _ (measure x s)); [done|done| |].
  - intros n y t [HI' ->]. by apply Hpos.
  - intros n y t [HI' ->]. eapply wp_mono; [by apply Hb| |done].
    intros [y'|v] t' H; [|done]. destruct H. eauto.
Qed.
End Wp.

Create HintDb pke discriminated.
#[export] Hint Resolve wp_ret wp_halt wp_gets wp_modify : pke.

(** * Lenses

    The state of a component is part of the state of its clients.  A [Lens]
    states that [T] is a part of [S]; [zoom] runs a computation over the part.
    A client uses the theorems of the component through [wp_zoom]. *)
Class Lens (S T : Type) := {
  lget : S -> T;
  lput : T -> S -> S;
  lget_lput : forall t s, lget (lput t s) = t;
  lput_lget : forall s, lput (lget s) s = s;
  lput_lput : forall t t' s, lput t (lput t' s) = lput t s;
}.
Arguments lget {S T _} s.
Arguments lput {S T _} t s.

#[export] Instance lens_id S : Lens S S | 100 :=
  {| lget := fun s => s; lput := fun t _ => t;
     lget_lput := fun _ _ => eq_refl; lput_lget := fun _ => eq_refl;
     lput_lput := fun _ _ _ => eq_refl |}.

(** Two parts of a state that do not overlap. *)
Class LensIndep {S T U} (L1 : Lens S T) (L2 : Lens S U) : Prop := {
  lget_lput_l u s : lget (Lens := L1) (lput (Lens := L2) u s) = lget (Lens := L1) s;
  lget_lput_r t s : lget (Lens := L2) (lput (Lens := L1) t s) = lget (Lens := L2) s;
  lput_lput_comm t u s :
    lput (Lens := L1) t (lput (Lens := L2) u s) = lput (Lens := L2) u (lput (Lens := L1) t s);
}.

Definition lens_comp {S T U} (L1 : Lens S T) (L2 : Lens T U) : Lens S U.
Proof.
  refine {| lget := fun s => @lget T U L2 (@lget S T L1 s);
            lput := fun u s => @lput S T L1 (@lput T U L2 u (@lget S T L1 s)) s |}.
  - intros. by rewrite !lget_lput.
  - intros. by rewrite !lput_lget.
  - intros. by rewrite lget_lput, !lput_lput.
Defined.

Definition zoom {S T A} `{Lens S T} (c : M T A) : M S A :=
  fun s => match c (lget s) with
           | Ok a t => Ok a (lput t s)
           | Stop e t => Stop e (lput t s)
           end.

Lemma wp_zoom {S T A} `{Lens S T} (c : M T A) Q E (s : S) :
  wp c (fun a t => Q a (lput t s)) (fun e t => E e (lput t s)) (lget s) ->
  wp (zoom c) Q E s.
Proof. unfold wp, zoom. destruct (c (lget s)); done. Qed.

Create HintDb lens discriminated.
#[export] Hint Rewrite @lget_lput @lput_lget @lput_lput : lens.

(** * Robust operations

    [keeps R c]: from any state, whatever it holds, [c] returns in a state
    related by [R] to the first one or stops on an error: a panic, a fault, or
    undefined behaviour.  In particular its loops terminate, no assert fails,
    and it does not enter user mode. *)
Definition is_error (e : stop) : Prop :=
  match e with
  | Shutdown code => code = -1
  | BadAccess _ | Undefined => True
  | PowerOff | SRet | OutOfFuel => False
  end.

Definition keeps {S A} (R : relation S) (c : M S A) : Prop :=
  forall s, wp c (fun _ s' => R s s') (fun e _ => is_error e) s.

Section Keeps.
Context {S : Type} (R : relation S) `{!PreOrder R}.

Lemma keeps_ret {A} (a : A) : keeps R (ret a).
Proof. intros s. unfold wp. simpl. reflexivity. Qed.

Lemma keeps_halt {A} e : is_error e -> keeps (A := A) R (halt e).
Proof. by intros H s. Qed.

Lemma keeps_gets {A} (f : S -> A) : keeps R (gets f).
Proof. intros s. unfold wp. simpl. reflexivity. Qed.

Lemma keeps_get_st : keeps R get_st.
Proof. intros s. unfold wp. simpl. reflexivity. Qed.

Lemma keeps_modify f : (forall s, R s (f s)) -> keeps R (modify f).
Proof. intros H s. apply H. Qed.

Lemma keeps_bind {A B} (c : M S A) (f : A -> M S B) :
  keeps R c -> (forall a, keeps R (f a)) -> keeps R (bind c f).
Proof.
  intros Hc Hf s. apply wp_bind. eapply wp_mono; [apply Hc| |done].
  intros a s1 H1. eapply wp_mono; [apply Hf| |done]. intros b s2 H2. etransitivity; [apply H1|apply H2].
Qed.

(** Sequencing through a fact about the first result. *)
Lemma keeps_bind_post {A B} (P : A -> Prop) (c : M S A) (f : A -> M S B) :
  (forall s, wp c (fun a s' => P a /\ R s s') (fun e _ => is_error e) s) ->
  (forall a, P a -> keeps R (f a)) -> keeps R (bind c f).
Proof.
  intros Hc Hf s. apply wp_bind. eapply wp_mono; [apply Hc| |done].
  intros a s1 [Ha H1]. eapply wp_mono; [by apply Hf| |done].
  intros b s2 H2. etransitivity; [apply H1|apply H2].
Qed.

Lemma keeps_for_each {X} (l : list X) (body : X -> M S unit) :
  (forall x, keeps R (body x)) -> keeps R (for_each l body).
Proof.
  intros Hb. induction l as [|x l IH]; [apply keeps_ret|].
  apply keeps_bind; [apply Hb|]. intros _. apply IH.
Qed.

(** A loop whose variable satisfies [I] and has a decreasing [measure]. *)
Lemma keeps_loop {X B} (body : X -> M S (X + B)) (I : X -> Prop) (measure : X -> Z) fuel x :
  I x -> measure x < Zpos fuel -> (forall x, I x -> 0 <= measure x) ->
  (forall x s, I x -> wp (body x) (fun r s' => R s s' /\ match r with
                                   | inl x' => I x' /\ measure x' < measure x
                                   | inr _ => True
                                   end) (fun e _ => is_error e) s) ->
  keeps R (loop fuel body x).
Proof.
  intros HI Hm Hpos Hb s.
  apply (wp_loop _ (fun y s' => I y /\ R s s') (fun y _ => measure y)); [done|done| |].
  - intros y t [Hy _]. by apply Hpos.
  - intros y t [Hy Hr]. eapply wp_mono; [by apply Hb| |done].
    assert (forall t', R t t' -> R s t') as Ht by (intros t' Hr'; etransitivity; [apply Hr|apply Hr']).
    intros [y'|v] t' [Hr' H]; [|by apply Ht].
    destruct H as [HI' Hlt]. split; [split; [done|by apply Ht]|done].
Qed.
End Keeps.

(** A robust step of a run that started in [s0]. *)
Lemma wp_bind_keeps {S A B} (R : relation S) `{!PreOrder R} s0 (c : M S A) (f : A -> M S B)
    (Q : B -> S -> Prop) (E : stop -> S -> Prop) s :
  R s0 s -> keeps R c -> (forall e s', is_error e -> E e s') ->
  (forall a s', R s0 s' -> wp (f a) Q E s') -> wp (bind c f) Q E s.
Proof.
  intros H0 Hc HE Hf. apply wp_bind. eapply wp_mono; [apply Hc| |].
  - intros a s' H. apply Hf. etransitivity; [apply H0|apply H].
  - intros e s' He. by apply HE.
Qed.

Lemma keeps_weaken {S A} (R R' : relation S) (c : M S A) :
  (forall s s', R s s' -> R' s s') -> keeps R c -> keeps R' c.
Proof. intros H Hc s. eapply wp_mono; [apply Hc| |done]. intros a s'. apply H. Qed.

(** [wp_step]: one step of symbolic execution of the first computation of the
    goal, when it is a primitive of the monad. *)
Ltac wp_step :=
  lazymatch goal with
  | |- wp (bind _ _) _ _ _ => apply wp_bind
  | |- wp (ret _) _ _ _ => apply wp_ret
  | |- wp (halt _) _ _ _ => apply wp_halt
  | |- wp (gets _) _ _ _ => apply wp_gets
  | |- wp get_st _ _ _ => apply wp_get_st
  | |- wp (modify _) _ _ _ => apply wp_modify
  | |- wp (if ?b then _ else _) _ _ _ => destruct b eqn:?
  end.
Ltac wp_steps := repeat (wp_step; cbv beta).

(** [spec H]: use the specification [H : wp c _ _ _] for the first
    computation. *)
Tactic Notation "wp_spec" constr(H) := eapply wp_mono; [eapply H| |]; cbv beta.

(** * Generic facts on lists and integers *)

Lemma rounddown_bounds a b : 0 < b -> a / b * b <= a < a / b * b + b.
Proof. intros. pose proof (Z.div_mod a b). pose proof (Z.mod_pos_bound a b). lia. Qed.

Lemma aligned_lt n a b :
  0 < n -> a mod n = 0 -> b mod n = 0 -> a < b -> a + n <= b.
Proof.
  intros Hn Ha Hb Hab.
  apply Z.mod_divide in Ha as [x ->]; [|lia].
  apply Z.mod_divide in Hb as [y ->]; [|lia].
  assert (x + 1 <= y) by nia. nia.
Qed.

Lemma aligned_disjoint n a b :
  0 < n -> a mod n = 0 -> b mod n = 0 -> a <> b -> a + n <= b \/ b + n <= a.
Proof.
  intros Hn Ha Hb Hab. destruct (Z.lt_total a b) as [?|[?|?]]; [left|lia|right];
    by apply aligned_lt.
Qed.

Lemma land_ones_low z n : 0 <= n -> Z.land z (Z.ones n) = z mod 2 ^ n.
Proof. apply Z.land_ones. Qed.

(** [seqZ] under the name used by the loops over array indices. *)
Notation "'range' lo n" := (seqZ lo n) (at level 10, lo at level 9, n at level 9) : pke_scope.
