(* ===== verification/Mem.v ===== *)
(** The machine the kernel runs on: physical memory as a finite map from
    addresses to bytes, the general registers and the CSRs, the two timer
    registers of the CLINT, and the console.  [load] and [store] are the
    accesses of kernel code; an access outside of
    [DRAM_BASE, PHYS_TOP) faults, since this is the range the kernel page table
    maps ([kern_vm_init], kernel/vmm.c).  Bytes never written read as zero. *)
From Stdlib Require Strings.Byte.
From S2P Require Import Prelude.

(** ** Constants: kernel/memlayout.h, kernel/config.h, kernel/riscv.h *)
Definition PGSIZE : Z := 4096.
Definition PGSHIFT : Z := 12.
Definition DRAM_BASE : Z := 0x80000000.
Definition KERN_BASE : Z := 0x80000000.
Definition STACK_SIZE : Z := 4096.
Definition USER_STACK_TOP : Z := 0x7ffff000.
Definition USER_FREE_ADDRESS_START : Z := 0x00000000 + PGSIZE * 1024.
Definition NCPU : Z := 1.
Definition TIMER_INTERVAL : Z := 1000000.
Definition PKE_MAX_ALLOWABLE_RAM : Z := 128 * 1024 * 1024.
Definition PHYS_TOP : Z := DRAM_BASE + PKE_MAX_ALLOWABLE_RAM.

(** [consts]: unfold the constants of the memory layout. *)
Ltac consts :=
  unfold PHYS_TOP, KERN_BASE, DRAM_BASE, PKE_MAX_ALLOWABLE_RAM, PGSIZE, PGSHIFT in *.

(** ** util/functions.h, on 64-bit unsigned operands *)
Definition ROUNDUP (a b : Z) : Z := u64 ((u64 (a - 1) / b + 1) * b).
Definition ROUNDDOWN (a b : Z) : Z := a / b * b.
Definition MAX (a b : Z) : Z := if a >? b then a else b.
Definition MIN (a b : Z) : Z := if a <? b then a else b.

(** ** Byte memory *)
#[export] Instance byte_eq_dec : EqDecision byte := Strings.Byte.byte_eq_dec.

Abbreviation memory := (gmap Z byte).

Fixpoint load_bytes (m : memory) (a : Z) (n : nat) : list byte :=
  match n with
  | O => []
  | S k => default Byte.x00 (m !! a) :: load_bytes m (a + 1) k
  end.

Fixpoint store_bytes (m : memory) (a : Z) (bs : list byte) : memory :=
  match bs with
  | [] => m
  | b :: bs' => <[a := b]> (store_bytes m (a + 1) bs')
  end.

(** Little-endian accesses of [n] bytes. *)
Definition loadn (n : nat) (m : memory) (a : Z) : Z := le_combine (load_bytes m a n).
Definition storen (n : nat) (m : memory) (a v : Z) : memory := store_bytes m a (le_split n v).

Abbreviation ld64 := (loadn 8).
Abbreviation st64 := (storen 8).
Abbreviation ld32 := (loadn 4).
Abbreviation st32 := (storen 4).
Abbreviation ld8 := (loadn 1).
Abbreviation st8 := (storen 1).

(** [same_on lo hi m m']: the two memories agree on [lo, hi). *)
Definition same_on (lo hi : Z) (m m' : memory) : Prop :=
  forall x, lo <= x < hi -> m !! x = m' !! x.

#[export] Instance same_on_equiv lo hi : Equivalence (same_on lo hi).
Proof.
  split.
  - by intros m x Hx.
  - intros m m' H x Hx. symmetry. by apply H.
  - intros m1 m2 m3 H1 H2 x Hx. rewrite H1 by done. by apply H2.
Qed.

Lemma same_on_sub lo hi lo' hi' m m' :
  lo <= lo' -> hi' <= hi -> same_on lo hi m m' -> same_on lo' hi' m m'.
Proof. intros ?? H x Hx. apply H. lia. Qed.

Section Bytes.
Implicit Types (m : memory) (a : Z) (bs : list byte).

Lemma length_load_bytes m a n : length (load_bytes m a n) = n.
Proof. revert a. induction n; intros; simpl; auto. Qed.

Lemma lookup_load_bytes m a n i :
  (i < n)%nat -> load_bytes m a n !! i = Some (default Byte.x00 (m !! (a + Z.of_nat i))).
Proof.
  revert a i. induction n as [|n IH]; intros a i Hi; [lia|]. simpl.
  destruct i as [|i]; simpl; [by rewrite Z.add_0_r|].
  rewrite IH by lia. do 3 f_equal. lia.
Qed.

Lemma lookup_store_bytes m a bs x :
  store_bytes m a bs !! x =
    if decide (a <= x < a + Z.of_nat (length bs))
    then bs !! Z.to_nat (x - a) else m !! x.
Proof.
  revert a. induction bs as [|b bs IH]; intros a; simpl.
  { rewrite decide_False by lia. done. }
  destruct (decide (a = x)) as [->|Hne].
  - rewrite lookup_insert_eq, decide_True by lia. by rewrite Z.sub_diag.
  - rewrite lookup_insert_ne, IH by done.
    destruct (decide (a <= x < a + Z.of_nat (S (length bs)))) as [Hin|Hout].
    + rewrite decide_True by lia.
      replace (Z.to_nat (x - a)) with (S (Z.to_nat (x - (a + 1)))) by lia. done.
    + rewrite decide_False by lia. done.
Qed.

Lemma store_bytes_same_on m a bs lo hi :
  hi <= a \/ a + Z.of_nat (length bs) <= lo ->
  same_on lo hi (store_bytes m a bs) m.
Proof. intros H x Hx. rewrite lookup_store_bytes, decide_False by lia. done. Qed.

Lemma load_bytes_same_on m m' a n :
  same_on a (a + Z.of_nat n) m m' -> load_bytes m a n = load_bytes m' a n.
Proof.
  revert a. induction n as [|n IH]; intros a H; simpl; [done|].
  rewrite (H a) by lia. f_equal. apply IH. eapply same_on_sub, H; lia.
Qed.

Lemma load_store_bytes m a bs : load_bytes (store_bytes m a bs) a (length bs) = bs.
Proof.
  apply list_eq. intros i.
  destruct (decide (i < length bs)%nat) as [Hi|Hi].
  - rewrite lookup_load_bytes, lookup_store_bytes, decide_True by lia.
    replace (Z.to_nat (a + Z.of_nat i - a)) with i by lia.
    destruct (lookup_lt_is_Some_2 bs i Hi) as [b Hb]. by rewrite Hb.
  - rewrite !lookup_ge_None_2; [done| |]; rewrite ?length_load_bytes; lia.
Qed.

Lemma store_bytes_app m a bs bs' :
  store_bytes m a (bs ++ bs') =
  store_bytes (store_bytes m (a + Z.of_nat (length bs)) bs') a bs.
Proof.
  revert a. induction bs as [|b bs IH]; intros a; simpl.
  { by rewrite Z.add_0_r. }
  rewrite IH. do 3 f_equal. lia.
Qed.

Lemma store_bytes_comm m a b bs cs :
  a + Z.of_nat (length bs) <= b \/ b + Z.of_nat (length cs) <= a ->
  store_bytes (store_bytes m a bs) b cs = store_bytes (store_bytes m b cs) a bs.
Proof.
  intros H. apply map_eq. intros x. rewrite !lookup_store_bytes.
  repeat case_decide; done || lia.
Qed.

Lemma load_bytes_app m a n k :
  load_bytes m a (n + k) = load_bytes m a n ++ load_bytes m (a + Z.of_nat n) k.
Proof.
  revert a. induction n as [|n IH]; intros a; simpl; [by rewrite Z.add_0_r|].
  rewrite IH. do 3 f_equal. lia.
Qed.

(** Words. *)
Lemma loadn_range n m a : 0 <= loadn n m a < 2 ^ (8 * Z.of_nat n).
Proof.
  unfold loadn. pose proof (le_combine_bound (load_bytes m a n)) as H.
  by rewrite length_load_bytes in H.
Qed.

Lemma ld64_range m a : 0 <= ld64 m a < 2 ^ 64.
Proof. apply (loadn_range 8). Qed.

Lemma ld32_range m a : 0 <= ld32 m a < 2 ^ 32.
Proof. apply (loadn_range 4). Qed.

Lemma loadn_storen n m a v : loadn n (storen n m a v) a = v mod 2 ^ (8 * Z.of_nat n).
Proof.
  unfold loadn, storen.
  pose proof (load_store_bytes m a (le_split n v)) as H.
  rewrite length_le_split in H. rewrite H, le_combine_split. f_equal. f_equal. lia.
Qed.

Lemma ld64_st64 m a v : ld64 (st64 m a v) a = u64 v.
Proof. apply (loadn_storen 8). Qed.

Lemma ld32_st32 m a v : ld32 (st32 m a v) a = u32 v.
Proof. apply (loadn_storen 4). Qed.

Lemma loadn_same_on n m m' a :
  same_on a (a + Z.of_nat n) m m' -> loadn n m a = loadn n m' a.
Proof. intros H. unfold loadn. by rewrite (load_bytes_same_on m m'). Qed.

Lemma storen_same_on n m a v lo hi :
  hi <= a \/ a + Z.of_nat n <= lo -> same_on lo hi (storen n m a v) m.
Proof. intros H. apply store_bytes_same_on. by rewrite length_le_split. Qed.

Lemma loadn_storen_ne n k m a b v :
  a + Z.of_nat n <= b \/ b + Z.of_nat k <= a ->
  loadn k (storen n m a v) b = loadn k m b.
Proof. intros H. apply loadn_same_on, storen_same_on. lia. Qed.

Lemma storen_loadn n m a :
  (forall i, a <= i < a + Z.of_nat n -> is_Some (m !! i)) ->
  storen n m a (loadn n m a) = m.
Proof.
  intros Hdef. unfold storen, loadn.
  rewrite split_le_combine' by apply length_load_bytes.
  apply map_eq. intros x. rewrite lookup_store_bytes, length_load_bytes.
  case_decide as Hx; [|done].
  rewrite lookup_load_bytes by lia.
  replace (a + Z.of_nat (Z.to_nat (x - a))) with x by lia.
  destruct (Hdef x Hx) as [b Hb]. by rewrite Hb.
Qed.
End Bytes.

(** ** The machine *)

(** CSRs are named by their number (the RISC-V privileged architecture). *)
Definition sstatus : Z := 0x100.
Definition sie : Z := 0x104.
Definition stvec : Z := 0x105.
Definition sscratch : Z := 0x140.
Definition sepc : Z := 0x141.
Definition scause : Z := 0x142.
Definition stval : Z := 0x143.
Definition sip : Z := 0x144.
Definition satp : Z := 0x180.
Definition mstatus : Z := 0x300.
Definition misa : Z := 0x301.
Definition medeleg : Z := 0x302.
Definition mideleg : Z := 0x303.
Definition mie : Z := 0x304.
Definition mtvec : Z := 0x305.
Definition mscratch : Z := 0x340.
Definition mepc : Z := 0x341.
Definition mcause : Z := 0x342.
Definition mtval : Z := 0x343.

Record machine := Machine {
  mem : memory;
  gpr : list Z;              (* ra sp gp tp t0 .. t6, in the order of riscv_regs *)
  csrs : gmap Z Z;
  mtime : Z;                 (* CLINT_MTIME *)
  mtimecmp : Z;              (* CLINT_MTIMECMP(0) *)
  console : list (list byte) (* the writes to stderr, oldest first *)
}.

Definition set_mem (m : memory) (k : machine) : machine :=
  Machine m (gpr k) (csrs k) (mtime k) (mtimecmp k) (console k).
Definition set_gpr (g : list Z) (k : machine) : machine :=
  Machine (mem k) g (csrs k) (mtime k) (mtimecmp k) (console k).
Definition set_csrs (c : gmap Z Z) (k : machine) : machine :=
  Machine (mem k) (gpr k) c (mtime k) (mtimecmp k) (console k).
Definition set_mtimecmp (t : Z) (k : machine) : machine :=
  Machine (mem k) (gpr k) (csrs k) (mtime k) t (console k).
Definition set_console (c : list (list byte)) (k : machine) : machine :=
  Machine (mem k) (gpr k) (csrs k) (mtime k) (mtimecmp k) c.

Definition csr (c : Z) (k : machine) : Z := default 0 (csrs k !! c).

(** An access of [n] bytes at [a] in the range mapped for the kernel. *)
Definition ram_ok (a n : Z) : bool := (DRAM_BASE <=? a) && (a + n <=? PHYS_TOP).

Section Access.
Context {S : Type} `{L : !Lens S machine}.
Implicit Types s : S.

Definition smem s : memory := mem (lget s).
Definition put_mem (m : memory) s : S := lput (set_mem m (lget s)) s.

Definition load (n : nat) (a : Z) : M S Z :=
  fun s => if ram_ok a (Z.of_nat n) then Ok (loadn n (smem s) a) s
           else Stop (BadAccess a) s.

Definition store (n : nat) (a v : Z) : M S unit :=
  fun s => if ram_ok a (Z.of_nat n) then Ok tt (put_mem (storen n (smem s) a v) s)
           else Stop (BadAccess a) s.

Definition read_csr (c : Z) : M S Z := gets (fun s => csr c (lget s)).
Definition put_csr (c v : Z) s : S :=
  lput (set_csrs (<[c := u64 v]> (csrs (lget s))) (lget s)) s.
Definition write_csr (c v : Z) : M S unit := modify (put_csr c v).

Lemma smem_put_mem m s : smem (put_mem m s) = m.
Proof. unfold smem, put_mem. by rewrite lget_lput. Qed.

Lemma put_mem_put_mem m m' s : put_mem m (put_mem m' s) = put_mem m s.
Proof. unfold put_mem. by rewrite lget_lput, lput_lput. Qed.

Lemma put_mem_smem s : put_mem (smem s) s = s.
Proof.
  unfold put_mem, smem. destruct (lget s) eqn:Hs. unfold set_mem. simpl.
  rewrite <- Hs. apply lput_lget.
Qed.

Lemma wp_load n a Q E s :
  ram_ok a (Z.of_nat n) = true -> Q (loadn n (smem s) a) s -> wp (load n a) Q E s.
Proof. unfold wp, load. by intros ->. Qed.

Lemma wp_store n a v Q E s :
  ram_ok a (Z.of_nat n) = true ->
  Q tt (put_mem (storen n (smem s) a v) s) -> wp (store n a v) Q E s.
Proof. unfold wp, store. by intros ->. Qed.

Lemma wp_read_csr c Q E s : Q (csr c (lget s)) s -> wp (read_csr c) Q E s.
Proof. done. Qed.

Lemma wp_write_csr c v Q E s : Q tt (put_csr c v s) -> wp (write_csr c v) Q E s.
Proof. done. Qed.
End Access.

Abbreviation load64 := (load 8).
Abbreviation store64 := (store 8).
Abbreviation load32 := (load 4).
Abbreviation store32 := (store 4).
Abbreviation load8 := (load 1).
Abbreviation store8 := (store 1).

#[global] Hint Rewrite @smem_put_mem @put_mem_put_mem : lens.

Lemma ram_ok_iff a n : ram_ok a n = true <-> DRAM_BASE <= a /\ a + n <= PHYS_TOP.
Proof. unfold ram_ok. rewrite andb_true_iff, !Z.leb_le. done. Qed.

(** ** Pages *)
Definition page_aligned (p : Z) : Prop := p mod PGSIZE = 0.

(** A page of physical memory the kernel can access. *)
Definition ram_page (p : Z) : Prop :=
  page_aligned p /\ DRAM_BASE <= p /\ p + PGSIZE <= PHYS_TOP.

(** [same_page p m m']: the memories agree on the page at [p]. *)
Notation same_page p := (same_on p (p + PGSIZE)).

Lemma page_disjoint p q :
  page_aligned p -> page_aligned q -> p <> q -> p + PGSIZE <= q \/ q + PGSIZE <= p.
Proof. apply aligned_disjoint. done. Qed.

Lemma ram_page_ok p o n :
  ram_page p -> 0 <= o -> o + n <= PGSIZE -> ram_ok (p + o) n = true.
Proof. intros (_ & ? & ?) ??. apply ram_ok_iff. lia. Qed.

Lemma ROUNDUP_aligned a :
  page_aligned a -> 0 < a < 2 ^ 64 -> ROUNDUP a PGSIZE = a.
Proof.
  unfold page_aligned, ROUNDUP, PGSIZE. intros Ha Hr.
  rewrite (u64_small (a - 1)) by lia.
  replace (((a - 1) / 4096 + 1) * 4096) with a by dlia.
  by apply u64_small; lia.
Qed.

Lemma ROUNDDOWN_page a : page_aligned (ROUNDDOWN a PGSIZE).
Proof. apply Z_mod_mult. Qed.

Lemma ROUNDDOWN_aligned a : page_aligned a -> ROUNDDOWN a PGSIZE = a.
Proof. unfold page_aligned, ROUNDDOWN, PGSIZE. intros. dlia. Qed.

(** ** Linker symbols

    The addresses that kernel/kernel.lds and the assembly files define are
    chosen by the linker: parameters of the model. *)
Class Layout := {
  _end : Z;                    (* end of the kernel image *)
  _etext : Z;                  (* end of text and rodata *)
  trap_sec_start : Z;          (* the page of the S-mode trap vector *)
  smode_trap_vector : Z;       (* entry of the trap vector *)
  smode_trap_handler_addr : Z; (* address of smode_trap_handler() *)
}.

(** What kernel.lds guarantees: the sections follow each other from
    [KERN_BASE], each aligned to a page, and the image fits the memory the
    kernel manages. *)
Class LayoutOk (K : Layout) := {
  etext_page : page_aligned _etext;
  end_page : page_aligned _end;
  trap_sec_page : page_aligned trap_sec_start;
  trap_sec_range : KERN_BASE <= trap_sec_start /\ trap_sec_start + PGSIZE <= _etext;
  etext_end : _etext <= _end;
  end_top : _end < PHYS_TOP;
}.
