(* ===== verification/Context.v ===== *)
(** kernel/strap_vector.S and util/load_store.S: the code between user mode and
    the kernel.  [smode_trap_vector] saves the registers of the user in the
    trap frame that sscratch points to and moves to the kernel stack and page
    table; [return_to_user] goes the other way.  Both run while satp holds the
    user page table, which maps the trap frame and the trap section at their
    own addresses (alloc_process); the accesses of the model are made at these
    addresses. *)
From S2P Require Import Prelude Mem.

(** Places in struct riscv_regs of the registers the code names. *)
Definition r_sp : nat := 1.
Definition r_t0 : nat := 4.
Definition r_t1 : nat := 5.
Definition r_a0 : nat := 9.
Definition r_t6 : nat := 30.

Lemma take_S_insert {A} (l : list A) i v :
  (i < length l)%nat -> take (S i) (<[i := v]> l) = take i l ++ [v].
Proof.
  intros Hi. rewrite (take_S_r _ _ v) by (by apply list_lookup_insert_eq).
  by rewrite take_insert_ge by lia.
Qed.

Section Context.
Context {S : Type} `{L : !Lens S machine}.
Implicit Types s : S.

(** ** The code *)

Definition get_reg (r : nat) : M S Z := gets (fun s => default 0 (gpr (lget s) !! r)).
Definition put_gpr (g : list Z) s : S := lput (set_gpr g (lget s)) s.
Definition set_reg (r : nat) (v : Z) : M S unit :=
  modify (fun s => put_gpr (<[r := v]> (gpr (lget s))) s).

Definition store_all_registers : M S unit :=
  for_each (seq 0 31) (fun r =>
    t6 <- get_reg r_t6 ;;
    v <- get_reg r ;;
    store64 (t6 + 8 * Z.of_nat r) v).

(** t6 holds the base and is loaded last. *)
Definition restore_all_registers : M S unit :=
  for_each (seq 0 31) (fun r =>
    t6 <- get_reg r_t6 ;;
    v <- load64 (t6 + 8 * Z.of_nat r) ;;
    set_reg r v).

(** The result is the address [jr t0] jumps to. *)
Definition smode_trap_vector_code : M S Z :=
  (* csrrw a0, sscratch, a0 *)
  a0 <- get_reg r_a0 ;;
  k <- read_csr sscratch ;;
  write_csr sscratch a0 ;;;
  set_reg r_a0 k ;;;
  (* addi t6, a0, 0 *)
  a0 <- get_reg r_a0 ;;
  set_reg r_t6 a0 ;;;
  store_all_registers ;;;
  (* csrr t0, sscratch; sd t0, 72(a0) *)
  v <- read_csr sscratch ;;
  set_reg r_t0 v ;;;
  a0 <- get_reg r_a0 ;;
  store64 (a0 + 72) v ;;;
  (* ld sp, 248(a0); ld t0, 256(a0); ld t1, 272(a0) *)
  v <- load64 (a0 + 248) ;;
  set_reg r_sp v ;;;
  v <- load64 (a0 + 256) ;;
  set_reg r_t0 v ;;;
  v <- load64 (a0 + 272) ;;
  set_reg r_t1 v ;;;
  (* csrw satp, t1 *)
  write_csr satp v ;;;
  get_reg r_t0.

Definition return_to_user {A} (a0 a1 : Z) : M S A :=
  write_csr satp a1 ;;;
  write_csr sscratch a0 ;;;
  set_reg r_t6 a0 ;;;
  restore_all_registers ;;;
  halt SRet.

(** ** Specifications *)

(** The registers saved in the trap frame at [tf]. *)
Definition saved_regs (m : memory) (tf : Z) : list Z :=
  map (fun r => ld64 m (tf + 8 * Z.of_nat r)) (seq 0 31).

(** Memory after the registers [g] from [r] on have been saved. *)
Fixpoint save_regs (m : memory) (tf : Z) (r : nat) (g : list Z) : memory :=
  match g with
  | [] => m
  | v :: g' => save_regs (st64 m (tf + 8 * Z.of_nat r) v) tf (r + 1) g'
  end.

Lemma put_gpr_put_gpr g g' s : put_gpr g (put_gpr g' s) = put_gpr g s.
Proof. unfold put_gpr. autorewrite with lens. done. Qed.

Lemma gpr_put_gpr g s : gpr (lget (put_gpr g s)) = g.
Proof. unfold put_gpr. by autorewrite with lens. Qed.

Lemma smem_put_gpr g s : smem (put_gpr g s) = smem s.
Proof. unfold smem, put_gpr. by autorewrite with lens. Qed.

Lemma put_gpr_gpr s : put_gpr (gpr (lget s)) s = s.
Proof. unfold put_gpr. transitivity (lput (lget s) s); [|by apply lput_lget]. by destruct (lget s). Qed.

Lemma gpr_put_mem m s : gpr (lget (put_mem m s)) = gpr (lget s).
Proof. unfold put_mem. by autorewrite with lens. Qed.

Lemma csr_put_mem c m s : csr c (lget (put_mem m s)) = csr c (lget s).
Proof. unfold put_mem. by autorewrite with lens. Qed.

Lemma csr_put_gpr c g s : csr c (lget (put_gpr g s)) = csr c (lget s).
Proof. unfold put_gpr. by autorewrite with lens. Qed.

(** A frame of registers the kernel can access. *)
Definition frame_ok (tf : Z) : Prop := DRAM_BASE <= tf /\ tf + 280 <= PHYS_TOP.

Lemma ram_page_frame tf : ram_page tf -> frame_ok tf.
Proof. intros (_ & ? & ?). split; [done|]. consts. lia. Qed.

Lemma frame_slot tf o : frame_ok tf -> 0 <= o <= 272 -> ram_ok (tf + o) (Z.of_nat 8) = true.
Proof. intros [? ?] ?. apply ram_ok_iff. lia. Qed.

Lemma tf_slot tf o : ram_page tf -> 0 <= o <= 272 -> ram_ok (tf + o) (Z.of_nat 8) = true.
Proof. intros. by apply frame_slot; [apply ram_page_frame|]. Qed.

(** Storing the registers from [r] on; the base is not among those changed. *)
Lemma store_regs_spec n : forall r g s tf,
  (r + n = 31)%nat -> length g = 31%nat -> gpr (lget s) = g -> g !! r_t6 = Some tf ->
  frame_ok tf ->
  for_each (seq r n) (fun r => t6 <- get_reg r_t6 ;; v <- get_reg r ;;
                               store64 (t6 + 8 * Z.of_nat r) v) s =
  Ok tt (put_mem (save_regs (smem s) tf r (drop r g)) s).
Proof.
  induction n as [|n IH]; intros r g s tf Hr Hg Hs Ht Htf.
  { rewrite drop_ge by lia. simpl. by rewrite put_mem_smem. }
  cbn [seq for_each]. destruct (lookup_lt_is_Some_2 g r) as [v Hv]; [lia|].
  eapply bind_ok.
  { do 2 (eapply bind_ok; [done|]). rewrite Hs, Ht, Hv. simpl default. unfold store.
    by rewrite frame_slot by (done || lia). }
  erewrite (drop_S g v r) by done. cbn [save_regs]. rewrite Nat.add_1_r.
  rewrite (IH (Datatypes.S r) g _ tf) by (rewrite ?gpr_put_mem; (done || lia)).
  by rewrite smem_put_mem, put_mem_put_mem.
Qed.

Lemma restore_regs_spec n : forall r g s tf,
  (r + n = 31)%nat -> length g = 31%nat -> gpr (lget s) = g -> g !! r_t6 = Some tf ->
  frame_ok tf ->
  for_each (seq r n) (fun r => t6 <- get_reg r_t6 ;; v <- load64 (t6 + 8 * Z.of_nat r) ;;
                               set_reg r v) s =
  Ok tt (put_gpr (take r g ++ map (fun r => ld64 (smem s) (tf + 8 * Z.of_nat r)) (seq r n)) s).
Proof.
  induction n as [|n IH]; intros r g s tf Hr Hg Hs Ht Htf.
  { rewrite take_ge by lia. simpl. rewrite app_nil_r, <- Hs. by rewrite put_gpr_gpr. }
  cbn [seq for_each map]. set (v := ld64 (smem s) (tf + 8 * Z.of_nat r)).
  eapply bind_ok.
  { eapply bind_ok; [done|]. rewrite Hs, Ht. simpl default. unfold bind, load.
    by rewrite frame_slot by (done || lia). }
  rewrite Hs. fold v. assert (r < length g)%nat as Hlt by lia.
  destruct n as [|n].
  { simpl. by rewrite insert_take_drop, (drop_ge g (Datatypes.S r)) by lia. }
  rewrite (IH (Datatypes.S r) (<[r := v]> g) _ tf).
  - rewrite put_gpr_put_gpr, smem_put_gpr. do 2 f_equal.
    by rewrite take_S_insert, <- app_assoc by lia.
  - lia.
  - by rewrite length_insert.
  - by rewrite gpr_put_gpr.
  - rewrite list_lookup_insert_ne by (unfold r_t6; lia). done.
  - done.
Qed.

Lemma saved_regs_lookup m tf r : (r < 31)%nat ->
  saved_regs m tf !! r = Some (ld64 m (tf + 8 * Z.of_nat r)).
Proof.
  intros Hr. unfold saved_regs. rewrite list_lookup_fmap, lookup_seq_lt by done. done.
Qed.

Lemma length_saved_regs m tf : length (saved_regs m tf) = 31%nat.
Proof. done. Qed.

Lemma saved_regs_st64 m tf r v : (r < 31)%nat ->
  saved_regs (st64 m (tf + 8 * Z.of_nat r) v) tf = <[r := u64 v]> (saved_regs m tf).
Proof.
  intros Hr. apply (list_eq_same_length _ _ 31%nat); [by rewrite length_insert|done|].
  intros i x y Hi. rewrite saved_regs_lookup by done. destruct (decide (i = r)) as [->|Hne].
  - rewrite list_lookup_insert_eq by done. rewrite ld64_st64. congruence.
  - rewrite list_lookup_insert_ne, saved_regs_lookup by done.
    rewrite loadn_storen_ne by lia. congruence.
Qed.

Lemma saved_regs_save g : forall m tf r,
  (r + length g = 31)%nat ->
  saved_regs (save_regs m tf r g) tf = take r (saved_regs m tf) ++ (u64 <$> g).
Proof.
  induction g as [|v g IH]; intros m tf r Hr; cbn [save_regs]; rewrite ?fmap_cons.
  { simpl in Hr. rewrite take_ge by (rewrite length_saved_regs; lia). by rewrite app_nil_r. }
  simpl length in Hr. rewrite IH, saved_regs_st64 by lia.
  by rewrite Nat.add_1_r, take_S_insert, <- app_assoc by (rewrite length_saved_regs; lia).
Qed.

(** The frame at the end of the saving code: all the registers [g], but the
    address of the frame for t6. *)
Lemma saved_frame m tf g :
  length g = 31%nat ->
  let g1 := <[r_t6 := tf]> (<[r_a0 := tf]> g) in
  saved_regs (st64 (save_regs m tf 0 g1) (tf + 72) (u64 (default 0 (g !! r_a0)))) tf =
  u64 <$> <[r_t6 := tf]> g.
Proof.
  intros Hlen g1. assert (length g1 = 31%nat) as Hlen1 by (unfold g1; by rewrite !length_insert).
  change 72 with (8 * Z.of_nat r_a0). rewrite saved_regs_st64 by (unfold r_a0; lia).
  rewrite saved_regs_save by (rewrite Hlen1; lia). simpl take. rewrite app_nil_l.
  unfold g1. rewrite !list_fmap_insert, list_insert_insert_ne, list_insert_insert_eq by done.
  f_equal. rewrite (u64_small (u64 _)) by apply u64_range. apply list_insert_id.
  rewrite list_lookup_fmap.
  destruct (lookup_lt_is_Some_2 g r_a0) as [v Hv]; [rewrite Hlen; unfold r_a0; lia|by rewrite Hv].
Qed.

Lemma save_regs_same_on g : forall m tf r lo hi,
  tf + 8 * Z.of_nat (r + length g) <= lo \/ hi <= tf ->
  same_on lo hi (save_regs m tf r g) m.
Proof.
  induction g as [|v g IH]; intros m tf r lo hi H; [done|]. cbn [save_regs].
  simpl length in H. etransitivity; [apply IH; lia|]. apply storen_same_on. lia.
Qed.

Lemma smem_put_csr c v s : smem (put_csr c v s) = smem s.
Proof. unfold smem, put_csr. by autorewrite with lens. Qed.

Lemma gpr_put_csr c v s : gpr (lget (put_csr c v s)) = gpr (lget s).
Proof. unfold put_csr. by autorewrite with lens. Qed.

Lemma csr_put_csr c c' v s :
  csr c (lget (put_csr c' v s)) = if c =? c' then u64 v else csr c (lget s).
Proof.
  unfold csr, put_csr. autorewrite with lens. simpl.
  destruct (Z.eqb_spec c c') as [->|Hne]; [by rewrite lookup_insert_eq|].
  by rewrite lookup_insert_ne.
Qed.
End Context.

#[export] Hint Rewrite @smem_put_csr @smem_put_gpr @gpr_put_csr @gpr_put_gpr @gpr_put_mem
  @csr_put_mem @csr_put_gpr @csr_put_csr @length_insert @put_gpr_put_gpr : lens.

(** [csimp]: read back what has been written to the machine. *)
Ltac csimp :=
  autorewrite with lens;
  repeat match goal with
  | |- context [?a =? ?b] =>
      is_const a; is_const b;
      let r := eval vm_compute in (a =? b) in change (a =? b) with r
  end; cbv iota.

(** [cstep]: execute one access to the machine. *)
Ltac cstep :=
  first [eapply wp_bind_ok | eapply bind_ok];
    [first [reflexivity | unfold load, store; rewrite tf_slot by (done || lia); reflexivity]|];
  cbv beta.

Section Trap.
Context {S : Type} `{L : !Lens S machine}.
Implicit Types s : S.

(** What the vector saves: every register of the user but t6, whose place
    holds the address of the trap frame. *)
Lemma smode_trap_vector_spec s g tf :
  gpr (lget s) = g -> length g = 31%nat -> csr sscratch (lget s) = tf -> ram_page tf ->
  wp smode_trap_vector_code (fun r s' =>
    r = ld64 (smem s) (tf + 256) /\
    saved_regs (smem s') tf = u64 <$> <[r_t6 := tf]> g /\
    (forall lo hi, tf + 248 <= lo \/ hi <= tf -> same_on lo hi (smem s') (smem s)) /\
    csr satp (lget s') = ld64 (smem s) (tf + 272) /\
    gpr (lget s') !! r_sp = Some (ld64 (smem s) (tf + 248)) /\
    length (gpr (lget s')) = 31%nat /\ s' = lput (lget s' : machine) s /\
    Mem.console (lget s') = Mem.console (lget s) /\
    forall c, c <> satp -> c <> sscratch -> csr c (lget s') = csr c (lget s)) never s.
Proof.
  intros Hg Hlen Htf Hp. unfold smode_trap_vector_code.
  do 6 cstep. autorewrite with lens. rewrite Hg, Htf.
  rewrite list_lookup_insert_eq by (rewrite Hlen; unfold r_a0; lia). simpl default.
  set (a0 := default 0 (g !! r_a0)). set (g1 := <[r_t6 := tf]> (<[r_a0 := tf]> g)).
  assert (length g1 = 31%nat) as Hlen1 by (unfold g1; by rewrite !length_insert).
  eapply wp_bind_ok.
  { unfold store_all_registers. apply (store_regs_spec 31 0 g1 _ tf); try done; [| |by apply ram_page_frame].
    - by autorewrite with lens.
    - apply list_lookup_insert_eq. rewrite length_insert, Hlen. unfold r_t6. lia. }
  cbv beta. rewrite drop_0. autorewrite with lens.
  assert (<[r_t0 := u64 a0]> g1 !! r_a0 = Some tf) as Ha0.
  { unfold g1. rewrite !list_lookup_insert_ne by done.
    apply list_lookup_insert_eq. rewrite Hlen. unfold r_a0. lia. }
  do 3 cstep. csimp. rewrite Ha0. simpl default.
  cstep. autorewrite with lens.
  set (m1 := save_regs (smem s) tf 0 g1). set (m2 := st64 m1 (tf + 72) (u64 a0)).
  assert (forall lo hi, tf + 248 <= lo \/ hi <= tf -> same_on lo hi m2 (smem s)) as Hm2.
  { intros lo hi Ho. transitivity m1; [apply storen_same_on; lia|].
    apply save_regs_same_on. rewrite Hlen1. lia. }
  do 7 cstep. autorewrite with lens. rewrite !(loadn_same_on 8 m2 (smem s)) by (apply Hm2; lia).
  apply wp_gets. csimp.
  split_and!.
  - rewrite list_lookup_insert_ne, list_lookup_insert_eq; [done| |done].
    rewrite !length_insert, Hlen1. unfold r_t0. lia.
  - by apply saved_frame.
  - done.
  - apply u64_small, ld64_range.
  - do 2 rewrite list_lookup_insert_ne by done. rewrite list_lookup_insert_eq; [done|].
    rewrite !length_insert, Hlen1. unfold r_sp. lia.
  - by rewrite ?length_insert.
  - unfold put_gpr, put_csr, put_mem. autorewrite with lens. done.
  - unfold put_gpr, put_csr, put_mem. by autorewrite with lens.
  - intros c H1 H2. autorewrite with lens. by rewrite (proj2 (Z.eqb_neq _ _) H1), (proj2 (Z.eqb_neq _ _) H2).
Qed.

(** The words of the frame are the registers themselves. *)
Lemma u64_regs g : Forall (fun v => 0 <= v < 2 ^ 64) g -> u64 <$> g = g.
Proof.
  induction 1 as [|v g Hv _ IH]; [done|]. rewrite fmap_cons, IH. by rewrite u64_small.
Qed.

Lemma u64_frame g tf :
  Forall (fun v => 0 <= v < 2 ^ 64) g -> ram_page tf ->
  u64 <$> <[r_t6 := tf]> g = <[r_t6 := tf]> g.
Proof.
  intros Hg (_ & ? & ?). apply u64_regs, Forall_insert; [done|]. consts. lia.
Qed.

(** The way back: the registers of the trap frame. *)
Lemma return_to_user_spec {A} tf usatp s :
  ram_page tf -> length (gpr (lget s)) = 31%nat ->
  @return_to_user _ _ A tf usatp s =
    Stop SRet (put_gpr (saved_regs (smem s) tf) (put_csr sscratch tf (put_csr satp usatp s))).
Proof.
  intros Hp Hlen. unfold return_to_user. do 3 cstep. autorewrite with lens.
  eapply bind_ok.
  { unfold restore_all_registers.
    apply (restore_regs_spec 31 0 (<[r_t6 := tf]> (gpr (lget s))) _ tf); try done;
      [| | |by apply ram_page_frame].
    - by rewrite length_insert.
    - by autorewrite with lens.
    - apply list_lookup_insert_eq. rewrite Hlen. unfold r_t6. lia. }
  cbv beta. rewrite take_0. autorewrite with lens. done.
Qed.
End Trap.

(** * Properties *)

(** C23. Save and restore: when a trap interrupts a user whose registers are [g]
    and the kernel leaves the register part of the trap frame alone,
    return_to_user enters user mode with the same registers, all but t6: the
    vector uses t6 before it is saved, so the user finds the address of the
    trap frame in it. *)
Theorem trap_preserves_registers {S} `{L : !Lens S machine} {A} (s : S) g tf usatp :
  gpr (lget s) = g -> length g = 31%nat -> Forall (fun v => 0 <= v < 2 ^ 64) g ->
  csr sscratch (lget s) = tf -> ram_page tf ->
  wp smode_trap_vector_code (fun r s' => forall s'' : S,
    same_on tf (tf + 248) (smem s') (smem s'') -> length (gpr (lget s'')) = 31%nat ->
    exists u, @return_to_user _ _ A tf usatp s'' = Stop SRet u /\
      gpr (lget u) = <[r_t6 := tf]> g) never s.
Proof.
  intros Hg Hlen Hr Hs Hp. eapply wp_mono; [by apply (smode_trap_vector_spec s g tf)| |done].
  intros r s' (_ & Hsv & _) s'' Hsame Hlen''. eexists.
  split; [by apply return_to_user_spec|]. rewrite gpr_put_gpr.
  transitivity (saved_regs (smem s') tf).
  - apply map_ext_in. intros i Hi. apply in_seq in Hi. apply loadn_same_on.
    symmetry. eapply same_on_sub; [| |exact Hsame]; lia.
  - by rewrite Hsv, u64_frame.
Qed.
