(* ===== verification/CString.v ===== *)
(** util/string.c: the memory and string routines of the kernel, as loops over
    the machine's memory, and their specifications as whole-range operations
    on bytes.  [memcpy] and [memset] choose between a loop on 64-bit words and
    a loop on bytes; their theorems say that the choice is not observable. *)
From S2P Require Import Prelude Mem.

Section CString.
Context {S : Type} `{L : !Lens S machine}.
Implicit Types s : S.

(** ** The code *)

(** memcpy: [d] and [s] advance by words while both pointers are word
    aligned and a whole word is left, then by bytes. *)
Definition memcpy_words (dest src len : Z) : M S (Z * Z) :=
  loop (Z.to_pos (len + 1)) (fun '(d, s) =>
    if d <? dest + len - (8 - 1) then
      w <- load64 s ;;
      store64 d w ;;;
      ret (inl (d + 8, s + 8))
    else ret (inr (d, s))) (dest, src).

Definition memcpy_bytes (dest len d0 s0 : Z) : M S unit :=
  loop (Z.to_pos (len + 1)) (fun '(d, s) =>
    if d <? dest + len then
      c <- load8 s ;;
      store8 d c ;;;
      ret (inl (d + 1, s + 1))
    else ret (inr tt)) (d0, s0).

Definition memcpy (dest src len : Z) : M S Z :=
  ds <- (if Z.land (Z.lor dest src) (8 - 1) =? 0
         then memcpy_words dest src len
         else ret (dest, src)) ;;
  memcpy_bytes dest len (fst ds) (snd ds) ;;;
  ret dest.

(** The word made of eight copies of the low byte of [byte]. *)
Definition memset_word (byte : Z) : Z :=
  let word := Z.land byte 0xFF in
  let word := Z.lor word (u64 (Z.shiftl word 8)) in
  let word := Z.lor word (u64 (Z.shiftl word 16)) in
  Z.lor word (u64 (Z.shiftl (u64 (Z.shiftl word 16)) 16)).

(** The two loops of memset: stores of [n] bytes of [v] from [dest]. *)
Definition memset_loop (n : nat) (dest len v : Z) : M S unit :=
  loop (Z.to_pos (len + 1)) (fun d =>
    if d <? dest + len then
      store n d v ;;;
      ret (inl (d + Z.of_nat n))
    else ret (inr tt)) dest.

Definition memset (dest byte len : Z) : M S Z :=
  (if Z.land (Z.lor dest len) (8 - 1) =? 0
   then memset_loop 8 dest len (memset_word byte)
   else memset_loop 1 dest len byte) ;;;
  ret dest.

(** The loops over strings end at a NUL, or fault at the end of memory. *)
Definition str_fuel (p : Z) : positive := Z.to_pos (PHYS_TOP - p + 1).

Definition strlen (str : Z) : M S Z :=
  p <- loop (str_fuel str) (fun p =>
         c <- load8 p ;;
         if c =? 0 then ret (inr p) else ret (inl (p + 1))) str ;;
  ret (p - str).

Definition strcmp (str1 str2 : Z) : M S Z :=
  loop (str_fuel str1) (fun '(s1, s2) =>
    c1 <- load8 s1 ;;
    c2 <- load8 s2 ;;
    if negb (c1 =? 0) && (c1 =? c2) then ret (inl (s1 + 1, s2 + 1))
    else ret (inr (c1 - c2))) (str1, str2).

Definition strcpy (dest src : Z) : M S Z :=
  loop (str_fuel src) (fun '(d, s) =>
    c <- load8 s ;;
    store8 d c ;;;
    if c =? 0 then ret (inr dest) else ret (inl (d + 1, s + 1))) (dest, src).

(** [long] arithmetic: overflow is undefined. *)
Definition long_op (z : Z) : M S Z :=
  if (- 2 ^ 63 <=? z) && (z <? 2 ^ 63) then ret z else halt Undefined.

Definition atol_spaces (str : Z) : M S Z :=
  loop (str_fuel str) (fun p =>
    c <- load8 p ;;
    if c =? 32 then ret (inl (p + 1)) else ret (inr p)) str.

Definition atol_digits (str : Z) : M S Z :=
  loop (str_fuel str) (fun '(p, res) =>
    c <- load8 p ;;
    if c =? 0 then ret (inr res)
    else
      res <- long_op (res * 10) ;;
      res <- long_op (res + (c - 48)) ;;
      ret (inl (p + 1, res))) (str, 0).

Definition atol (str : Z) : M S Z :=
  str <- atol_spaces str ;;
  c <- load8 str ;;
  let sign := c =? 45 in
  res <- (if (c =? 45) || (c =? 43) then atol_digits (str + 1) else atol_digits str) ;;
  if sign then long_op (- res) else ret res.

(** The two loops of memmove: from the end of the ranges, and from their
    beginning. *)
Definition memmove_down (d s n : Z) : M S unit :=
  loop (Z.to_pos (n + 1)) (fun '(d, s, n) =>
    if 0 <? n then
      c <- load8 (s - 1) ;;
      store8 (d - 1) c ;;;
      ret (inl (d - 1, s - 1, n - 1))
    else ret (inr tt)) (d, s, n).

Definition memmove_up (d s n : Z) : M S unit :=
  loop (Z.to_pos (n + 1)) (fun '(d, s, n) =>
    if 0 <? n then
      c <- load8 s ;;
      store8 d c ;;;
      ret (inl (d + 1, s + 1, n - 1))
    else ret (inr tt)) (d, s, n).

Definition memmove (dst src n : Z) : M S Z :=
  (if (src <? dst) && (dst <? src + n)
   then memmove_down (dst + n) (src + n) n
   else memmove_up dst src n) ;;;
  ret dst.

(** safestrcpy: [--n > 0 && ( *s++ = *t++) != 0]; when the copy stops on a
    NUL, [s] has moved past it and the final store writes one more zero. *)
Definition safestrcpy (os t n : Z) : M S Z :=
  if n <=? 0 then ret os
  else
    s <- loop (Z.to_pos (n + 1)) (fun '(s, t, n) =>
           let n := n - 1 in
           if 0 <? n then
             c <- load8 t ;;
             store8 s c ;;;
             if c =? 0 then ret (inr (s + 1)) else ret (inl (s + 1, t + 1, n))
           else ret (inr s)) (os, t, n) ;;
    store8 s 0 ;;;
    ret os.
End CString.

(** ** Specifications *)

(** The range [a, a+n) can be accessed by the kernel. *)
Definition ram_range (a n : Z) : Prop := DRAM_BASE <= a /\ a + n <= PHYS_TOP.

(** The bytes [bs], without NUL, then a NUL, lie at [a]. *)
Definition cstr (m : memory) (a : Z) (bs : list byte) : Prop :=
  Byte.x00 ∉ bs /\ load_bytes m a (length bs + 1) = bs ++ [Byte.x00].

Lemma store_bytes_snoc m a bs cs b :
  b = a + Z.of_nat (length bs) ->
  store_bytes (store_bytes m a bs) b cs = store_bytes m a (bs ++ cs).
Proof. intros ->. rewrite store_bytes_app. apply store_bytes_comm. lia. Qed.

Lemma load_bytes_after m a b n bs :
  b + Z.of_nat n <= a \/ a + Z.of_nat (length bs) <= b ->
  load_bytes (store_bytes m a bs) b n = load_bytes m b n.
Proof. intros H. apply load_bytes_same_on, store_bytes_same_on. lia. Qed.

Lemma storen_loadn_bytes n m m' a b :
  storen n m' b (loadn n m a) = store_bytes m' b (load_bytes m a n).
Proof.
  unfold storen, loadn. rewrite split_le_combine'; [done|apply length_load_bytes].
Qed.

Lemma le_split_1 z : le_split 1 z = [byte.of_Z z].
Proof. done. Qed.

Lemma byte_of_Z_land z : byte.of_Z (Z.land z 0xFF) = byte.of_Z z.
Proof.
  apply byte.unsigned_inj. rewrite !byte.unsigned_of_Z. unfold byte.wrap.
  change 0xFF with (Z.ones 8). rewrite Z.land_ones by lia.
  by rewrite Z.mod_mod.
Qed.

Lemma memset_word_bytes z : le_split 8 (memset_word z) = replicate 8 (byte.of_Z z).
Proof.
  assert (forall b, le_split 8 (memset_word (byte.unsigned b)) = replicate 8 b) as Hall.
  { intros b. destruct b; vm_compute; reflexivity. }
  rewrite <- Hall. f_equal. unfold memset_word.
  assert (Z.land z 0xFF = Z.land (byte.unsigned (byte.of_Z z)) 0xFF) as ->; [|done].
  rewrite byte.unsigned_of_Z. unfold byte.wrap.
  change 0xFF with (Z.ones 8). rewrite !Z.land_ones by lia. by rewrite Z.mod_mod.
Qed.

Section Specs.
Context {S : Type} `{L : !Lens S machine}.
Implicit Types s : S.

Lemma memset_loop_spec n dest len v b s :
  (0 < n)%nat -> 0 <= len -> len mod Z.of_nat n = 0 ->
  le_split n v = replicate n b ->
  ram_range dest len ->
  memset_loop n dest len v s =
    Ok tt (put_mem (store_bytes (smem s) dest (replicate (Z.to_nat len) b)) s).
Proof.
  intros Hn Hlen Hmod Hv [Hlo Hhi].
  set (upto d := put_mem (store_bytes (smem s) dest (replicate (Z.to_nat (d - dest)) b)) s).
  assert (wp (memset_loop n dest len v) (fun _ s' => s' = upto (dest + len)) never s) as H.
  { apply (wp_loop _ (fun d s' => s' = upto d /\ dest <= d <= dest + len /\
                                  (d - dest) mod Z.of_nat n = 0)
                   (fun d _ => dest + len - d)).
    - split_and!; [|lia|lia|by rewrite Z.sub_diag].
      unfold upto. rewrite Z.sub_diag. simpl. by rewrite put_mem_smem.
    - lia.
    - lia.
    - intros d s' (-> & Hd & Hdm). destruct (Z.ltb_spec d (dest + len)) as [Hlt|Hge].
      + assert (d + Z.of_nat n <= dest + len) as Hle.
        { pose proof (aligned_lt (Z.of_nat n) (d - dest) len). lia. }
        apply wp_bind, wp_store; [apply ram_ok_iff; lia|]. apply wp_ret.
        split_and!; [|lia|lia| |lia].
        * unfold upto, storen. rewrite smem_put_mem, put_mem_put_mem, Hv. f_equal.
          rewrite store_bytes_snoc by (rewrite length_replicate; lia).
          rewrite <- replicate_add. do 2 f_equal. lia.
        * replace (d + Z.of_nat n - dest) with (d - dest + 1 * Z.of_nat n) by lia.
          by rewrite Z_mod_plus_full.
      + apply wp_ret. f_equal. lia. }
  apply wp_ok in H as ([] & s' & -> & ->). unfold upto. do 4 f_equal. lia.
Qed.

(** memset fills the range with the low byte of its argument. *)
Lemma memset_spec dest c len s :
  0 <= len -> ram_range dest len ->
  memset dest c len s =
    Ok dest (put_mem (store_bytes (smem s) dest (replicate (Z.to_nat len) (byte.of_Z c))) s).
Proof.
  intros Hlen Hr. unfold memset, bind.
  destruct (Z.eqb_spec (Z.land (Z.lor dest len) (8 - 1)) 0) as [Hal|_].
  - rewrite (memset_loop_spec 8 dest len _ (byte.of_Z c)); try done; [lia| |].
    + change (8 - 1) with (Z.ones 3) in Hal. rewrite Z.land_lor_distr_l in Hal.
      apply Z.lor_eq_0_iff in Hal as [_ Hal].
      rewrite Z.land_ones in Hal by lia. done.
    + apply memset_word_bytes.
  - rewrite (memset_loop_spec 1 dest len _ (byte.of_Z c)); try done; [lia|].
    by rewrite Z.mod_1_r.
Qed.
End Specs.

(** One step of a forward copy: [n] more bytes after the first [k]. *)
Lemma copy_step m dest src k n :
  0 <= k ->
  src + k + Z.of_nat n <= dest \/ dest + k <= src + k ->
  let m' := store_bytes m dest (load_bytes m src (Z.to_nat k)) in
  storen n m' (dest + k) (loadn n m' (src + k)) =
  store_bytes m dest (load_bytes m src (Z.to_nat (k + Z.of_nat n))).
Proof.
  intros Hk Hd m'. subst m'. rewrite storen_loadn_bytes.
  rewrite load_bytes_after by (rewrite length_load_bytes; lia).
  rewrite store_bytes_snoc by (rewrite length_load_bytes; lia).
  replace (Z.to_nat (k + Z.of_nat n)) with (Z.to_nat k + n)%nat by lia.
  rewrite load_bytes_app. do 4 f_equal. lia.
Qed.

Section CopySpecs.
Context {S : Type} `{L : !Lens S machine}.
Implicit Types s : S.

(** The state after the first [k] bytes of a copy have been made. *)
Definition copied (dest src k : Z) s : S :=
  put_mem (store_bytes (smem s) dest (load_bytes (smem s) src (Z.to_nat k))) s.

Lemma copied_0 dest src s : copied dest src 0 s = s.
Proof. unfold copied. simpl. apply put_mem_smem. Qed.

Lemma wp_copy_step dest src k n s (Q : unit -> S -> Prop) E :
  0 <= k ->
  src + k + Z.of_nat n <= dest \/ dest + k <= src + k ->
  ram_range dest (k + Z.of_nat n) -> ram_range src (k + Z.of_nat n) ->
  Q tt (copied dest src (k + Z.of_nat n) s) ->
  wp (bind (load n (src + k)) (fun w => store n (dest + k) w)) Q E (copied dest src k s).
Proof.
  intros Hk Hd [? ?] [? ?] HQ. apply wp_bind.
  apply wp_load; [apply ram_ok_iff; lia|].
  apply wp_store; [apply ram_ok_iff; lia|].
  unfold copied in *. rewrite smem_put_mem, put_mem_put_mem, copy_step by done. done.
Qed.

Lemma memcpy_words_spec dest src len s :
  0 <= len -> ram_range dest len -> ram_range src len ->
  src + len <= dest \/ dest <= src ->
  wp (memcpy_words dest src len)
     (fun ds s' => exists k, 0 <= k <= len /\ ds = (dest + k, src + k) /\
                             s' = copied dest src k s) never s.
Proof.
  intros Hlen [Hd1 Hd2] [Hs1 Hs2] Hdis.
  apply (wp_loop _ (fun ds s' => exists k, 0 <= k <= len /\ ds = (dest + k, src + k) /\
                                           s' = copied dest src k s)
                 (fun ds _ => dest + len - fst ds)).
  - exists 0. rewrite copied_0, !Z.add_0_r. split_and!; lia || done.
  - simpl. lia.
  - intros ds s' (k & Hk & -> & _). simpl. lia.
  - intros ds s' (k & Hk & -> & ->). simpl.
    destruct (Z.ltb_spec (dest + k) (dest + len - (8 - 1))) as [Hlt|Hge].
    + apply wp_bind, wp_load; [apply ram_ok_iff; lia|].
      apply wp_bind, wp_store; [apply ram_ok_iff; lia|]. apply wp_ret.
      split; [|simpl; lia]. exists (k + 8).
      unfold copied. rewrite smem_put_mem, put_mem_put_mem.
      rewrite (copy_step _ dest src k 8) by lia.
      split_and!; [lia|lia|tuple_lia|done].
    + apply wp_ret. exists k. done.
Qed.

Lemma memcpy_bytes_spec dest src len k s :
  0 <= k <= len -> ram_range dest len -> ram_range src len ->
  src + len <= dest \/ dest <= src ->
  memcpy_bytes dest len (dest + k) (src + k) (copied dest src k s) =
  Ok tt (copied dest src len s).
Proof.
  intros Hk [Hd1 Hd2] [Hs1 Hs2] Hdis.
  assert (wp (memcpy_bytes dest len (dest + k) (src + k))
             (fun _ s' => s' = copied dest src len s) never (copied dest src k s)) as H.
  { apply (wp_loop _ (fun ds s' => exists k, 0 <= k <= len /\ ds = (dest + k, src + k) /\
                                             s' = copied dest src k s)
                   (fun ds _ => dest + len - fst ds)).
    - eauto.
    - simpl. lia.
    - intros ds s' (j & Hj & -> & _). simpl. lia.
    - intros ds s' (j & Hj & -> & ->). simpl.
      destruct (Z.ltb_spec (dest + j) (dest + len)) as [Hlt|Hge].
      + apply wp_bind, wp_load; [apply ram_ok_iff; lia|].
        apply wp_bind, wp_store; [apply ram_ok_iff; lia|]. apply wp_ret.
        split; [|simpl; lia]. exists (j + 1).
        unfold copied. rewrite smem_put_mem, put_mem_put_mem.
        rewrite (copy_step _ dest src j 1) by lia.
        split_and!; [lia|lia|tuple_lia|done].
      + apply wp_ret. f_equal. lia. }
  apply wp_ok in H as ([] & s' & -> & ->). done.
Qed.

(** memcpy copies the source range, in whichever unit its loops move it;
    the ranges may overlap if the destination is below the source. *)
Lemma memcpy_spec dest src len s :
  0 <= len -> ram_range dest len -> ram_range src len ->
  src + len <= dest \/ dest <= src ->
  memcpy dest src len s = Ok dest (copied dest src len s).
Proof.
  intros Hlen Hd Hs Hdis. unfold memcpy, bind.
  destruct (_ =? 0).
  - pose proof (memcpy_words_spec dest src len s Hlen Hd Hs Hdis) as H.
    apply wp_ok in H as (ds & s' & -> & k & Hk & -> & ->).
    cbn [fst snd]. by rewrite memcpy_bytes_spec.
  - unfold ret. cbn [fst snd].
    pose proof (memcpy_bytes_spec dest src len 0 s) as H.
    rewrite copied_0, !Z.add_0_r in H. rewrite H; [done|lia|done..].
Qed.

Lemma memmove_up_spec dst src n s :
  0 <= n -> ram_range dst n -> ram_range src n ->
  src + n <= dst \/ dst <= src ->
  memmove_up dst src n s = Ok tt (copied dst src n s).
Proof.
  intros Hn [Hd1 Hd2] [Hs1 Hs2] Hdis.
  assert (wp (memmove_up dst src n) (fun _ s' => s' = copied dst src n s) never s) as H.
  { apply (wp_loop _ (fun x s' => exists k, 0 <= k <= n /\ x = (dst + k, src + k, n - k) /\
                                            s' = copied dst src k s)
                   (fun x _ => snd x)).
    - exists 0. rewrite copied_0, !Z.add_0_r, Z.sub_0_r. split_and!; lia || done.
    - simpl. lia.
    - intros x s' (k & Hk & -> & _). simpl. lia.
    - intros x s' (k & Hk & -> & ->). destruct (Z.ltb_spec 0 (n - k)) as [Hk0|Hk0].
      + apply wp_bind, wp_load; [apply ram_ok_iff; lia|].
        apply wp_bind, wp_store; [apply ram_ok_iff; lia|]. apply wp_ret.
        split; [|simpl; lia]. exists (k + 1).
        split_and!; [lia|lia|tuple_lia|].
        unfold copied. rewrite smem_put_mem, put_mem_put_mem.
        by rewrite (copy_step _ dst src k 1) by lia.
      + apply wp_ret. f_equal. lia. }
  apply wp_ok in H as ([] & s' & -> & ->). done.
Qed.

Lemma memmove_down_spec dst src n s :
  0 <= n -> ram_range dst n -> ram_range src n -> src <= dst ->
  memmove_down (dst + n) (src + n) n s = Ok tt (copied dst src n s).
Proof.
  intros Hn [Hd1 Hd2] [Hs1 Hs2] Hle.
  set (tail k := put_mem (store_bytes (smem s) (dst + k)
                            (load_bytes (smem s) (src + k) (Z.to_nat (n - k)))) s).
  assert (wp (memmove_down (dst + n) (src + n) n) (fun _ s' => s' = tail 0) never s) as H.
  { apply (wp_loop _ (fun x s' => exists k, 0 <= k <= n /\ x = (dst + k, src + k, k) /\
                                            s' = tail k)
                   (fun x _ => snd x)).
    - exists n. split_and!; [lia|lia|done|].
      unfold tail. rewrite Z.sub_diag. simpl. by rewrite put_mem_smem.
    - simpl. lia.
    - intros x s' (k & Hk & -> & _). simpl. lia.
    - intros x s' (k & Hk & -> & ->). destruct (Z.ltb_spec 0 k) as [Hk0|Hk0].
      + apply wp_bind, wp_load; [apply ram_ok_iff; lia|].
        apply wp_bind, wp_store; [apply ram_ok_iff; lia|]. apply wp_ret.
        split; [|simpl; lia]. exists (k - 1).
        split_and!; [lia|lia|tuple_lia|].
        unfold tail. rewrite smem_put_mem, put_mem_put_mem. f_equal.
        rewrite storen_loadn_bytes.
        rewrite load_bytes_after by (rewrite length_load_bytes; lia).
        replace (Z.to_nat (n - (k - 1))) with (1 + Z.to_nat (n - k))%nat by lia.
        rewrite load_bytes_app, store_bytes_app, length_load_bytes.
        replace (dst + (k - 1)) with (dst + k - 1) by lia.
        replace (src + (k - 1)) with (src + k - 1) by lia.
        f_equal. f_equal; [lia|f_equal; lia].
      + apply wp_ret. f_equal. lia. }
  apply wp_ok in H as ([] & s' & -> & ->). unfold tail, copied.
  by rewrite !Z.add_0_r, Z.sub_0_r.
Qed.

(** memmove copies the source range whatever the overlap. *)
Lemma memmove_spec dst src n s :
  0 <= n -> ram_range dst n -> ram_range src n ->
  memmove dst src n s = Ok dst (copied dst src n s).
Proof.
  intros Hn Hd Hs. unfold memmove, bind.
  destruct (Z.ltb_spec src dst) as [Hlt|Hge]; simpl;
    [destruct (Z.ltb_spec dst (src + n)) as [Hov|Hno]; simpl|].
  - by rewrite memmove_down_spec by (done || lia).
  - by rewrite memmove_up_spec by (done || lia).
  - by rewrite memmove_up_spec by (done || lia).
Qed.
End CopySpecs.

(** ** Strings *)

Lemma ld8_unsigned m a : ld8 m a = byte.unsigned (default Byte.x00 (m !! a)).
Proof. apply le_combine_1. Qed.

Lemma ld8_range m a : 0 <= ld8 m a < 256.
Proof. apply (loadn_range 1). Qed.

Lemma cstr_nil m a : cstr m a [] -> ld8 m a = 0.
Proof. intros [_ H]. rewrite ld8_unsigned. simpl in H. by injection H as ->. Qed.

Lemma cstr_cons m a b bs :
  cstr m a (b :: bs) -> ld8 m a = byte.unsigned b /\ ld8 m a <> 0 /\ cstr m (a + 1) bs.
Proof.
  intros [H0 H]. simpl in H. injection H as Hb H. apply not_elem_of_cons in H0 as [Hn H0].
  rewrite ld8_unsigned, Hb. split_and!; [done| |done].
  intros E. apply Hn, byte.unsigned_inj. by rewrite E.
Qed.

(** The value strcmp returns, on the contents of its arguments. *)
Fixpoint strcmp_val (l1 l2 : list byte) : Z :=
  match l1, l2 with
  | [], [] => 0
  | [], c2 :: _ => 0 - byte.unsigned c2
  | c1 :: _, [] => byte.unsigned c1 - 0
  | c1 :: l1', c2 :: l2' =>
      if byte.unsigned c1 =? byte.unsigned c2 then strcmp_val l1' l2'
      else byte.unsigned c1 - byte.unsigned c2
  end.

Lemma strcmp_val_0 l1 l2 :
  Byte.x00 ∉ l1 -> Byte.x00 ∉ l2 -> strcmp_val l1 l2 = 0 <-> l1 = l2.
Proof.
  assert (forall b : byte, Byte.x00 <> b -> byte.unsigned b <> 0) as Hnz.
  { intros b Hb E. by apply Hb, byte.unsigned_inj. }
  revert l2. induction l1 as [|c1 l1 IH]; intros [|c2 l2]; simpl; rewrite ?not_elem_of_cons.
  - done.
  - intros _ [H2 _]. specialize (Hnz _ H2). split; [lia|done].
  - intros [H1 _] _. specialize (Hnz _ H1). split; [lia|done].
  - intros [H1 ?] [H2 ?]. destruct (Z.eqb_spec (byte.unsigned c1) (byte.unsigned c2)) as [E|E].
    + apply byte.unsigned_inj in E as ->. rewrite IH by done. split; [by intros ->|].
      by injection 1.
    + split; [lia|]. by injection 1 as -> ->.
Qed.

Section StringSpecs.
Context {S : Type} `{L : !Lens S machine}.
Implicit Types s : S.

(** strlen returns the length of the string at its argument. *)
Lemma strlen_spec a bs s :
  cstr (smem s) a bs -> ram_range a (Z.of_nat (length bs) + 1) ->
  strlen a s = Ok (Z.of_nat (length bs)) s.
Proof.
  intros Hc [Hlo Hhi].
  assert (wp (strlen a) (fun r s' => r = Z.of_nat (length bs) /\ s' = s) never s) as H.
  { apply wp_bind.
    apply (wp_loop _ (fun p s' => s' = s /\ exists l, cstr (smem s) p l /\ a <= p /\
                                  p + Z.of_nat (length l) = a + Z.of_nat (length bs))
                   (fun p _ => PHYS_TOP - p)).
    - eauto 10 with lia.
    - unfold str_fuel. lia.
    - intros p s' (-> & l & _ & ? & ?). lia.
    - intros p s' (-> & l & Hl & ? & ?).
      apply wp_bind, wp_load; [apply ram_ok_iff; lia|].
      destruct l as [|b l]; simpl in *.
      + rewrite (cstr_nil _ _ Hl). simpl. apply wp_ret, wp_ret. split; [lia|done].
      + apply cstr_cons in Hl as (_ & Hnz & Hl).
        destruct (Z.eqb_spec (ld8 (smem s) p) 0) as [|_]; [done|].
        apply wp_ret. split; [|lia]. split; [done|]. exists l. split_and!; [done|lia..]. }
  apply wp_ok in H as (r & s' & -> & -> & ->). done.
Qed.

(** On any memory, strlen returns or faults: it never runs forever. *)
Lemma strlen_terminates a s :
  wp (strlen a) (fun r s' => 0 <= r /\ s' = s) (fun e s' => exists p, e = BadAccess p) s.
Proof.
  destruct (decide (a <= PHYS_TOP)) as [Hle|Hgt].
  - apply wp_bind.
    apply (wp_loop _ (fun p s' => s' = s /\ a <= p <= PHYS_TOP) (fun p _ => PHYS_TOP - p)).
    + split; [done|lia].
    + unfold str_fuel. lia.
    + lia.
    + intros p s' [-> Hp]. apply wp_bind. unfold wp at 1, load.
      destruct (ram_ok p (Z.of_nat 1)) eqn:Hok; [|by eexists].
      apply ram_ok_iff in Hok.
      destruct (_ =? 0); apply wp_ret; [apply wp_ret|]; split_and!; lia || done.
  - assert (str_fuel a = 1%positive) as Hf by (unfold str_fuel; lia).
    unfold strlen, loop. rewrite Hf. simpl. do 3 apply wp_bind.
    unfold wp at 1, load. destruct (ram_ok a (Z.of_nat 1)) eqn:Hok; [|by eexists].
    apply ram_ok_iff in Hok. lia.
Qed.

(** strcmp compares the contents of the strings, without changing them. *)
Lemma strcmp_spec a1 a2 l1 l2 s :
  cstr (smem s) a1 l1 -> cstr (smem s) a2 l2 ->
  ram_range a1 (Z.of_nat (length l1) + 1) -> ram_range a2 (Z.of_nat (length l2) + 1) ->
  strcmp a1 a2 s = Ok (strcmp_val l1 l2) s.
Proof.
  intros Hc1 Hc2 Hr1 Hr2.
  assert (wp (strcmp a1 a2) (fun r s' => r = strcmp_val l1 l2 /\ s' = s) never s) as H.
  { apply (wp_loop _ (fun x s' => s' = s /\ exists k1 k2,
               cstr (smem s) (fst x) k1 /\ cstr (smem s) (snd x) k2 /\
               ram_range (fst x) (Z.of_nat (length k1) + 1) /\
               ram_range (snd x) (Z.of_nat (length k2) + 1) /\
               strcmp_val k1 k2 = strcmp_val l1 l2)
             (fun x _ => PHYS_TOP - fst x)).
    - eauto 10.
    - unfold str_fuel. destruct Hr1. simpl. lia.
    - intros x s' (-> & k1 & k2 & _ & _ & [] & _). lia.
    - intros [p1 p2] s' (-> & k1 & k2 & H1 & H2 & [] & [] & Hv). simpl in *.
      apply wp_bind, wp_load; [apply ram_ok_iff; lia|].
      apply wp_bind, wp_load; [apply ram_ok_iff; lia|].
      destruct k1 as [|c1 k1].
      { rewrite (cstr_nil _ _ H1). simpl. apply wp_ret. rewrite <- Hv.
        split; [|done]. destruct k2 as [|c2 k2]; simpl.
        - by rewrite (cstr_nil _ _ H2).
        - apply cstr_cons in H2 as (-> & _). done. }
      apply cstr_cons in H1 as (E1 & N1 & H1).
      destruct (Z.eqb_spec (ld8 (smem s) p1) 0) as [|_]; [done|]. simpl.
      destruct k2 as [|c2 k2].
      { rewrite (cstr_nil _ _ H2). destruct (Z.eqb_spec (ld8 (smem s) p1) 0); [done|].
        apply wp_ret. rewrite <- Hv. simpl. by rewrite E1. }
      apply cstr_cons in H2 as (E2 & N2 & H2). simpl in Hv. rewrite E1, E2.
      destruct (Z.eqb_spec (byte.unsigned c1) (byte.unsigned c2)) as [Eq|Ne].
      + apply wp_ret. simpl in *. split; [|lia]. split; [done|].
        exists k1, k2. unfold ram_range. split_and!; lia || done.
      + by apply wp_ret. }
  apply wp_ok in H as (r & s' & -> & -> & ->). done.
Qed.
End StringSpecs.

(** * Properties *)

Section Properties.
Context {S : Type} `{L : !Lens S machine}.
Implicit Types s : S.

(** memset stores the low byte of its argument in every byte of the range
  and in no other, whether it takes the path of 64-bit words or the path of
  bytes, and returns the range. *)
Theorem memset_fills dest c len s :
  0 <= len -> ram_range dest len ->
  memset dest c len s =
    Ok dest (put_mem (store_bytes (smem s) dest (replicate (Z.to_nat len) (byte.of_Z c))) s).
Proof. apply memset_spec. Qed.

(** C30. memmove copies the bytes the source range had before the call, for any
  overlap of the two ranges. *)
Theorem memmove_copies dst src n s :
  0 <= n -> ram_range dst n -> ram_range src n ->
  memmove dst src n s =
    Ok dst (put_mem (store_bytes (smem s) dst (load_bytes (smem s) src (Z.to_nat n))) s).
Proof. apply memmove_spec. Qed.

(** memcpy is memmove when the ranges are disjoint or the destination is
  below the source: moving words instead of bytes is not observable. *)
Theorem memcpy_is_memmove dest src len s :
  0 <= len -> ram_range dest len -> ram_range src len ->
  src + len <= dest \/ dest <= src ->
  memcpy dest src len s = memmove dest src len s.
Proof. intros. by rewrite memcpy_spec, memmove_spec. Qed.

(** strcmp on two strings leaves the state alone, and its result is zero
  exactly when the strings are equal. *)
Theorem strcmp_equal a1 a2 l1 l2 s :
  cstr (smem s) a1 l1 -> cstr (smem s) a2 l2 ->
  ram_range a1 (Z.of_nat (length l1) + 1) -> ram_range a2 (Z.of_nat (length l2) + 1) ->
  exists r, strcmp a1 a2 s = Ok r s /\ (r = 0 <-> l1 = l2).
Proof.
  intros H1 H2 Hr1 Hr2. exists (strcmp_val l1 l2). split; [by apply strcmp_spec|].
  apply strcmp_val_0; [apply H1|apply H2].
Qed.

(** strlen returns the number of bytes before the NUL; and on memory
  without one it faults at the end of RAM: it never runs forever. *)
Theorem strlen_total a s :
  wp (strlen a) (fun r s' => 0 <= r /\ s' = s) (fun e s' => exists p, e = BadAccess p) s /\
  forall bs, cstr (smem s) a bs -> ram_range a (Z.of_nat (length bs) + 1) ->
    strlen a s = Ok (Z.of_nat (length bs)) s.
Proof. split; [apply strlen_terminates|]. intros bs. apply strlen_spec. Qed.
End Properties.
