(* ===== verification/Snprintf.v ===== *)
(** util/snprintf.c: [vsnprintf], on a buffer of bytes that is written in
    place, and its specification: the full text of the format, cut to the size
    of the buffer and terminated.  The text of a decimal conversion is shown to
    denote the number. *)
From Stdlib Require Import Strings.Byte.
From S2P Require Import Prelude Mem CString.

Local Open Scope byte_scope.
Local Open Scope Z_scope.

(** A variadic argument: a 64-bit slot, or a pointer to a string with the given
    contents. *)
Inductive varg : Type :=
| VInt (z : Z)
| VStr (bs : list byte).

(** ** The code *)

(** The variables of vsnprintf that live across the iterations of its loop. *)
Record fmt_state := FmtState {
  format : bool;
  longarg : bool;
  pos : Z;
  out : list byte;
  vl : list varg
}.

Section Vsnprintf.
Variable n : Z. (* the size of the buffer *)

(** [if (++pos < n) out[pos - 1] = c] *)
Definition put (c : byte) (po : Z * list byte) : Z * list byte :=
  let pos := fst po + 1 in
  (pos, if pos <? n then <[Z.to_nat (pos - 1) := c]> (snd po) else snd po).

Fixpoint put_all (cs : list byte) (po : Z * list byte) : Z * list byte :=
  match cs with
  | [] => po
  | c :: cs' => put_all cs' (put c po)
  end.

(** [d < 10 ? '0' + d : 'a' + d - 10] *)
Definition hex_char (d : Z) : byte :=
  byte.of_Z (if d <? 10 then 48 + d else 97 + d - 10).

(** The loop of the 'x' case, [i] from [k - 1] down to 0. *)
Fixpoint put_hex (num : Z) (k : nat) (po : Z * list byte) : Z * list byte :=
  match k with
  | O => po
  | S i =>
      let d := Z.land (Z.shiftr num (4 * Z.of_nat i)) 0xF in
      put_hex num i (put (hex_char d) po)
  end.

(** [for (long nn = num; nn /= 10; digits++)] *)
Fixpoint count_digits (fuel : nat) (nn digits : Z) : option Z :=
  match fuel with
  | O => None
  | S f =>
      let nn := Z.quot nn 10 in
      if nn =? 0 then Some digits else count_digits f nn (digits + 1)
  end.

(** The loop of the 'd' case that stores the digits, [i] from [k - 1] down
    to 0: the buffer only, [pos] is advanced after the loop. *)
Fixpoint put_dec (num : Z) (k : nat) (pos : Z) (out : list byte) : list byte :=
  match k with
  | O => out
  | S i =>
      put_dec (Z.quot num 10) i pos
        (if pos + Z.of_nat i + 1 <? n
         then <[Z.to_nat (pos + Z.of_nat i) := byte.of_Z (48 + Z.rem num 10)]> out
         else out)
  end.

(** [longarg ? va_arg(vl, long) : va_arg(vl, int)] *)
Definition va_num (longarg : bool) (vl : list varg) : option (Z * list varg) :=
  match vl with
  | VInt z :: vl' => Some (if longarg then s64 z else s32 z, vl')
  | _ => None
  end.

Definition conv_x (longarg : bool) (po : Z * list byte) (vl : list varg)
    : option fmt_state :=
  match va_num longarg vl with
  | None => None
  | Some (num, vl) =>
      let po := put_hex num (if longarg then 16 else 8)%nat po in
      Some (FmtState false false (fst po) (snd po) vl)
  end.

Definition conv_d (longarg : bool) (po : Z * list byte) (vl : list varg)
    : option fmt_state :=
  match va_num longarg vl with
  | None => None
  | Some (num, vl) =>
      if num =? - 2 ^ 63 then None (* [-num] overflows *)
      else
        let '(num, po) := if num <? 0 then (- num, put "-" po) else (num, po) in
        match count_digits 64 num 1 with
        | None => None
        | Some digits =>
            Some (FmtState false false (fst po + digits)
                    (put_dec num (Z.to_nat digits) (fst po) (snd po)) vl)
        end
  end.

(** One iteration of [for (; *s; s++)]; [None] when an argument is missing or
    of the wrong kind. *)
Definition vsn_step (c : byte) (st : fmt_state) : option fmt_state :=
  let po := (pos st, out st) in
  if format st then
    match c with
    | "l" => Some (FmtState true true (pos st) (out st) (vl st))
    | "p" => conv_x true (put "x" (put "0" po)) (vl st)
    | "x" => conv_x (longarg st) po (vl st)
    | "d" => conv_d (longarg st) po (vl st)
    | "s" =>
        match vl st with
        | VStr bs :: vl' =>
            let po := put_all bs po in
            Some (FmtState false false (fst po) (snd po) vl')
        | _ => None
        end
    | "c" =>
        match vl st with
        | VInt z :: vl' =>
            let po := put (byte.of_Z z) po in
            Some (FmtState false false (fst po) (snd po) vl')
        | _ => None
        end
    | _ => Some st
    end
  else if Byte.eqb c "%" then
    Some (FmtState true (longarg st) (pos st) (out st) (vl st))
  else
    let po := put c po in
    Some (FmtState false (longarg st) (fst po) (snd po) (vl st)).

Fixpoint vsn_loop (s : list byte) (st : fmt_state) : option fmt_state :=
  match s with
  | [] => Some st
  | c :: s' =>
      match vsn_step c st with
      | None => None
      | Some st' => vsn_loop s' st'
      end
  end.

(** The result and the final contents of the buffer; [s] is the contents of
    the format string. *)
Definition vsnprintf (out0 : list byte) (s : list byte) (vl : list varg)
    : option (Z * list byte) :=
  match vsn_loop s (FmtState false false 0 out0 vl) with
  | None => None
  | Some st =>
      let out := if pos st <? n then <[Z.to_nat (pos st) := x00]> (out st)
                 else if negb (n =? 0) then <[Z.to_nat (n - 1) := x00]> (out st)
                 else out st in
      Some (s32 (pos st), out)
  end.
End Vsnprintf.

(** ** The specification: the text of a format *)

Definition hex_text (num : Z) (k : nat) : list byte :=
  map (fun i => hex_char (Z.land (Z.shiftr num (4 * Z.of_nat i)) 0xF)) (rev (seq 0 k)).

Definition dec_digit (num : Z) (i : nat) : byte :=
  byte.of_Z (48 + Z.rem (Z.quot num (10 ^ Z.of_nat i)) 10).

(** The [k] low decimal digits, most significant first. *)
Definition dec_text (num : Z) (k : nat) : list byte := map (dec_digit num) (rev (seq 0 k)).

(** [%d]: the sign and as many digits as the number has. *)
Definition signed_text (num : Z) : list byte :=
  (if num <? 0 then ["-"] else []) ++
  dec_text (Z.abs num) (Z.to_nat (default 0 (count_digits 64 (Z.abs num) 1))).

(** The text of the format [s]: [fm] and [lg] are the flags of the loop. *)
Fixpoint text (fm lg : bool) (s : list byte) (vl : list varg) : option (list byte) :=
  match s with
  | [] => Some []
  | c :: s' =>
      if fm then
        match c with
        | "l" => text true true s' vl
        | "p" => match vl with
                 | VInt z :: vl' => app (["0"; "x"] ++ hex_text (s64 z) 16) <$> text false false s' vl'
                 | _ => None
                 end
        | "x" => match vl with
                 | VInt z :: vl' =>
                     app (if lg then hex_text (s64 z) 16 else hex_text (s32 z) 8)
                       <$> text false false s' vl'
                 | _ => None
                 end
        | "d" => match vl with
                 | VInt z :: vl' =>
                     let num := if lg then s64 z else s32 z in
                     if num =? - 2 ^ 63 then None
                     else app (signed_text num) <$> text false false s' vl'
                 | _ => None
                 end
        | "s" => match vl with
                 | VStr bs :: vl' => app bs <$> text false false s' vl'
                 | _ => None
                 end
        | "c" => match vl with
                 | VInt z :: vl' => cons (byte.of_Z z) <$> text false false s' vl'
                 | _ => None
                 end
        | _ => text true lg s' vl
        end
      else if Byte.eqb c "%" then text true lg s' vl
      else cons c <$> text false lg s' vl
  end.

(** ** The buffer holds a prefix of the text *)

Section Refinement.
Variable out0 : list byte. (* the initial contents of the buffer *)
Let n : Z := Z.of_nat (length out0).

(** After the text [full], the buffer holds the part of it that leaves room
    for a terminator; the rest is untouched. *)
Definition holds (full : list byte) (po : Z * list byte) : Prop :=
  fst po = Z.of_nat (length full) /\
  length (snd po) = length out0 /\
  forall i, snd po !! i =
    if decide ((i < length full)%nat /\ Z.of_nat i + 1 < n) then full !! i else out0 !! i.

Lemma holds_init : holds [] (0, out0).
Proof. split; [done|]. split; [done|]. intros i. rewrite decide_False; [done|]. simpl. lia. Qed.

Lemma holds_put full po c : holds full po -> holds (full ++ [c]) (put n c po).
Proof.
  destruct po as [p o]. intros (Hp & Hl & Hi). simpl in *. subst p.
  unfold put. simpl. split_and!.
  - rewrite length_app. simpl. lia.
  - simpl. destruct (_ <? _); by rewrite ?length_insert.
  - intros i. simpl. rewrite length_app. simpl.
    destruct (Z.ltb_spec (Z.of_nat (length full) + 1) n) as [Hlt|Hge].
    + replace (Z.to_nat (Z.of_nat (length full) + 1 - 1)) with (length full) by lia.
      destruct (decide (i = length full)) as [->|Hne].
      * rewrite list_lookup_insert_eq by lia. rewrite decide_True by lia.
        by rewrite lookup_app_r, Nat.sub_diag by lia.
      * rewrite list_lookup_insert_ne, Hi by done.
        destruct (decide (i < length full)%nat).
        -- rewrite lookup_app_l by lia. repeat case_decide; done || lia.
        -- repeat case_decide; done || lia.
    + rewrite Hi. destruct (decide (i < length full)%nat).
      * rewrite lookup_app_l by lia. repeat case_decide; done || lia.
      * repeat case_decide; done || lia.
Qed.

Lemma holds_put_all cs full po : holds full po -> holds (full ++ cs) (put_all n cs po).
Proof.
  revert full po. induction cs as [|c cs IH]; intros full po H; simpl.
  { by rewrite app_nil_r. }
  rewrite cons_middle, app_assoc. by apply IH, holds_put.
Qed.

Lemma hex_text_S num k :
  hex_text num (S k) = hex_char (Z.land (Z.shiftr num (4 * Z.of_nat k)) 0xF) :: hex_text num k.
Proof. unfold hex_text. by rewrite seq_S, rev_app_distr. Qed.

Lemma holds_put_hex num k full po :
  holds full po -> holds (full ++ hex_text num k) (put_hex n num k po).
Proof.
  revert full po. induction k as [|k IH]; intros full po H; cbn [put_hex].
  { by rewrite app_nil_r. }
  rewrite hex_text_S, cons_middle, app_assoc. by apply IH, holds_put.
Qed.

Lemma dec_digit_S num i : 0 <= num -> dec_digit num (S i) = dec_digit (Z.quot num 10) i.
Proof.
  intros Hn. unfold dec_digit. rewrite Z.quot_quot by lia.
  do 3 f_equal. rewrite Nat2Z.inj_succ, Z.pow_succ_r by lia. done.
Qed.

Lemma dec_text_S num k : dec_text num (S k) = dec_digit num k :: dec_text num k.
Proof. unfold dec_text. by rewrite seq_S, rev_app_distr. Qed.

Lemma lookup_dec_text num k i :
  (i < k)%nat -> dec_text num k !! i = Some (dec_digit num (k - 1 - i)).
Proof.
  revert i. induction k as [|k IH]; intros i Hi; [lia|]. rewrite dec_text_S.
  destruct i as [|i]; simpl; [by rewrite !Nat.sub_0_r|].
  rewrite IH by lia. do 2 f_equal. lia.
Qed.

Lemma length_dec_text num k : length (dec_text num k) = k.
Proof. unfold dec_text. by rewrite length_map, length_rev, length_seq. Qed.

Lemma length_put_dec num k pos o : length (put_dec n num k pos o) = length o.
Proof.
  revert num o. induction k as [|k IH]; intros num o; [done|]. cbn [put_dec].
  rewrite IH. destruct (_ <? _); by rewrite ?length_insert.
Qed.

Lemma lookup_put_dec num k p o i :
  0 <= num -> length o = length out0 ->
  put_dec n num k (Z.of_nat p) o !! i =
    if decide ((p <= i < p + k)%nat /\ Z.of_nat i + 1 < n)
    then Some (dec_digit num (k - 1 - (i - p))) else o !! i.
Proof.
  revert num o. induction k as [|k IH]; intros num o Hnum Hlen; cbn [put_dec].
  { rewrite decide_False by lia. done. }
  rewrite IH; [|apply Z.quot_pos; lia|destruct (_ <? _); by rewrite ?length_insert].
  destruct (decide (i = p + k)%nat) as [->|Hne].
  - rewrite decide_False by lia.
    destruct (Z.ltb_spec (Z.of_nat p + Z.of_nat k + 1) n) as [Hlt|Hge].
    + rewrite decide_True by lia.
      replace (Z.to_nat (Z.of_nat p + Z.of_nat k)) with (p + k)%nat by lia.
      rewrite list_lookup_insert_eq by lia.
      replace (S k - 1 - (p + k - p))%nat with 0%nat by lia.
      unfold dec_digit. by rewrite Z.pow_0_r, Z.quot_1_r.
    + rewrite decide_False by lia. done.
  - destruct (decide ((p <= i < p + k)%nat /\ Z.of_nat i + 1 < n)) as [Hin|Hout].
    + rewrite decide_True by lia. rewrite <- dec_digit_S by done.
      do 2 f_equal. lia.
    + rewrite decide_False by lia. destruct (_ <? _); [|done].
      apply list_lookup_insert_ne. lia.
Qed.

Lemma holds_put_dec num k full p o :
  0 <= num -> holds full (p, o) ->
  holds (full ++ dec_text num k) (p + Z.of_nat k, put_dec n num k p o).
Proof.
  intros Hnum (Hp & Hl & Hi). simpl in *. subst p. split_and!; simpl.
  - rewrite length_app, length_dec_text. lia.
  - by rewrite length_put_dec.
  - intros i. rewrite lookup_put_dec, length_app, length_dec_text, Hi by done.
    destruct (decide (i < length full)%nat).
    + rewrite lookup_app_l by lia. repeat case_decide; done || lia.
    + destruct (decide ((length full <= i < length full + k)%nat /\ Z.of_nat i + 1 < n)).
      * rewrite decide_True by lia.
        rewrite lookup_app_r, lookup_dec_text by lia. do 2 f_equal.
      * repeat case_decide; done || lia.
Qed.

(** The final contents of the buffer: as much of the text as leaves room for
    the terminator, the terminator, and the old bytes. *)
Definition final_buffer (full : list byte) : list byte :=
  let k := Nat.min (length full) (length out0 - 1) in
  if (length out0 =? 0)%nat then []
  else take k full ++ [x00] ++ drop (S k) out0.

Lemma holds_final full p o :
  holds full (p, o) ->
  (if p <? n then <[Z.to_nat p := x00]> o
   else if negb (n =? 0) then <[Z.to_nat (n - 1) := x00]> o else o) = final_buffer full.
Proof.
  intros (Hp & Hl & Hi). simpl in *. subst p. unfold final_buffer.
  destruct (Nat.eqb_spec (length out0) 0) as [Hz|Hnz].
  { assert (n = 0) as Hn by lia. rewrite Hn. destruct (Z.ltb_spec (Z.of_nat (length full)) 0); [lia|].
    simpl. apply nil_length_inv. lia. }
  set (k := Nat.min (length full) (length out0 - 1)).
  assert ((if Z.of_nat (length full) <? n then <[Z.to_nat (Z.of_nat (length full)) := x00]> o
           else if negb (n =? 0) then <[Z.to_nat (n - 1) := x00]> o else o)
          = <[k := x00]> o) as ->.
  { destruct (Z.ltb_spec (Z.of_nat (length full)) n); [f_equal; lia|].
    destruct (Z.eqb_spec n 0); [lia|]. simpl. f_equal. lia. }
  apply list_eq. intros i.
  destruct (decide (i < k)%nat) as [Hik|Hik].
  { rewrite list_lookup_insert_ne, lookup_app_l, lookup_take, Hi
      by (rewrite ?length_take; lia).
    repeat case_decide; done || lia. }
  rewrite lookup_app_r by (rewrite length_take; lia). rewrite length_take.
  replace (k `min` length full)%nat with k by lia.
  destruct (decide (i = k)) as [->|Hne].
  { rewrite list_lookup_insert_eq by lia. by rewrite Nat.sub_diag. }
  rewrite list_lookup_insert_ne, Hi, decide_False by lia.
  rewrite lookup_app_r by (simpl; lia). rewrite lookup_drop. f_equal. simpl. lia.
Qed.
End Refinement.

(** ** The number of digits *)

Lemma count_digits_spec fuel num acc :
  0 <= num < 10 ^ Z.of_nat fuel -> (0 < fuel)%nat ->
  exists k, count_digits fuel num acc = Some (acc + Z.of_nat k) /\
            num < 10 ^ (Z.of_nat k + 1) /\ (k = 0%nat \/ 10 ^ Z.of_nat k <= num).
Proof.
  revert num acc. induction fuel as [|f IH]; intros num acc Hn Hf; [lia|]. cbn [count_digits].
  rewrite Nat2Z.inj_succ, Z.pow_succ_r in Hn by lia.
  pose proof (Z.quot_rem' num 10) as Hqr.
  pose proof (Z.rem_bound_pos num 10 ltac:(lia) ltac:(lia)).
  destruct (Z.eqb_spec (Z.quot num 10) 0) as [Hz|Hnz].
  - exists 0%nat. split_and!; [by rewrite Z.add_0_r| |by left]. simpl. lia.
  - assert (0 < Z.quot num 10) by lia.
    destruct (IH (Z.quot num 10) (acc + 1)) as (k & Hk & Hlt & Hge).
    + split; [lia|]. nia.
    + destruct f; [simpl in Hn; lia|lia].
    + exists (S k). rewrite Hk. rewrite Nat2Z.inj_succ.
      replace (Z.succ (Z.of_nat k) + 1) with (Z.succ (Z.of_nat k + 1)) by lia.
      rewrite !Z.pow_succ_r by lia. split_and!; [f_equal; lia|lia|].
      right. destruct Hge as [->|Hge]; [simpl; lia|lia].
Qed.

(** The number of digits of a value of [|long|]. *)
Definition ndigits (num : Z) : nat := Z.to_nat (default 0 (count_digits 64 num 1)).

Lemma ndigits_spec num :
  0 <= num < 2 ^ 64 ->
  count_digits 64 num 1 = Some (Z.of_nat (ndigits num)) /\ (0 < ndigits num)%nat /\
  num < 10 ^ Z.of_nat (ndigits num).
Proof.
  intros Hn. destruct (count_digits_spec 64 num 1) as (k & Hk & Hlt & _); [split; lia|lia|].
  unfold ndigits. rewrite Hk. simpl. split_and!; [f_equal; lia|lia|].
  replace (Z.of_nat (Z.to_nat (1 + Z.of_nat k))) with (Z.of_nat k + 1) by lia. done.
Qed.

(** ** vsnprintf refines its text *)

Section Main.
Variable out0 : list byte.
Let n : Z := Z.of_nat (length out0).

(** Where the text is defined, the loop succeeds and the buffer holds it;
    where it is not, the loop hits undefined behaviour. *)
Definition agrees (full : list byte) (r : option fmt_state) (t : option (list byte)) : Prop :=
  match r, t with
  | Some st, Some t => holds out0 (full ++ t) (pos st, out st)
  | None, None => True
  | _, _ => False
  end.

Lemma agrees_fmap full r t pre :
  agrees (full ++ pre) r t -> agrees full r (app pre <$> t).
Proof. destruct r, t; simpl; try done. by rewrite app_assoc. Qed.

Lemma fmap_app_app (a b : list byte) (t : option (list byte)) :
  app (a ++ b) <$> t = app a <$> (app b <$> t).
Proof. destruct t; simpl; by rewrite ?app_assoc. Qed.

Lemma va_range (lg : bool) z : - 2 ^ 63 <= (if lg then s64 z else s32 z : Z) < 2 ^ 63.
Proof.
  destruct lg; [apply s64_range|]. unfold s32, swrap. change (32 - 1) with 31.
  pose proof (Z.mod_pos_bound (z + 2 ^ 31) (2 ^ 32)). lia.
Qed.

Lemma holds_conv_d (lg : bool) full p o z vl' num :
  num = (if lg then s64 z else s32 z : Z) -> num <> - 2 ^ 63 ->
  holds out0 full (p, o) ->
  exists st, conv_d n lg (p, o) (VInt z :: vl') = Some st /\
    format st = false /\ longarg st = false /\ vl st = vl' /\
    holds out0 (full ++ signed_text num) (pos st, out st).
Proof.
  intros Hnum Hmin Hh. pose proof (va_range lg z) as Hr. rewrite <- Hnum in Hr.
  unfold conv_d, va_num. rewrite <- Hnum.
  destruct (Z.eqb_spec num (- 2 ^ 63)) as [|_]; [done|].
  unfold signed_text. fold (ndigits (Z.abs num)).
  destruct (ndigits_spec (Z.abs num)) as (Hc & _ & _); [lia|].
  destruct (Z.ltb_spec num 0) as [Hneg|Hpos]; cbv beta iota zeta.
  - replace (- num) with (Z.abs num) by lia. rewrite Hc.
    eexists. split; [done|]. simpl. split_and!; [done..|].
    rewrite cons_middle, app_assoc, Nat2Z.id. apply holds_put_dec; [lia|].
    by apply (holds_put out0 full (p, o)).
  - rewrite (Z.abs_eq num) in * by lia. rewrite Hc.
    eexists. split; [done|]. simpl. split_and!; [done..|].
    rewrite Nat2Z.id. by apply holds_put_dec.
Qed.

Lemma vsn_loop_agrees s fm lg full p o vl :
  holds out0 full (p, o) ->
  agrees full (vsn_loop n s (FmtState fm lg p o vl)) (text fm lg s vl).
Proof.
  revert fm lg full p o vl. induction s as [|c s IH]; intros fm lg full p o vl Hh.
  { simpl. by rewrite app_nil_r. }
  cbn [vsn_loop text]. unfold vsn_step. cbn [format longarg pos out Snprintf.vl].
  destruct fm.
  2: { destruct (Byte.eqb c "%"); [by apply IH|].
       apply (agrees_fmap _ _ _ [c]). destruct (put n c (p, o)) as [p' o'] eqn:E.
       apply IH. simpl. rewrite <- E. by apply (holds_put out0 full (p, o)). }
  assert (forall num k full p o vl, holds out0 full (p, o) ->
            agrees full (vsn_loop n s (FmtState false false
                   (fst (put_hex n num k (p, o))) (snd (put_hex n num k (p, o))) vl))
                   (app (hex_text num k) <$> text false false s vl)) as Hhex.
  { intros num k full' p' o' vl' H. apply agrees_fmap, IH.
    rewrite <- surjective_pairing. by apply holds_put_hex. }
  destruct c; try (by apply IH); destruct vl as [|[z|bs] vl']; try done;
    unfold conv_x, va_num.
  - apply (agrees_fmap _ _ _ [byte.of_Z z]). apply IH. by apply (holds_put out0 full (p, o)).
  - destruct (Z.eqb_spec (if lg then s64 z else s32 z : Z) (- 2 ^ 63)) as [E|Hne].
    + unfold conv_d, va_num. by rewrite E.
    + destruct (holds_conv_d lg full p o z vl' _ eq_refl Hne Hh) as (st & -> & Hf & Hl & Hv & Hh').
      destruct st as [f l p' o' v]. simpl in *. subst. by apply agrees_fmap, IH.
  - rewrite fmap_app_app. apply agrees_fmap. destruct (put n "x" (put n "0" (p, o))) as [p' o'] eqn:E.
    apply Hhex. rewrite <- E.
    apply (holds_put_all out0 [x30; x78] full (p, o) Hh).
  - apply agrees_fmap, IH. rewrite <- surjective_pairing. by apply holds_put_all.
  - destruct lg; by apply Hhex.
Qed.
End Main.

(** The function as a whole: the value returned is the length of the text,
    whatever the size of the buffer. *)
Lemma vsnprintf_text out0 s vl :
  vsnprintf (Z.of_nat (length out0)) out0 s vl =
  match text false false s vl with
  | Some t => Some (s32 (Z.of_nat (length t)), final_buffer out0 t)
  | None => None
  end.
Proof.
  unfold vsnprintf.
  pose proof (vsn_loop_agrees out0 s false false [] 0 out0 vl (holds_init out0)) as H.
  destruct (vsn_loop _ _ _) as [st|], (text false false s vl) as [t|]; try done.
  simpl in H. rewrite <- (holds_final _ _ _ _ H). destruct H as [Hp _]. simpl in Hp. by rewrite Hp.
Qed.

Lemma length_final_buffer out0 t : length (final_buffer out0 t) = length out0.
Proof.
  unfold final_buffer. destruct (Nat.eqb_spec (length out0) 0) as [->|]; [done|].
  rewrite !length_app, length_take, length_drop. simpl. lia.
Qed.

(** What is printed depends on the kinds of the arguments only. *)
Inductive vkind := KInt | KStr.
Definition kind (v : varg) : vkind := match v with VInt _ => KInt | VStr _ => KStr end.

(** The formats whose text is always defined ([%ld] is left out: its argument
    may be the least [long]). *)
Fixpoint fmt_ok (fm lg : bool) (s : list byte) (ks : list vkind) : bool :=
  match s with
  | [] => true
  | c :: s' =>
      if fm then
        match c with
        | "l" => fmt_ok true true s' ks
        | "p" | "x" | "c" => match ks with KInt :: ks' => fmt_ok false false s' ks' | _ => false end
        | "d" => match ks with KInt :: ks' => negb lg && fmt_ok false false s' ks' | _ => false end
        | "s" => match ks with KStr :: ks' => fmt_ok false false s' ks' | _ => false end
        | _ => fmt_ok true lg s' ks
        end
      else if Byte.eqb c "%" then fmt_ok true lg s' ks
      else fmt_ok false lg s' ks
  end.

Lemma fmt_ok_text fm lg s vl :
  fmt_ok fm lg s (map kind vl) = true -> is_Some (text fm lg s vl).
Proof.
  revert fm lg vl. induction s as [|c s IH]; intros fm lg vl; cbn [fmt_ok text]; [by eexists|].
  destruct fm.
  2: { destruct (Byte.eqb c "%"); [apply IH|]. intros H. by apply fmap_is_Some, IH. }
  destruct c; try apply IH; destruct vl as [|[z|bs] vl]; simpl; try done;
    intros H; try (by apply fmap_is_Some, IH).
  apply andb_true_iff in H as [Hlg H]. destruct lg; [done|].
  destruct (Z.eqb_spec (s32 z) (- 2 ^ 63)) as [E|_].
  - exfalso. revert E. unfold s32, swrap. change (32 - 1) with 31.
    pose proof (Z.mod_pos_bound (z + 2 ^ 31) (2 ^ 32)). lia.
  - by apply fmap_is_Some, IH.
Qed.

(** ** Decimal text denotes its number *)

(** The value atol accumulates from digits. *)
Definition dec_value : list byte -> Z :=
  foldl (fun res c => res * 10 + (byte.unsigned c - 48)) 0.

Lemma unsigned_dec_digit num i :
  0 <= num -> byte.unsigned (dec_digit num i) = 48 + Z.rem (Z.quot num (10 ^ Z.of_nat i)) 10.
Proof.
  intros Hn. unfold dec_digit. rewrite byte.unsigned_of_Z. unfold byte.wrap.
  assert (0 <= Z.quot num (10 ^ Z.of_nat i)) by (apply Z.quot_pos; lia).
  pose proof (Z.rem_bound_pos (Z.quot num (10 ^ Z.of_nat i)) 10).
  apply Z.mod_small. lia.
Qed.

(** Reading the digits below position [k] with the ones above already read. *)
Lemma foldl_dec_text num k :
  0 <= num ->
  foldl (fun res c => res * 10 + (byte.unsigned c - 48)) (Z.quot num (10 ^ Z.of_nat k))
    (dec_text num k) = num.
Proof.
  intros Hn. induction k as [|k IH]; [by rewrite Z.quot_1_r|].
  rewrite dec_text_S. simpl foldl. rewrite unsigned_dec_digit by done.
  assert (Z.quot num (10 ^ Z.of_nat (S k)) = Z.quot (Z.quot num (10 ^ Z.of_nat k)) 10) as ->.
  { rewrite Nat2Z.inj_succ, Z.pow_succ_r, Z.mul_comm, Z.quot_quot by lia. done. }
  replace (_ * 10 + _) with (Z.quot num (10 ^ Z.of_nat k)); [done|].
  pose proof (Z.quot_rem' (Z.quot num (10 ^ Z.of_nat k)) 10). lia.
Qed.

Lemma dec_value_text num :
  0 <= num < 2 ^ 64 -> dec_value (dec_text num (ndigits num)) = num.
Proof.
  intros Hn. destruct (ndigits_spec num Hn) as (_ & _ & Hlt).
  pose proof (foldl_dec_text num (ndigits num)) as H.
  rewrite Z.quot_small in H by lia. apply H. lia.
Qed.

Definition is_digit (c : byte) : Prop := 48 <= byte.unsigned c <= 57.

Lemma dec_text_digits num k : 0 <= num -> Forall is_digit (dec_text num k).
Proof.
  intros Hn. induction k as [|k IH]; [constructor|]. rewrite dec_text_S.
  constructor; [|done]. unfold is_digit. rewrite unsigned_dec_digit by done.
  assert (0 <= Z.quot num (10 ^ Z.of_nat k)) by (apply Z.quot_pos; lia).
  pose proof (Z.rem_bound_pos (Z.quot num (10 ^ Z.of_nat k)) 10). lia.
Qed.

Lemma digits_no_nul bs : Forall is_digit bs -> x00 ∉ bs.
Proof.
  intros H Hin. rewrite Forall_forall in H. specialize (H _ Hin).
  unfold is_digit in H. simpl in H. unfold byte.unsigned in H. simpl in H. lia.
Qed.

Lemma foldl_digits_ge res bs :
  0 <= res -> Forall is_digit bs ->
  res <= foldl (fun res c => res * 10 + (byte.unsigned c - 48)) res bs.
Proof.
  intros Hr H. revert res Hr. induction H as [|c bs Hc _ IH]; intros res Hr; simpl; [lia|].
  unfold is_digit in Hc. etransitivity; [|apply IH; lia]. lia.
Qed.

Section AtolSpec.
Context {S : Type} `{L : !Lens S machine}.
Implicit Types s : S.

Lemma wp_long_op z (Q : Z -> S -> Prop) E s :
  - 2 ^ 63 <= z < 2 ^ 63 -> Q z s -> wp (long_op z) Q E s.
Proof.
  intros Hz HQ. unfold long_op.
  destruct (Z.leb_spec (- 2 ^ 63) z), (Z.ltb_spec z (2 ^ 63)); simpl; lia || by apply wp_ret.
Qed.

Lemma atol_digits_spec a ds s :
  cstr (smem s) a ds -> ram_range a (Z.of_nat (length ds) + 1) ->
  Forall is_digit ds -> dec_value ds < 2 ^ 63 ->
  atol_digits a s = Ok (dec_value ds) s.
Proof.
  intros Hc Hr Hd Hv.
  assert (wp (atol_digits a) (fun r s' => r = dec_value ds /\ s' = s) never s) as H.
  { apply (wp_loop _ (fun x s' => s' = s /\ exists l, cstr (smem s) (fst x) l /\
               ram_range (fst x) (Z.of_nat (length l) + 1) /\ Forall is_digit l /\
               0 <= snd x /\
               foldl (fun res c => res * 10 + (byte.unsigned c - 48)) (snd x) l = dec_value ds)
             (fun x _ => PHYS_TOP - fst x)).
    - split; [done|]. exists ds. simpl. split_and!; done.
    - unfold str_fuel. destruct Hr. simpl. lia.
    - intros x s' (-> & l & _ & [] & _). lia.
    - intros [p res] s' (-> & l & Hl & [] & Hdl & Hpos & Hf). simpl in *.
      apply wp_bind, wp_load; [apply ram_ok_iff; lia|].
      destruct l as [|c l].
      { rewrite (cstr_nil _ _ Hl). apply wp_ret. by simpl in Hf. }
      apply cstr_cons in Hl as (E1 & N1 & Hl). apply Forall_cons in Hdl as [Hdc Hdl].
      destruct (Z.eqb_spec (ld8 (smem s) p) 0) as [|_]; [done|].
      unfold is_digit in Hdc. simpl in Hf. rewrite E1.
      pose proof (foldl_digits_ge (res * 10 + (byte.unsigned c - 48)) l ltac:(lia) Hdl) as Hge.
      rewrite Hf in Hge.
      apply wp_bind, wp_long_op; [lia|]. apply wp_bind, wp_long_op; [lia|].
      apply wp_ret. simpl in *. split; [|lia]. split; [done|].
      exists l. unfold ram_range. split_and!; done || lia. }
  apply wp_ok in H as (r & s' & -> & -> & ->). done.
Qed.

Lemma atol_spaces_none a bs s c :
  cstr (smem s) a (c :: bs) -> ram_range a 1 -> byte.unsigned c <> 32 ->
  atol_spaces a s = Ok a s.
Proof.
  intros Hc [Hr1 Hr2] Hne.
  assert (wp (atol_spaces a) (fun r s' => r = a /\ s' = s) never s) as H.
  { apply (wp_loop _ (fun x s' => x = a /\ s' = s) (fun x _ => PHYS_TOP - x)).
    - done.
    - unfold str_fuel. lia.
    - lia.
    - intros x s' [-> ->]. apply wp_bind, wp_load; [apply ram_ok_iff; lia|].
      apply cstr_cons in Hc as (E1 & _). rewrite E1.
      destruct (Z.eqb_spec (byte.unsigned c) 32); [done|]. by apply wp_ret. }
  apply wp_ok in H as (r & s' & -> & -> & ->). done.
Qed.

(** atol reads back what %ld prints. *)
Lemma atol_signed_text a num s :
  - 2 ^ 63 < num < 2 ^ 63 ->
  cstr (smem s) a (signed_text num) ->
  ram_range a (Z.of_nat (length (signed_text num)) + 1) ->
  atol a s = Ok num s.
Proof.
  intros Hn Hc Hr. unfold signed_text in *. fold (ndigits (Z.abs num)) in *.
  destruct (ndigits_spec (Z.abs num)) as (_ & Hpos & _); [lia|].
  pose proof (dec_text_digits (Z.abs num) (ndigits (Z.abs num)) ltac:(lia)) as Hdig.
  pose proof (dec_value_text (Z.abs num) ltac:(lia)) as Hval.
  set (ds := dec_text (Z.abs num) (ndigits (Z.abs num))) in *.
  destruct (Z.ltb_spec num 0) as [Hneg|Hge]; simpl in Hc, Hr.
  - destruct Hr as [Hr1 Hr2].
    unfold atol, bind. rewrite (atol_spaces_none a ds s "-"); [|done|split; lia|done].
    unfold load. rewrite (proj2 (ram_ok_iff a (Z.of_nat 1))) by lia.
    apply cstr_cons in Hc as (-> & _ & Hc). simpl.
    rewrite (atol_digits_spec _ ds); [|done|split; lia|done|lia].
    rewrite Hval. unfold long_op.
    replace (- Z.abs num) with num by lia.
    by rewrite (proj2 (Z.leb_le _ _)), (proj2 (Z.ltb_lt _ _)) by lia.
  - assert (exists c l, ds = c :: l) as (c & l & Hds).
    { pose proof (length_dec_text (Z.abs num) (ndigits (Z.abs num))) as Hlen.
      fold ds in Hlen. destruct ds as [|c l]; [simpl in Hlen; lia|eauto]. }
    assert (is_digit c) as Hdc by (rewrite Hds in Hdig; by apply Forall_cons in Hdig as [? _]).
    unfold is_digit in Hdc. destruct Hr as [Hr1 Hr2].
    unfold atol, bind. rewrite (atol_spaces_none a l s c); [|congruence|split; lia|lia].
    unfold load. rewrite (proj2 (ram_ok_iff a (Z.of_nat 1))) by lia.
    pose proof Hc as Hc'. rewrite Hds in Hc'. apply cstr_cons in Hc' as (-> & _ & _).
    destruct (Z.eqb_spec (byte.unsigned c) 45); [lia|].
    destruct (Z.eqb_spec (byte.unsigned c) 43); [lia|]. simpl.
    rewrite (atol_digits_spec _ ds); [|done|split; lia|done|lia].
    rewrite Hval. unfold ret. f_equal. lia.
Qed.
End AtolSpec.

(** ** The text of %ld in a buffer *)

Lemma text_ld num :
  - 2 ^ 63 < num < 2 ^ 63 ->
  text false false (String.list_byte_of_string "%ld") [VInt num] = Some (signed_text num).
Proof.
  intros Hn. simpl. rewrite s64_small by lia. destruct (Z.eqb_spec num (- 2 ^ 63)); [lia|]. simpl.
  by rewrite app_nil_r.
Qed.

Lemma ndigits_le num : 0 <= num < 2 ^ 63 -> (ndigits num <= 19)%nat.
Proof.
  intros Hn. destruct (count_digits_spec 64 num 1) as (k & Hk & _ & Hlow); [split; lia|lia|].
  unfold ndigits. rewrite Hk. simpl. destruct Hlow as [->|Hlow]; [lia|].
  assert (~ 19 <= Z.of_nat k) as Hk19; [|lia]. intros H19.
  pose proof (Z.pow_le_mono_r 10 19 (Z.of_nat k) ltac:(lia) H19). lia.
Qed.

Lemma length_signed_text num : - 2 ^ 63 < num < 2 ^ 63 -> (length (signed_text num) <= 20)%nat.
Proof.
  intros Hn. unfold signed_text. fold (ndigits (Z.abs num)). rewrite length_app, length_dec_text.
  pose proof (ndigits_le (Z.abs num) ltac:(lia)). destruct (num <? 0); simpl; lia.
Qed.

Lemma signed_text_no_nul num : - 2 ^ 63 < num < 2 ^ 63 -> x00 ∉ signed_text num.
Proof.
  intros Hn. unfold signed_text. fold (ndigits (Z.abs num)). rewrite not_elem_of_app. split.
  - destruct (num <? 0); [|apply not_elem_of_nil]. rewrite list_elem_of_singleton. done.
  - pose proof (dec_text_digits (Z.abs num) (ndigits (Z.abs num)) ltac:(lia)) as Hd.
    rewrite Forall_forall in Hd. intros H%Hd. unfold is_digit in H. change (byte.unsigned x00) with 0 in H. lia.
Qed.

(** A text that fits the buffer is a string there. *)
Lemma cstr_final_buffer m a out0 t :
  x00 ∉ t -> (length t < length out0)%nat -> cstr (store_bytes m a (final_buffer out0 t)) a t.
Proof.
  intros Hn Hlen. split; [done|]. unfold final_buffer.
  destruct (Nat.eqb_spec (length out0) 0) as [|_]; [lia|]. rewrite Nat.min_l, firstn_all by lia.
  rewrite app_assoc, store_bytes_app.
  pose proof (load_store_bytes (store_bytes m (a + Z.of_nat (length (t ++ [x00]))) (drop (S (length t)) out0)) a
    (t ++ [x00])) as H. by rewrite length_app in H at 2.
Qed.

(** * Properties *)

(** C27. vsnprintf writes the text of its format, cut to the size of the buffer
    and closed by a NUL, and returns the length of the whole text, for any
    format, arguments and buffer; it fails only where the arguments do not
    match the format or [%ld] meets the least [long]. *)
Theorem vsnprintf_prints_text out0 s vl :
  vsnprintf (Z.of_nat (length out0)) out0 s vl =
  match text false false s vl with
  | Some t => Some (s32 (Z.of_nat (length t)), final_buffer out0 t)
  | None => None
  end.
Proof. apply vsnprintf_text. Qed.

(** C28. Round trip: vsnprintf prints a [long] with [%ld] into a buffer of at
    least 21 bytes; atol, applied to the buffer in memory, returns this number
    and leaves the state alone. *)
Theorem atol_reads_printed {S} `{L : !Lens S machine} a num out0 (s : S) :
  - 2 ^ 63 < num < 2 ^ 63 -> (21 <= length out0)%nat -> ram_range a (Z.of_nat (length out0)) ->
  exists r out,
    vsnprintf (Z.of_nat (length out0)) out0 (String.list_byte_of_string "%ld") [VInt num] = Some (r, out) /\
    let s' := put_mem (store_bytes (smem s) a out) s in atol a s' = Ok num s'.
Proof.
  intros Hn Hlen [Hr1 Hr2]. pose proof (length_signed_text num Hn) as Hl.
  eexists _, (final_buffer out0 (signed_text num)). split; [by rewrite vsnprintf_text, text_ld|].
  cbv zeta. apply atol_signed_text; [done| |split; lia].
  rewrite smem_put_mem. apply cstr_final_buffer; [apply signed_text_no_nul, Hn|lia].
Qed.
