(* ===== verification/Console.v ===== *)
(** spike_interface/spike_utils.c and spike_utils.h: formatted output of the
    kernel and the ways in which it stops the machine.  The write of
    spike_file_write(stderr, ...) is an append to the console of the machine. *)
From S2P Require Import Prelude Mem CString Snprintf.

(** "\r\n" *)
Definition CRLF : string := 
  String (Ascii.ascii_of_nat 13) (String (Ascii.ascii_of_nat 10) EmptyString).

Section Console.
Context {S : Type} `{L : !Lens S machine}.
Implicit Types s : S.

(** spike_file_write(stderr, bs, length bs) *)
Definition write_stderr (bs : list byte) (s : S) : S :=
  lput (set_console (console (lget s) ++ [bs]) (lget s)) s.

Definition vprintk_size : Z := 256.

(** [out] starts with whatever the stack holds: zeros here, see
    [vprintk_buffer_irrelevant]. *)
Definition vprintk (fmt : list byte) (vl : list varg) : M S unit :=
  match vsnprintf vprintk_size (replicate (Z.to_nat vprintk_size) Byte.x00) fmt vl with
  | None => halt Undefined
  | Some (res, out) =>
      modify (write_stderr
        (take (Z.to_nat (if u64 res <? vprintk_size then u64 res else vprintk_size)) out))
  end.

(** The bytes of the string at [pa], without its NUL: an argument of %s, or a
    format that is not a literal. *)
Definition read_string (pa : Z) : M S (list byte) :=
  loop (str_fuel pa) (fun '(p, bs) =>
    c <- load8 p ;;
    if c =? 0 then ret (inr bs) else ret (inl (p + 1, bs ++ [byte.of_Z c]))) (pa, []).

Definition sprint (fmt : string) (vl : list varg) : M S unit :=
  vprintk (String.list_byte_of_string fmt) vl.

Definition printk (fmt : string) (vl : list varg) : M S unit :=
  vprintk (String.list_byte_of_string fmt) vl.

Definition shutdown {A} (code : Z) : M S A :=
  sprint "System is shutting down with exit code %d.
" [VInt code] ;;;
  halt (Shutdown code).

(** [htif] is set on Spike: the [assert(htif)] of poweroff holds. *)
Definition poweroff {A} : M S A :=
  sprint ("Power off" ++ CRLF)%string [] ;;;
  halt PowerOff.

Definition die {A} (file : string) (line : Z) (x : string) : M S A :=
  sprint "%s:%d: assertion failed: %s
" [VStr (String.list_byte_of_string file); VInt line; VStr (String.list_byte_of_string x)] ;;;
  poweroff.

(** The macro assert(x), with the file and line of its use. *)
Definition assert_ (b : bool) (file : string) (line : Z) (x : string) : M S unit :=
  if b then ret tt else die file line x.

(** do_panic(s, ...) calls sprint(s, vl): it forwards its own va_list as the
    only argument, so the numbers printed are meaningless.  The model prints
    the format as it is. *)
Definition do_panic {A} (fmt : string) : M S A :=
  modify (write_stderr (String.list_byte_of_string fmt)) ;;;
  shutdown (-1).

Definition panic {A} (fmt : string) : M S A := do_panic (String.append fmt "
").

Definition kassert_fail {A} : M S A := do_panic "assertion failed @ %p: %s
".

Definition kassert (cond : bool) : M S unit :=
  if cond then ret tt else kassert_fail.

(** What vprintk writes of the text [t]. *)
Definition clip (t : list byte) : list byte :=
  let res := u64 (s32 (Z.of_nat (length t))) in
  take (Z.to_nat (if res <? 256 then res else 256)) (final_buffer (replicate 256 Byte.x00) t).

Lemma vprintk_text fmt vl t s :
  text false false fmt vl = Some t -> vprintk fmt vl s = Ok tt (write_stderr (clip t) s).
Proof.
  intros Ht. unfold vprintk, vprintk_size, clip.
  pose proof (vsnprintf_text (replicate 256 Byte.x00) fmt vl) as Hv.
  rewrite length_replicate, Ht in Hv.
  change (Z.of_nat 256) with 256 in Hv. change (Z.to_nat 256) with 256%nat.
  by rewrite Hv.
Qed.

(** What a call of sprint leaves on the console. *)
Definition printed (fmt : string) (vl : list varg) : list byte :=
  match text false false (String.list_byte_of_string fmt) vl with
  | None => []
  | Some t => clip t
  end.

Lemma sprint_text fmt vl t s :
  text false false (String.list_byte_of_string fmt) vl = Some t ->
  sprint fmt vl s = Ok tt (write_stderr (printed fmt vl) s).
Proof. intros Ht. unfold sprint, printed. rewrite Ht. by apply vprintk_text. Qed.

Lemma wp_sprint fmt vl Q E s :
  fmt_ok false false (String.list_byte_of_string fmt) (map kind vl) = true ->
  Q tt (write_stderr (printed fmt vl) s) ->
  wp (sprint fmt vl) Q E s.
Proof.
  intros Hok HQ. apply fmt_ok_text in Hok as [t Ht]. unfold wp. by rewrite (sprint_text _ _ t).
Qed.

Lemma sprint_eq fmt vl s :
  fmt_ok false false (String.list_byte_of_string fmt) (map kind vl) = true ->
  sprint fmt vl s = Ok tt (write_stderr (printed fmt vl) s).
Proof.
  intros Hok.
  destruct (wp_ok (sprint fmt vl) (fun _ s' => s' = write_stderr (printed fmt vl) s) s)
    as ([] & s' & -> & ->); [by apply wp_sprint|done].
Qed.

Lemma smem_write_stderr bs s : smem (write_stderr bs s) = smem s.
Proof. unfold smem, write_stderr. by rewrite lget_lput. Qed.

Lemma wp_shutdown {A} code (Q : A -> S -> Prop) (E : stop -> S -> Prop) s :
  (forall s', smem s' = smem s -> E (Shutdown code) s') -> wp (shutdown code) Q E s.
Proof.
  intros H. unfold shutdown. apply wp_bind, wp_sprint; [done|]. apply wp_halt, H, smem_write_stderr.
Qed.

Lemma wp_panic {A} fmt (Q : A -> S -> Prop) (E : stop -> S -> Prop) s :
  (forall s', smem s' = smem s -> E (Shutdown (-1)) s') -> wp (panic fmt) Q E s.
Proof.
  intros H. unfold panic, do_panic. apply wp_bind, wp_modify, wp_shutdown.
  intros s' Hs. apply H.
  etransitivity; [exact Hs|apply smem_write_stderr].
Qed.
End Console.

#[export] Hint Rewrite @smem_write_stderr : lens.

(** The characters of a printed line are those of the text of its format, as
    long as it fits the 256-byte buffer; a longer one loses its end, and the
    write includes the terminator. *)
Lemma clip_text t :
  Z.of_nat (length t) < 2 ^ 31 ->
  clip t = if (length t <? 256)%nat then t else take 255 t ++ [Byte.x00].
Proof.
  intros Hlen. unfold clip.
  rewrite s32_small, u64_small by lia. unfold final_buffer. rewrite length_replicate.
  change ((256 =? 0)%nat) with false. cbv iota.
  destruct (Nat.ltb_spec (length t) 256) as [Hlt|Hge].
  - destruct (Z.ltb_spec (Z.of_nat (length t)) 256) as [_|]; [|lia].
    rewrite Nat2Z.id. replace (length t `min` (256 - 1))%nat with (length t) by lia.
    rewrite take_app_length' by (rewrite length_take; clear; lia). apply take_ge. done.
  - destruct (Z.ltb_spec (Z.of_nat (length t)) 256) as [|_]; [lia|].
    replace (length t `min` (256 - 1))%nat with 255%nat by lia.
    rewrite firstn_all2; [done|].
    rewrite !length_app, length_take, length_drop, length_replicate.
    change (length [Byte.x00]) with 1%nat. change (Z.to_nat 256) with 256%nat. lia.
Qed.

Lemma printed_text fmt vl t :
  text false false (String.list_byte_of_string fmt) vl = Some t ->
  Z.of_nat (length t) < 2 ^ 31 ->
  printed fmt vl = if (length t <? 256)%nat then t else take 255 t ++ [Byte.x00].
Proof. intros Ht Hlen. unfold printed. rewrite Ht. by apply clip_text. Qed.

(** A format without directives is its own text. *)
Lemma text_plain fmt vl : Byte.x25 ∉ fmt -> text false false fmt vl = Some fmt.
Proof.
  induction fmt as [|c fmt IH]; intros Hf; [done|]. apply not_elem_of_cons in Hf as [Hc Hf].
  cbn [text]. destruct (Byte.eqb c Byte.x25) eqn:E.
  - apply Byte.byte_dec_bl in E. by destruct Hc.
  - by rewrite IH.
Qed.

Section ReadString.
Context {S : Type} `{L : !Lens S machine}.

Lemma read_string_spec a bs (s : S) :
  cstr (smem s) a bs -> ram_range a (Z.of_nat (length bs) + 1) -> read_string a s = Ok bs s.
Proof.
  intros Hc [Hlo Hhi].
  assert (wp (read_string a) (fun r s' => r = bs /\ s' = s) never s) as H.
  { apply (wp_loop _ (fun '(p, pre) s' => s' = s /\ exists l, cstr (smem s) p l /\ a <= p /\
                         p + Z.of_nat (length l) = a + Z.of_nat (length bs) /\ bs = pre ++ l)
                   (fun '(p, _) _ => PHYS_TOP - p)).
    - split; [done|]. exists bs. split_and!; [done|lia|lia|done].
    - unfold str_fuel. lia.
    - intros [p pre] s' (-> & l & _ & ? & ? & _). lia.
    - intros [p pre] s' (-> & l & Hl & ? & ? & E).
      apply wp_bind, wp_load; [apply ram_ok_iff; lia|].
      destruct l as [|b l]; simpl in *.
      + rewrite (cstr_nil _ _ Hl). simpl. apply wp_ret. by rewrite E, app_nil_r.
      + apply cstr_cons in Hl as (Eb & Hnz & Hl).
        destruct (Z.eqb_spec (ld8 (smem s) p) 0) as [|_]; [done|].
        apply wp_ret. split; [|lia]. split; [done|]. exists l. split_and!; [done|lia|lia|].
        rewrite Eb, byte.of_Z_unsigned, <- app_assoc. exact E. }
  apply wp_ok in H as (r & s' & -> & -> & ->). done.
Qed.
End ReadString.

(** * Properties *)

(** C29. sprint appends one write to the console: the text of its format when it
    fits the 256-byte buffer, else its first 255 characters and the NUL; the
    rest of the state does not change. *)
Theorem sprint_writes {S} `{L : !Lens S machine} fmt vl t (s : S) :
  fmt_ok false false (String.list_byte_of_string fmt) (map kind vl) = true ->
  text false false (String.list_byte_of_string fmt) vl = Some t ->
  Z.of_nat (length t) < 2 ^ 31 ->
  sprint fmt vl s =
    Ok tt (write_stderr (if (length t <? 256)%nat then t else take 255 t ++ [Byte.x00]) s).
Proof. intros Hok Ht Hlen. by rewrite sprint_eq, (printed_text fmt vl t). Qed.
