(* ===== verification/Pmm.v ===== *)
(** kernel/pmm.c: the physical page allocator.  The free pages form a list
    linked through their own first words; the allocator promises that the
    pages it hands out are pages of RAM that it does not own any more. *)
From S2P Require Import Prelude Mem CString Snprintf Console.

(** The state of memory management: the machine, the static variables of
    pmm.c, [g_mem_size] of spike_memory.c and [g_kernel_pagetable] of vmm.c. *)
Record mm := Mm {
  mach : machine;
  free_mem_start_addr : Z;
  free_mem_end_addr : Z;
  g_free_mem_list : Z;        (* g_free_mem_list.next *)
  g_mem_size : Z;
  g_kernel_pagetable : Z
}.

Definition set_mach (k : machine) (s : mm) : mm :=
  Mm k (free_mem_start_addr s) (free_mem_end_addr s) (g_free_mem_list s) (g_mem_size s)
     (g_kernel_pagetable s).
Definition set_free_mem_start_addr (a : Z) (s : mm) : mm :=
  Mm (mach s) a (free_mem_end_addr s) (g_free_mem_list s) (g_mem_size s) (g_kernel_pagetable s).
Definition set_free_mem_end_addr (a : Z) (s : mm) : mm :=
  Mm (mach s) (free_mem_start_addr s) a (g_free_mem_list s) (g_mem_size s) (g_kernel_pagetable s).
Definition set_free_list (a : Z) (s : mm) : mm :=
  Mm (mach s) (free_mem_start_addr s) (free_mem_end_addr s) a (g_mem_size s)
     (g_kernel_pagetable s).
Definition set_g_mem_size (a : Z) (s : mm) : mm :=
  Mm (mach s) (free_mem_start_addr s) (free_mem_end_addr s) (g_free_mem_list s) a
     (g_kernel_pagetable s).
Definition set_g_kernel_pagetable (a : Z) (s : mm) : mm :=
  Mm (mach s) (free_mem_start_addr s) (free_mem_end_addr s) (g_free_mem_list s) (g_mem_size s) a.

#[export] Instance lens_mm_machine : Lens mm machine.
Proof.
  refine {| lget := mach; lput := set_mach |}; [done| |done].
  by intros [].
Defined.

(** ** The code *)

Definition free_page (pa : Z) : M mm unit :=
  s <- get_st ;;
  if negb (pa mod PGSIZE =? 0) || (pa <? free_mem_start_addr s) || (free_mem_end_addr s <=? pa)
  then panic "free_page 0x%lx 
"
  else
    (* insert a physical page to g_free_mem_list *)
    store64 pa (g_free_mem_list s) ;;;
    modify (set_free_list pa).

Definition alloc_page : M mm Z :=
  n <- gets g_free_mem_list ;;
  (if negb (n =? 0) then
     next <- load64 n ;;
     modify (set_free_list next)
   else ret tt) ;;;
  ret n.

Definition create_freepage_list (start end_ : Z) : M mm unit :=
  modify (set_free_list 0) ;;;
  loop (Z.to_pos (end_ + 1)) (fun p =>
    if u64 (p + PGSIZE) <? end_ then
      free_page p ;;;
      ret (inl (u64 (p + PGSIZE)))
    else ret (inr tt)) (ROUNDUP start PGSIZE).

Definition pmm_init `{Layout} : M mm unit :=
  let g_kernel_start := KERN_BASE in
  let g_kernel_end := _end in
  let pke_kernel_size := u64 (g_kernel_end - g_kernel_start) in
  sprint "PKE kernel start 0x%lx, PKE kernel end: 0x%lx, PKE kernel size: 0x%lx .
" [VInt g_kernel_start; VInt g_kernel_end; VInt pke_kernel_size] ;;;
  modify (set_free_mem_start_addr (ROUNDUP g_kernel_end PGSIZE)) ;;;
  modify (fun s => set_g_mem_size (MIN PKE_MAX_ALLOWABLE_RAM (g_mem_size s)) s) ;;;
  s <- get_st ;;
  (if g_mem_size s <? pke_kernel_size
   then panic "Error when recomputing physical memory size (g_mem_size).
"
   else ret tt) ;;;
  modify (set_free_mem_end_addr (u64 (g_mem_size s + DRAM_BASE))) ;;;
  s <- get_st ;;
  sprint "free physical memory address: [0x%lx, 0x%lx] 
" [VInt (free_mem_start_addr s); VInt (free_mem_end_addr s - 1)] ;;;
  sprint "kernel memory manager is initializing ...
" [] ;;;
  create_freepage_list (free_mem_start_addr s) (free_mem_end_addr s).

(** ** The abstract state: the list of free pages *)

(** The pages [l] are linked from [head] in [m]. *)
Fixpoint linked (m : memory) (head : Z) (l : list Z) : Prop :=
  match l with
  | [] => head = 0
  | p :: l' => head = p /\ linked m (ld64 m p) l'
  end.

(** A page the allocator may own. *)
Definition managed (s : mm) (p : Z) : Prop :=
  ram_page p /\ free_mem_start_addr s <= p < free_mem_end_addr s.

(** The allocator owns exactly the pages [l], each once. *)
Definition pmm_free (s : mm) (l : list Z) : Prop :=
  linked (smem s) (g_free_mem_list s) l /\ NoDup l /\ Forall (managed s) l.

Lemma ram_page_pos p : ram_page p -> 0 < p < 2 ^ 63.
Proof. unfold ram_page. consts. lia. Qed.

Lemma linked_same m m' head l :
  (forall p, p ∈ l -> same_page p m m') -> linked m head l -> linked m' head l.
Proof.
  revert head. induction l as [|p l IH]; intros head Hs; simpl; [done|].
  intros [-> Hl]. split; [done|].
  rewrite <- (loadn_same_on 8 m m' p).
  - apply IH; [|done]. intros q Hq. apply Hs. by right.
  - apply (same_on_sub p (p + PGSIZE)); [lia|consts; lia|apply Hs; by left].
Qed.

(** Writes outside of the free pages leave the allocator alone. *)
Lemma pmm_free_frame s l m' :
  pmm_free s l -> (forall p, p ∈ l -> same_page p (smem s) m') -> pmm_free (put_mem m' s) l.
Proof.
  intros (Hl & Hnd & Hm) Hs. split_and!; [|done|done].
  rewrite smem_put_mem. by apply (linked_same (smem s)).
Qed.

Lemma pmm_free_page s p l : pmm_free s (p :: l) -> ram_page p /\ p ∉ l /\ p <> 0.
Proof.
  intros (_ & Hnd & Hm). apply NoDup_cons in Hnd as [Hn _].
  apply Forall_cons in Hm as [[Hr _] _]. split_and!; [done..|].
  apply ram_page_pos in Hr. lia.
Qed.

(** ** alloc_page: take the first page *)

Lemma alloc_page_nil s : pmm_free s [] -> alloc_page s = Ok 0 s.
Proof. intros (H & _). simpl in H. unfold alloc_page, bind, gets. by rewrite H. Qed.

(** The state after taking the first page; memory is unchanged. *)
Definition alloc_state (s : mm) : mm := set_free_list (ld64 (smem s) (g_free_mem_list s)) s.

Lemma alloc_page_cons s p l :
  pmm_free s (p :: l) ->
  alloc_page s = Ok p (alloc_state s) /\ pmm_free (alloc_state s) l /\
  smem (alloc_state s) = smem s.
Proof.
  intros H. destruct (pmm_free_page _ _ _ H) as (Hr & Hn & Hnz).
  destruct H as ([Hh Hl] & Hnd & Hm).
  split_and!; [| |done].
  - unfold alloc_page, bind, gets, alloc_state. rewrite Hh.
    destruct (Z.eqb_spec p 0) as [|_]; [done|]. simpl. unfold load.
    rewrite (proj2 (ram_ok_iff p (Z.of_nat 8))); [done|].
    destruct Hr as (_ & ? & ?). unfold PGSIZE in *. lia.
  - apply NoDup_cons in Hnd as [_ Hnd]. apply Forall_cons in Hm as [_ Hm].
    split_and!; [|done|done]. unfold alloc_state. simpl. by rewrite Hh.
Qed.

(** ** free_page: put a page at the front, or panic *)

Definition free_state (pa : Z) (s : mm) : mm :=
  set_free_list pa (put_mem (st64 (smem s) pa (g_free_mem_list s)) s).

Lemma free_page_managed s pa :
  managed s pa -> free_page pa s = Ok tt (free_state pa s).
Proof.
  intros [(Ha & Hlo & Hhi) [Hs He]].
  unfold free_page, bind, get_st. unfold page_aligned in Ha. rewrite Ha.
  destruct (Z.ltb_spec pa (free_mem_start_addr s)) as [|_]; [lia|].
  destruct (Z.leb_spec (free_mem_end_addr s) pa) as [|_]; [lia|]. simpl.
  unfold store. rewrite (proj2 (ram_ok_iff pa (Z.of_nat 8))); [done|].
  unfold PGSIZE in *. lia.
Qed.

Lemma free_page_spec s pa l :
  pmm_free s l -> managed s pa -> pa ∉ l ->
  free_page pa s = Ok tt (free_state pa s) /\ pmm_free (free_state pa s) (pa :: l).
Proof.
  intros Hf Hpa Hn. split; [by apply free_page_managed|].
  pose proof Hf as (Hl & Hnd & Hm).
  assert (u64 (g_free_mem_list s) = g_free_mem_list s) as Hu.
  { apply u64_small. destruct l as [|q l]; simpl in Hl; [lia|]. destruct Hl as [-> _].
    apply Forall_cons in Hm as [[Hq _] _]. apply ram_page_pos in Hq. lia. }
  assert (linked (st64 (smem s) pa (g_free_mem_list s)) (g_free_mem_list s) l) as Hl'.
  { apply (linked_same (smem s)); [|done]. intros q Hq. symmetry.
    apply storen_same_on. rewrite Forall_forall in Hm.
    destruct (Hm q Hq) as [(Hqa & _) _]. destruct Hpa as [(Hpa & _) _].
    destruct (page_disjoint q pa) as [?|?]; [done|done|by intros ->|left; lia|right].
    unfold PGSIZE in *. lia. }
  split_and!.
  - cbn [linked]. split; [done|].
    change (smem (free_state pa s)) with (st64 (smem s) pa (g_free_mem_list s)).
    by rewrite ld64_st64, Hu.
  - by apply NoDup_cons.
  - apply Forall_cons. done.
Qed.

(** The error branch: anything that is not an aligned address of the range. *)
Lemma free_page_panics s pa :
  ~ (pa mod PGSIZE = 0 /\ free_mem_start_addr s <= pa < free_mem_end_addr s) ->
  wp (free_page pa) (fun _ _ => False) (fun e s' => e = Shutdown (-1) /\ smem s' = smem s) s.
Proof.
  intros H. unfold free_page. apply wp_bind, wp_get_st.
  assert (negb (pa mod PGSIZE =? 0) || (pa <? free_mem_start_addr s)
          || (free_mem_end_addr s <=? pa) = true) as ->.
  { rewrite !orb_true_iff, negb_true_iff, Z.eqb_neq, Z.ltb_lt, Z.leb_le. lia. }
  by apply wp_panic.
Qed.

(** ** create_freepage_list and pmm_init: the initial list *)

(** The pages [start], [start + PGSIZE], ..., [k] of them. *)
Definition page_seq (start k : Z) : list Z := (fun i => start + PGSIZE * i) <$> seqZ 0 k.

Lemma elem_of_page_seq p start k :
  p ∈ page_seq start k <-> exists i, 0 <= i < k /\ p = start + PGSIZE * i.
Proof.
  unfold page_seq. rewrite list_elem_of_fmap. split.
  - intros (i & -> & Hi). apply elem_of_seqZ in Hi. exists i. split; [lia|done].
  - intros (i & Hi & ->). exists i. split; [done|]. apply elem_of_seqZ. lia.
Qed.

Lemma page_seq_snoc start k :
  0 <= k -> page_seq start (k + 1) = page_seq start k ++ [start + PGSIZE * k].
Proof.
  intros Hk. unfold page_seq. rewrite seqZ_app, fmap_app by lia. by rewrite Z.add_0_l.
Qed.

(** The number of pages the loop of create_freepage_list frees. *)
Definition npages_free (start end_ : Z) : Z := (end_ - start - 1) / PGSIZE.

Definition same_range (s s' : mm) : Prop :=
  free_mem_start_addr s' = free_mem_start_addr s /\
  free_mem_end_addr s' = free_mem_end_addr s /\ g_mem_size s' = g_mem_size s.

Lemma create_freepage_list_spec s start end_ :
  page_aligned start -> DRAM_BASE <= start <= end_ -> end_ <= PHYS_TOP ->
  free_mem_start_addr s = start -> free_mem_end_addr s = end_ ->
  wp (create_freepage_list start end_)
     (fun _ s' => pmm_free s' (reverse (page_seq start (npages_free start end_))) /\
                  same_range s s') never s.
Proof.
  intros Ha Hlo Hhi Hs He. unfold create_freepage_list.
  apply wp_bind, wp_modify.
  rewrite ROUNDUP_aligned by (done || consts; lia).
  set (k := npages_free start end_).
  assert (0 <= end_ - start - 1 - PGSIZE * k < PGSIZE) as Hk.
  { unfold k, npages_free. consts. dlia. }
  apply (wp_loop _ (fun p s' => exists i, 0 <= i <= Z.max 0 k /\ p = start + PGSIZE * i /\
                      pmm_free s' (reverse (page_seq start i)) /\ same_range s s')
                 (fun p _ => PHYS_TOP - p)).
  - exists 0. split_and!; [lia|lia|lia| | |done..]; [by split_and!; [|constructor..]|done].
  - consts. lia.
  - intros p s' (i & Hi & -> & _). consts. lia.
  - intros p s' (i & Hi & -> & Hf & Hr). pose proof Hr as (Hr1 & Hr2 & _).
    rewrite u64_small by (consts; lia).
    destruct (Z.ltb_spec (start + PGSIZE * i + PGSIZE) end_) as [Hlt|Hge].
    + assert (managed s' (start + PGSIZE * i)) as Hm.
      { split; [split|]; [|consts; lia..]. unfold page_aligned in *. consts. dlia. }
      destruct (free_page_spec s' (start + PGSIZE * i) _ Hf Hm) as [Heq Hf'].
      { rewrite elem_of_reverse, elem_of_page_seq. intros (j & Hj & E). consts. lia. }
      apply wp_bind. eapply wp_intro; [exact Heq|]. apply wp_ret. split; [|consts; lia].
      exists (i + 1). split_and!; [lia|consts; lia|lia| |done..].
      by rewrite page_seq_snoc, reverse_snoc by lia.
    + apply wp_ret. assert (k <= i) by (consts; lia).
      assert (page_seq start i = page_seq start k) as <-; [|done].
      destruct (decide (0 <= k)); [f_equal; lia|].
      unfold page_seq. rewrite !seqZ_nil by lia. done.
Qed.

(** pmm_init: when the kernel image fits the memory, the free pages are those
    above the image; otherwise the kernel panics. *)
Section Init.
Context {K : Layout} {HK : LayoutOk K}.

Definition ram_size (s : mm) : Z := MIN PKE_MAX_ALLOWABLE_RAM (g_mem_size s).

Lemma pmm_init_spec s :
  0 <= g_mem_size s < 2 ^ 64 ->
  wp pmm_init
     (fun _ s' => _end - KERN_BASE <= ram_size s /\
        free_mem_start_addr s' = _end /\
        free_mem_end_addr s' = DRAM_BASE + ram_size s /\
        pmm_free s' (reverse (page_seq _end (npages_free _end (DRAM_BASE + ram_size s)))))
     (fun e _ => ram_size s < _end - KERN_BASE /\ e = Shutdown (-1)) s.
Proof.
  intros Hg. unfold pmm_init. pose proof end_page as Hp. pose proof end_top as Ht.
  pose proof trap_sec_range as Hr. pose proof etext_end as Hee.
  assert (0 <= ram_size s <= PKE_MAX_ALLOWABLE_RAM) as Hsz.
  { unfold ram_size, MIN. destruct (Z.ltb_spec PKE_MAX_ALLOWABLE_RAM (g_mem_size s));
      consts; lia. }
  rewrite ROUNDUP_aligned by (done || consts; lia).
  rewrite (u64_small (_end - KERN_BASE)) by (consts; lia).
  apply wp_bind, wp_sprint; [done|].
  apply wp_bind, wp_modify. apply wp_bind, wp_modify. apply wp_bind, wp_get_st.
  match goal with |- context [if g_mem_size ?s0 <? _ then _ else _] =>
    change (g_mem_size s0) with (ram_size s) end.
  destruct (Z.ltb_spec (ram_size s) (_end - KERN_BASE)) as [Hlt|Hge].
  { apply wp_bind, wp_panic. done. }
  apply wp_bind, wp_ret. apply wp_bind, wp_modify. apply wp_bind, wp_get_st.
  apply wp_bind, wp_sprint; [done|]. apply wp_bind, wp_sprint; [done|].
  match goal with |- wp (create_freepage_list ?a ?b) _ _ ?s0 =>
    set (s1 := s0); change a with (free_mem_start_addr s1);
    change b with (free_mem_end_addr s1) end.
  assert (free_mem_start_addr s1 = _end) as Hs1 by done.
  assert (free_mem_end_addr s1 = DRAM_BASE + ram_size s) as He1.
  { change (u64 (ram_size s + DRAM_BASE) = DRAM_BASE + ram_size s).
    rewrite u64_small by (consts; lia). lia. }
  rewrite Hs1, He1.
  eapply wp_mono; [apply create_freepage_list_spec; [done|consts; lia..|done|done]| |done].
  intros _ s' (Hf & Hb1 & Hb2 & _). rewrite Hb1, Hb2. done.
Qed.
End Init.

(** ** Sequences of allocations *)

Fixpoint alloc_many (n : nat) : M mm (list Z) :=
  match n with
  | O => ret []
  | S n' => p <- alloc_page ;; ps <- alloc_many n' ;; ret (p :: ps)
  end.

(** [n] allocations return the first [n] free pages, in order, then NULL. *)
Lemma alloc_many_spec n s l :
  pmm_free s l ->
  exists s', alloc_many n s = Ok (take n l ++ replicate (n - length l) 0) s' /\
             pmm_free s' (drop n l) /\ smem s' = smem s.
Proof.
  revert s l. induction n as [|n IH]; intros s l Hf; [by exists s|].
  cbn [alloc_many]. unfold bind at 1. destruct l as [|p l].
  - rewrite alloc_page_nil by done. unfold bind.
    destruct (IH s [] Hf) as (s' & -> & Hf' & Hm).
    exists s'. rewrite take_nil in *. rewrite drop_nil in *. simpl in *.
    by rewrite Nat.sub_0_r in *.
  - destruct (alloc_page_cons s p l Hf) as (-> & Hf' & Hm'). unfold bind.
    destruct (IH _ _ Hf') as (s' & -> & Hf'' & Hm''). exists s'. rewrite Hm''. done.
Qed.

(** A page that is linked to itself is handed out forever. *)
Lemma alloc_self s p n :
  g_free_mem_list s = p -> ram_page p -> ld64 (smem s) p = p ->
  alloc_many n s = Ok (replicate n p) s.
Proof.
  intros Hh Hr Hld.
  assert (alloc_page s = Ok p s) as Ha.
  { unfold alloc_page, bind, gets. rewrite Hh.
    destruct (Z.eqb_spec p 0) as [->|_]; [by apply ram_page_pos in Hr|].
    simpl negb. cbv iota. unfold load.
    rewrite (proj2 (ram_ok_iff p (Z.of_nat 8))).
    - simpl. unfold set_free_list. change (smem _) with (smem s). rewrite Hld, <- Hh. by destruct s.
    - destruct Hr as (_ & ? & ?). consts. lia. }
  induction n as [|n IH]; [done|]. cbn [alloc_many replicate]. unfold bind at 1.
  rewrite Ha. unfold bind. by rewrite IH.
Qed.

(** Freeing a page when it is already at the front of the list. *)
Lemma free_state_self s p :
  ram_page p -> g_free_mem_list s = p -> ld64 (smem (free_state p s)) p = p.
Proof.
  intros Hr Hh. change (smem (free_state p s)) with (st64 (smem s) p (g_free_mem_list s)).
  rewrite ld64_st64, Hh. apply u64_small. apply ram_page_pos in Hr. lia.
Qed.

(** Freeing a page twice makes the list circular: the same page is handed out
    forever. *)
Lemma double_free_spec s l p n :
  pmm_free s l -> managed s p -> p ∉ l ->
  exists s', (bind (free_page p) (fun _ => free_page p)) s = Ok tt s' /\
             alloc_many n s' = Ok (replicate n p) s'.
Proof.
  intros Hf Hm Hn. exists (free_state p (free_state p s)). split.
  - unfold bind. rewrite free_page_managed by done. by rewrite free_page_managed by done.
  - destruct Hm as [Hr _]. apply alloc_self; [done|done|]. by apply free_state_self.
Qed.

(** * Properties *)

(** C24. After pmm_init the allocator owns, each once and highest first, the
    pages from the end of the kernel image that end strictly below the end of
    the memory it may use; a kernel image larger than this memory is a
    panic. *)
Theorem pmm_init_owns {K : Layout} {HK : LayoutOk K} s :
  0 <= g_mem_size s < 2 ^ 64 ->
  wp pmm_init
     (fun _ s' => _end - KERN_BASE <= ram_size s /\
        free_mem_start_addr s' = _end /\ free_mem_end_addr s' = DRAM_BASE + ram_size s /\
        pmm_free s' (reverse (page_seq _end (npages_free _end (DRAM_BASE + ram_size s)))))
     (fun e _ => ram_size s < _end - KERN_BASE /\ e = Shutdown (-1)) s.
Proof. apply pmm_init_spec. Qed.

(** Any number of allocations in a row returns the free pages in the order
    of the list and then NULL for ever; no page is returned twice, and memory
    does not change. *)
Theorem alloc_pages_distinct n s l :
  pmm_free s l ->
  exists s', alloc_many n s = Ok (take n l ++ replicate (n - length l) 0) s' /\
    NoDup (take n l) /\ Forall (managed s) (take n l) /\
    pmm_free s' (drop n l) /\ smem s' = smem s.
Proof.
  intros Hf. destruct (alloc_many_spec n s l Hf) as (s' & Ha & Hf' & Hm).
  destruct Hf as (_ & Hnd & Hall). exists s'. split_and!; [done| | |done|done].
  - rewrite <- (take_drop n l) in Hnd. by apply NoDup_app in Hnd as [? _].
  - by apply Forall_take.
Qed.

(** free_page on every argument: a page of the managed range that is not
    free becomes the first free page and the next one allocated; anything else
    than an aligned address of the range is a panic that leaves memory
    alone. *)
Theorem free_page_behaviour s l pa :
  pmm_free s l ->
  (managed s pa -> pa ∉ l -> exists s', free_page pa s = Ok tt s' /\ pmm_free s' (pa :: l) /\
     exists s'', alloc_page s' = Ok pa s'' /\ pmm_free s'' l) /\
  (~ (pa mod PGSIZE = 0 /\ free_mem_start_addr s <= pa < free_mem_end_addr s) ->
     wp (free_page pa) (fun _ _ => False) (fun e s' => e = Shutdown (-1) /\ smem s' = smem s) s).
Proof.
  intros Hf. split; [|apply free_page_panics]. intros Hm Hn.
  destruct (free_page_spec s pa l Hf Hm Hn) as [He Hf']. eexists. split_and!; [done|done|].
  destruct (alloc_page_cons _ _ _ Hf') as (Ha & Hf'' & _). eauto.
Qed.

(** C25. free_page does not notice a page that is free already: after freeing a
    page twice the list is circular, and every later allocation returns this
    page. *)
Theorem double_free_circular s l p n :
  pmm_free s l -> managed s p -> p ∉ l ->
  exists s', (bind (free_page p) (fun _ => free_page p)) s = Ok tt s' /\
             alloc_many n s' = Ok (replicate n p) s'.
Proof. apply double_free_spec. Qed.
