(* ===== verification/Fdt.v ===== *)
(** spike_interface/dts_parse.c: the traversal of the flattened device tree
    (FDT) the emulator leaves in memory, with its callbacks.  A big-endian
    token stream is related to a tree by the grammar of the format, and the
    traversal to a walk of this tree. *)
From Stdlib Require Import Btauto.
From S2P Require Import Prelude Mem CString Snprintf Console Pmm.

(** ** Physical accesses

    The tree is read in machine mode, without translation: [phys_ok a n] says
    which ranges of physical addresses the platform can read. *)
Class Platform := { phys_ok : Z -> Z -> bool }.

Section Physical.
Context {S : Type} `{L : !Lens S machine} `{!Platform}.

Definition mload (n : nat) (a : Z) : M S Z :=
  fun s => if phys_ok a (Z.of_nat n) then Ok (loadn n (smem s) a) s
           else Stop (BadAccess a) s.

Definition mstore (n : nat) (a v : Z) : M S unit :=
  fun s => if phys_ok a (Z.of_nat n) then Ok tt (put_mem (storen n (smem s) a v) s)
           else Stop (BadAccess a) s.
End Physical.

(** ** dts_parse.h *)
Definition FDT_MAGIC : Z := 0xd00dfeed.
Definition FDT_VERSION : Z := 17.
Definition FDT_BEGIN_NODE : Z := 1.
Definition FDT_END_NODE : Z := 2.
Definition FDT_PROP : Z := 3.
Definition FDT_NOP : Z := 4.
Definition FDT_END : Z := 9.

(** Offsets of struct fdt_header. *)
Definition fdt_magic : Z := 0.
Definition fdt_off_dt_struct : Z := 8.
Definition fdt_off_dt_strings : Z := 12.
Definition fdt_last_comp_version : Z := 24.

(** A node points to its parent.  The fields of the parent do not change
    while its child is scanned, so the child holds a copy. *)
Inductive fdt_scan_node : Type :=
  FdtNode (parent : option fdt_scan_node) (name address_cells size_cells : Z).

Definition node_parent (n : fdt_scan_node) : option fdt_scan_node :=
  match n with FdtNode p _ _ _ => p end.
Definition node_name (n : fdt_scan_node) : Z := match n with FdtNode _ a _ _ => a end.
Definition address_cells (n : fdt_scan_node) : Z := match n with FdtNode _ _ a _ => a end.
Definition size_cells (n : fdt_scan_node) : Z := match n with FdtNode _ _ _ z => z end.
Definition set_address_cells (a : Z) (n : fdt_scan_node) : fdt_scan_node :=
  FdtNode (node_parent n) (node_name n) a (size_cells n).
Definition set_size_cells (z : Z) (n : fdt_scan_node) : fdt_scan_node :=
  FdtNode (node_parent n) (node_name n) (address_cells n) z.

Record fdt_scan_prop := FdtProp {
  prop_node : option fdt_scan_node;
  prop_name : Z;   (* char * *)
  prop_value : Z;  (* uint32 * *)
  prop_len : Z     (* in bytes of value *)
}.

(** The callbacks; [None] is a null function pointer. *)
Record fdt_cb (S : Type) := FdtCb {
  cb_open : option (fdt_scan_node -> M S unit);
  cb_prop : fdt_scan_prop -> M S unit;
  cb_done : option (fdt_scan_node -> M S unit);
  cb_close : option (fdt_scan_node -> M S Z)
}.
Arguments FdtCb {S}.
Arguments cb_open {S}.
Arguments cb_prop {S}.
Arguments cb_done {S}.
Arguments cb_close {S}.

Definition bswap (x : Z) : Z :=
  let y := Z.lor (u32 (Z.shiftl (Z.land x 0x00FF00FF) 8))
                 (Z.shiftr (Z.land x 0xFF00FF00) 8) in
  Z.lor (u32 (Z.shiftl (Z.land y 0x0000FFFF) 16)) (Z.shiftr (Z.land y 0xFFFF0000) 16).

Section Code.
Context {S : Type} `{L : !Lens S machine} `{!Platform}.

(** strcmp with a string literal. *)
Fixpoint strcmp_lit (str1 : Z) (lit : list byte) : M S Z :=
  c1 <- mload 1 str1 ;;
  match lit with
  | [] => ret (c1 - 0)
  | b :: lit' =>
      if negb (c1 =? 0) && (c1 =? byte.unsigned b) then strcmp_lit (str1 + 1) lit'
      else ret (c1 - byte.unsigned b)
  end.

Definition str_eq (str : Z) (lit : string) : M S bool :=
  r <- strcmp_lit str (String.list_byte_of_string lit) ;;
  ret (r =? 0).

(** strlen, on physical memory; it stops at the latest where memory does. *)
Definition mstrlen (fuel : positive) (str : Z) : M S Z :=
  p <- loop fuel (fun p =>
         c <- mload 1 p ;;
         if c =? 0 then ret (inr p) else ret (inl (p + 1))) str ;;
  ret (p - str).

(** [bswap(lex[i])] *)
Definition word (lex i : Z) : M S Z :=
  x <- mload 4 (lex + 4 * i) ;;
  ret (bswap x).

(** [if (node && !strcmp(prop.name, lit)) node->field = bswap(lex[3]);] *)
Definition set_cells (lit : string) (set : Z -> fdt_scan_node -> fdt_scan_node)
    (lex name : Z) (node : option fdt_scan_node) : M S (option fdt_scan_node) :=
  match node with
  | None => ret None
  | Some n =>
      eq <- str_eq name lit ;;
      if (eq : bool) then
        v <- word lex 3 ;;
        ret (Some (set (s32 v) n))
      else ret node
  end.

(** A call through a pointer that may be null. *)
Definition call_opt {X} (f : option (X -> M S unit)) (x : option X) : M S unit :=
  match f, x with
  | Some f, Some x => f x
  | _, _ => ret tt
  end.

(** [if (!last && node && cb->done) cb->done(node, cb->extra);] *)
Definition call_done (cb : fdt_cb S) (last : bool) (node : option fdt_scan_node) : M S unit :=
  if last then ret tt else call_opt (cb_done cb) node.

(** [while (lex != lex_next) *lex++ = bswap(FDT_NOP);] *)
Definition erase_node (lex lex_next : Z) : M S unit :=
  loop (2 ^ 62) (fun lex =>
    if lex =? lex_next then ret (inr tt)
    else
      mstore 4 lex (bswap FDT_NOP) ;;;
      ret (inl (u64 (lex + 4)))) lex.

(** fdt_scan_helper, from an iteration of its loop on: [cells] are the cell
    counts of the local [child], which is one variable for all the children.
    A call starts with [(2, 1)] and [last = false].  The result is the
    position after the node and [*node]. *)
Fixpoint fdt_scan_helper (fuel : nat) (lex strings : Z) (node : option fdt_scan_node)
    (cb : fdt_cb S) (cells : Z * Z) (last : bool) : M S (Z * option fdt_scan_node) :=
  match fuel with
  | O => halt OutOfFuel
  | Datatypes.S fuel' =>
      t <- word lex 0 ;;
      if t =? FDT_NOP then fdt_scan_helper fuel' (lex + 4) strings node cb cells last
      else if t =? FDT_PROP then
        assert_ (negb last) "spike_interface/dts_parse.c" 36 "!last" ;;;
        off <- word lex 2 ;;
        let name := u64 (strings + off) in
        len <- word lex 1 ;;
        let len := s32 len in
        let value := lex + 12 in
        node <- set_cells "#address-cells" set_address_cells lex name node ;;
        node <- set_cells "#size-cells" set_size_cells lex name node ;;
        n <- (if len + 3 <? 2 ^ 31 then ret (3 + (len + 3) ÷ 4) else halt Undefined) ;;
        cb_prop cb (FdtProp node name value len) ;;;
        fdt_scan_helper fuel' (lex + 4 * n) strings node cb cells last
      else if t =? FDT_BEGIN_NODE then
        call_done cb last node ;;;
        let child := FdtNode node (lex + 4) (fst cells) (snd cells) in
        call_opt (cb_open cb) (Some child) ;;;
        len <- mstrlen (2 ^ 62) (lex + 4) ;;
        r <- fdt_scan_helper fuel' (lex + 4 * (2 + len / 4)) strings (Some child) cb (2, 1) false ;;
        let lex_next := fst r in
        let child := default child (snd r) in
        match cb_close cb with
        | None => ret tt
        | Some close =>
            v <- close child ;;
            if v =? -1 then erase_node lex lex_next else ret tt
        end ;;;
        fdt_scan_helper fuel' lex_next strings node cb
          (address_cells child, size_cells child) true
      else if t =? FDT_END_NODE then
        call_done cb last node ;;;
        ret (lex + 4, node)
      else
        call_done cb last node ;;;
        ret (lex, node)
  end.

(** The loops of fdt_get_address and fdt_get_size. *)
Fixpoint get_cells (cells : nat) (value result : Z) : M S (Z * Z) :=
  match cells with
  | O => ret (value, result)
  | Datatypes.S cells' =>
      v <- word value 0 ;;
      get_cells cells' (value + 4) (u64 (u64 (Z.shiftl result 32) + v))
  end.

Definition fdt_get_address (node : fdt_scan_node) (value : Z) : M S (Z * Z) :=
  get_cells (Z.to_nat (address_cells node)) value 0.

Definition fdt_get_size (node : fdt_scan_node) (value : Z) : M S (Z * Z) :=
  get_cells (Z.to_nat (size_cells node)) value 0.

Definition fdt_scan (fuel : nat) (fdt : Z) (cb : fdt_cb S) : M S unit :=
  magic <- word (fdt + fdt_magic) 0 ;;
  version <- word (fdt + fdt_last_comp_version) 0 ;;
  if negb (magic =? FDT_MAGIC) || (FDT_VERSION <? version) then ret tt
  else
    off <- word (fdt + fdt_off_dt_strings) 0 ;;
    let strings := u64 (fdt + off) in
    off <- word (fdt + fdt_off_dt_struct) 0 ;;
    let lex := u64 (fdt + off) in
    fdt_scan_helper fuel lex strings None cb (2, 1) false ;;;
    ret tt.
End Code.

(** ** The format *)

(** A node with the addresses of its name, of its properties and their values,
    and its children. *)
Record dprop := DProp { d_name : Z; d_value : Z; d_len : Z }.
Inductive dtree : Type := DNode (name : Z) (props : list dprop) (children : list dtree).

Section Grammar.
Context (m : memory) (lo hi strings : Z).

(** The big-endian word at [a], inside of the blob [lo, hi). *)
Definition token (a v : Z) : Prop := lo <= a /\ a + 4 <= hi /\ bswap (ld32 m a) = v.

(** Room for the longest string the kernel compares with. *)
Definition room (a : Z) : Prop := lo <= a /\ a + 16 <= hi.

Inductive fdt_props : Z -> list dprop -> Z -> Prop :=
| fdt_props_nil a : fdt_props a [] a
| fdt_props_nop a ps b : token a FDT_NOP -> fdt_props (a + 4) ps b -> fdt_props a ps b
| fdt_props_cons a len off ps b :
    token a FDT_PROP -> token (a + 4) len -> token (a + 8) off ->
    len + 3 < 2 ^ 31 -> room (a + 12) -> room (strings + off) ->
    fdt_props (a + 12 + 4 * ((len + 3) / 4)) ps b ->
    fdt_props a (DProp (strings + off) (a + 12) len :: ps) b.

Inductive fdt_node : Z -> dtree -> Z -> Prop :=
| fdt_node_intro a bs ps b kids c :
    token a FDT_BEGIN_NODE -> cstr m (a + 4) bs -> a + 4 + Z.of_nat (length bs) + 1 <= hi ->
    fdt_props (a + 4 * (2 + Z.of_nat (length bs) / 4)) ps b ->
    fdt_nodes b kids c -> token c FDT_END_NODE ->
    fdt_node a (DNode (a + 4) ps kids) (c + 4)
with fdt_nodes : Z -> list dtree -> Z -> Prop :=
| fdt_nodes_nil a : fdt_nodes a [] a
| fdt_nodes_nop a l b : token a FDT_NOP -> fdt_nodes (a + 4) l b -> fdt_nodes a l b
| fdt_nodes_cons a t b l c : fdt_node a t b -> fdt_nodes b l c -> fdt_nodes a (t :: l) c.

(** A whole blob at [fdt]: a header the kernel accepts and a tree. *)
Definition fdt_blob (fdt : Z) (roots : list dtree) : Prop :=
  token (fdt + fdt_magic) FDT_MAGIC /\
  (exists v, token (fdt + fdt_last_comp_version) v /\ v <= FDT_VERSION) /\
  (exists off, token (fdt + fdt_off_dt_strings) off /\ strings = fdt + off) /\
  (exists off b, token (fdt + fdt_off_dt_struct) off /\ fdt_nodes (fdt + off) roots b /\
                 token b FDT_END).
End Grammar.

Scheme fdt_node_mut := Induction for fdt_node Sort Prop
  with fdt_nodes_mut := Induction for fdt_nodes Sort Prop.

(** The string [lit] and its NUL lie at [a]. *)
Definition str_is (m : memory) (a : Z) (lit : string) : bool :=
  let bs := String.list_byte_of_string lit in
  bool_decide (load_bytes m a (length bs + 1) = bs ++ [Byte.x00]).

(** ** The walk of a tree *)
Section Walk.
Context {S : Type} (cb : fdt_cb S) (m : memory).

(** A property changes the cell counts of its node. *)
Definition upd_cells (p : dprop) (n : fdt_scan_node) : fdt_scan_node :=
  let v := s32 (bswap (ld32 m (d_value p))) in
  let n := if str_is m (d_name p) "#address-cells" then set_address_cells v n else n in
  if str_is m (d_name p) "#size-cells" then set_size_cells v n else n.

Fixpoint walk_props (n : fdt_scan_node) (ps : list dprop) : M S fdt_scan_node :=
  match ps with
  | [] => ret n
  | p :: ps' =>
      let n := upd_cells p n in
      cb_prop cb (FdtProp (Some n) (d_name p) (d_value p) (d_len p)) ;;;
      walk_props n ps'
  end.

(** [f] over a list, the result of one call being given to the next. *)
Fixpoint thread {X C} (f : C -> X -> M S C) (c : C) (l : list X) : M S C :=
  match l with
  | [] => ret c
  | x :: l' => c <- f c x ;; thread f c l'
  end.

(** A node is opened, its properties are seen, it is done, and its children
    follow.  The first child starts with the default cell counts (2, 1), any
    other with the counts its elder sibling ended with. *)
Fixpoint walk_node (node : option fdt_scan_node) (cells : Z * Z) (t : dtree) : M S (Z * Z) :=
  match t with
  | DNode name ps kids =>
      let n := FdtNode node name (fst cells) (snd cells) in
      call_opt (cb_open cb) (Some n) ;;;
      n <- walk_props n ps ;;
      call_opt (cb_done cb) (Some n) ;;;
      thread (walk_node (Some n)) (2, 1) kids ;;;
      ret (address_cells n, size_cells n)
  end.
End Walk.

(** ** Big-endian words *)

Lemma bswap_lor x y : bswap (Z.lor x y) = Z.lor (bswap x) (bswap y).
Proof.
  unfold bswap, u32, wrap. rewrite <- !Z.land_ones by lia.
  rewrite ?Z.land_lor_distr_l, ?Z.shiftl_lor, ?Z.land_lor_distr_l, ?Z.shiftr_lor.
  rewrite ?Z.land_lor_distr_l, ?Z.shiftl_lor, ?Z.land_lor_distr_l, ?Z.shiftr_lor.
  rewrite ?Z.land_lor_distr_l.
  apply Z.bits_inj'. intros n Hn. rewrite !Z.lor_spec. btauto.
Qed.

Lemma bswap_byte b i :
  (i < 4)%nat ->
  bswap (Z.shiftl (byte.unsigned b) (8 * Z.of_nat i)) =
  Z.shiftl (byte.unsigned b) (8 * Z.of_nat (3 - i)).
Proof.
  intros Hi. do 4 (destruct i as [|i]; [destruct b; vm_compute; reflexivity|]). lia.
Qed.

Lemma le_combine_4 (a b c d : byte) :
  le_combine [a; b; c; d] =
  Z.lor (Z.shiftl (byte.unsigned a) (8 * Z.of_nat 0))
    (Z.lor (Z.shiftl (byte.unsigned b) (8 * Z.of_nat 1))
      (Z.lor (Z.shiftl (byte.unsigned c) (8 * Z.of_nat 2))
             (Z.shiftl (byte.unsigned d) (8 * Z.of_nat 3)))).
Proof.
  unfold le_combine. rewrite !Z.shiftl_lor, !Z.shiftl_shiftl by lia.
  rewrite Z.shiftl_0_l, Z.lor_0_r, Z.shiftl_0_r. done.
Qed.

(** bswap reverses the bytes of a word. *)
Lemma bswap_le_combine (a b c d : byte) :
  bswap (le_combine [a; b; c; d]) = le_combine [d; c; b; a].
Proof.
  rewrite !le_combine_4, !bswap_lor, !bswap_byte by lia. cbn [Nat.sub].
  apply Z.bits_inj'. intros n Hn. rewrite !Z.lor_spec. btauto.
Qed.

Lemma load_bytes_4 m a : exists b0 b1 b2 b3, load_bytes m a 4 = [b0; b1; b2; b3].
Proof. simpl. eauto. Qed.

Lemma bswap_ld32_range m a : 0 <= bswap (ld32 m a) < 2 ^ 32.
Proof.
  unfold loadn. destruct (load_bytes_4 m a) as (b0 & b1 & b2 & b3 & ->).
  rewrite bswap_le_combine. apply (le_combine_bound [b3; b2; b1; b0]).
Qed.

(** ** The traversal is the walk *)

(** A closed string without NUL. *)
Ltac no_nul := apply (bool_decide_unpack _); vm_compute; exact I.

Section Scan.
Context {S : Type} `{L : !Lens S machine} `{P : !Platform} (m : memory) (lo hi strings : Z).
Context (Hphys : forall a n, lo <= a -> a + n <= hi -> phys_ok a n = true).
Context (Hlo : 0 <= lo) (Hhi : hi <= 2 ^ 62).
Implicit Types s : S.

(** The memory that holds the blob does not change. *)
Definition quiet {A} (c : M S A) : Prop :=
  forall s, smem s = m -> wp c (fun _ s' => smem s' = m) (fun _ _ => True) s.

Lemma quiet_ret {A} (a : A) : quiet (ret a).
Proof. by intros s Hs. Qed.

Lemma quiet_bind {A B} (c : M S A) (f : A -> M S B) :
  quiet c -> (forall a, quiet (f a)) -> quiet (bind c f).
Proof.
  intros Hc Hf s Hs. apply wp_bind. eapply wp_mono; [by apply Hc| |done].
  intros a s' Hs'. by apply Hf.
Qed.

Lemma quiet_mload n a : quiet (mload n a).
Proof. intros s Hs. unfold wp, mload. by destruct (phys_ok a (Z.of_nat n)). Qed.

Lemma quiet_word lex i : quiet (word lex i).
Proof. apply quiet_bind; [apply quiet_mload|]. intros x. apply quiet_ret. Qed.

Lemma quiet_strcmp_lit lit a : quiet (strcmp_lit a lit).
Proof.
  revert a. induction lit as [|b lit IH]; intros a; (apply quiet_bind; [apply quiet_mload|]);
    intros c; simpl; [apply quiet_ret|]. destruct (_ && _); [apply IH|apply quiet_ret].
Qed.

Lemma quiet_str_eq a lit : quiet (str_eq a lit).
Proof. apply quiet_bind; [apply quiet_strcmp_lit|]. intros r. apply quiet_ret. Qed.

Lemma quiet_get_cells n a acc : quiet (get_cells n a acc).
Proof.
  revert a acc. induction n as [|n IH]; intros a acc; simpl; [apply quiet_ret|].
  apply quiet_bind; [apply quiet_word|]. intros v. apply IH.
Qed.

Lemma quiet_loop {X R} fuel (body : X -> M S (X + R)) x :
  (forall x, quiet (body x)) -> quiet (loop fuel body x).
Proof.
  intros Hb. apply quiet_bind; [|by intros [y|v]; [intros s Hs|apply quiet_ret]].
  revert x. induction fuel as [p IH|p IH|]; intros x; simpl.
  - apply quiet_bind; [apply quiet_bind; [apply Hb|]|]; intros [y|v];
      (apply quiet_ret || apply IH).
  - apply quiet_bind; [apply IH|]. intros [y|v]; (apply quiet_ret || apply IH).
  - apply Hb.
Qed.

Lemma quiet_assert b file line x : quiet (assert_ b file line x).
Proof.
  unfold assert_. destruct b; [apply quiet_ret|]. unfold die, poweroff.
  assert (forall fmt vl, quiet (sprint fmt vl)) as Hp.
  { intros fmt vl. unfold sprint, vprintk.
    destruct (vsnprintf _ _ _ _) as [[res out]|]; [|by intros s Hs].
    intros s Hs. apply wp_modify. by rewrite smem_write_stderr. }
  apply quiet_bind; [apply Hp|]. intros _. apply quiet_bind; [apply Hp|]. by intros _ s Hs.
Qed.

Lemma bind_quiet {A B} (c : M S A) (f g : A -> M S B) s :
  quiet c -> smem s = m -> (forall a s', smem s' = m -> f a s' = g a s') ->
  bind c f s = bind c g s.
Proof.
  intros Hc Hs Hfg. specialize (Hc s Hs). unfold bind, wp in *.
  destruct (c s); [by apply Hfg|done].
Qed.

Lemma mload_eq n a s :
  lo <= a -> a + Z.of_nat n <= hi -> smem s = m -> mload n a s = Ok (loadn n m a) s.
Proof. intros H1 H2 Hs. unfold mload. by rewrite Hphys, Hs. Qed.

Lemma word_eq lex i s :
  lo <= lex + 4 * i -> lex + 4 * i + 4 <= hi -> smem s = m ->
  word lex i s = Ok (bswap (ld32 m (lex + 4 * i))) s.
Proof. intros ???. unfold word, bind. by rewrite mload_eq. Qed.

Lemma word_token lex i v s :
  token m lo hi (lex + 4 * i) v -> smem s = m -> word lex i s = Ok v s.
Proof. intros (H1 & H2 & <-) Hs. by apply word_eq. Qed.

Lemma strcmp_lit_spec lit a s :
  Byte.x00 ∉ lit -> lo <= a -> a + Z.of_nat (length lit) + 1 <= hi -> smem s = m ->
  exists v, strcmp_lit a lit s = Ok v s /\
            (v = 0 <-> load_bytes m a (length lit + 1) = lit ++ [Byte.x00]).
Proof.
  revert a. induction lit as [|b lit IH]; intros a Hnz H1 H2 Hs; simpl in *;
    unfold bind; rewrite mload_eq by (try lia; done).
  - eexists; split; [done|]. unfold loadn. simpl. unfold le_combine.
    rewrite Z.shiftl_0_l, Z.lor_0_r. split.
    + intros E. f_equal. apply byte.unsigned_inj. rewrite Z.sub_0_r in E. by rewrite E.
    + intros E. injection E as E. by rewrite E.
  - apply not_elem_of_cons in Hnz as [Hb Hnz].
    set (c := default Byte.x00 (m !! a)).
    assert (loadn 1 m a = byte.unsigned c) as ->.
    { unfold loadn. simpl. unfold le_combine. by rewrite Z.shiftl_0_l, Z.lor_0_r. }
    destruct (Z.eqb_spec (byte.unsigned c) 0) as [Hc0|Hc0]; simpl.
    + eexists; split; [done|]. assert (c <> b) as Hcb.
      { intros ->. apply Hb. apply byte.unsigned_inj. by rewrite Hc0. }
      split; [|by intros [= E]]. intros E. destruct Hcb. apply byte.unsigned_inj. lia.
    + destruct (Z.eqb_spec (byte.unsigned c) (byte.unsigned b)) as [E|E].
      * apply byte.unsigned_inj in E as ->.
        destruct (IH (a + 1)) as (v & -> & Hv); try done; [lia|lia|].
        exists v. split; [done|]. rewrite Hv. split; [by intros ->|by intros [=]].
      * eexists; split; [done|]. split; [lia|]. intros [= E' _]. congruence.
Qed.

Lemma str_eq_spec lit a s :
  Byte.x00 ∉ String.list_byte_of_string lit -> lo <= a ->
  a + Z.of_nat (length (String.list_byte_of_string lit)) + 1 <= hi -> smem s = m ->
  str_eq a lit s = Ok (str_is m a lit) s.
Proof.
  intros Hnz H1 H2 Hs. unfold str_eq, bind, str_is.
  destruct (strcmp_lit_spec (String.list_byte_of_string lit) a s) as (v & -> & Hv); try done.
  simpl. unfold ret. f_equal. case_bool_decide as Hd; destruct (Z.eqb_spec v 0); tauto.
Qed.

Lemma mstrlen_spec a bs s :
  cstr m a bs -> lo <= a -> a + Z.of_nat (length bs) + 1 <= hi -> smem s = m ->
  mstrlen (2 ^ 62) a s = Ok (Z.of_nat (length bs)) s.
Proof.
  intros Hc H1 H2 Hs.
  destruct (wp_ok (mstrlen (2 ^ 62) a) (fun v s' => v = Z.of_nat (length bs) /\ s' = s) s)
    as (v & s' & -> & -> & ->); [|done].
  unfold mstrlen. apply wp_bind.
  apply (wp_loop _ (fun p s' => s' = s /\ exists l, cstr m p l /\ a <= p /\
                      p + Z.of_nat (length l) = a + Z.of_nat (length bs))
           (fun p _ => a + Z.of_nat (length bs) - p)).
  - eauto with lia.
  - lia.
  - intros p s' (_ & l & _ & _ & ?). lia.
  - intros p s' (-> & l & Hl & Hp & Hlen). apply wp_bind. unfold wp at 1.
    destruct l as [|b l].
    + rewrite mload_eq by (simpl in *; lia || done).
      rewrite (cstr_nil _ _ Hl). simpl. apply wp_ret, wp_ret. simpl in Hlen. split; [lia|done].
    + simpl in Hlen. rewrite mload_eq by (simpl in *; lia || done).
      apply cstr_cons in Hl as (_ & Hnz & Hl).
      destruct (Z.eqb_spec (ld8 m p) 0); [done|]. apply wp_ret.
      split; [|lia]. split; [done|]. exists l. split_and!; [done|lia|lia].
Qed.
Lemma set_cells_spec lit set lex name n s :
  Byte.x00 ∉ String.list_byte_of_string lit ->
  (length (String.list_byte_of_string lit) < 16)%nat ->
  room lo hi name -> room lo hi (lex + 12) -> smem s = m ->
  set_cells lit set lex name (Some n) s =
  Ok (Some (if str_is m name lit then set (s32 (bswap (ld32 m (lex + 12)))) n else n)) s.
Proof.
  intros Hnz Hlen [H1 H2] [H3 H4] Hs. simpl. unfold bind at 1.
  rewrite str_eq_spec by (done || lia).
  destruct (str_is m name lit); [|done]. unfold bind.
  rewrite word_eq by (done || lia). by rewrite (Z.add_comm lex (4 * 3)), (Z.add_comm lex 12).
Qed.

Context (cb : fdt_cb S).

(** Callbacks that leave the memory of the blob alone. *)
Record quiet_cb : Prop := QuietCb {
  quiet_open f n : cb_open cb = Some f -> quiet (f n);
  quiet_prop p : quiet (cb_prop cb p);
  quiet_done f n : cb_done cb = Some f -> quiet (f n);
  no_close : cb_close cb = None
}.

Context (Hcb : quiet_cb).

Lemma quiet_call_open n : quiet (call_opt (cb_open cb) (Some n)).
Proof. simpl. destruct (cb_open cb) eqn:E; [by apply (quiet_open Hcb)|apply quiet_ret]. Qed.

Lemma quiet_call_done last node : quiet (call_done cb last node).
Proof.
  unfold call_done, call_opt. destruct last; [apply quiet_ret|].
  destruct (cb_done cb) eqn:E; [|apply quiet_ret].
  destruct node; [by apply (quiet_done Hcb)|apply quiet_ret].
Qed.

Lemma call_done_None last : call_done cb last None = ret tt.
Proof. unfold call_done, call_opt. by destruct last, (cb_done cb). Qed.

Lemma quiet_walk_props ps n : quiet (walk_props cb m n ps).
Proof.
  revert n. induction ps as [|p ps IH]; intros n; simpl; [apply quiet_ret|].
  apply quiet_bind; [apply (quiet_prop Hcb)|]. intros _. apply IH.
Qed.

Lemma quiet_thread {X C} (f : C -> X -> M S C) c l :
  Forall (fun x => forall c, quiet (f c x)) l -> quiet (thread f c l).
Proof.
  intros Hq. revert c. induction Hq as [|x l Hx _ IH]; intros c; simpl; [apply quiet_ret|].
  apply quiet_bind; [apply Hx|apply IH].
Qed.

Fixpoint quiet_walk_node node cells t {struct t} : quiet (walk_node cb m node cells t).
Proof.
  destruct t as [name ps kids]. simpl.
  apply quiet_bind; [apply quiet_call_open|]. intros _.
  apply quiet_bind; [apply quiet_walk_props|]. intros n.
  apply quiet_bind; [apply (quiet_call_done false (Some n))|]. intros _.
  apply quiet_bind; [|intros; apply quiet_ret]. apply quiet_thread.
  induction kids as [|k kids IH]; constructor; [|apply IH].
  intros c. apply quiet_walk_node.
Qed.

Lemma word_token_0 a v s : token m lo hi a v -> smem s = m -> word a 0 s = Ok v s.
Proof. intros Ht. apply word_token. by rewrite Z.mul_0_r, Z.add_0_r. Qed.

Lemma scan_nop fuel a node cells last s :
  token m lo hi a FDT_NOP -> smem s = m ->
  fdt_scan_helper (Datatypes.S fuel) a strings node cb cells last s =
  fdt_scan_helper fuel (a + 4) strings node cb cells last s.
Proof. intros Ht Hs. simpl. by erewrite bind_ok; [|by apply word_token_0|done]. Qed.

(** A token that ends a list of nodes. *)
Lemma scan_end fuel a v node cells last s :
  token m lo hi a v -> v = FDT_END_NODE \/ v = FDT_END -> smem s = m ->
  fdt_scan_helper (Datatypes.S fuel) a strings node cb cells last s =
  (call_done cb last node ;;; ret (if v =? FDT_END_NODE then a + 4 else a, node)) s.
Proof.
  intros Ht Hv Hs. simpl. erewrite bind_ok; [|by apply word_token_0|done].
  by destruct Hv as [-> | ->].
Qed.

Lemma scan_prop fuel a len off n cells s :
  token m lo hi a FDT_PROP -> token m lo hi (a + 4) len -> token m lo hi (a + 8) off ->
  len + 3 < 2 ^ 31 -> room lo hi (a + 12) -> room lo hi (strings + off) -> smem s = m ->
  let p := DProp (strings + off) (a + 12) len in
  fdt_scan_helper (Datatypes.S fuel) a strings (Some n) cb cells false s =
  (cb_prop cb (FdtProp (Some (upd_cells m p n)) (strings + off) (a + 12) len) ;;;
   fdt_scan_helper fuel (a + 12 + 4 * ((len + 3) / 4)) strings (Some (upd_cells m p n)) cb
     cells false) s.
Proof.
  intros Ht Hl Ho Hlen Hv Hn Hs p.
  assert (len = bswap (ld32 m (a + 4))) as El by (by destruct Hl as (_ & _ & <-)).
  pose proof (bswap_ld32_range m (a + 4)) as Hr. rewrite <- El in Hr.
  assert (u64 (strings + off) = strings + off) as Eu.
  { apply u64_small. destruct Hn. lia. }
  cbn [fdt_scan_helper]. rewrite (bind_step _ _ _ _ _ (word_token_0 _ _ _ Ht Hs)).
  change (FDT_PROP =? FDT_NOP) with false. change (FDT_PROP =? FDT_PROP) with true. cbv iota.
  rewrite (bind_step tt s) by done.
  rewrite (bind_step off s) by (apply word_token; [by replace (a + 4 * 2) with (a + 8) by lia|done]).
  rewrite (bind_step len s) by (by apply word_token).
  rewrite Eu, (s32_small len) by lia.
  rewrite (bind_step _ _ _ _ _ (set_cells_spec "#address-cells" _ _ _ _ _ ltac:(no_nul)
             ltac:(simpl; lia) Hn Hv Hs)).
  rewrite (bind_step _ _ _ _ _ (set_cells_spec "#size-cells" _ _ _ _ _ ltac:(no_nul)
             ltac:(simpl; lia) Hn Hv Hs)).
  destruct (Z.ltb_spec (len + 3) (2 ^ 31)) as [_|]; [|lia].
  rewrite (bind_step (3 + (len + 3) / 4) s) by (by rewrite Z.quot_div_nonneg by lia).
  by replace (a + 4 * (3 + (len + 3) / 4)) with (a + 12 + 4 * ((len + 3) / 4)) by lia.
Qed.

Lemma fdt_props_le a ps b : fdt_props m lo hi strings a ps b -> a <= b.
Proof.
  induction 1 as [a|a ps b _ _ IH|a len off ps b _ Hl _ Hlen _ _ _ IH]; [lia|lia|].
  destruct Hl as (_ & _ & <-). pose proof (bswap_ld32_range m (a + 4)). dlia.
Qed.

(** A run of the properties of a node. *)
Lemma scan_props a ps b :
  fdt_props m lo hi strings a ps b -> forall fuel n cells,
  b - a <= 4 * Z.of_nat fuel ->
  exists fuel', 4 * Z.of_nat fuel - (b - a) <= 4 * Z.of_nat fuel' /\
    forall s, smem s = m ->
    fdt_scan_helper fuel a strings (Some n) cb cells false s =
    (n' <- walk_props cb m n ps ;;
     fdt_scan_helper fuel' b strings (Some n') cb cells false) s.
Proof.
  induction 1 as [a|a ps b Ht Hps IH|a len off ps b Ht Hl Ho Hlen Hv Hn Hps IH];
    intros fuel n cells Hf.
  - exists fuel. split; [lia|done].
  - apply fdt_props_le in Hps. destruct fuel as [|fuel]; [lia|].
    destruct (IH fuel n cells) as (f' & Hf' & Heq); [lia|].
    exists f'. split; [lia|]. intros s Hs. rewrite scan_nop by done. by apply Heq.
  - apply fdt_props_le in Hps.
    assert (0 <= len) by (destruct Hl as (_ & _ & <-); apply bswap_ld32_range).
    assert (0 <= (len + 3) / 4) by dlia.
    destruct fuel as [|fuel]; [lia|].
    set (n' := upd_cells m (DProp (strings + off) (a + 12) len) n).
    destruct (IH fuel n' cells) as (f' & Hf' & Heq); [lia|].
    exists f'. split; [lia|]. intros s Hs.
    rewrite (scan_prop _ _ len off) by done. simpl. rewrite bind_assoc.
    apply bind_quiet; [apply (quiet_prop Hcb)|done|]. intros _ s' Hs'. by apply Heq.
Qed.

Lemma fdt_nodes_le b l c : fdt_nodes m lo hi strings b l c -> b <= c.
Proof.
  apply (fdt_nodes_mut m lo hi strings (fun a _ e _ => a <= e) (fun b _ c _ => b <= c));
    intros; try lia.
  apply fdt_props_le in f. assert (0 <= Z.of_nat (length bs) / 4) by dlia. lia.
Qed.

Lemma fdt_node_le a t e : fdt_node m lo hi strings a t e -> a + 8 <= e.
Proof.
  destruct 1 as [a bs ps b kids c _ _ _ Hps Hkids _].
  apply fdt_props_le in Hps. apply fdt_nodes_le in Hkids.
  assert (0 <= Z.of_nat (length bs) / 4) by dlia. lia.
Qed.

(** The first iteration on a node: the whole node is scanned. *)
Definition scans_node a t e : Prop :=
  forall fuel node cells last s,
  e - a <= 4 * Z.of_nat fuel -> smem s = m ->
  fdt_scan_helper (Datatypes.S fuel) a strings node cb cells last s =
  (call_done cb last node ;;;
   c <- walk_node cb m node cells t ;;
   fdt_scan_helper fuel e strings node cb c true) s.

(** A list of nodes, up to the token that ends it. *)
Definition scans_nodes b l c : Prop :=
  forall v fuel node cells last s,
  token m lo hi c v -> v = FDT_END_NODE \/ v = FDT_END ->
  c - b + 4 <= 4 * Z.of_nat fuel -> smem s = m ->
  fdt_scan_helper fuel b strings node cb cells last s =
  (call_done cb last node ;;;
   thread (walk_node cb m node) cells l ;;;
   ret (if v =? FDT_END_NODE then c + 4 else c, node)) s.

Lemma scan_node a bs ps b kids c :
  token m lo hi a FDT_BEGIN_NODE -> cstr m (a + 4) bs ->
  a + 4 + Z.of_nat (length bs) + 1 <= hi ->
  fdt_props m lo hi strings (a + 4 * (2 + Z.of_nat (length bs) / 4)) ps b ->
  b <= c -> scans_nodes b kids c -> token m lo hi c FDT_END_NODE ->
  scans_node a (DNode (a + 4) ps kids) (c + 4).
Proof.
  intros Ht Hname Hlen Hps Hbc Hkids Hc fuel node cells last s Hf Hs.
  pose proof (fdt_props_le _ _ _ Hps).
  assert (0 <= Z.of_nat (length bs) / 4) by dlia.
  cbn [fdt_scan_helper walk_node]. rewrite (bind_step _ _ _ _ _ (word_token_0 _ _ _ Ht Hs)).
  change (FDT_BEGIN_NODE =? FDT_NOP) with false. change (FDT_BEGIN_NODE =? FDT_PROP) with false.
  change (FDT_BEGIN_NODE =? FDT_BEGIN_NODE) with true. cbv iota.
  apply bind_quiet; [apply quiet_call_done|done|]. intros _ s1 Hs1.
  rewrite bind_assoc. set (child := FdtNode node (a + 4) (fst cells) (snd cells)).
  apply bind_quiet; [apply quiet_call_open|done|]. intros _ s2 Hs2.
  erewrite bind_step; [|apply mstrlen_spec; [done|destruct Ht; lia|done|done]].
  destruct (scan_props _ _ _ Hps fuel child (2, 1)) as (f' & Hf' & Heq); [lia|].
  rewrite bind_assoc, (bind_congr_l _ _ _ _ (Heq s2 Hs2)), bind_assoc.
  apply bind_quiet; [apply quiet_walk_props|done|]. intros n s3 Hs3.
  rewrite (bind_congr_l _ _ _ _ (Hkids FDT_END_NODE f' (Some n) (2, 1) false s3 Hc
             (or_introl eq_refl) ltac:(lia) Hs3)).
  rewrite !bind_assoc.
  apply bind_quiet; [apply (quiet_call_done false)|done|]. intros _ s4 Hs4.
  rewrite !bind_assoc. apply bind_quiet; [|done|].
  { apply quiet_thread, Forall_forall. intros t _ cl. apply quiet_walk_node. }
  intros _ s5 Hs5. unfold bind, ret. simpl. by rewrite (no_close Hcb).
Qed.

Lemma scan_nodes_spec b l c : fdt_nodes m lo hi strings b l c -> scans_nodes b l c.
Proof.
  apply (fdt_nodes_mut m lo hi strings (fun a t e _ => scans_node a t e)
           (fun b l c _ => scans_nodes b l c)).
  - intros a bs ps b' kids c' Ht Hname Hlen Hps Hk IH Hc.
    eapply scan_node; try done. by apply fdt_nodes_le in Hk.
  - intros a v fuel node cells last s Ht Hv Hf Hs. destruct fuel as [|fuel]; [lia|].
    rewrite (scan_end _ _ v) by done. apply bind_quiet; [apply quiet_call_done|done|].
    by intros _ s' _.
  - intros a l' b' Ht Hl IH v fuel node cells last s Hc Hv Hf Hs. apply fdt_nodes_le in Hl.
    destruct fuel as [|fuel]; [lia|]. rewrite scan_nop by done.
    apply (IH v); try done. lia.
  - intros a t e l' c' Hn IHn Hl IHl v fuel node cells last s Hc Hv Hf Hs.
    apply fdt_node_le in Hn. apply fdt_nodes_le in Hl.
    destruct fuel as [|fuel]; [lia|]. rewrite IHn by (done || lia).
    apply bind_quiet; [apply quiet_call_done|done|]. intros _ s1 Hs1.
    cbn [thread]. rewrite bind_assoc.
    apply bind_quiet; [apply quiet_walk_node|done|]. intros cl s2 Hs2.
    rewrite (IHl v) by (done || lia). by apply bind_ok with tt s2.
Qed.

(** fdt_scan on a well-formed blob: the walk of its trees. *)
Lemma fdt_scan_spec fuel fdt roots s :
  fdt_blob m lo hi strings fdt roots -> 0 <= fdt -> hi - fdt <= 4 * Z.of_nat fuel ->
  smem s = m ->
  fdt_scan fuel fdt cb s = (thread (walk_node cb m None) (2, 1) roots ;;; ret tt) s.
Proof.
  intros (Hmagic & (v & Hv & Hver) & (o1 & Ho1 & Estr) & (o2 & e & Ho2 & Hn & He)) Hfdt Hf Hs.
  assert (forall a o, token m lo hi a o -> 0 <= o < 2 ^ 32) as Hpos.
  { intros a o (_ & _ & <-). apply bswap_ld32_range. }
  pose proof (Hpos _ _ Ho1). pose proof (Hpos _ _ Ho2).
  assert (fdt <= hi) by (destruct Hmagic; unfold fdt_magic in *; lia). unfold fdt_scan.
  rewrite (bind_step FDT_MAGIC s) by (by apply word_token_0).
  rewrite (bind_step v s) by (by apply word_token_0).
  rewrite Z.eqb_refl. destruct (Z.ltb_spec FDT_VERSION v) as [|_]; [lia|]. cbn [negb orb].
  rewrite (bind_step o1 s) by (by apply word_token_0).
  rewrite (bind_step o2 s) by (by apply word_token_0).
  rewrite !u64_small by lia. rewrite <- Estr.
  erewrite bind_congr_l; [|eapply (scan_nodes_spec _ _ _ Hn FDT_END); try done].
  - rewrite call_done_None, !bind_assoc. apply (bind_ok tt s); [done|]. rewrite bind_assoc.
    apply bind_quiet; [|done|].
    { apply quiet_thread, Forall_forall. intros t _ cl. apply quiet_walk_node. }
    by intros _ s' _.
  - by right.
  - destruct He. lia.
Qed.
End Scan.

(** The kernel can read the range [lo, hi) of physical memory. *)
Definition readable `{Platform} (lo hi : Z) : Prop :=
  0 <= lo /\ hi <= 2 ^ 62 /\ forall a n, lo <= a -> a + n <= hi -> phys_ok a n = true.

(** * Properties *)

(** C33. fdt_scan terminates on every well-formed device tree, whatever its depth,
    its padding and the NOPs in it, with a bound of one token per word of the
    blob; it makes exactly the calls of a recursive walk of the tree (open,
    the properties in order, done, the children), for any callbacks that
    leave the blob alone, whatever they return or however they stop. *)
Theorem fdt_scan_walks {S} `{L : !Lens S machine} `{P : !Platform} (cb : fdt_cb S)
    lo hi strings fuel fdt roots (s : S) :
  readable lo hi -> quiet_cb (smem s) cb -> 0 <= fdt -> hi - fdt <= 4 * Z.of_nat fuel ->
  fdt_blob (smem s) lo hi strings fdt roots ->
  fdt_scan fuel fdt cb s = (thread (walk_node cb (smem s) None) (2, 1) roots ;;; ret tt) s.
Proof. intros (? & ? & ?) Hcb Hfdt Hf Hblob. by eapply fdt_scan_spec. Qed.
