(* ===== verification/Devices.v ===== *)
(** spike_interface/spike_memory.c and the discovery part of spike_htif.c: what
    the kernel learns from the device tree.  [query_mem] stores the size of the
    memory that contains the kernel, [query_htif] whether the host interface is
    there; both are functions of the tree. *)
From S2P Require Import Prelude Mem CString Snprintf Console Pmm Fdt.

(** ** spike_memory.c *)

(** struct mem_scan; a null [reg_value] is 0. *)
Record mem_scan := MemScan { memory_ : Z; reg_value : Z; reg_len : Z }.
Definition zero_mem_scan : mem_scan := MemScan 0 0 0.

(** The callbacks run over the local [scan] beside the state of the machine. *)
#[export] Instance lens_local {T S U} (L : Lens S U) : Lens (T * S) U | 50.
Proof.
  refine {| lget := fun s => lget (snd s); lput := fun u s => (fst s, lput u (snd s)) |}.
  - intros. apply lget_lput.
  - intros []. simpl. by rewrite lput_lget.
  - intros. simpl. by rewrite lput_lput.
Defined.

Definition with_local {T S A} (x : T) (c : M (T * S) A) : M S A :=
  fun s => match c (x, s) with
           | Ok a s' => Ok a (snd s')
           | Stop e s' => Stop e (snd s')
           end.

Definition set_local {T S} (f : T -> T) : M (T * S) unit := modify (fun s => (f (fst s), snd s)).

Section Memory.
Context {S : Type} `{LM : !Lens S mm} `{!Platform}.

#[local] Instance lens_machine_mm : Lens S machine | 60 := lens_comp LM lens_mm_machine.

Definition mem_open (node : fdt_scan_node) : M (mem_scan * S) unit :=
  set_local (fun _ => zero_mem_scan).

Definition mem_prop (prop : fdt_scan_prop) : M (mem_scan * S) unit :=
  is_type <- str_eq (prop_name prop) "device_type" ;;
  is_mem <- (if (is_type : bool) then str_eq (prop_value prop) "memory" else ret false) ;;
  if (is_mem : bool) then set_local (fun sc => MemScan 1 (reg_value sc) (reg_len sc))
  else
    is_reg <- str_eq (prop_name prop) "reg" ;;
    if (is_reg : bool)
    then set_local (fun sc => MemScan (memory_ sc) (prop_value prop) (prop_len prop))
    else ret tt.

(** A pointer to a node is dereferenced. *)
Definition deref_node (n : option fdt_scan_node) : M (mem_scan * S) fdt_scan_node :=
  match n with
  | Some n => ret n
  | None => halt (BadAccess 0)
  end.

(** mem_done; [self] is the address of mem_done itself.  The bound on the loop
    is the length of the value, since a round reads at least one cell unless
    both cell counts are zero. *)
Definition mem_done (self : Z) (node : fdt_scan_node) : M (mem_scan * S) unit :=
  scan <- gets fst ;;
  let value := reg_value scan in
  let end_ := value + 4 * (reg_len scan ÷ 4) in
  if memory_ scan =? 0 then ret tt
  else
    assert_ (negb (reg_value scan =? 0) && (Z.rem (reg_len scan) 4 =? 0))
      "spike_interface/spike_memory.c" 41 "scan->reg_value && scan->reg_len % 4 == 0" ;;;
    value <- loop (Z.to_pos (reg_len scan + 1)) (fun value =>
      if 0 <? end_ - value then
        p <- deref_node (node_parent node) ;;
        r <- fdt_get_address p value ;;
        let base := snd r in
        r <- fdt_get_size p (fst r) ;;
        let size := snd r in
        (if (base <=? self) && (self <=? u64 (base + size))
         then modify (fun s => (fst s, lput (set_g_mem_size size (lget (snd s))) (snd s)))
         else ret tt) ;;;
        ret (inl (fst r))
      else ret (inr value)) value ;;
    assert_ (end_ =? value) "spike_interface/spike_memory.c" 51 "end == value".

Definition query_mem (fuel : nat) (self fdt : Z) : M S unit :=
  modify (fun s => lput (set_g_mem_size 0 (lget s)) s) ;;;
  with_local zero_mem_scan
    (fdt_scan fuel fdt (FdtCb (Some mem_open) mem_prop (Some (mem_done self)) None)) ;;;
  s <- get_st ;;
  assert_ (0 <? g_mem_size (lget s)) "spike_interface/spike_memory.c" 67 "g_mem_size > 0".
End Memory.

(** ** spike_htif.c: discovery *)

(** The global [htif]. *)
Record htif_var := HtifVar { htif : Z }.

Section Htif.
Context {S : Type} `{L : !Lens S machine} `{LH : !Lens S htif_var} `{!Platform}.

(** struct htif_scan is its one field [compat]. *)
Definition htif_open (node : fdt_scan_node) : M (Z * S) unit := set_local (fun _ => 0).

Definition htif_prop (prop : fdt_scan_prop) : M (Z * S) unit :=
  is_compat <- str_eq (prop_name prop) "compatible" ;;
  is_htif <- (if (is_compat : bool) then str_eq (prop_value prop) "ucb,htif0" else ret false) ;;
  if (is_htif : bool) then set_local (fun _ => 1) else ret tt.

Definition htif_done (node : fdt_scan_node) : M (Z * S) unit :=
  compat <- gets fst ;;
  if compat =? 0 then ret tt
  else modify (fun s => (fst s, lput (HtifVar 1) (snd s))).

Definition query_htif (fuel : nat) (fdt : Z) : M S unit :=
  with_local 0
    (fdt_scan fuel fdt (FdtCb (Some htif_open) htif_prop (Some htif_done) None)).
End Htif.

(** ** The size of memory, as a function of the tree *)

Section Sizes.
Context (m : memory) (self : Z).

Definition words (a : Z) (n : nat) : list Z :=
  map (fun i => bswap (ld32 m (a + 4 * Z.of_nat i))) (seq 0 n).

(** The number of a list of 32-bit cells, most significant first. *)
Definition be_num (ws : list Z) : Z := foldl (fun acc w => acc * 2 ^ 32 + w) 0 ws.

Definition cells_num (a : Z) (n : Z) : Z := u64 (be_num (words a (Z.to_nat n))).

(** The first [k] pairs of a base and a size at [a]. *)
Definition regions (ac sc a : Z) (k : nat) : list (Z * Z) :=
  map (fun i => let a' := a + 4 * (ac + sc) * Z.of_nat i in
                (cells_num a' ac, cells_num (a' + 4 * ac) sc)) (seq 0 k).

(** The sizes of those that contain [self]. *)
Definition own_sizes (l : list (Z * Z)) : list Z :=
  map snd (filter (fun b => fst b <= self <= u64 (fst b + snd b)) l).

(** The cell counts of a node that starts with [cells]. *)
Definition node_cells (cells : Z * Z) (ps : list dprop) : Z * Z :=
  foldl (fun c p =>
    let v := s32 (bswap (ld32 m (d_value p))) in
    (if str_is m (d_name p) "#address-cells" then v else fst c,
     if str_is m (d_name p) "#size-cells" then v else snd c)) cells ps.

Definition is_memory (ps : list dprop) : bool :=
  existsb (fun p => str_is m (d_name p) "device_type" && str_is m (d_value p) "memory") ps.

(** The last property [reg]. *)
Definition reg_of (ps : list dprop) : option dprop :=
  last (filter (fun p => str_is m (d_name p) "reg" = true) ps).

(** The sizes of the regions of a node that contain [self]; [pc] are the cell
    counts of its parent. *)
Definition node_sizes (pc : option (Z * Z)) (ps : list dprop) : list Z :=
  match is_memory ps, pc, reg_of ps with
  | true, Some (ac, sc), Some r =>
      own_sizes (regions ac sc (d_value r) (Z.to_nat (d_len r / (4 * (ac + sc)))))
  | _, _, _ => []
  end.

Definition t_props (t : dtree) : list dprop := match t with DNode _ ps _ => ps end.

(** The same for a tree, in the order of the scan. *)
Fixpoint mem_sizes (pc : option (Z * Z)) (cells : Z * Z) (t : dtree) : list Z :=
  match t with
  | DNode _ ps kids =>
      let c := node_cells cells ps in
      node_sizes pc ps ++
      (fix go (cells : Z * Z) (l : list dtree) : list Z :=
         match l with
         | [] => []
         | k :: l' => mem_sizes (Some c) cells k ++ go (node_cells cells (t_props k)) l'
         end) (2, 1) kids
  end.

(** A memory node has a parent whose cell counts divide its non-empty [reg]. *)
Definition mem_node_ok (hi : Z) (pc : option (Z * Z)) (ps : list dprop) : bool :=
  if is_memory ps then
    match pc, reg_of ps with
    | Some (ac, sc), Some r =>
        (0 <=? ac) && (0 <=? sc) && (0 <? ac + sc) && (0 <? d_value r) && (0 <=? d_len r) &&
        (d_len r mod (4 * (ac + sc)) =? 0) && (d_value r + d_len r <=? hi)
    | _, _ => false
    end
  else true.

Fixpoint mem_tree_ok (hi : Z) (pc : option (Z * Z)) (cells : Z * Z) (t : dtree) : bool :=
  match t with
  | DNode _ ps kids =>
      let c := node_cells cells ps in
      mem_node_ok hi pc ps &&
      (fix go (cells : Z * Z) (l : list dtree) : bool :=
         match l with
         | [] => true
         | k :: l' => mem_tree_ok hi (Some c) cells k && go (node_cells cells (t_props k)) l'
         end) (2, 1) kids
  end.

(** The scan of a list of sibling nodes. *)
Fixpoint list_sizes (pc : option (Z * Z)) (cells : Z * Z) (l : list dtree) : list Z :=
  match l with
  | [] => []
  | k :: l' => mem_sizes pc cells k ++ list_sizes pc (node_cells cells (t_props k)) l'
  end.

Fixpoint list_ok (hi : Z) (pc : option (Z * Z)) (cells : Z * Z) (l : list dtree) : bool :=
  match l with
  | [] => true
  | k :: l' => mem_tree_ok hi pc cells k && list_ok hi pc (node_cells cells (t_props k)) l'
  end.

Lemma mem_sizes_node pc cells name ps kids :
  mem_sizes pc cells (DNode name ps kids) =
  node_sizes pc ps ++ list_sizes (Some (node_cells cells ps)) (2, 1) kids.
Proof.
  simpl. f_equal. generalize (2, 1). induction kids as [|k kids IH]; intros c; simpl; [done|].
  by rewrite IH.
Qed.

Lemma mem_tree_ok_node hi pc cells name ps kids :
  mem_tree_ok hi pc cells (DNode name ps kids) =
  mem_node_ok hi pc ps && list_ok hi (Some (node_cells cells ps)) (2, 1) kids.
Proof.
  simpl. f_equal. generalize (2, 1). induction kids as [|k kids IH]; intros c; simpl; [done|].
  by rewrite IH.
Qed.
End Sizes.

(** Induction on a tree, with the hypothesis for all the children. *)
Section DtreeInd.
Context (P : dtree -> Prop) (Hnode : forall name ps kids, Forall P kids -> P (DNode name ps kids)).

Fixpoint dtree_ind' (t : dtree) : P t :=
  match t with
  | DNode name ps kids =>
      Hnode name ps kids
        ((fix go (l : list dtree) : Forall P l :=
            match l with
            | [] => Forall_nil_2 P
            | k :: l' => Forall_cons_2 P k l' (dtree_ind' k) (go l')
            end) kids)
  end.
End DtreeInd.

(** The properties of every node have room around them. *)
Inductive tree_room (lo hi : Z) : dtree -> Prop :=
| tree_room_intro name ps kids :
    Forall (fun p => room lo hi (d_name p) /\ room lo hi (d_value p)) ps ->
    Forall (tree_room lo hi) kids -> tree_room lo hi (DNode name ps kids).

Lemma tree_room_inv lo hi name ps kids :
  tree_room lo hi (DNode name ps kids) ->
  Forall (fun p => room lo hi (d_name p) /\ room lo hi (d_value p)) ps /\
  Forall (tree_room lo hi) kids.
Proof. by inversion 1. Qed.

Definition parent_cells (n : option fdt_scan_node) : option (Z * Z) :=
  (fun p => (address_cells p, size_cells p)) <$> n.

Section MemProofs.
Context {S : Type} `{LM : !Lens S mm} `{P : !Platform} (m : memory) (lo hi self : Z).
Context (Hphys : forall a n, lo <= a -> a + n <= hi -> phys_ok a n = true).
Context (Hlo : 0 <= lo) (Hhi : hi <= 2 ^ 62).
Implicit Types (s : S).

#[local] Existing Instance lens_machine_mm | 60.

Definition put_size (z : Z) s : S := lput (set_g_mem_size z (lget s)) s.
Definition put_sizes (l : list Z) s : S :=
  match last l with None => s | Some z => put_size z s end.

Lemma smem_put_size z s : smem (put_size z s) = smem s.
Proof. unfold smem, put_size. simpl. by rewrite lget_lput. Qed.

Lemma g_mem_size_put_size z s : g_mem_size (lget (put_size z s)) = z.
Proof. unfold put_size. by rewrite lget_lput. Qed.

Lemma put_size_put_size z z' s : put_size z (put_size z' s) = put_size z s.
Proof. unfold put_size. by rewrite lget_lput, lput_lput. Qed.

Lemma smem_put_sizes l s : smem (put_sizes l s) = smem s.
Proof. unfold put_sizes. destruct (last l); [apply smem_put_size|done]. Qed.

Lemma put_sizes_app l l' s : put_sizes (l ++ l') s = put_sizes l' (put_sizes l s).
Proof.
  unfold put_sizes. rewrite last_app. destruct (last l'); [|done].
  destruct (last l); [|done]. by rewrite put_size_put_size.
Qed.

(** What mem_prop does to the scan structure. *)
Definition mem_scan_prop (sc : mem_scan) (p : dprop) : mem_scan :=
  if str_is m (d_name p) "device_type" && str_is m (d_value p) "memory"
  then MemScan 1 (reg_value sc) (reg_len sc)
  else if str_is m (d_name p) "reg" then MemScan (memory_ sc) (d_value p) (d_len p)
  else sc.

Lemma str_eq_room lit a (t : mem_scan * S) :
  Byte.x00 ∉ String.list_byte_of_string lit ->
  (length (String.list_byte_of_string lit) < 16)%nat ->
  room lo hi a -> smem (snd t) = m -> str_eq a lit t = Ok (str_is m a lit) t.
Proof.
  intros Hnz Hlen [H1 H2] Ht. apply (str_eq_spec m lo hi Hphys); [done|done|lia|done].
Qed.

Lemma mem_prop_spec n p sc s :
  room lo hi (d_name p) -> room lo hi (d_value p) -> smem s = m ->
  mem_prop (FdtProp n (d_name p) (d_value p) (d_len p)) (sc, s) = Ok tt (mem_scan_prop sc p, s).
Proof.
  intros Hn Hv Hs. unfold mem_prop, mem_scan_prop. simpl.
  erewrite bind_step; [|apply str_eq_room; [no_nul|simpl; lia|done|done]].
  destruct (str_is m (d_name p) "device_type"); simpl.
  - erewrite bind_step; [|apply str_eq_room; [no_nul|simpl; lia|done|done]].
    destruct (str_is m (d_value p) "memory"); [done|].
    erewrite bind_step; [|apply str_eq_room; [no_nul|simpl; lia|done|done]].
    by destruct (str_is m (d_name p) "reg").
  - rewrite (bind_step false (sc, s)) by done.
    erewrite bind_step; [|apply str_eq_room; [no_nul|simpl; lia|done|done]].
    by destruct (str_is m (d_name p) "reg").
Qed.

Lemma device_type_not_reg a : str_is m a "device_type" = true -> str_is m a "reg" = false.
Proof.
  unfold str_is. intros H%bool_decide_eq_true. apply bool_decide_eq_false. intros H'.
  simpl in *. injection H as H _. injection H' as H' _. congruence.
Qed.

(** The scan structure after all the properties of a node. *)
Lemma mem_scan_props ps :
  foldl mem_scan_prop zero_mem_scan ps =
  MemScan (if is_memory m ps then 1 else 0) (from_option d_value 0 (reg_of m ps))
          (from_option d_len 0 (reg_of m ps)).
Proof.
  induction ps as [|p ps IH] using rev_ind; [done|].
  rewrite foldl_snoc, IH. unfold mem_scan_prop, is_memory, reg_of.
  rewrite existsb_app, filter_app, last_app. simpl. rewrite orb_false_r.
  rewrite filter_cons, filter_nil.
  destruct (str_is m (d_name p) "device_type") eqn:Hd; simpl.
  - rewrite (device_type_not_reg _ Hd). rewrite decide_False by done. simpl.
    destruct (str_is m (d_value p) "memory"); simpl; by rewrite ?orb_true_r, ?orb_false_r.
  - rewrite orb_false_r. destruct (str_is m (d_name p) "reg"); [by rewrite decide_True|].
    by rewrite decide_False.
Qed.

Lemma words_S a n :
  words m a (Datatypes.S n) = bswap (ld32 m a) :: words m (a + 4) n.
Proof.
  unfold words. simpl. rewrite <- seq_shift, map_map. f_equal.
  - do 2 f_equal. lia.
  - apply map_ext. intros i. do 2 f_equal. lia.
Qed.

Lemma get_cells_spec n a acc (t : mem_scan * S) :
  lo <= a -> a + 4 * Z.of_nat n <= hi -> smem (snd t) = m ->
  get_cells n a (u64 acc) t =
  Ok (a + 4 * Z.of_nat n, u64 (foldl (fun acc w => acc * 2 ^ 32 + w) acc (words m a n))) t.
Proof.
  revert a acc. induction n as [|n IH]; intros a acc H1 H2 Ht; cbn [get_cells].
  - unfold ret. simpl. do 2 f_equal. lia.
  - erewrite bind_step; [|apply (word_eq m lo hi Hphys); [lia|lia|done]].
    rewrite words_S. cbn [foldl].
    replace (a + 4 * 0) with a by lia.
    replace (u64 (u64 (Z.shiftl (u64 acc) 32) + bswap (ld32 m a)))
      with (u64 (acc * 2 ^ 32 + bswap (ld32 m a))).
    2: { rewrite u64_add_u64, Z.shiftl_mul_pow2 by lia. unfold u64, wrap.
         rewrite (Zplus_mod (acc mod 2 ^ 64 * 2 ^ 32)), Zmult_mod_idemp_l.
         by rewrite <- Zplus_mod. }
    rewrite IH by (done || lia). do 2 f_equal. lia.
Qed.

Lemma get_cells_num n a (t : mem_scan * S) :
  0 <= n -> lo <= a -> a + 4 * n <= hi -> smem (snd t) = m ->
  get_cells (Z.to_nat n) a 0 t = Ok (a + 4 * n, cells_num m a n) t.
Proof.
  intros Hn H1 H2 Ht. pose proof (get_cells_spec (Z.to_nat n) a 0 t) as H.
  rewrite Z2Nat.id in H by done. by apply H.
Qed.

Lemma regions_S ac sc a k :
  regions m ac sc a (Datatypes.S k) =
  regions m ac sc a k ++
    [let a' := a + 4 * (ac + sc) * Z.of_nat k in
     (cells_num m a' ac, cells_num m (a' + 4 * ac) sc)].
Proof. unfold regions. by rewrite seq_S, map_app. Qed.

Lemma own_sizes_snoc l base size :
  own_sizes self (l ++ [(base, size)]) =
  own_sizes self l ++
    (if (base <=? self) && (self <=? u64 (base + size)) then [size] else []).
Proof.
  unfold own_sizes. rewrite filter_app, map_app. f_equal. rewrite filter_cons, filter_nil. simpl.
  destruct (Z.leb_spec base self), (Z.leb_spec self (u64 (base + size))); simpl;
    case_decide; done || lia.
Qed.

(** One round of the loop of mem_done. *)
Lemma own_region_step base size (sc : mem_scan) l s :
  (if (base <=? self) && (self <=? u64 (base + size))
   then modify (fun t : mem_scan * S =>
                  (fst t, lput (set_g_mem_size size (lget (snd t))) (snd t)))
   else ret tt) (sc, put_sizes (own_sizes self l) s) =
  Ok tt (sc, put_sizes (own_sizes self (l ++ [(base, size)])) s).
Proof.
  rewrite own_sizes_snoc, put_sizes_app.
  destruct ((base <=? self) && (self <=? u64 (base + size))); [|done].
  unfold modify. do 2 f_equal.
Qed.

Lemma mem_done_loop p ac sc value len (sc' : mem_scan) s :
  address_cells p = ac -> size_cells p = sc ->
  0 <= ac -> 0 <= sc -> 0 < ac + sc -> 0 <= len -> len mod (4 * (ac + sc)) = 0 ->
  lo <= value -> value + len <= hi -> smem s = m ->
  wp (loop (Z.to_pos (len + 1)) (fun v : Z =>
        if 0 <? value + len - v then
          p <- deref_node (Some p) ;;
          r <- fdt_get_address p v ;;
          let base := snd r in
          r <- fdt_get_size p (fst r) ;;
          let size := snd r in
          (if (base <=? self) && (self <=? u64 (base + size))
           then modify (fun t : mem_scan * S =>
                          (fst t, lput (set_g_mem_size size (lget (snd t))) (snd t)))
           else ret tt) ;;;
          ret (inl (fst r))
        else ret (inr v)) value)
     (fun v t => v = value + len /\
        t = (sc', put_sizes (own_sizes self
               (regions m ac sc value (Z.to_nat (len / (4 * (ac + sc)))))) s))
     never (sc', s).
Proof.
  intros Hac Hsc Ha Hz Hpos Hlen Hmod Hv1 Hv2 Hs.
  set (w := 4 * (ac + sc)) in *. assert (0 < w) by lia.
  apply (wp_loop_bound _ (fun n v t => exists k : nat, v = value + w * Z.of_nat k /\ v <= value + len /\
           n = value + len - v /\
           t = (sc', put_sizes (own_sizes self (regions m ac sc value k)) s)) _ _ _ len).
  - exists 0%nat. split_and!; [lia|lia|lia|done].
  - lia.
  - intros n v t (k & _ & ? & -> & _). lia.
  - intros n v t (k & -> & Hk & -> & ->).
    destruct (Z.ltb_spec 0 (value + len - (value + w * Z.of_nat k))) as [Hlt|Hge].
    + assert (w * Z.of_nat k + w <= len) as Hw.
      { apply aligned_lt; [done| |done|lia]. rewrite Z.mul_comm. by apply Z_mod_mult. }
      apply wp_bind, wp_ret. unfold fdt_get_address, fdt_get_size. rewrite Hac, Hsc.
      assert (0 <= w * Z.of_nat k) by nia.
      eapply wp_bind_ok; [apply get_cells_num; [done|lia|lia|simpl; by rewrite smem_put_sizes]|].
      eapply wp_bind_ok; [apply get_cells_num; simpl; [done|lia|lia|by rewrite smem_put_sizes]|].
      cbn [fst snd]. eapply wp_bind_ok; [apply own_region_step|]. apply wp_ret.
      exists (value + len - (value + w * Z.of_nat (Datatypes.S k))). split; [lia|].
      exists (Datatypes.S k). rewrite regions_S. split_and!; [simpl; lia|simpl; lia|simpl; lia|done].
    + apply wp_ret. split; [lia|]. do 5 f_equal.
      replace len with (Z.of_nat k * w) by lia.
      by rewrite Z.div_mul, Nat2Z.id by lia.
Qed.

Lemma mem_done_spec n ps s :
  mem_node_ok m hi (parent_cells (node_parent n)) ps = true ->
  Forall (fun p => room lo hi (d_value p)) ps -> smem s = m ->
  let sc := foldl mem_scan_prop zero_mem_scan ps in
  mem_done self n (sc, s) =
  Ok tt (sc, put_sizes (node_sizes m self
               (parent_cells (node_parent n)) ps) s).
Proof.
  intros Hok Hroom Hs sc. unfold sc. rewrite mem_scan_props.
  unfold mem_done, mem_node_ok, node_sizes in *.
  rewrite (bind_step _ _ _ _ _ (eq_refl : gets fst _ = Ok _ _)). simpl.
  destruct (is_memory m ps); simpl in *; [|done].
  destruct (node_parent n) as [p|]; simpl in *; [|done].
  destruct (reg_of m ps) as [r|] eqn:Hr; simpl; [|done].
  rewrite !andb_true_iff, !Z.leb_le, !Z.ltb_lt, Z.eqb_eq in Hok.
  destruct Hok as ((((((Ha & Hz) & Hpos) & Hv) & Hlen) & Hmod) & Hend).
  assert (lo <= d_value r) as Hlv.
  { apply last_Some_elem_of, list_elem_of_filter in Hr as [_ Hr].
    rewrite Forall_forall in Hroom. by destruct (Hroom _ Hr). }
  assert (d_len r mod 4 = 0) as Hm4.
  { apply Z.mod_divide in Hmod as [k ->]; [|lia].
    replace (k * (4 * (address_cells p + size_cells p)))
      with (k * (address_cells p + size_cells p) * 4) by lia. apply Z_mod_mult. }
  rewrite Z.rem_mod_nonneg, Hm4, Z.quot_div_nonneg by lia.
  destruct (Z.eqb_spec (d_value r) 0) as [|_]; [lia|]. simpl.
  rewrite (bind_step _ _ _ _ _ (eq_refl : ret tt _ = Ok _ _)).
  replace (4 * (d_len r / 4)) with (d_len r) by dlia.
  pose proof (mem_done_loop p _ _ (d_value r) (d_len r) (MemScan 1 (d_value r) (d_len r)) s
                eq_refl eq_refl Ha Hz Hpos Hlen Hmod Hlv Hend Hs) as Hl.
  apply wp_ok in Hl as (v & t & Hl & -> & ->).
  rewrite (bind_step _ _ _ _ _ Hl). by rewrite Z.eqb_refl.
Qed.

(** The callbacks of query_mem. *)
Definition mem_cb : fdt_cb (mem_scan * S) :=
  FdtCb (Some mem_open) mem_prop (Some (mem_done self)) None.

Lemma walk_props_mem n ps (sc : mem_scan) s :
  Forall (fun p => room lo hi (d_name p) /\ room lo hi (d_value p)) ps -> smem s = m ->
  walk_props mem_cb m n ps (sc, s) =
  Ok (foldl (fun n p => upd_cells m p n) n ps) (foldl mem_scan_prop sc ps, s).
Proof.
  intros Hr Hs. revert n sc. induction Hr as [|p ps [Hn Hv] _ IH]; intros n sc; [done|].
  cbn [walk_props foldl]. erewrite bind_step; [|by apply mem_prop_spec]. apply IH.
Qed.

Lemma upd_cells_foldl ps n :
  let c := node_cells m (address_cells n, size_cells n) ps in
  foldl (fun n p => upd_cells m p n) n ps = FdtNode (node_parent n) (node_name n) (fst c) (snd c).
Proof.
  revert n. induction ps as [|p ps IH]; intros n; [by destruct n|].
  simpl. rewrite IH. unfold upd_cells.
  by destruct (str_is m (d_name p) "#address-cells"), (str_is m (d_name p) "#size-cells").
Qed.

(** The walk of [t] stores the last of its sizes. *)
Definition stores_sizes (t : dtree) : Prop := forall pn cells (sc : mem_scan) s,
  tree_room lo hi t -> mem_tree_ok m hi (parent_cells pn) cells t = true -> smem s = m ->
  exists sc',
    walk_node mem_cb m pn cells t (sc, s) =
    Ok (node_cells m cells (t_props t))
       (sc', put_sizes (mem_sizes m self (parent_cells pn) cells t) s).

Lemma thread_mem kids pn : Forall stores_sizes kids -> forall cells (sc : mem_scan) s,
  Forall (tree_room lo hi) kids -> list_ok m hi (parent_cells pn) cells kids = true ->
  smem s = m ->
  exists c' sc',
    thread (walk_node mem_cb m pn) cells kids (sc, s) =
    Ok c' (sc', put_sizes (list_sizes m self (parent_cells pn) cells kids) s).
Proof.
  induction 1 as [|k kids Hk _ IH]; intros cells sc s Hroom Hok Hs; [by eexists _, _|].
  apply Forall_cons in Hroom as [Hr Hrs]. simpl in Hok. apply andb_prop in Hok as [Hok Hoks].
  cbn [thread list_sizes].
  destruct (Hk pn cells sc s Hr Hok Hs) as [sc1 E]. rewrite (bind_step _ _ _ _ _ E).
  destruct (IH (node_cells m cells (t_props k)) sc1
              (put_sizes (mem_sizes m self (parent_cells pn) cells k) s))
    as (c2 & sc2 & E2); [done|done|by rewrite smem_put_sizes|].
  rewrite put_sizes_app. eauto.
Qed.

Lemma walk_mem t : stores_sizes t.
Proof.
  induction t as [name ps kids IH] using dtree_ind'.
  intros pn cells sc s Hroom Hok Hs. apply tree_room_inv in Hroom as [Hps Hkids].
  rewrite mem_tree_ok_node in Hok. apply andb_prop in Hok as [Hok Hoks].
  cbn [walk_node]. set (n0 := FdtNode pn name (fst cells) (snd cells)).
  rewrite (bind_step tt (zero_mem_scan, s)) by done.
  rewrite (bind_step _ _ _ _ _ (walk_props_mem n0 ps zero_mem_scan s Hps Hs)).
  rewrite upd_cells_foldl. cbn [address_cells size_cells n0 node_parent node_name].
  replace (fst cells, snd cells) with cells by (by destruct cells).
  set (c := node_cells m cells ps). set (n := FdtNode pn name (fst c) (snd c)).
  assert (parent_cells (Some n) = Some c) as Ec by (simpl; by destruct c).
  assert (Forall (fun p => room lo hi (d_value p)) ps) as Hv.
  { eapply Forall_impl; [exact Hps|]. by intros p [_ ?]. }
  change (call_opt (cb_done mem_cb) (Some n)) with (mem_done self n).
  rewrite (bind_step _ _ _ _ _ (mem_done_spec n ps s Hok Hv Hs)).
  destruct (thread_mem kids (Some n) IH (2, 1) (foldl mem_scan_prop zero_mem_scan ps)
              (put_sizes (node_sizes m self (parent_cells (node_parent n)) ps) s))
    as (c' & sc' & E); [done|by rewrite Ec|by rewrite smem_put_sizes|].
  rewrite (bind_step _ _ _ _ _ E), Ec, <- put_sizes_app.
  exists sc'. rewrite mem_sizes_node. unfold ret. f_equal. exact (eq_sym (surjective_pairing c)).
Qed.

Lemma quiet_set_local {T} (f : T -> T) : quiet m (set_local (S := S) f).
Proof. by intros t Ht. Qed.

Lemma quiet_mem_cb : quiet_cb m mem_cb.
Proof.
  split; [| | |done].
  - intros f n [= <-]. apply quiet_set_local.
  - intros p. apply (quiet_bind); [apply (quiet_str_eq)|]. intros b1.
    apply (quiet_bind); [destruct b1; [apply (quiet_str_eq)|apply (quiet_ret)]|]. intros b2.
    destruct b2; [apply quiet_set_local|].
    apply (quiet_bind); [apply (quiet_str_eq)|]. intros b3.
    destruct b3; [apply quiet_set_local|apply (quiet_ret)].
  - intros f n [= <-]. apply (quiet_bind); [by intros t Ht|]. intros sc.
    cbv zeta. destruct (_ =? 0); [apply (quiet_ret)|].
    apply (quiet_bind); [apply (quiet_assert)|]. intros _.
    apply (quiet_bind); [|intros v; apply (quiet_assert)]. apply (quiet_loop). intros v.
    destruct (0 <? _); [|apply (quiet_ret)].
    apply (quiet_bind); [destruct (node_parent n); [apply (quiet_ret)|by intros t Ht]|]. intros p.
    apply (quiet_bind); [apply (quiet_get_cells)|]. intros r1.
    apply (quiet_bind); [apply (quiet_get_cells)|]. intros r2.
    apply (quiet_bind); [|intros _; apply (quiet_ret)].
    destruct (_ && _); [|apply (quiet_ret)]. intros t Ht. apply wp_modify.
    simpl. unfold smem in *. simpl in *. by rewrite lget_lput.
Qed.

(** query_mem on a well-formed tree. *)
Lemma query_mem_spec fuel fdt strings roots s :
  fdt_blob m lo hi strings fdt roots -> 0 <= fdt -> hi - fdt <= 4 * Z.of_nat fuel ->
  Forall (tree_room lo hi) roots -> list_ok m hi None (2, 1) roots = true -> smem s = m ->
  let s' := put_sizes (list_sizes m self None (2, 1) roots) (put_size 0 s) in
  query_mem fuel self fdt s =
  assert_ (0 <? g_mem_size (lget s')) "spike_interface/spike_memory.c" 67 "g_mem_size > 0" s'.
Proof.
  intros Hblob Hfdt Hf Hroom Hok Hs s'. unfold query_mem.
  rewrite (bind_step tt (put_size 0 s)) by done.
  assert (with_local zero_mem_scan (fdt_scan fuel fdt mem_cb)
            (put_size 0 s) = Ok tt s') as E.
  { unfold with_local.
    assert (smem (put_size 0 s) = m) as Hs0 by (by rewrite smem_put_size).
    destruct (thread_mem roots None (Forall_true _ _ walk_mem) (2, 1) zero_mem_scan
                (put_size 0 s) Hroom Hok Hs0) as (c' & sc' & E).
    rewrite (fdt_scan_spec m lo hi strings Hphys Hlo Hhi mem_cb quiet_mem_cb fuel fdt roots)
      by done.
    by rewrite (bind_step _ _ _ _ _ E). }
  clearbody s'. apply (bind_ok tt s'); [exact E|]. reflexivity.
Qed.
End MemProofs.

(** ** The host interface *)

Definition is_htif (m : memory) (ps : list dprop) : bool :=
  existsb (fun p => str_is m (d_name p) "compatible" && str_is m (d_value p) "ucb,htif0") ps.

(** Some node of the tree is the host interface. *)
Fixpoint has_htif (m : memory) (t : dtree) : bool :=
  match t with DNode _ ps kids => is_htif m ps || existsb (has_htif m) kids end.

Section HtifProofs.
Context {S : Type} `{L : !Lens S machine} `{LH : !Lens S htif_var} `{D : !LensIndep L LH}.
Context `{P : !Platform} (m : memory) (lo hi : Z).
Context (Hphys : forall a n, lo <= a -> a + n <= hi -> phys_ok a n = true).
Context (Hlo : 0 <= lo) (Hhi : hi <= 2 ^ 62).
Implicit Types (s : S).

Definition found (b : bool) s : S := if b then lput (HtifVar 1) s else s.

Lemma smem_found b s : smem (found b s) = smem s.
Proof. unfold smem, found. destruct b; [by rewrite lget_lput_l|done]. Qed.

Lemma found_found b b' s : found b' (found b s) = found (b || b') s.
Proof. unfold found. destruct b, b'; [apply lput_lput|done..]. Qed.

(** The callbacks of query_htif. *)
Definition htif_cb : fdt_cb (Z * S) := FdtCb (Some htif_open) htif_prop (Some htif_done) None.

Lemma htif_prop_spec n p c s :
  room lo hi (d_name p) -> room lo hi (d_value p) -> smem s = m ->
  htif_prop (FdtProp n (d_name p) (d_value p) (d_len p)) (c, s) =
  Ok tt (if str_is m (d_name p) "compatible" && str_is m (d_value p) "ucb,htif0" then 1 else c, s).
Proof.
  intros [Hn1 Hn2] [Hv1 Hv2] Hs. unfold htif_prop. simpl.
  erewrite bind_step; [|apply (str_eq_spec m lo hi Hphys); [no_nul|done|simpl; lia|done]].
  destruct (str_is m (d_name p) "compatible"); [|done]. simpl.
  erewrite bind_step; [|apply (str_eq_spec m lo hi Hphys); [no_nul|done|simpl; lia|done]].
  by destruct (str_is m (d_value p) "ucb,htif0").
Qed.

Lemma walk_props_htif n ps c s :
  Forall (fun p => room lo hi (d_name p) /\ room lo hi (d_value p)) ps -> smem s = m ->
  exists n', walk_props htif_cb m n ps (c, s) = Ok n' (if is_htif m ps then 1 else c, s).
Proof.
  intros Hr Hs. revert n c. induction Hr as [|p ps [Hn Hv] _ IH]; intros n c; [by eexists|].
  cbn [walk_props]. erewrite bind_step; [|by apply htif_prop_spec].
  edestruct IH as [n' ->]. exists n'. unfold is_htif. simpl.
  destruct (_ && _); simpl; [|done]. by destruct (existsb _ ps).
Qed.

Lemma htif_done_spec n c s :
  htif_done n (c, s) = Ok tt (c, found (negb (c =? 0)) s).
Proof. unfold htif_done, bind, gets. simpl. by destruct (c =? 0). Qed.

(** The walk of [t] finds the interface where it is. *)
Definition finds (t : dtree) : Prop := forall pn cells c s,
  tree_room lo hi t -> smem s = m ->
  exists cells' c', walk_node htif_cb m pn cells t (c, s) = Ok cells' (c', found (has_htif m t) s).

Lemma thread_htif kids pn : Forall finds kids -> forall cells c s,
  Forall (tree_room lo hi) kids -> smem s = m ->
  exists cells' c',
    thread (walk_node htif_cb m pn) cells kids (c, s) =
    Ok cells' (c', found (existsb (has_htif m) kids) s).
Proof.
  induction 1 as [|k kids Hk _ IH]; intros cells c s Hroom Hs; [by eexists _, _|].
  apply Forall_cons in Hroom as [Hr Hrs]. cbn [thread existsb].
  destruct (Hk pn cells c s Hr Hs) as (cl & c1 & E). rewrite (bind_step _ _ _ _ _ E).
  destruct (IH cl c1 (found (has_htif m k) s)) as (cl2 & c2 & ->);
    [done|by rewrite smem_found|].
  rewrite found_found. eauto.
Qed.

Lemma walk_htif t : finds t.
Proof.
  induction t as [name ps kids IH] using dtree_ind'.
  intros pn cells c s Hroom Hs. apply tree_room_inv in Hroom as [Hps Hkids].
  cbn [walk_node]. rewrite (bind_step tt (0, s)) by done.
  destruct (walk_props_htif (FdtNode pn name (fst cells) (snd cells)) ps 0 s Hps Hs) as [n E].
  rewrite (bind_step _ _ _ _ _ E).
  change (call_opt (cb_done htif_cb) (Some n)) with (htif_done (S := S) n).
  rewrite (bind_step _ _ _ _ _ (htif_done_spec n _ s)).
  destruct (thread_htif kids (Some n) IH (2, 1) (if is_htif m ps then 1 else 0)
              (found (negb ((if is_htif m ps then 1 else 0) =? 0)) s))
    as (cl & c' & E2); [done|by rewrite smem_found|].
  rewrite (bind_step _ _ _ _ _ E2), found_found. eexists _, c'. unfold ret. do 3 f_equal.
  simpl. by destruct (is_htif m ps).
Qed.

Lemma quiet_htif_cb : quiet_cb m htif_cb.
Proof.
  split; [| | |done].
  - intros f n [= <-]. by intros t Ht.
  - intros p. apply quiet_bind; [apply quiet_str_eq|]. intros b1.
    apply quiet_bind; [destruct b1; [apply quiet_str_eq|apply quiet_ret]|]. intros b2.
    destruct b2; [by intros t Ht|apply quiet_ret].
  - intros f n [= <-] [c s] Ht. unfold wp. rewrite htif_done_spec. exact (eq_trans (smem_found _ s) Ht).
Qed.

Lemma query_htif_spec fuel fdt strings roots s :
  fdt_blob m lo hi strings fdt roots -> 0 <= fdt -> hi - fdt <= 4 * Z.of_nat fuel ->
  Forall (tree_room lo hi) roots -> smem s = m ->
  query_htif fuel fdt s = Ok tt (found (existsb (has_htif m) roots) s).
Proof.
  intros Hblob Hfdt Hf Hroom Hs. unfold query_htif, with_local.
  change (FdtCb _ _ _ _) with htif_cb.
  destruct (thread_htif roots None (Forall_true _ _ walk_htif) (2, 1) 0 s Hroom Hs)
    as (c' & sc' & E).
  rewrite (fdt_scan_spec m lo hi strings Hphys Hlo Hhi htif_cb quiet_htif_cb fuel fdt roots)
    by done.
  by rewrite (bind_step _ _ _ _ _ E).
Qed.
End HtifProofs.

Lemma assert_false {S} `{L : !Lens S machine} file line x (s : S) :
  exists s', assert_ false file line x s = Stop PowerOff s'.
Proof.
  unfold assert_, die, poweroff.
  erewrite bind_step by (apply sprint_eq; reflexivity).
  erewrite bind_step by (apply sprint_eq; reflexivity). by eexists.
Qed.

(** The outcome of query_mem: the last size in the order of the scan counts. *)
Lemma query_mem_outcome {S} `{LM : !Lens S mm} `{P : !Platform} self lo hi strings fuel fdt roots
    (s : S) :
  let m := mem (mach (lget s)) in
  let sizes := list_sizes m self None (2, 1) roots in
  readable lo hi -> 0 <= fdt -> hi - fdt <= 4 * Z.of_nat fuel ->
  fdt_blob m lo hi strings fdt roots -> Forall (tree_room lo hi) roots ->
  list_ok m hi None (2, 1) roots = true ->
  if 0 <? default 0 (last sizes)
  then query_mem fuel self fdt s = Ok tt (put_size (default 0 (last sizes)) s)
  else exists s', query_mem fuel self fdt s = Stop PowerOff s'.
Proof.
  intros m sizes (? & ? & ?) Hfdt Hf Hblob Hroom Hok.
  rewrite (query_mem_spec m lo hi self) with (strings := strings) (roots := roots) by done.
  fold sizes. unfold put_sizes. destruct (last sizes) as [z|] eqn:Hl; simpl.
  - rewrite put_size_put_size, g_mem_size_put_size.
    destruct (Z.ltb_spec 0 z); [done|apply assert_false].
  - rewrite g_mem_size_put_size. apply assert_false.
Qed.

(** * Properties *)

(** C34. query_mem on a well-formed device tree: it takes the size of the last
    region, in the order of the scan, that a memory node lists and that
    contains the kernel, where the widths of addresses and sizes are the cell
    counts of the parent; its assert fails when there is none. *)
Theorem query_mem_finds {S} `{LM : !Lens S mm} `{P : !Platform} self lo hi strings fuel fdt roots
    (s : S) :
  let m := mem (mach (lget s)) in
  let sizes := list_sizes m self None (2, 1) roots in
  readable lo hi -> 0 <= fdt -> hi - fdt <= 4 * Z.of_nat fuel ->
  fdt_blob m lo hi strings fdt roots -> Forall (tree_room lo hi) roots ->
  list_ok m hi None (2, 1) roots = true ->
  if 0 <? default 0 (last sizes)
  then query_mem fuel self fdt s = Ok tt (put_size (default 0 (last sizes)) s)
  else exists s', query_mem fuel self fdt s = Stop PowerOff s'.
Proof. intros ??????. by apply (query_mem_outcome self lo hi strings). Qed.

(** query_htif on a well-formed device tree: [htif] becomes 1 exactly when
    some node of the tree is compatible with [ucb,htif0], and nothing else
    changes. *)
Theorem query_htif_finds {S} `{L : !Lens S machine} `{LH : !Lens S htif_var}
    `{D : !LensIndep L LH} `{P : !Platform} lo hi strings fuel fdt roots (s : S) :
  readable lo hi -> 0 <= fdt -> hi - fdt <= 4 * Z.of_nat fuel ->
  fdt_blob (smem s) lo hi strings fdt roots -> Forall (tree_room lo hi) roots ->
  query_htif fuel fdt s =
  Ok tt (if existsb (has_htif (smem s)) roots then lput (HtifVar 1) s else s).
Proof. intros (? & ? & ?) Hfdt Hf Hblob Hroom. by eapply query_htif_spec. Qed.
