(* ===== verification/Atomic.v ===== *)
(** spike_interface/atomic.h: variables that are read and written at once, and
    spin locks, over a part [T] of the state. *)
From S2P Require Import Prelude.

(** spinlock_t: the integer of a lock. *)
Record spinlock (T : Type) := Spinlock { lk_get : T -> Z; lk_set : Z -> T -> T }.
Arguments Spinlock {T} _ _.
Arguments lk_get {T} _ _.
Arguments lk_set {T} _ _ _.

Section Atomic.
Context {S T : Type} `{LT : !Lens S T}.

Definition atomic_set {A} (set : A -> T -> T) (v : A) : M S unit :=
  modify (fun s => lput (set v (lget s)) s).

(** Interrupts are off in machine mode and there is one hart: nothing changes
    a variable between two accesses.  In particular nothing changes a lock
    while the code spins on it, and one round without success means that the
    loop never ends. *)
Definition atomic_read {A} (get : T -> A) : M S A := gets (fun s => get (lget s)).

(** Both macros leave the interrupts alone. *)
Definition disable_irqsave : M S Z := ret 0.
Definition enable_irqrestore (flags : Z) : M S unit := ret tt.

Definition atomic_binop {A} (get : T -> A) (set : A -> T -> T) (op : A -> A) : M S A :=
  flags <- disable_irqsave ;;
  res <- atomic_read get ;;
  atomic_set set (op res) ;;;
  enable_irqrestore flags ;;;
  ret res.

Definition atomic_swap {A} (get : T -> A) set (inc : A) : M S A :=
  atomic_binop get set (fun _ => inc).

Definition spinlock_trylock (lock : spinlock T) : M S Z :=
  atomic_swap (lk_get lock) (lk_set lock) (-1).

Definition spinlock_lock (lock : spinlock T) : M S unit :=
  loop 1 (fun _ : unit =>
    loop 1 (fun _ : unit =>
      v <- atomic_read (lk_get lock) ;;
      ret (if v =? 0 then inr tt else inl tt)) tt ;;;
    v <- spinlock_trylock lock ;;
    ret (if v =? 0 then inr tt else inl tt)) tt.

Definition spinlock_unlock (lock : spinlock T) : M S unit := atomic_set (lk_set lock) 0.

Definition spinlock_lock_irqsave (lock : spinlock T) : M S Z :=
  flags <- disable_irqsave ;;
  spinlock_lock lock ;;;
  ret flags.

Definition spinlock_unlock_irqrestore (lock : spinlock T) (flags : Z) : M S unit :=
  spinlock_unlock lock ;;;
  enable_irqrestore flags.

(** A free lock is taken; on a lock that is held the code spins for ever. *)
Lemma spinlock_lock_free (lock : spinlock T) (s : S) :
  lk_get lock (lget s) = 0 ->
  spinlock_lock lock s = Ok tt (lput (lk_set lock (-1) (lget s)) s).
Proof.
  intros Hl. unfold spinlock_lock, loop, bind, iterate, spinlock_trylock, atomic_swap, atomic_binop,
    atomic_set, atomic_read, disable_irqsave, enable_irqrestore, gets, modify, ret.
  simpl. rewrite Hl. simpl. rewrite Hl. done.
Qed.

Lemma spinlock_lock_held (lock : spinlock T) (s : S) :
  lk_get lock (lget s) <> 0 -> spinlock_lock lock s = Stop OutOfFuel s.
Proof.
  intros Hl. unfold spinlock_lock, loop, bind, iterate, atomic_read, gets, ret. simpl.
  by rewrite (proj2 (Z.eqb_neq _ _) Hl).
Qed.
End Atomic.
