(* ===== verification/Htif.v ===== *)
(** spike_interface/spike_htif.c, "HTIF basic operations" and "Encapsulated
    HTIF functionalities": the protocol of the registers tohost and fromhost.

    The device behind the registers runs in parallel with the kernel.  It is a
    parameter: one round of it ([poll]) takes place before every access of the
    kernel to one of the registers, and a round may do nothing. *)
From S2P Require Import Prelude Mem CString Snprintf Atomic.

(** ** The state

    The registers and static variables of spike_htif.c; [D] is the state of
    the device, [W] what it works on: memory, and the shared area of a system
    call. *)
Record hregs := HRegs { tohost : Z; fromhost : Z; htif_console_buf : Z; htif_lk : Z }.

Definition set_tohost (v : Z) (r : hregs) : hregs :=
  HRegs v (fromhost r) (htif_console_buf r) (htif_lk r).
Definition set_fromhost (v : Z) (r : hregs) : hregs :=
  HRegs (tohost r) v (htif_console_buf r) (htif_lk r).
Definition set_console_buf (v : Z) (r : hregs) : hregs :=
  HRegs (tohost r) (fromhost r) v (htif_lk r).
Definition set_htif_lk (v : Z) (r : hregs) : hregs :=
  HRegs (tohost r) (fromhost r) (htif_console_buf r) v.

Record hstate (D W : Type) := HState { hr : hregs; hdev : D; hworld : W }.
Arguments HState {D W} _ _ _.
Arguments hr {D W} _.
Arguments hdev {D W} _.
Arguments hworld {D W} _.

#[export] Instance lens_hregs D W : Lens (hstate D W) hregs.
Proof.
  refine {| lget := hr; lput := fun r s => HState r (hdev s) (hworld s) |}; [done| |done].
  by intros [].
Defined.

(** The initial values of the variables. *)
Definition htif_start : hregs := HRegs 0 0 0 0.

(** A round of the device, from its state, the world and the registers;
    [None] when it stops the machine. *)
Class HtifDevice (D W : Type) := { poll : D -> W -> Z -> Z -> option (D * W * Z * Z) }.

(** ** spike_htif.h *)
Definition TOHOST_CMD (dev cmd payload : Z) : Z :=
  Z.lor (Z.lor (u64 (Z.shiftl dev 56)) (u64 (Z.shiftl cmd 48))) payload.
Definition FROMHOST_DEV (v : Z) : Z := Z.shiftr v 56.
Definition FROMHOST_CMD (v : Z) : Z := Z.shiftr (u64 (Z.shiftl v 8)) 56.
Definition FROMHOST_DATA (v : Z) : Z := Z.shiftr (u64 (Z.shiftl v 16)) 16.

Section Code.
Context {D W : Type} `{HD : !HtifDevice D W}.
(** How often the kernel looks at a register before it is held to wait for
    ever. *)
Context (fuel : positive).
Notation M := (M (hstate D W)).

Definition host_turn : M unit := fun s =>
  match poll (hdev s) (hworld s) (tohost (hr s)) (fromhost (hr s)) with
  | None => Stop PowerOff s
  | Some (d, w, t, f) => Ok tt (HState (set_tohost t (set_fromhost f (hr s))) d w)
  end.

Definition upd_regs (f : hregs -> hregs) : M unit := modify (fun s => lput (f (lget s)) s).

(** Accesses to the volatile registers. *)
Definition read_tohost : M Z := host_turn ;;; gets (fun s => tohost (hr s)).
Definition read_fromhost : M Z := host_turn ;;; gets (fun s => fromhost (hr s)).
Definition write_tohost (v : Z) : M unit := host_turn ;;; upd_regs (set_tohost v).
Definition write_fromhost (v : Z) : M unit := host_turn ;;; upd_regs (set_fromhost v).

(** [static spinlock_t htif_lock] *)
Definition htif_lock : spinlock hregs := Spinlock htif_lk set_htif_lk.

(** A failing assert prints a message; the message goes through frontend_syscall
    to do_tohost_fromhost, which begins by taking this lock.  What would follow
    is not modelled: the functions below hold the lock wherever they assert. *)
Definition htif_assert (b : bool) : M unit :=
  if b then ret tt else spinlock_lock htif_lock ;;; halt Undefined.

Definition check_fromhost : M unit :=
  fh <- read_fromhost ;;
  if fh =? 0 then ret tt
  else
    write_fromhost 0 ;;;
    htif_assert (FROMHOST_DEV fh =? 1) ;;;
    if FROMHOST_CMD fh =? 0 then
      upd_regs (set_console_buf (1 + u8 (FROMHOST_DATA fh)))
    else if FROMHOST_CMD fh =? 1 then ret tt
    else htif_assert false.

(** [__set_tohost] *)
Definition send_tohost (dev cmd data : Z) : M unit :=
  loop fuel (fun _ : unit =>
    t <- read_tohost ;;
    if t =? 0 then ret (inr tt) else check_fromhost ;;; ret (inl tt)) tt ;;;
  write_tohost (TOHOST_CMD dev cmd data).

Definition do_tohost_fromhost (dev cmd data : Z) : M unit :=
  spinlock_lock htif_lock ;;;
  send_tohost dev cmd data ;;;
  loop fuel (fun _ : unit =>
    fh <- read_fromhost ;;
    if fh =? 0 then ret (inl tt)
    else if (FROMHOST_DEV fh =? dev) && (FROMHOST_CMD fh =? cmd) then
      write_fromhost 0 ;;; ret (inr tt)
    else check_fromhost ;;; ret (inl tt)) tt ;;;
  spinlock_unlock htif_lock.

Definition htif_syscall (arg : Z) : M unit := do_tohost_fromhost 0 0 arg.

(** The code for __riscv_xlen == 64. *)
Definition htif_console_putchar (ch : Z) : M unit :=
  spinlock_lock htif_lock ;;;
  send_tohost 1 1 ch ;;;
  spinlock_unlock htif_lock.

Definition htif_console_getchar : M Z :=
  spinlock_lock htif_lock ;;;
  check_fromhost ;;;
  r <- gets lget ;;
  let ch := htif_console_buf r in
  (if 0 <=? ch then
     upd_regs (set_console_buf (-1)) ;;;
     send_tohost 1 0 0
   else ret tt) ;;;
  spinlock_unlock htif_lock ;;;
  ret (ch - 1).

(** [while (1)]: only the device can end it. *)
Definition htif_poweroff {A} : M A :=
  loop fuel (fun _ : unit =>
    write_fromhost 0 ;;; write_tohost 1 ;;; ret (inl tt)) tt.

(** spike_utils.c *)
Definition mcall_console_putchar (htif ch : Z) : M Z :=
  (if htif =? 0 then ret tt else htif_console_putchar ch) ;;;
  ret 0.

(** The loop of putstring up to the NUL, over the bytes of an array. *)
Fixpoint putstring (htif : Z) (s : list byte) : M unit :=
  match s with
  | [] => halt Undefined
  | c :: s' =>
      if byte.unsigned c =? 0 then ret tt
      else mcall_console_putchar htif (byte.unsigned c) ;;; putstring htif s'
  end.

(** [buf] starts with whatever the stack holds: zeros here. *)
Definition vprintm (htif : Z) (fmt : list byte) (vl : list varg) : M unit :=
  match vsnprintf 256 (replicate 256 Byte.x00) fmt vl with
  | None => halt Undefined
  | Some (_, buf) => putstring htif buf
  end.
End Code.

(** ** The device, as its documentation has it

    The device takes a command from tohost, clearing the register, and works on
    it; its responses queue up, and it puts the first into fromhost when that
    register is zero.  [respond c w] is the effect of the command [c] on the
    world with the responses to it; [None] when the command ends the machine. *)
Section Protocol.
Context {D W : Type} `{HD : !HtifDevice D W}.
Context (respond : Z -> W -> option (W * list Z)) (queue : D -> list Z) (delay : D -> nat).

Inductive turn (d : D) (w : W) : Z -> Z -> D -> W -> Z -> Z -> Prop :=
| turn_idle d' t f :
    queue d' = queue d -> (delay d' < delay d)%nat -> turn d w t f d' w t f
| turn_sleep d' f :
    f <> 0 \/ queue d = [] -> queue d' = queue d -> (delay d' <= delay d)%nat ->
    turn d w 0 f d' w 0 f
| turn_take d' w' t f rs :
    t <> 0 -> respond t w = Some (w', rs) -> queue d' = queue d ++ rs ->
    turn d w t f d' w' 0 f
| turn_give d' t r q :
    queue d = r :: q -> queue d' = q -> turn d w t 0 d' w t r.

(** A device may stay idle, but not for more than [bound] rounds when it has
    something to do. *)
Record device_ok (bound : nat) : Prop := {
  dev_delay : forall d, (delay d <= bound)%nat;
  dev_turn : forall d w t f d' w' t' f',
    poll d w t f = Some (d', w', t', f') -> turn d w t f d' w' t' f';
  dev_off : forall d w t f, poll d w t f = None -> t <> 0 /\ respond t w = None;
  dev_answer : forall c w w' rs, respond c w = Some (w', rs) -> Forall (fun r => r <> 0) rs;
}.

Context (bound : nat) (OK : device_ok bound).
Implicit Types s : hstate D W.

(** What is under way: once the device has caught up the world is [w], and [os]
    are the responses the kernel gets, in this order. *)
Definition under_way (d : D) (w0 : W) (t f : Z) (w : W) (os : list Z) : Prop :=
  Forall (fun r => r <> 0) os /\
  exists rs, (if decide (t = 0) then w = w0 /\ rs = [] else respond t w0 = Some (w, rs)) /\
    os = (if decide (f = 0) then [] else [f]) ++ queue d ++ rs.

Definition outlook s : W -> list Z -> Prop :=
  under_way (hdev s) (hworld s) (tohost (hr s)) (fromhost (hr s)).

(** The work that is left: an upper bound of the rounds until the kernel has
    all responses. *)
Definition busy (x : Z) : nat := if decide (x = 0) then 0 else 1.
Definition actions (t f : Z) (os : list Z) : nat := (2 * length os + busy t - busy f)%nat.
Definition work s (os : list Z) : nat :=
  (S bound * actions (tohost (hr s)) (fromhost (hr s)) os + delay (hdev s))%nat.

Lemma busy_0 : busy 0 = 0%nat.
Proof. done. Qed.

Lemma busy_1 x : x <> 0 -> busy x = 1%nat.
Proof. intros H. unfold busy. by rewrite decide_False. Qed.

Lemma under_way_turn d w t f d' w' t' f' w1 os :
  turn d w t f d' w' t' f' -> under_way d w t f w1 os -> under_way d' w' t' f' w1 os.
Proof.
  intros Ht (Hnz & rs & Hrs & Hos). split; [done|].
  destruct Ht as [d' t f Hq _|d' f _ Hq _|d' w' t f rs' Hn Hr Hq|d' t r q Hq Hq'].
  - exists rs. rewrite Hq. split; [exact Hrs|exact Hos].
  - exists rs. rewrite Hq. split; [exact Hrs|exact Hos].
  - rewrite decide_False in Hrs by done. rewrite Hr in Hrs. injection Hrs as -> ->.
    exists []. rewrite decide_True by done. split; [done|]. by rewrite Hq, app_nil_r.
  - exists rs. split; [exact Hrs|]. rewrite Hq in Hos. rewrite decide_True in Hos by done.
    rewrite Hos in Hnz. apply Forall_cons in Hnz as [Hr _]. rewrite decide_False by done. by rewrite Hq'.
Qed.

(** A turn that is not idle takes one action. *)
Lemma actions_turn d w t f d' w' t' f' w1 os :
  turn d w t f d' w' t' f' -> under_way d w t f w1 os ->
  (actions t' f' os < actions t f os)%nat \/ t' = t /\ f' = f /\
    ((delay d' < delay d)%nat \/ (delay d' <= delay d)%nat /\ t = 0 /\ (f <> 0 \/ queue d = [])).
Proof.
  intros Ht (Hnz & rs & Hrs & Hos). unfold actions.
  destruct Ht as [d' t f Hq Hd|d' f Hs Hq Hd|d' w' t f rs' Hn Hr Hq|d' t r q Hq Hq'].
  - right. auto.
  - right. auto 6.
  - left. rewrite busy_0, (busy_1 t) by done. rewrite Hos, !length_app. unfold busy.
    destruct (decide (f = 0)); simpl; lia.
  - left. rewrite Hq in Hos. rewrite decide_True in Hos by done. rewrite Hos in Hnz |- *.
    apply Forall_cons in Hnz as [Hr _]. rewrite busy_0, (busy_1 r) by done. simpl. lia.
Qed.

Definition same_vars (r r' : hregs) : Prop :=
  htif_console_buf r' = htif_console_buf r /\ htif_lk r' = htif_lk r.

(** The command in tohost has been taken, or nothing has happened to it. *)
Definition held s s' : Prop :=
  tohost (hr s') = 0 \/ tohost (hr s') = tohost (hr s) /\ hworld s' = hworld s.

Lemma held_0 s s' : held s s' -> tohost (hr s) = 0 -> tohost (hr s') = 0.
Proof. intros [?|[? _]]; congruence. Qed.

Lemma held_trans s1 s2 s3 : held s1 s2 -> held s2 s3 -> held s1 s3.
Proof. unfold held. intros [?|[? ?]] [?|[? ?]]; [left|left|left|right; split]; congruence. Qed.

(** Nothing to do. *)
Definition asleep s : Prop :=
  tohost (hr s) = 0 /\ (fromhost (hr s) <> 0 \/ queue (hdev s) = []).

Lemma wp_host_turn Q E s w os :
  outlook s w os ->
  (forall s', outlook s' w os -> same_vars (hr s) (hr s') ->
     held s s' ->
     (fromhost (hr s) <> 0 -> fromhost (hr s') = fromhost (hr s)) ->
     ((work s' os < work s os)%nat \/
      (work s' os <= work s os)%nat /\ asleep s /\ fromhost (hr s') = fromhost (hr s)) ->
     Q tt s') ->
  wp host_turn Q E s.
Proof.
  intros HO HQ. unfold wp, host_turn.
  destruct (poll _ _ _ _) as [[[[d w'] t] f]|] eqn:Hp; cycle 1.
  { apply (dev_off _ OK) in Hp as [Ht Hr]. destruct HO as (_ & rs & Hrs & _).
    rewrite decide_False in Hrs by done. congruence. }
  apply (dev_turn _ OK) in Hp. pose proof (under_way_turn _ _ _ _ _ _ _ _ _ _ Hp HO) as HO'.
  pose proof (actions_turn _ _ _ _ _ _ _ _ _ _ Hp HO) as Ha.
  pose proof (dev_delay _ OK d) as Hd. apply HQ.
  - exact HO'.
  - done.
  - unfold held. cbn. destruct Hp; auto.
  - intros Hf. cbn. inversion Hp; congruence.
  - unfold work, asleep. cbn [hr hdev set_tohost set_fromhost tohost fromhost].
    destruct Ha as [Ha|(-> & -> & [Hdd|(Hdd & Hz)])]; [left; nia|left; lia|right; auto with lia].
Qed.

(** ** Responses from the console *)

Definition console (o : Z) : Prop := FROMHOST_DEV o = 1 /\ (FROMHOST_CMD o = 0 \/ FROMHOST_CMD o = 1).

(** The value of htif_console_buf after a response. *)
Definition take_response (b o : Z) : Z :=
  if FROMHOST_CMD o =? 0 then 1 + u8 (FROMHOST_DATA o) else b.

(** Clearing fromhost takes the next response. *)
Lemma outlook_consume s w os :
  outlook s w os -> fromhost (hr s) <> 0 ->
  let s' := HState (set_fromhost 0 (hr s)) (hdev s) (hworld s) in
  exists os', os = fromhost (hr s) :: os' /\ outlook s' w os' /\ (work s' os' < work s os)%nat.
Proof.
  intros (Hnz & rs & Hrs & Hos) Hf s'. rewrite decide_False in Hos by done.
  exists (queue (hdev s) ++ rs). rewrite Hos in Hnz. apply Forall_cons in Hnz as [_ Hnz].
  split; [exact Hos|]. split; [split; [exact Hnz|by exists rs]|].
  unfold work, actions. subst s'. cbn [hr hdev set_fromhost tohost fromhost].
  rewrite Hos, busy_0, (busy_1 (fromhost _)) by done. cbn [length app]. nia.
Qed.

(** What a piece of the protocol does: it takes the responses [used]; nothing
    else is visible. *)
Definition takes (used : list Z) s s' (w : W) (os : list Z) : Prop :=
  htif_lk (hr s') = htif_lk (hr s) /\
  htif_console_buf (hr s') = foldl take_response (htif_console_buf (hr s)) used /\
  held s s' /\
  exists os', os = used ++ os' /\ outlook s' w os' /\ (work s' os' <= work s os)%nat /\
    (used <> [] -> (work s' os' < work s os)%nat).

Lemma check_fromhost_spec s w os :
  outlook s w os -> (forall o os', os = o :: os' -> console o) ->
  wp check_fromhost (fun _ s' => exists used, takes used s s' w os /\
    (fromhost (hr s) <> 0 -> used = [fromhost (hr s)])) never s.
Proof.
  intros HO HC. unfold check_fromhost, read_fromhost.
  apply wp_assoc, wp_bind, (wp_host_turn _ _ _ w os HO). intros s1 H1 [Hb1 Hl1] Ht1 Hf1 Hw1.
  eapply wp_bind_ok; [done|]. cbv beta. destruct (Z.eqb_spec (fromhost (hr s1)) 0) as [E|Hf].
  { apply wp_ret. exists []. split; [|intros Hn; rewrite (Hf1 Hn) in E; done].
    split_and!; [done|done|done|]. exists os. split_and!; [done|done|lia|done]. }
  unfold write_fromhost. apply wp_assoc, wp_bind, (wp_host_turn _ _ _ w os H1).
  intros s2 H2 [Hb2 Hl2] Ht2 Hf2 Hw2. specialize (Hf2 Hf). rewrite <- Hf2 in Hf |- *.
  eapply wp_bind_ok; [done|]. cbv beta. cbn [lget lput lens_hregs].
  destruct (outlook_consume s2 w os H2 Hf) as (os' & Eos & H3 & Hw3).
  set (s3 := HState (set_fromhost 0 (hr s2)) (hdev s2) (hworld s2)) in *.
  destruct (HC _ _ Eos) as [Hdev Hcmd].
  rewrite Hdev. eapply wp_bind_ok; [done|]. cbv beta.
  assert (forall b, b = take_response (htif_console_buf (hr s)) (fromhost (hr s2)) ->
    exists used, takes used s (HState (set_console_buf b (hr s3)) (hdev s3) (hworld s3)) w os /\
      (fromhost (hr s) <> 0 -> used = [fromhost (hr s)])) as Hend.
  { intros b ->. exists [fromhost (hr s2)]. split; [|intros Hn; by rewrite Hf2, (Hf1 Hn)].
    split_and!; [cbn; congruence|done|exact (held_trans _ _ _ Ht1 Ht2)|]. exists os'.
    split_and!; [exact Eos|exact H3| |]; change (work (HState _ _ _) os') with (work s3 os'); lia. }
  destruct Hcmd as [Hc|Hc]; rewrite Hc.
  - change (0 =? 0) with true. cbv iota. apply wp_modify. apply Hend. unfold take_response. by rewrite Hc.
  - change (1 =? 0) with false. change (1 =? 1) with true. cbv iota. apply wp_ret.
    specialize (Hend (htif_console_buf (hr s3))).
    assert (HState (set_console_buf (htif_console_buf (hr s3)) (hr s3)) (hdev s3) (hworld s3) = s3) as E3
      by (by destruct s2 as [[] ? ?]).
    rewrite E3 in Hend. apply Hend. unfold take_response. rewrite Hc. cbn. congruence.
Qed.

Lemma takes_0 s w os : outlook s w os -> takes [] s s w os.
Proof. intros HO. split_and!; [done|done|by right|]. by exists os. Qed.

Lemma takes_trans u1 u2 s s1 s2 w os os1 :
  takes u1 s s1 w os -> os = u1 ++ os1 -> takes u2 s1 s2 w os1 -> takes (u1 ++ u2) s s2 w os.
Proof.
  intros (L1 & B1 & T1 & o1 & E1 & O1 & W1 & S1) E (L2 & B2 & T2 & o2 & E2 & O2 & W2 & S2).
  rewrite E1 in E. apply app_inv_head in E as ->. split_and!.
  - congruence.
  - by rewrite foldl_app, <- B1.
  - by eapply held_trans.
  - exists o2. split; [by rewrite E1, E2, app_assoc|]. split; [done|]. split; [lia|].
    intros Hn. destruct u2 as [|o u2]; [|specialize (S2 ltac:(done)); lia].
    destruct u1; [done|]. specialize (S1 ltac:(done)). lia.
Qed.

(** A turn of the device as such a piece. *)
Lemma takes_turn s s' w os :
  outlook s' w os -> same_vars (hr s) (hr s') -> held s s' ->
  (work s' os <= work s os)%nat -> takes [] s s' w os.
Proof. intros HO [Hb Hl] Ht Hw. split_and!; [done|done|done|]. by exists os. Qed.

Lemma work_le s os : (work s os <= S bound * (2 * length os + 1) + bound)%nat.
Proof.
  unfold work, actions. pose proof (dev_delay _ OK (hdev s)). unfold busy. repeat case_decide; nia.
Qed.

(** Waiting for tohost, and sending a command. *)
Lemma send_tohost_spec fuel dev cmd data s w os w2 rs :
  outlook s w os -> Forall console os -> Z.of_nat (work s os) < Zpos fuel ->
  let c := TOHOST_CMD dev cmd data in
  c <> 0 -> respond c w = Some (w2, rs) ->
  wp (send_tohost fuel dev cmd data) (fun _ s' => exists used os', os = used ++ os' /\
    htif_lk (hr s') = htif_lk (hr s) /\
    htif_console_buf (hr s') = foldl take_response (htif_console_buf (hr s)) used /\
    tohost (hr s') = c /\ hworld s' = w /\ outlook s' w2 (os' ++ rs)) never s.
Proof.
  intros HO HC Hfuel c Hc Hr. unfold send_tohost. fold c.
  apply wp_bind, (wp_loop_bound _ (fun n _ s1 => exists used os1, os = used ++ os1 /\
    takes used s s1 w os /\ n = Z.of_nat (work s1 os1)) _ _ _ (Z.of_nat (work s os))).
  - exists [], os. split; [done|]. split; [by apply takes_0|done].
  - lia.
  - intros n _ s1 (used & os1 & _ & _ & ->). lia.
  - intros n [] s1 (used & os1 & E & HT & ->).
    pose proof HT as (_ & _ & _ & o1 & E1 & O1 & _). rewrite E in E1. apply app_inv_head in E1 as <-.
    assert (Forall console os1) as HC1 by (rewrite E in HC; by apply Forall_app in HC as [_ HC]).
    unfold read_tohost. apply wp_assoc, wp_bind, (wp_host_turn _ _ _ w os1 O1).
    intros s2 O2 Hv2 Ht2 Hf2 Hw2. eapply wp_bind_ok; [done|]. cbv beta.
    assert (takes [] s1 s2 w os1) as HT2 by (apply takes_turn; [done|done|done|lia]).
    pose proof (takes_trans _ _ _ _ _ _ _ _ HT E HT2) as HT12. rewrite app_nil_r in HT12.
    destruct (Z.eqb_spec (tohost (hr s2)) 0) as [Ez|Ez].
    + apply wp_ret. unfold write_tohost. apply wp_bind, (wp_host_turn _ _ _ w os1 O2).
      intros s3 O3 [Hb3 Hl3] Ht3 _ _. apply held_0 in Ht3; [|done]. apply wp_modify. cbn [lget lput lens_hregs].
      destruct HT12 as (L & B & _). exists used, os1. split; [done|]. split; [cbn; congruence|].
      split; [cbn; congruence|]. split; [done|]. destruct O3 as (Hnz & rs3 & Hrs3 & Hos3).
      rewrite decide_True in Hrs3 by done. destruct Hrs3 as [-> ->]. split; [done|].
      split; [apply Forall_app; split; [done|by eapply dev_answer]|]. exists rs.
      cbn [hr hdev hworld set_tohost tohost fromhost]. rewrite decide_False by done.
      split; [done|]. by rewrite Hos3, app_nil_r, app_assoc.
    + apply wp_bind. eapply wp_mono; [apply (check_fromhost_spec s2 w os1 O2)| |done].
      { intros o os' ->. by apply Forall_cons in HC1 as [? _]. }
      intros _ s3 (u3 & HT3 & Hf3). apply wp_ret. pose proof HT3 as (_ & _ & _ & o3 & E3 & O3 & W3 & S3).
      exists (Z.of_nat (work s3 o3)). split.
      * destruct Hw2 as [Hw2|(_ & [Ha _] & _)]; [lia|]. by apply (held_0 _ _ Ht2) in Ha.
      * exists (used ++ u3), o3. split; [by rewrite E, E3, app_assoc|]. split; [|done].
        by eapply takes_trans.
Qed.

(** Waiting for the response [r] to a command: the responses before it are
    the console's. *)
Definition awaited (dev cmd r : Z) (os cs : list Z) : Prop :=
  os = cs ++ [r] /\ Forall console cs /\ FROMHOST_DEV r = dev /\ FROMHOST_CMD r = cmd.

Lemma outlook_head s w os :
  outlook s w os -> fromhost (hr s) <> 0 -> exists os', os = fromhost (hr s) :: os'.
Proof. intros HO Hf. destruct (outlook_consume s w os HO Hf) as (os' & E & _). eauto. Qed.

Lemma outlook_asleep s w os : outlook s w os -> asleep s -> fromhost (hr s) = 0 -> os = [].
Proof.
  intros (_ & rs & Hrs & Hos) [Ht Hq] Hf. rewrite decide_True in Hrs by done.
  rewrite decide_True in Hos by done. destruct Hrs as [_ ->]. destruct Hq as [Hq|Hq]; [done|].
  by rewrite Hos, Hq.
Qed.

Lemma wait_response_spec fuel dev cmd r cs s w os :
  outlook s w os -> awaited dev cmd r os cs -> dev <> 1 -> Z.of_nat (work s os) < Zpos fuel ->
  wp (loop fuel (fun _ : unit =>
        fh <- read_fromhost ;;
        if fh =? 0 then ret (inl tt)
        else if (FROMHOST_DEV fh =? dev) && (FROMHOST_CMD fh =? cmd) then
          write_fromhost 0 ;;; ret (inr tt)
        else check_fromhost ;;; ret (inl tt)) tt)
    (fun _ s' => htif_lk (hr s') = htif_lk (hr s) /\
       htif_console_buf (hr s') = foldl take_response (htif_console_buf (hr s)) cs /\
       held s s' /\ outlook s' w []) never s.
Proof.
  intros HO (Eos & HC & Hdev & Hcmd) Hd1 Hfuel.
  apply (wp_loop_bound _ (fun n _ s1 => exists used cs1, cs = used ++ cs1 /\
    takes used s s1 w os /\ n = Z.of_nat (work s1 (cs1 ++ [r]))) _ _ _ (Z.of_nat (work s os))).
  - exists [], cs. split; [done|]. split; [by apply takes_0|by rewrite Eos].
  - lia.
  - intros n _ s1 (used & cs1 & _ & _ & ->). lia.
  - intros n [] s1 (used & cs1 & Ecs & HT & ->).
    assert (os = used ++ cs1 ++ [r]) as E by by rewrite Eos, Ecs, app_assoc.
    pose proof HT as (_ & _ & _ & o1 & E1 & O1 & _). rewrite E in E1. apply app_inv_head in E1 as <-.
    assert (Forall console cs1) as HC1 by (rewrite Ecs in HC; by apply Forall_app in HC as [_ HC]).
    unfold read_fromhost. apply wp_assoc, wp_bind, (wp_host_turn _ _ _ w _ O1).
    intros s2 O2 Hv2 Ht2 Hf2 Hw2. eapply wp_bind_ok; [done|]. cbv beta.
    assert (takes [] s1 s2 w (cs1 ++ [r])) as HT2 by (apply takes_turn; [done|done|done|lia]).
    pose proof (takes_trans _ _ _ _ _ _ _ _ HT E HT2) as HT12. rewrite app_nil_r in HT12.
    destruct (Z.eqb_spec (fromhost (hr s2)) 0) as [Ez|Ez].
    + apply wp_ret. exists (Z.of_nat (work s2 (cs1 ++ [r]))). split; [|by exists used, cs1].
      destruct Hw2 as [Hw2|(_ & Ha & Hf)]; [lia|]. rewrite Ez in Hf. symmetry in Hf.
      apply (outlook_asleep s1 w _ O1 Ha) in Hf. by destruct cs1.
    + destruct (outlook_head s2 w _ O2 Ez) as [o2 Eo2].
      destruct ((_ =? dev) && (_ =? cmd)) eqn:Em.
      * apply andb_true_iff in Em as [Em _]. apply Z.eqb_eq in Em.
        destruct cs1 as [|o cs1]; cycle 1.
        { injection Eo2 as -> _. apply Forall_cons in HC1 as [[? _] _]. congruence. }
        unfold write_fromhost. apply wp_assoc, wp_bind, (wp_host_turn _ _ _ w _ O2).
        intros s3 O3 [Hb3 Hl3] Ht3 Hf3 _. specialize (Hf3 Ez). rewrite <- Hf3 in Ez.
        eapply wp_bind_ok; [done|]. cbv beta. apply wp_ret. cbn [lget lput lens_hregs].
        destruct (outlook_consume s3 w _ O3 Ez) as (o4 & E4 & O4 & _). injection E4 as _ <-.
        destruct HT12 as (L & B & T & _). rewrite app_nil_r in Ecs. subst used.
        split_and!; [cbn; congruence|cbn; congruence|exact (held_trans _ _ _ T Ht3)|exact O4].
      * assert (exists cs2, cs1 = fromhost (hr s2) :: cs2 /\ console (fromhost (hr s2))) as (cs2 & -> & Hcs1).
        { destruct cs1 as [|o cs1]; injection Eo2 as Eo _.
          - by rewrite <- Eo, Hdev, Hcmd, !Z.eqb_refl in Em.
          - exists cs1. rewrite <- Eo. by apply Forall_cons in HC1 as [? _]. }
        apply wp_bind. eapply wp_mono; [apply (check_fromhost_spec s2 w _ O2)| |done].
        { intros o os' Eo. injection Eo as <- _. done. }
        intros _ s3 (u3 & HT3 & Hf3). rewrite (Hf3 Ez) in HT3. apply wp_ret.
        pose proof HT3 as (_ & _ & _ & o3 & E3 & O3 & W3 & S3). injection E3 as <-. specialize (S3 ltac:(done)).
        exists (Z.of_nat (work s3 (cs2 ++ [r]))). split; [lia|].
        exists (used ++ [fromhost (hr s2)]), cs2. split; [by rewrite Ecs, <- app_assoc|]. split; [|done].
        by eapply takes_trans.
Qed.

(** The end of the wait: the device has nothing left. *)
Lemma outlook_nil s w : outlook s w [] ->
  fromhost (hr s) = 0 /\ queue (hdev s) = [] /\
  (tohost (hr s) = 0 /\ hworld s = w \/
   tohost (hr s) <> 0 /\ respond (tohost (hr s)) (hworld s) = Some (w, [])).
Proof.
  intros (_ & rs & Hrs & Hos). destruct (decide (fromhost (hr s) = 0)) as [Hf|]; [|done].
  symmetry in Hos. apply app_nil in Hos as [_ Hos]. apply app_nil in Hos as [Hq ->].
  split; [done|]. split; [done|]. destruct (decide (tohost (hr s) = 0)); [left|by right].
  by destruct Hrs as [-> _].
Qed.

(** do_tohost_fromhost terminates with its command served: the console's
    responses that arrive before the answer, [os] and [cs], are taken in their
    order, the answer is removed, both registers are 0, the device has nothing
    left to say and the lock is free again. *)
Lemma do_tohost_fromhost_spec fuel dev cmd data s w os w2 cs r :
  outlook s w os -> Forall console os -> htif_lk (hr s) = 0 ->
  let c := TOHOST_CMD dev cmd data in
  c <> 0 -> respond c w = Some (w2, cs ++ [r]) -> Forall console cs ->
  FROMHOST_DEV r = dev -> FROMHOST_CMD r = cmd -> dev <> 1 ->
  Z.of_nat (S bound * (2 * length (os ++ cs ++ [r]) + 1) + bound) < Zpos fuel ->
  exists s', do_tohost_fromhost fuel dev cmd data s = Ok tt s' /\
    hr s' = HRegs 0 0 (foldl take_response (htif_console_buf (hr s)) (os ++ cs)) 0 /\
    queue (hdev s') = [] /\ hworld s' = w2.
Proof.
  intros HO HC Hl c Hc Hr HCs Hdev Hcmd Hd1 Hfuel.
  set (Q := fun (_ : unit) s' =>
    hr s' = HRegs 0 0 (foldl take_response (htif_console_buf (hr s)) (os ++ cs)) 0 /\
    queue (hdev s') = [] /\ hworld s' = w2).
  enough (wp (do_tohost_fromhost fuel dev cmd data) Q never s) as H.
  { apply wp_ok in H as ([] & s' & E & H). by exists s'. }
  unfold do_tohost_fromhost.
  eapply wp_bind_ok; [by apply spinlock_lock_free|].
  set (s0 := lput _ s). assert (outlook s0 w os) as HO0 by exact HO.
  assert (work s0 os = work s os) as Ew by done. pose proof (work_le s os) as Hle.
  rewrite !length_app in Hfuel.
  apply wp_bind. eapply wp_mono; [apply (send_tohost_spec fuel dev cmd data s0 w os w2 (cs ++ [r]) HO0 HC); [|done|done]| |done].
  { rewrite Ew. nia. }
  intros _ s1 (used & os1 & Eos & L1 & B1 & T1 & W1 & O1).
  assert (Forall console os1) as HC1 by (rewrite Eos in HC; by apply Forall_app in HC as [_ HC]).
  apply wp_bind. pose proof (work_le s1 (os1 ++ cs ++ [r])) as Hle1.
  eapply wp_mono; [apply (wait_response_spec fuel dev cmd r (os1 ++ cs) s1 w2 _ O1); [|done|]| |done].
  { split_and!; [by rewrite app_assoc|by apply Forall_app|done|done]. }
  { rewrite !length_app in Hle1. rewrite Eos, length_app in Hfuel. nia. }
  intros _ s2 (L2 & B2 & T2 & O2). apply outlook_nil in O2 as (F2 & Q2 & [[T3 W3]|[T3 R3]]); cycle 1.
  { destruct T2 as [T2|[T2 W2]]; [congruence|]. rewrite T2, W2, T1, W1 in R3. fold c in R3.
    rewrite Hr in R3. injection R3 as E. by destruct cs. }
  apply wp_modify. subst Q. cbn [lget lput lens_hregs hr hdev hworld]. split; [|done].
  change (HRegs (tohost (hr s2)) (fromhost (hr s2)) (htif_console_buf (hr s2)) 0 =
    HRegs 0 0 (foldl take_response (htif_console_buf (hr s0)) (os ++ cs)) 0).
  by rewrite T3, F2, B2, B1, Eos, <- foldl_app, app_assoc.
Qed.
(** ** The console *)

Lemma TOHOST_CMD_1 cmd data : TOHOST_CMD 1 cmd data <> 0.
Proof.
  unfold TOHOST_CMD. intros H. apply Z.lor_eq_0_iff in H as [H _].
  by apply Z.lor_eq_0_iff in H as [H _].
Qed.

Lemma htif_console_putchar_spec fuel ch s w os w2 rs :
  outlook s w os -> Forall console os -> htif_lk (hr s) = 0 -> Z.of_nat (work s os) < Zpos fuel ->
  respond (TOHOST_CMD 1 1 ch) w = Some (w2, rs) ->
  wp (htif_console_putchar fuel ch) (fun _ s' => exists used os', os = used ++ os' /\
    htif_lk (hr s') = 0 /\ outlook s' w2 (os' ++ rs)) never s.
Proof.
  intros HO HC Hl Hfuel Hr. unfold htif_console_putchar.
  eapply wp_bind_ok; [by apply spinlock_lock_free|]. set (s0 := lput _ s).
  apply wp_bind. eapply wp_mono;
    [apply (send_tohost_spec fuel 1 1 ch s0 w os w2 rs HO HC Hfuel (TOHOST_CMD_1 1 ch) Hr)| |done].
  intros _ s1 (used & os1 & Eos & _ & _ & _ & _ & O1). apply wp_modify. by exists used, os1.
Qed.

(** The characters among the responses, and those the kernel has yet to see:
    one request for a character is under way when the buffer is empty, none
    when it is not. *)
Definition read_char (o : Z) : list Z :=
  if FROMHOST_CMD o =? 0 then [u8 (FROMHOST_DATA o)] else [].
Definition chars (os : list Z) : list Z := flat_map read_char os.
Definition buffered (b : Z) : list Z := if 0 <? b then [b - 1] else [].
Definition coming (b : Z) (os : list Z) : list Z := buffered b ++ chars os.
Definition one_read (b : Z) (os : list Z) : Prop :=
  (b = -1 /\ (length (chars os) <= 1)%nat) \/ (0 <= b <= 256 /\ chars os = []).

Lemma chars_cons o os : chars (o :: os) = read_char o ++ chars os.
Proof. done. Qed.

(** Taking responses loses no character. *)
Lemma take_response_coming b o os :
  one_read b (o :: os) ->
  one_read (take_response b o) os /\ coming (take_response b o) os = coming b (o :: os).
Proof.
  unfold take_response, coming, one_read. rewrite chars_cons. unfold read_char.
  destruct (FROMHOST_CMD o =? 0); [|intros H; by split]. intros [[-> H]|[_ H]]; [|discriminate H].
  destruct (chars os) as [|x l]; [|simpl in H; lia].
  pose proof (Z.mod_pos_bound (FROMHOST_DATA o) (2 ^ 8) ltac:(lia)) as Hb.
  change (u8 (FROMHOST_DATA o)) with (FROMHOST_DATA o mod 2 ^ 8).
  set (c := FROMHOST_DATA o mod 2 ^ 8) in *. split; [right; split; [lia|done]|].
  unfold buffered. rewrite (proj2 (Z.ltb_lt _ _)) by lia. cbn [app Z.ltb Z.compare].
  f_equal. lia.
Qed.

Lemma foldl_take_response used b os :
  one_read b (used ++ os) ->
  one_read (foldl take_response b used) os /\
  coming (foldl take_response b used) os = coming b (used ++ os).
Proof.
  revert b. induction used as [|o used IH]; intros b H; [done|].
  rewrite <- app_comm_cons in H |- *. apply take_response_coming in H as [H E]. apply IH in H as [H E']. split; [exact H|].
  by rewrite <- E.
Qed.

(** Without a character in the buffer or on its way the buffer does not change. *)
Lemma foldl_take_response_idle used b os :
  chars (used ++ os) = [] -> foldl take_response b used = b /\ chars os = [].
Proof.
  induction used as [|o used IH] in b |- *; [done|]. rewrite <- app_comm_cons, chars_cons. cbn [foldl].
  unfold take_response at 2, read_char. destruct (FROMHOST_CMD o =? 0); [discriminate|]. apply IH.
Qed.

(** C17. htif_console_getchar terminates, with one request for a character under
    way at a time, and hands over the characters of the console in order, none
    of them twice and none overwritten: it answers -2 when the character
    requested has not arrived, -1 at first, and else the character. *)
Theorem htif_console_getchar_next fuel s w os w2 rs :
  outlook s w os -> Forall console os -> htif_lk (hr s) = 0 ->
  one_read (htif_console_buf (hr s)) os ->
  respond (TOHOST_CMD 1 0 0) w = Some (w2, rs) -> Forall console rs -> (length (chars rs) <= 1)%nat ->
  Z.of_nat (S bound * (2 * length os + 1) + bound) < Zpos fuel ->
  exists v s' os', htif_console_getchar fuel s = Ok v s' /\
    htif_lk (hr s') = 0 /\ Forall console os' /\ one_read (htif_console_buf (hr s')) os' /\
    let before := coming (htif_console_buf (hr s)) os in
    let after := coming (htif_console_buf (hr s')) os' in
    (v = -2 /\ outlook s' w os' /\ after = before) \/
    ((before = [v] \/ v = -1 /\ before = []) /\ outlook s' w2 os' /\ after = chars rs).
Proof.
  intros HO HC Hl H1 Hr HCr Hrs Hfuel. set (b := htif_console_buf (hr s)) in *.
  set (Q := fun v s' => exists os',
    htif_lk (hr s') = 0 /\ Forall console os' /\ one_read (htif_console_buf (hr s')) os' /\
    let before := coming b os in
    let after := coming (htif_console_buf (hr s')) os' in
    (v = -2 /\ outlook s' w os' /\ after = before) \/
    ((before = [v] \/ v = -1 /\ before = []) /\ outlook s' w2 os' /\ after = chars rs)).
  enough (wp (htif_console_getchar fuel) Q never s) as H.
  { apply wp_ok in H as (v & s' & E & os' & H). by exists v, s', os'. }
  unfold htif_console_getchar. eapply wp_bind_ok; [by apply spinlock_lock_free|].
  set (s0 := lput _ s). pose proof (work_le s os) as Hle.
  apply wp_bind. eapply wp_mono; [apply (check_fromhost_spec s0 w os HO)| |done].
  { intros o os' ->. by apply Forall_cons in HC as [? _]. }
  intros _ s1 (u1 & (L1 & B1 & _ & os1 & E1 & O1 & W1 & _) & _).
  rewrite E1 in H1, HC. apply Forall_app in HC as [_ HC]. apply foldl_take_response in H1 as [H1 Ec].
  change (htif_console_buf (hr s0)) with b in B1. rewrite <- B1 in H1, Ec. rewrite <- E1 in Ec.
  eapply wp_bind_ok; [done|]. cbv beta zeta. change (lget s1) with (hr s1).
  destruct (Z.leb_spec 0 (htif_console_buf (hr s1))) as [Hb|Hb]; cycle 1.
  { eapply wp_bind_ok; [done|]. eapply wp_bind_ok; [done|]. apply wp_ret. exists os1.
    split_and!; [done|done|exact H1|]. left. split; [|done]. destruct H1 as [[-> _]|]; lia. }
  destruct H1 as [[? _]|[Hb1 H1]]; [lia|].
  apply wp_assoc. eapply wp_bind_ok; [done|]. cbv beta. set (s2 := lput _ s1).
  assert (outlook s2 w os1) as O2 by exact O1.
  assert (work s2 os1 = work s1 os1) as W2 by done.
  apply wp_bind. eapply wp_mono;
    [apply (send_tohost_spec fuel 1 0 0 s2 w os1 w2 rs O2 HC); [|apply TOHOST_CMD_1|done]| |done].
  { change (work s0 os) with (work s os) in W1. lia. }
  intros _ s3 (u3 & os3 & E3 & L3 & B3 & _ & _ & O3). rewrite E3 in HC.
  apply Forall_app in HC as [_ HC]. unfold coming in Ec. rewrite H1, app_nil_r in Ec.
  rewrite E3 in H1. apply (foldl_take_response_idle _ (-1)) in H1 as [Ef Hc3].
  change (htif_console_buf (hr s2)) with (-1) in B3. rewrite Ef in B3.
  eapply wp_bind_ok; [done|]. apply wp_ret. exists (os3 ++ rs).
  change (htif_console_buf (hr (lput _ s3))) with (htif_console_buf (hr s3)). rewrite B3.
  assert (chars (os3 ++ rs) = chars rs) as Ers by (unfold chars in *; by rewrite flat_map_app, Hc3).
  split; [done|]. split; [by apply Forall_app|]. split; [left; by rewrite Ers|].
  right. split; [|split; [exact O3|exact Ers]]. unfold coming. rewrite <- Ec. unfold buffered.
  destruct (Z.ltb_spec 0 (htif_console_buf (hr s1))); [by left|right; split; [lia|done]].
Qed.
(** ** Strings for the console *)
Section Output.
(** The device answers the command to print a character with at most one
    response. *)
Context (emit : Z -> W -> W).
Context (EMIT : forall ch w, 0 < ch < 256 -> exists rs,
  respond (TOHOST_CMD 1 1 ch) w = Some (emit ch w, rs) /\ Forall console rs /\ (length rs <= 1)%nat).

Definition emit_all (cs : list byte) (w : W) : W :=
  foldl (fun w c => emit (byte.unsigned c) w) w cs.

Lemma putstring_spec fuel htif cs rest s w os :
  htif <> 0 -> Byte.x00 ∉ cs ->
  outlook s w os -> Forall console os -> htif_lk (hr s) = 0 ->
  Z.of_nat (S bound * (2 * (length os + length cs) + 1) + bound) < Zpos fuel ->
  wp (putstring fuel htif (cs ++ Byte.x00 :: rest)) (fun _ s' => exists os',
    htif_lk (hr s') = 0 /\ Forall console os' /\ outlook s' (emit_all cs w) os') never s.
Proof.
  intros Hh. revert s w os. induction cs as [|c cs IH]; intros s w os Hcs HO HC Hl Hfuel.
  { apply wp_ret. by exists os. }
  apply not_elem_of_cons in Hcs as [Hc Hcs]. cbn [app putstring].
  pose proof (byte.unsigned_range c) as Hr.
  assert (byte.unsigned c <> 0) as Hc0.
  { intros E. apply Hc, byte.unsigned_inj. by rewrite E. }
  rewrite (proj2 (Z.eqb_neq _ _) Hc0). unfold mcall_console_putchar.
  rewrite (proj2 (Z.eqb_neq _ _) Hh).
  destruct (EMIT (byte.unsigned c) w ltac:(lia)) as (rs & Hrs & HCr & Hlr).
  pose proof (work_le s os) as Hle. cbn [length] in Hfuel.
  apply wp_bind, wp_bind. eapply wp_mono;
    [apply (htif_console_putchar_spec fuel _ s w os (emit (byte.unsigned c) w) rs HO HC Hl); [nia|exact Hrs]| |done].
  intros _ s1 (used & os1 & E1 & L1 & O1). apply wp_ret.
  rewrite E1 in HC. apply Forall_app in HC as [_ HC].
  apply (IH s1 _ (os1 ++ rs)); [done|exact O1|by apply Forall_app|exact L1|].
  rewrite E1, length_app in Hfuel. rewrite length_app. nia.
Qed.

(** C18. vprintm terminates, the console has received the text of its format,
    cut at the 255th character, byte by byte and in order, and what the device
    may still answer is the console's. *)
Theorem vprintm_emits fuel htif fmt vl t s w os :
  htif <> 0 -> text false false fmt vl = Some t -> Byte.x00 ∉ t ->
  outlook s w os -> Forall console os -> htif_lk (hr s) = 0 ->
  Z.of_nat (S bound * (2 * (length os + 255) + 1) + bound) < Zpos fuel ->
  exists s' os', vprintm fuel htif fmt vl s = Ok tt s' /\ htif_lk (hr s') = 0 /\
    Forall console os' /\ outlook s' (emit_all (take 255 t) w) os'.
Proof.
  intros Hh Ht Hnul HO HC Hl Hfuel. unfold vprintm.
  pose proof (vsnprintf_text (replicate 256 Byte.x00) fmt vl) as Hv. rewrite Ht, length_replicate in Hv.
  change (Z.of_nat 256) with 256 in Hv. rewrite Hv. unfold final_buffer. rewrite length_replicate.
  change (256 =? 0)%nat with false. cbv iota. change (256 - 1)%nat with 255%nat.
  pose proof (length_take t 255) as Hlen.
  rewrite <- take_take, (take_ge (take 255 t)) by lia. set (rest := drop _ _).
  assert (Byte.x00 ∉ take 255 t) as Hnul'.
  { intros (i & Hi & _)%elem_of_take. by apply Hnul, (list_elem_of_lookup_2 _ i). }
  destruct (wp_ok _ _ _ (putstring_spec fuel htif (take 255 t) rest s w os Hh Hnul' HO HC Hl ltac:(nia)))
    as ([] & s' & E & os' & H1 & H2 & H3).
  by exists s', os'.
Qed.
End Output.

(** ** Power off *)
Definition off_work s : nat := (S bound * length (queue (hdev s)) + delay (hdev s))%nat.

Lemma wp_off_turn Q s :
  (forall w', respond 1 w' = None) -> tohost (hr s) = 1 ->
  (forall s', tohost (hr s') = 1 -> (off_work s' < off_work s)%nat -> Q tt s') ->
  wp host_turn Q (fun e _ => e = PowerOff) s.
Proof.
  intros Hoff Ht HQ. unfold wp, host_turn. destruct (poll _ _ _ _) as [[[[d w'] t] f]|] eqn:Hp; [|done].
  apply (dev_turn _ OK) in Hp. rewrite Ht in Hp. pose proof (dev_delay _ OK d) as Hd.
  unfold off_work in HQ. apply HQ; cbn; inversion Hp; simplify_eq; try congruence;
    repeat match goal with E : queue _ = _ |- _ => rewrite E end; cbn [length]; nia.
Qed.

(** Clearing fromhost loses at most a response. *)
Lemma outlook_drop s w os :
  outlook s w os -> exists os',
    outlook (HState (set_fromhost 0 (hr s)) (hdev s) (hworld s)) w os' /\ (length os' <= length os)%nat.
Proof.
  intros HO. destruct (decide (fromhost (hr s) = 0)) as [E|E].
  - exists os. split; [|done]. unfold outlook in *. cbn. by rewrite <- E.
  - destruct (outlook_consume s w os HO E) as (os' & -> & H & _). exists os'. split; [exact H|simpl; lia].
Qed.

Lemma off_work_le s w os : outlook s w os -> (off_work s <= S bound * length os + bound)%nat.
Proof.
  intros (_ & rs & _ & ->). unfold off_work. rewrite !length_app. pose proof (dev_delay _ OK (hdev s)). nia.
Qed.

(** htif_poweroff ends the machine, whatever was under way. *)
Theorem htif_poweroff_ends {A} fuel s w os :
  (forall w', respond 1 w' = None) -> outlook s w os ->
  Z.of_nat (S bound * (length os + 1) + bound) < Zpos fuel ->
  exists s', htif_poweroff (A := A) fuel s = Stop PowerOff s'.
Proof.
  intros Hoff HO Hfuel.
  enough (wp (htif_poweroff (A := A) fuel) (fun _ _ => False) (fun e _ => e = PowerOff) s) as H.
  { unfold wp in H. destruct (htif_poweroff _ _) as [|e s']; [done|]. subst e. by exists s'. }
  set (n0 := Z.of_nat (S bound * length os + bound + 1)).
  apply (wp_loop_bound _ (fun n _ s1 => n = n0 /\ s1 = s \/
    tohost (hr s1) = 1 /\ n = Z.of_nat (off_work s1)) _ _ _ n0); [by left|lia|lia|].
  intros n [] s1 [[-> ->]|[Ht ->]]; unfold write_fromhost, write_tohost.
  - apply wp_assoc, wp_bind, (wp_host_turn _ _ _ w os HO). intros s1 O1 _ _ _ _.
    eapply wp_bind_ok; [done|]. cbv beta. destruct (outlook_drop s1 w os O1) as (os2 & O2 & Hlen).
    apply wp_assoc, wp_bind, (wp_host_turn _ _ _ w os2 O2). intros s3 O3 _ _ _ _.
    eapply wp_bind_ok; [done|]. apply wp_ret. cbn [lget lput lens_hregs].
    pose proof (off_work_le s3 w os2 O3) as Hw. eexists. split; [|right; split; [done|reflexivity]].
    change (off_work (HState _ _ _)) with (off_work s3). nia.
  - apply wp_assoc, wp_bind, (wp_off_turn _ _ Hoff Ht). intros s2 Ht2 Hw2.
    eapply wp_bind_ok; [done|]. cbv beta. cbn [lget lput lens_hregs].
    set (s3 := HState (set_fromhost 0 (hr s2)) (hdev s2) (hworld s2)).
    apply wp_assoc, wp_bind, (wp_off_turn _ s3 Hoff Ht2). intros s4 Ht4 Hw4.
    eapply wp_bind_ok; [done|]. apply wp_ret. cbn [lget lput lens_hregs].
    eexists. split; [|right; split; [done|reflexivity]].
    change (off_work (HState _ _ _)) with (off_work s4). change (off_work s3) with (off_work s2) in Hw4. lia.
Qed.
(** ** Unexpected responses *)

(** A response which is not the console's, met while the kernel waits for
    something else: the assertion fails with the lock held, so that the report
    of it waits for the lock for ever. *)
Lemma check_fromhost_unexpected s w o os :
  outlook s w (o :: os) -> fromhost (hr s) <> 0 -> htif_lk (hr s) <> 0 ->
  FROMHOST_DEV o <> 1 \/ FROMHOST_CMD o <> 0 /\ FROMHOST_CMD o <> 1 ->
  exists s', check_fromhost s = Stop OutOfFuel s' /\ fromhost (hr s') = 0 /\ htif_lk (hr s') = htif_lk (hr s).
Proof.
  intros HO Hf Hlk Ho.
  enough (wp check_fromhost (fun _ _ => False) (fun e s' => e = OutOfFuel /\ fromhost (hr s') = 0 /\
    htif_lk (hr s') = htif_lk (hr s)) s) as H by (apply wp_stop in H as (e & s' & E & -> & H); by exists s').
  unfold check_fromhost, read_fromhost.
  apply wp_assoc, wp_bind, (wp_host_turn _ _ _ w _ HO). intros s1 H1 [Hb1 Hl1] Ht1 Hf1 _.
  specialize (Hf1 Hf). rewrite <- Hf1 in Hf. eapply wp_bind_ok; [done|]. cbv beta.
  rewrite (proj2 (Z.eqb_neq _ _) Hf).
  unfold write_fromhost. apply wp_assoc, wp_bind, (wp_host_turn _ _ _ w _ H1).
  intros s2 H2 [Hb2 Hl2] _ Hf2 _. rewrite <- (Hf2 Hf) in Hf |- *. eapply wp_bind_ok; [done|]. cbv beta.
  destruct (outlook_head s2 w _ H2 Hf) as [os' E]. injection E as <- _.
  set (s3 := lput _ s2). assert (htif_lk (hr s3) = htif_lk (hr s)) as Hl3 by (cbn; congruence).
  assert (wp (htif_assert false) (fun _ _ => False)
    (fun e s' => e = OutOfFuel /\ fromhost (hr s') = 0 /\ htif_lk (hr s') = htif_lk (hr s)) s3) as Hspin.
  { unfold htif_assert, wp, bind. rewrite spinlock_lock_held; [done|]. cbn -[s3]. congruence. }
  destruct (Z.eqb_spec (FROMHOST_DEV o) 1) as [Hd|Hd].
  - destruct Ho as [Hn|[Hc0 Hc1]]; [by destruct (Hn Hd)|].
    eapply wp_bind_ok; [reflexivity|]. cbv beta.
    rewrite (proj2 (Z.eqb_neq _ _) Hc0), (proj2 (Z.eqb_neq _ _) Hc1). exact Hspin.
  - apply wp_bind. eapply wp_mono; [exact Hspin|intros a s' []|intros e s' H; exact H].
Qed.
End Protocol.
