(* ===== verification/Spike.v ===== *)
(** frontend_syscall of spike_utils.c and
    spike_interface/spike_file.c: system calls of the emulator's host and the
    table of the host files the kernel has open.  The host is a parameter. *)
From S2P Require Import Prelude Mem CString Snprintf Console Atomic.

(** ** The host

    [host_call w k]: the host serves the request in the eight words [w] of the
    shared area; it may read and write the memory of the machine [k], and
    leaves its answer in the area. *)
Class Host := { host_call : list Z -> machine -> list Z * machine }.

(** ** The state: the static variables of spike_file.c and frontend_syscall *)
Record spike_file_t := SpikeFile { kfd : Z; refcnt : Z }.

Record spike := Spike {
  spike_files : list spike_file_t;
  spike_fds : list (option nat);   (* NULL or a file of spike_files *)
  magic_mem : list Z;
  lock : Z
}.

Definition set_spike_files (l : list spike_file_t) (t : spike) : spike :=
  Spike l (spike_fds t) (magic_mem t) (lock t).
Definition set_spike_fds (l : list (option nat)) (t : spike) : spike :=
  Spike (spike_files t) l (magic_mem t) (lock t).
Definition set_magic_mem (w : list Z) (t : spike) : spike :=
  Spike (spike_files t) (spike_fds t) w (lock t).
Definition set_lock (z : Z) (t : spike) : spike :=
  Spike (spike_files t) (spike_fds t) (magic_mem t) z.

Definition MAX_FILES : nat := 128.
Definition MAX_FDS : nat := 128.
Definition INIT_FILE_REF : Z := 3.
Definition ENOMEM : Z := 12.
Definition AT_FDCWD : Z := -100.
Definition O_RDONLY : Z := 0.

(** spike_htif.h *)
Definition HTIFSYS_fstat : Z := 80.
Definition HTIFSYS_read : Z := 63.
Definition HTIFSYS_write : Z := 64.
Definition HTIFSYS_openat : Z := 56.
Definition HTIFSYS_close : Z := 57.
Definition HTIFSYS_lseek : Z := 62.
Definition HTIFSYS_pread : Z := 67.
Definition HTIFSYS_exit : Z := 93.
Definition HTIFSYS_getmainvars : Z := 2011.

(** The static initialisers. *)
Definition spike_start : spike :=
  Spike (replicate MAX_FILES (SpikeFile (-1) 0)) (replicate MAX_FDS None) (replicate 8 0) 0.

(** A [spike_file_t *]: NULL, a file of the table, or an error number. *)
Inductive file_ptr : Type := FNull | FFile (i : nat) | FErr (e : Z).

#[export] Instance file_ptr_eq_dec : EqDecision file_ptr.
Proof. solve_decision. Defined.

Definition ERR_PTR (x : Z) : file_ptr := FErr x.
Definition IS_ERR_VALUE (x : file_ptr) : bool :=
  match x with FErr e => u64 (-4096) <=? u64 e | _ => false end.

Section Code.
Context {S : Type} `{L : !Lens S machine} `{LS : !Lens S spike} `{H : !Host}.

Definition upd_spike (f : spike -> spike) : M S unit := modify (fun s => lput (f (lget s)) s).

(** ** frontend_syscall *)

(** [static spinlock_t lock] *)
Definition call_lock : spinlock spike := Spinlock lock set_lock.

(** The host serves the request in [magic_mem]. *)
Definition htif_syscall : M S unit := fun s =>
  let r := host_call (magic_mem (lget s)) (lget s) in
  let s1 := lput (snd r) s in
  Ok tt (lput (set_magic_mem (fst r) (lget s1)) s1).

Definition frontend_syscall (n a0 a1 a2 a3 a4 a5 a6 : Z) : M S Z :=
  spinlock_lock call_lock ;;;
  upd_spike (set_magic_mem (map u64 [n; a0; a1; a2; a3; a4; a5; a6])) ;;;
  htif_syscall ;;;
  t <- gets lget ;;
  let r := s64 (List.hd 0 (magic_mem t)) in
  spinlock_unlock call_lock ;;;
  ret r.

(** ** spike_file.c *)

Definition deref_file (f : file_ptr) : M S (nat * spike_file_t) :=
  match f with
  | FNull => halt (BadAccess 0)
  | FErr e => halt (BadAccess (u64 e))
  | FFile i =>
      t <- gets lget ;;
      match spike_files t !! i with
      | Some x => ret (i, x)
      | None => halt Undefined
      end
  end.

Definition upd_file (i : nat) (f : spike_file_t -> spike_file_t) : M S unit :=
  upd_spike (fun t => set_spike_files (alter f i (spike_files t)) t).

(** [atomic_add(&f->refcnt, inc)]: a uint32. *)
Definition refcnt_add (f : file_ptr) (inc : Z) : M S Z :=
  x <- deref_file f ;;
  upd_file (fst x) (fun y => SpikeFile (kfd y) (u32 (refcnt (snd x) + inc))) ;;;
  ret (refcnt (snd x)).

Definition spike_file_decref (f : file_ptr) : M S unit :=
  r <- refcnt_add f (-1) ;;
  if r =? 2 then
    x <- deref_file f ;;
    upd_file (fst x) (fun y => SpikeFile (kfd y) 0) ;;;
    frontend_syscall HTIFSYS_close (kfd (snd x)) 0 0 0 0 0 0 ;;;
    ret tt
  else ret tt.

Definition spike_file_incref (f : file_ptr) : M S unit :=
  prev <- refcnt_add f 1 ;;
  kassert (0 <? prev).

(** [atomic_cas(&spike_fds[i], cmp, swp)] *)
Definition cas_fd (i : Z) (cmp swp : option nat) : M S (option nat) :=
  t <- gets lget ;;
  match (if i <? 0 then None else spike_fds t !! Z.to_nat i) with
  | None => halt Undefined
  | Some res =>
      (if bool_decide (res = cmp)
       then upd_spike (fun t => set_spike_fds (<[Z.to_nat i := swp]> (spike_fds t)) t)
       else ret tt) ;;;
      ret res
  end.

Definition spike_file_close (f : file_ptr) : M S Z :=
  match f with
  | FNull => ret (-1)
  | _ =>
      x <- deref_file f ;;
      old <- cas_fd (kfd (snd x)) (Some (fst x)) None ;;
      spike_file_decref f ;;;
      if bool_decide (old = Some (fst x)) then spike_file_decref f ;;; ret 0
      else ret (-1)
  end.

(** The first file, from [i] on, whose count is 0, with its new count. *)
Fixpoint get_free (n i : nat) : M S file_ptr :=
  match n with
  | O => ret FNull
  | Datatypes.S n' =>
      x <- deref_file (FFile i) ;;
      if refcnt (snd x) =? 0 then
        upd_file i (fun y => SpikeFile (kfd y) INIT_FILE_REF) ;;;
        ret (FFile i)
      else get_free n' (Datatypes.S i)
  end.

Definition spike_file_get_free : M S file_ptr := get_free MAX_FILES 0.

Fixpoint dup_fd (n i : nat) (f : nat) : M S Z :=
  match n with
  | O => ret (-1)
  | Datatypes.S n' =>
      old <- cas_fd (Z.of_nat i) None (Some f) ;;
      match old with
      | None => spike_file_incref (FFile f) ;;; ret (Z.of_nat i)
      | Some _ => dup_fd n' (Datatypes.S i) f
      end
  end.

Definition spike_file_dup (f : file_ptr) : M S Z :=
  match f with
  | FFile i => dup_fd MAX_FDS 0 i
  | _ => x <- deref_file f ;; ret (-1)
  end.

Definition spike_file_init : M S unit :=
  for_each [0; 1; 2] (fun i =>
    f <- spike_file_get_free ;;
    x <- deref_file f ;;
    upd_file (fst x) (fun y => SpikeFile i (refcnt y)) ;;;
    spike_file_dup f ;;;
    ret tt).

Definition spike_file_openat (dirfd fn flags mode : Z) : M S file_ptr :=
  f <- spike_file_get_free ;;
  match f with
  | FNull => ret (ERR_PTR (- ENOMEM))
  | _ =>
      n <- strlen fn ;;
      r <- frontend_syscall HTIFSYS_openat dirfd fn (n + 1) flags mode 0 0 ;;
      if 0 <=? r then
        x <- deref_file f ;;
        upd_file (fst x) (fun y => SpikeFile (s32 r) (refcnt y)) ;;;
        ret f
      else
        spike_file_decref f ;;;
        ret (ERR_PTR r)
  end.

Definition spike_file_open (fn flags mode : Z) : M S file_ptr :=
  spike_file_openat AT_FDCWD fn flags mode.

(** The fields of struct frontend_stat that copy_stat reads, in its order: offset
    and size. *)
Definition frontend_stat : list (Z * nat) :=
  [(0, 8%nat); (8, 8%nat); (16, 4%nat); (20, 4%nat); (24, 4%nat); (28, 4%nat); (32, 8%nat);
   (48, 8%nat); (56, 4%nat); (64, 8%nat); (72, 8%nat); (88, 8%nat); (104, 8%nat)].

(** [st_dev], [st_ino], [st_mode], [st_nlink], [st_uid], [st_gid], [st_rdev],
    [st_size], [st_blksize], [st_blocks], [st_atime], [st_mtime], [st_ctime] of
    the C library's struct stat. *)
Definition copy_stat (stat : list (Z * nat)) (dest src : Z) : M S unit :=
  for_each (zip stat frontend_stat) (fun '((od, nd), (os, ns)) =>
    v <- load ns (src + os) ;;
    store nd (dest + od) v).

(** [buf] is the address of the local variable. *)
Definition spike_file_stat (stat : list (Z * nat)) (buf : Z) (f : file_ptr) (s : Z) : M S Z :=
  x <- deref_file f ;;
  r <- frontend_syscall HTIFSYS_fstat (kfd (snd x)) buf 0 0 0 0 0 ;;
  copy_stat stat s buf ;;;
  ret (s32 r).

Definition spike_file_write (f : file_ptr) (buf size : Z) : M S Z :=
  x <- deref_file f ;;
  frontend_syscall HTIFSYS_write (kfd (snd x)) buf size 0 0 0 0.

Definition spike_file_pread (f : file_ptr) (buf size offset : Z) : M S Z :=
  x <- deref_file f ;;
  frontend_syscall HTIFSYS_pread (kfd (snd x)) buf size offset 0 0 0.

Definition spike_file_read (f : file_ptr) (buf size : Z) : M S Z :=
  x <- deref_file f ;;
  frontend_syscall HTIFSYS_read (kfd (snd x)) buf size 0 0 0 0.

Definition spike_file_lseek (f : file_ptr) (ptr dir : Z) : M S Z :=
  x <- deref_file f ;;
  frontend_syscall HTIFSYS_lseek (kfd (snd x)) ptr dir 0 0 0 0.
End Code.

(** ** Specifications *)

Section Specs.
Context {S : Type} `{L : !Lens S machine} `{LS : !Lens S spike} `{I : !LensIndep L LS} `{H : !Host}.
Implicit Types s : S.

Lemma mach_lput (t : spike) s : lget (lput t s) = lget s :> machine.
Proof. apply lget_lput_l. Qed.

Lemma spike_lput (k : machine) s : lget (lput k s) = lget s :> spike.
Proof. apply lget_lput_r. Qed.

(** The answer of the host, and the state after a call. *)
Definition answer (args : list Z) s : list Z * machine := host_call (map u64 args) (lget s).
Definition answer_value (args : list Z) s : Z := s64 (List.hd 0 (fst (answer args s))).
Definition called (args : list Z) s : S :=
  let r := answer args s in
  lput (set_lock 0 (set_magic_mem (fst r) (lget s))) (lput (snd r) s).

(** The lock is free before and after a call; the host is called once. *)
Lemma frontend_syscall_spec n a0 a1 a2 a3 a4 a5 a6 s :
  lock (lget s) = 0 ->
  let args := [n; a0; a1; a2; a3; a4; a5; a6] in
  frontend_syscall n a0 a1 a2 a3 a4 a5 a6 s = Ok (answer_value args s) (called args s).
Proof.
  intros Hl args. unfold frontend_syscall.
  rewrite (bind_step _ _ _ _ _ (spinlock_lock_free call_lock s Hl)).
  set (s1 := lput (set_lock (-1) (lget s)) s).
  set (s2 := lput (set_magic_mem (map u64 args) (lget s1)) s1).
  rewrite (bind_step tt s2) by done.
  assert (answer args s = host_call (magic_mem (lget s2)) (lget s2)) as Ea.
  { unfold answer, s2. rewrite lget_lput, mach_lput. unfold s1. by rewrite mach_lput. }
  unfold answer_value, called. rewrite Ea. set (r := host_call (magic_mem (lget s2)) (lget s2)).
  set (s3 := lput (set_magic_mem (fst r) (lget (lput (snd r) s2))) (lput (snd r) s2)).
  rewrite (bind_step tt s3) by done. rewrite (bind_step (lget s3) s3) by done.
  rewrite (bind_step tt (lput (set_lock 0 (lget s3)) s3)) by done. unfold ret. f_equal.
  - unfold s3. by rewrite lget_lput.
  - unfold s3. rewrite lget_lput, lput_lput, spike_lput. unfold s2.
    rewrite lget_lput, (lput_lput_comm (snd r)), lput_lput. unfold s1.
    rewrite lget_lput, (lput_lput_comm (snd r)), lput_lput. done.
Qed.

(** ** spike_file_stat *)

Definition apart (x y : Z * nat) : Prop :=
  fst x + Z.of_nat (snd x) <= fst y \/ fst y + Z.of_nat (snd y) <= fst x.

Lemma copy_fields_spec l dest src size : forall s,
  DRAM_BASE <= dest -> dest + size <= PHYS_TOP -> DRAM_BASE <= src -> src + 112 <= PHYS_TOP ->
  dest + size <= src \/ src + 112 <= dest ->
  Forall (fun '((od, nd), (os, ns)) => 0 <= od /\ od + Z.of_nat nd <= size /\
    0 <= os /\ os + Z.of_nat ns <= 112) l ->
  ForallOrdPairs apart (map fst l) ->
  exists m, for_each l (fun '((od, nd), (os, ns)) =>
      v <- load ns (src + os) ;; store nd (dest + od) v) s = Ok tt (put_mem m s) /\
    (forall lo hi, hi <= dest \/ dest + size <= lo -> same_on lo hi m (smem s)) /\
    (forall b k, Forall (fun x => apart (b, k) (fst x)) l -> loadn k m (dest + b) = loadn k (smem s) (dest + b)) /\
    Forall (fun '((od, nd), (os, ns)) =>
      loadn nd m (dest + od) = loadn ns (smem s) (src + os) mod 2 ^ (8 * Z.of_nat nd)) l.
Proof.
  induction l as [|[[od nd] [os ns]] l IH]; intros s D1 D2 S1 S2 Hd Hl Ha.
  { exists (smem s). rewrite put_mem_smem. split; [done|]. by split_and!. }
  apply Forall_cons in Hl as [(H1 & H2 & H3 & H4) Hl]. inversion Ha as [|? ? Ha1 Ha']; subst. clear Ha; rename Ha' into Ha.
  set (v := loadn ns (smem s) (src + os)). set (m1 := storen nd (smem s) (dest + od) v).
  destruct (IH (put_mem m1 s) D1 D2 S1 S2 Hd Hl Ha) as (m & E & Hout & Hkeep & Hall).
  rewrite smem_put_mem in Hout, Hkeep. exists m. split_and!.
  - cbn [for_each]. eapply bind_ok; [|rewrite E; by rewrite put_mem_put_mem].
    eapply bind_ok; [unfold load; by rewrite (proj2 (ram_ok_iff _ _)) by lia|].
    unfold store. by rewrite (proj2 (ram_ok_iff _ _)) by lia.
  - intros lo hi Ho. etransitivity; [by apply Hout|]. apply storen_same_on. lia.
  - intros b k Hb. apply Forall_cons in Hb as [Hb1 Hb]. rewrite Hkeep by exact Hb.
    unfold apart in Hb1. simpl in Hb1. apply loadn_storen_ne. lia.
  - constructor.
    + rewrite Hkeep; [apply loadn_storen|]. exact (proj1 (Forall_map fst (apart (od, nd)) l) Ha1).
    + rewrite Forall_forall in Hall, Hl |- *. intros [[od' nd'] [os' ns']] Hin.
      specialize (Hall _ Hin). specialize (Hl _ Hin). cbn in Hall, Hl. rewrite Hall, smem_put_mem.
      f_equal. apply loadn_storen_ne. lia.
Qed.

(** copy_stat fills the fields of [stat], each with the field of the answer,
    cut to its size, and nothing around them. *)
Lemma copy_stat_fills stat dest src size s :
  DRAM_BASE <= dest -> dest + size <= PHYS_TOP -> DRAM_BASE <= src -> src + 112 <= PHYS_TOP ->
  dest + size <= src \/ src + 112 <= dest -> length stat = 13%nat ->
  Forall (fun '(od, nd) => 0 <= od /\ od + Z.of_nat nd <= size) stat -> ForallOrdPairs apart stat ->
  exists m, copy_stat stat dest src s = Ok tt (put_mem m s) /\
    (forall lo hi, hi <= dest \/ dest + size <= lo -> same_on lo hi m (smem s)) /\
    forall k od nd os ns, stat !! k = Some (od, nd) -> frontend_stat !! k = Some (os, ns) ->
      loadn nd m (dest + od) = loadn ns (smem s) (src + os) mod 2 ^ (8 * Z.of_nat nd).
Proof.
  intros D1 D2 S1 S2 Hd Hlen Hst Ha.
  destruct (copy_fields_spec (zip stat frontend_stat) dest src size s D1 D2 S1 S2 Hd) as (m & E & Hout & _ & Hall).
  - apply Forall_forall. intros [[od nd] [os ns]] Hin.
    pose proof (elem_of_zip_l _ _ _ _ Hin) as H1. pose proof (elem_of_zip_r _ _ _ _ Hin) as H2.
    rewrite Forall_forall in Hst. specialize (Hst _ H1). cbn in Hst.
    assert (Forall (fun '(o, n) => 0 <= o /\ o + Z.of_nat n <= 112) frontend_stat) as Hf.
    { repeat constructor; vm_compute; discriminate. }
    rewrite Forall_forall in Hf. specialize (Hf _ H2). cbn in Hf. tauto.
  - change (map fst) with (fmap (M := list) (fst (A := Z * nat) (B := Z * nat))).
    by rewrite fst_zip by (rewrite Hlen; done).
  - exists m. split; [exact E|]. split; [exact Hout|]. intros k od nd os ns H1 H2.
    rewrite Forall_lookup in Hall. apply (Hall k ((od, nd), (os, ns))).
    apply lookup_zip_with_Some. by exists (od, nd), (os, ns).
Qed.

(** ** The table of files *)

Definition free_slots (t : spike) : nat :=
  length (filter (fun x => refcnt x = 0) (spike_files t)).

(** The state after an update of the file [i]. *)
Definition with_file (i : nat) (f : spike_file_t -> spike_file_t) s : S :=
  lput (set_spike_files (alter f i (spike_files (lget s))) (lget s)) s.

Lemma with_file_twice i f g s : with_file i f (with_file i g s) = with_file i (fun x => f (g x)) s.
Proof.
  unfold with_file. rewrite lget_lput, lput_lput. unfold set_spike_files. simpl.
  by rewrite list_alter_alter_eq.
Qed.

Lemma with_file_files i f s :
  spike_files (lget (with_file i f s)) = alter f i (spike_files (lget s)).
Proof. unfold with_file. by rewrite lget_lput. Qed.

Lemma with_file_rest i f s :
  spike_fds (lget (with_file i f s)) = spike_fds (lget s) /\
  lock (lget (with_file i f s)) = lock (lget s) /\
  lget (with_file i f s) = lget s :> machine.
Proof. unfold with_file. by rewrite lget_lput, mach_lput. Qed.

Lemma called_files args s :
  spike_files (lget (called args s)) = spike_files (lget s) /\
  spike_fds (lget (called args s)) = spike_fds (lget s) /\
  lock (lget (called args s)) = 0 /\
  lget (called args s) = snd (answer args s) :> machine.
Proof. unfold called. by rewrite lget_lput, mach_lput, lget_lput. Qed.

Lemma deref_file_ok i x s :
  spike_files (lget s) !! i = Some x -> deref_file (FFile i) s = Ok (i, x) s.
Proof. intros Hx. unfold deref_file, bind, gets. by rewrite Hx. Qed.

Lemma refcnt_add_ok i x inc s :
  spike_files (lget s) !! i = Some x ->
  refcnt_add (FFile i) inc s =
  Ok (refcnt x) (with_file i (fun y => SpikeFile (kfd y) (u32 (refcnt x + inc))) s).
Proof. intros Hx. unfold refcnt_add. by rewrite (bind_step _ _ _ _ _ (deref_file_ok _ _ _ Hx)). Qed.

(** Dropping a reference that is not the one before the last. *)
Lemma decref_ok i x s :
  spike_files (lget s) !! i = Some x -> refcnt x <> 2 ->
  spike_file_decref (FFile i) s =
  Ok tt (with_file i (fun y => SpikeFile (kfd y) (u32 (refcnt x + -1))) s).
Proof.
  intros Hx Hr. unfold spike_file_decref.
  rewrite (bind_step _ _ _ _ _ (refcnt_add_ok _ _ _ _ Hx)).
  by destruct (Z.eqb_spec (refcnt x) 2).
Qed.

(** The first free file is taken, with three references. *)
Lemma get_free_spec n i s :
  (i + n = length (spike_files (lget s)))%nat ->
  (get_free n i s = Ok FNull s /\
   (forall j x, (i <= j)%nat -> spike_files (lget s) !! j = Some x -> refcnt x <> 0)) \/
  (exists j x, spike_files (lget s) !! j = Some x /\ refcnt x = 0 /\
     get_free n i s = Ok (FFile j) (with_file j (fun y => SpikeFile (kfd y) INIT_FILE_REF) s)).
Proof.
  revert i. induction n as [|n IH]; intros i Hn; cbn [get_free].
  - left. split; [done|]. intros j x Hj Hx. apply lookup_lt_Some in Hx. lia.
  - destruct (lookup_lt_is_Some_2 (spike_files (lget s)) i) as [x Hx]; [lia|].
    rewrite (bind_step _ _ _ _ _ (deref_file_ok _ _ _ Hx)). cbn [snd].
    destruct (Z.eqb_spec (refcnt x) 0) as [Hz|Hz]; [right; by exists i, x|].
    destruct (IH (Datatypes.S i)) as [[-> Hall]|Hsome]; [lia| |by right].
    left. split; [done|]. intros j y Hj Hy.
    destruct (decide (j = i)) as [->|Hne]; [congruence|]. apply (Hall j y); [lia|done].
Qed.

Lemma free_alter (l : list spike_file_t) f i x :
  l !! i = Some x -> refcnt x = 0 -> refcnt (f x) <> 0 ->
  (length (filter (fun y => refcnt y = 0%Z) (alter f i l)) + 1 =
   length (filter (fun y => refcnt y = 0%Z) l))%nat.
Proof.
  revert i. induction l as [|y l IH]; intros [|i] Hx Hz Hf; simpl in *; simplify_eq;
    rewrite !filter_cons.
  - rewrite decide_False, decide_True by done. simpl. lia.
  - specialize (IH i Hx Hz Hf). case_decide; simpl; unfold alter in *; lia.
Qed.

Lemma free_alter_same (l : list spike_file_t) f i x :
  l !! i = Some x -> refcnt x <> 0 -> refcnt (f x) <> 0 ->
  length (filter (fun y => refcnt y = 0%Z) (alter f i l)) =
  length (filter (fun y => refcnt y = 0%Z) l).
Proof.
  revert i. induction l as [|y l IH]; intros [|i] Hx Hz Hf; simpl in *; simplify_eq;
    rewrite !filter_cons.
  - by rewrite !decide_False.
  - specialize (IH i Hx Hz Hf). case_decide; simpl; unfold alter in *; lia.
Qed.

Lemma free_slots_0 t :
  free_slots t = 0%nat <-> (forall j x, spike_files t !! j = Some x -> refcnt x <> 0).
Proof.
  unfold free_slots. rewrite length_zero_iff_nil. split.
  - intros E j x Hx Hz. apply list_elem_of_lookup_2 in Hx. exact (filter_nil_not_elem_of _ _ _ E Hz Hx).
  - intros Hall. apply elem_of_nil_inv. intros x [Hz Hx]%list_elem_of_filter.
    apply list_elem_of_lookup in Hx as [j Hx]. by apply (Hall j x).
Qed.

(** A call of spike_file_openat when [i] is the free file it finds. *)
Definition open_args (dirfd fn len flags mode : Z) : list Z :=
  [HTIFSYS_openat; dirfd; fn; len + 1; flags; mode; 0; 0].

Lemma openat_ok dirfd fn bs flags mode i x s :
  lock (lget s) = 0 -> cstr (smem s) fn bs -> ram_range fn (Z.of_nat (length bs) + 1) ->
  spike_files (lget s) !! i = Some x ->
  spike_file_get_free s =
    Ok (FFile i) (with_file i (fun y => SpikeFile (kfd y) INIT_FILE_REF) s) ->
  let args := open_args dirfd fn (Z.of_nat (length bs)) flags mode in
  let s1 := called args (with_file i (fun y => SpikeFile (kfd y) INIT_FILE_REF) s) in
  let r := answer_value args s in
  spike_file_openat dirfd fn flags mode s =
    if 0 <=? r
    then Ok (FFile i) (with_file i (fun y => SpikeFile (s32 r) (refcnt y)) s1)
    else Ok (FErr r) (with_file i (fun y => SpikeFile (kfd y) 2) s1).
Proof.
  intros Hl Hc Hram Hx Hf args s1 r. unfold spike_file_openat.
  rewrite (bind_step _ _ _ _ _ Hf). set (s0 := with_file i _ s).
  destruct (with_file_rest i (fun y => SpikeFile (kfd y) INIT_FILE_REF) s) as (_ & Hl0 & Hm0).
  fold s0 in Hl0, Hm0.
  assert (smem s0 = smem s) as Hs0 by (unfold smem; by rewrite Hm0).
  rewrite (bind_step (Z.of_nat (length bs)) s0) by (apply strlen_spec; [by rewrite Hs0|done]).
  rewrite (bind_step _ _ _ _ _ (frontend_syscall_spec _ _ _ _ _ _ _ _ s0 (eq_trans Hl0 Hl))).
  fold (open_args dirfd fn (Z.of_nat (length bs)) flags mode). fold args. fold s1.
  assert (answer_value args s0 = r) as -> by (unfold r, answer_value, answer; by rewrite Hm0).
  assert (spike_files (lget s1) !! i = Some (SpikeFile (kfd x) INIT_FILE_REF)) as Hx1.
  { change s1 with (called args s0). destruct (called_files args s0) as (-> & _). unfold s0.
    by rewrite with_file_files, list_lookup_alter_eq, Hx. }
  destruct (0 <=? r).
  - by rewrite (bind_step _ _ _ _ _ (deref_file_ok _ _ _ Hx1)).
  - by rewrite (bind_step _ _ _ _ _ (decref_ok _ _ _ Hx1 ltac:(done))).
Qed.
End Specs.

(** ** Initialisation *)

Section Init.
Context {S : Type} `{L : !Lens S machine} `{LS : !Lens S spike} `{H : !Host}.
Implicit Types s : S.

Lemma get_free_here n i x s :
  spike_files (lget s) !! i = Some x -> refcnt x = 0 ->
  get_free (Datatypes.S n) i s =
  Ok (FFile i) (with_file i (fun y => SpikeFile (kfd y) INIT_FILE_REF) s).
Proof.
  intros Hx Hz. cbn [get_free]. rewrite (bind_step _ _ _ _ _ (deref_file_ok _ _ _ Hx)). simpl.
  by rewrite Hz.
Qed.

Lemma get_free_skip k n i s :
  (forall j, (i <= j < i + k)%nat -> exists x, spike_files (lget s) !! j = Some x /\ refcnt x <> 0) ->
  get_free (k + n) i s = get_free n (i + k) s.
Proof.
  revert i. induction k as [|k IH]; intros i Hk; [by rewrite Nat.add_0_r|].
  destruct (Hk i) as (x & Hx & Hz); [lia|]. cbn [get_free Nat.add].
  rewrite (bind_step _ _ _ _ _ (deref_file_ok _ _ _ Hx)). simpl.
  destruct (Z.eqb_spec (refcnt x) 0); [done|]. rewrite IH by (intros j Hj; apply Hk; lia).
  f_equal. lia.
Qed.

Lemma dup_fd_skip k n i f s :
  (forall j, (i <= j < i + k)%nat -> exists x, spike_fds (lget s) !! j = Some (Some x)) ->
  dup_fd (k + n) i f s = dup_fd n (i + k) f s.
Proof.
  revert i. induction k as [|k IH]; intros i Hk; [by rewrite Nat.add_0_r|].
  destruct (Hk i) as (x & Hx); [lia|]. cbn [dup_fd Nat.add].
  assert (cas_fd (Z.of_nat i) None (Some f) s = Ok (Some x) s) as Ec.
  { unfold cas_fd. rewrite (bind_step _ _ _ _ _ (eq_refl : gets lget s = Ok _ s)).
    destruct (Z.ltb_spec (Z.of_nat i) 0); [lia|]. by rewrite Nat2Z.id, Hx. }
  rewrite (bind_step _ _ _ _ _ Ec). cbv iota.
  rewrite IH by (intros j Hj; apply Hk; lia). f_equal. lia.
Qed.

(** The tables after the first [k] rounds. *)
Definition std_files (k : nat) : spike :=
  Spike (map (fun i => SpikeFile (Z.of_nat i) 4) (seq 0 k) ++ replicate (128 - k) (SpikeFile (-1) 0))
        (map Some (seq 0 k) ++ replicate (128 - k) None) (replicate 8 0) 0.

(** The files of the host while the standard file [k] is being opened. *)
Definition std_got (k : nat) : spike :=
  set_spike_files (alter (fun y => SpikeFile (kfd y) INIT_FILE_REF) k (spike_files (std_files k))) (std_files k).
Definition std_named (k : nat) : spike :=
  set_spike_files (alter (fun y => SpikeFile (Z.of_nat k) (refcnt y)) k (spike_files (std_got k))) (std_got k).
Definition std_entered (k : nat) : spike :=
  set_spike_fds (<[k := Some k]> (spike_fds (std_named k))) (std_named k).
Definition std_dup (k : nat) : spike :=
  set_spike_files (alter (fun y => SpikeFile (kfd y) 4) k (spike_files (std_entered k))) (std_entered k).

(** A fact of each of the three. *)
Ltac three k := destruct k as [|[|[|]]]; [..|lia].

Lemma init_get_free k s :
  (k < 3)%nat -> lget s = std_files k -> spike_file_get_free s = Ok (FFile k) (lput (std_got k) s).
Proof.
  intros Hk Hs. unfold spike_file_get_free, MAX_FILES. set (x0 := SpikeFile (-1) 0).
  assert (spike_files (lget s) !! k = Some x0) as Hx by (rewrite Hs; by three k).
  replace 128%nat with (k + Datatypes.S (127 - k))%nat by lia. rewrite get_free_skip.
  - erewrite (get_free_here _ _ x0) by done. unfold with_file, std_got. by rewrite Hs.
  - intros j Hj. rewrite Hs. three k; [lia| |].
    + assert (j = 0)%nat as -> by lia. by eexists.
    + destruct j as [|[|]]; [by eexists|by eexists|lia].
Qed.

Lemma init_cas k s :
  (k < 3)%nat -> cas_fd (Z.of_nat k) None (Some k) (lput (std_named k) s) = Ok None (lput (std_entered k) s).
Proof.
  intros Hk. unfold cas_fd. erewrite bind_step by reflexivity.
  destruct (Z.ltb_spec (Z.of_nat k) 0); [lia|]. rewrite Nat2Z.id, lget_lput.
  assert (spike_fds (std_named k) !! k = Some None) as -> by (by three k).
  rewrite bool_decide_true by done. unfold upd_spike, modify, bind, ret. by rewrite lget_lput, lput_lput.
Qed.

Lemma init_dup k s :
  (k < 3)%nat -> spike_file_dup (FFile k) (lput (std_named k) s) = Ok (Z.of_nat k) (lput (std_dup k) s).
Proof.
  intros Hk. unfold spike_file_dup, MAX_FDS. replace 128%nat with (k + Datatypes.S (127 - k))%nat by lia.
  rewrite dup_fd_skip.
  2: { intros j Hj. rewrite lget_lput. three k; [lia| |].
       - assert (j = 0)%nat as -> by lia. by eexists.
       - destruct j as [|[|]]; [by eexists|by eexists|lia]. }
  cbn [dup_fd Nat.add]. rewrite (bind_step _ _ _ _ _ (init_cas k s Hk)). cbv iota. unfold spike_file_incref.
  assert (spike_files (lget (lput (std_entered k) s)) !! k = Some (SpikeFile (Z.of_nat k) 3)) as Hx
    by (rewrite lget_lput; by three k).
  erewrite bind_step by (erewrite bind_step by (apply refcnt_add_ok, Hx); reflexivity).
  unfold ret, with_file. by rewrite lget_lput, lput_lput.
Qed.

Lemma init_step k z s :
  (k < 3)%nat -> z = Z.of_nat k -> lget s = std_files k ->
  (f <- spike_file_get_free ;;
   x <- deref_file f ;;
   upd_file (fst x) (fun y => SpikeFile z (refcnt y)) ;;;
   spike_file_dup f ;;;
   ret tt) s = Ok tt (lput (std_files (Datatypes.S k)) s).
Proof.
  intros Hk -> Hs. rewrite (bind_step _ _ _ _ _ (init_get_free k s Hk Hs)).
  assert (spike_files (lget (lput (std_got k) s)) !! k = Some (SpikeFile (-1) 3)) as Hx
    by (rewrite lget_lput; by three k).
  rewrite (bind_step _ _ _ _ _ (deref_file_ok _ _ _ Hx)). cbn [fst snd].
  rewrite (bind_step tt (lput (std_named k) s)).
  2: { unfold upd_file, upd_spike, modify. by rewrite lget_lput, lput_lput. }
  rewrite (bind_step _ _ _ _ _ (init_dup k s Hk)). unfold ret. do 2 f_equal. three k; vm_compute; reflexivity.
Qed.
End Init.

(** * Properties *)

(** C35. spike_file_openat calls the host once and takes a free file of the table
    whether the host succeeds or not; without a free file it answers -ENOMEM
    and changes nothing. *)
Theorem openat_takes_slot {S} `{L : !Lens S machine} `{LS : !Lens S spike}
    `{I : !LensIndep L LS} `{H : !Host} dirfd fn bs flags mode (s : S) :
  lock (lget s) = 0 -> length (spike_files (lget s)) = MAX_FILES ->
  cstr (smem s) fn bs -> ram_range fn (Z.of_nat (length bs) + 1) ->
  if decide (free_slots (lget s) = 0%nat)
  then spike_file_openat dirfd fn flags mode s = Ok (ERR_PTR (- ENOMEM)) s
  else exists p s', spike_file_openat dirfd fn flags mode s = Ok p s' /\
    (free_slots (lget s') + 1 = free_slots (lget s))%nat /\
    let args := open_args dirfd fn (Z.of_nat (length bs)) flags mode in
    lget s' = snd (answer args s) :> machine /\ lock (lget s') = 0 /\
    spike_fds (lget s') = spike_fds (lget s) /\
    if 0 <=? answer_value args s
    then exists i, p = FFile i /\
      spike_files (lget s') !! i = Some (SpikeFile (s32 (answer_value args s)) INIT_FILE_REF)
    else p = FErr (answer_value args s).
Proof.
  intros Hl Hlen Hc Hram.
  destruct (get_free_spec MAX_FILES 0 s) as [[Hf Hall]|(i & x & Hx & Hz & Hf)]; [lia| |].
  - rewrite decide_True by (apply free_slots_0; intros j x; apply Hall; lia).
    unfold spike_file_openat. by rewrite (bind_step _ _ _ _ _ Hf).
  - rewrite decide_False by (rewrite free_slots_0; intros E; by apply (E i x)).
    rewrite (openat_ok dirfd fn bs flags mode i x s) by done. cbv zeta.
    set (args := open_args _ _ _ _ _). set (s0 := with_file i _ s). set (s1 := called args s0).
    destruct (with_file_rest i (fun y => SpikeFile (kfd y) INIT_FILE_REF) s) as (Hd0 & _ & Hm0).
    fold s0 in Hd0, Hm0. destruct (called_files args s0) as (Hf1 & Hd1 & Hl1 & Hm1).
    fold s1 in Hf1, Hd1, Hl1, Hm1.
    assert (answer args s0 = answer args s) as Ea by (unfold answer; by rewrite Hm0).
    rewrite Ea in Hm1. rewrite Hd0 in Hd1. unfold s0 in Hf1. rewrite with_file_files in Hf1.
    assert (forall f, refcnt (f (SpikeFile (kfd x) INIT_FILE_REF)) <> 0 ->
      (free_slots (lget (with_file i f s1)) + 1 = free_slots (lget s))%nat) as Hfree.
    { intros f Hr. unfold free_slots. rewrite with_file_files, Hf1, list_alter_alter_eq.
      by apply (free_alter _ _ i x). }
    destruct (0 <=? answer_value args s); eexists _, _; (split; [done|]);
      (split; [by apply Hfree|]);
      match goal with |- context [with_file i ?f s1] =>
        destruct (with_file_rest i f s1) as (-> & -> & ->) end;
      split_and!; try done.
    exists i. split; [done|]. rewrite with_file_files, Hf1, list_alter_alter_eq.
    by rewrite list_lookup_alter_eq, Hx.
Qed.

(** C36. The kernel opens its program with spike_file_open and closes it once: the
    close answers -1, does not reach the host (the machine does not change),
    and leaves two references, so that the file of the table stays taken for
    ever. *)
Theorem close_after_open_leaks {S} `{L : !Lens S machine} `{LS : !Lens S spike}
    `{I : !LensIndep L LS} `{H : !Host} i fd (s : S) :
  0 <= fd -> spike_files (lget s) !! i = Some (SpikeFile fd INIT_FILE_REF) ->
  (exists other, spike_fds (lget s) !! Z.to_nat fd = Some other /\ other <> Some i) ->
  exists s', spike_file_close (FFile i) s = Ok (-1) s' /\
    lget s' = lget s :> machine /\
    spike_files (lget s') = alter (fun x => SpikeFile (kfd x) 2) i (spike_files (lget s)) /\
    free_slots (lget s') = free_slots (lget s).
Proof.
  intros Hfd Hx (other & Ho & Hne). unfold spike_file_close.
  rewrite (bind_step _ _ _ _ _ (deref_file_ok _ _ _ Hx)). cbn [fst snd kfd].
  assert (cas_fd fd (Some i) None s = Ok other s) as Ec.
  { unfold cas_fd. rewrite (bind_step _ _ _ _ _ (eq_refl : gets lget s = Ok _ s)).
    destruct (Z.ltb_spec fd 0); [lia|]. rewrite Ho. by rewrite bool_decide_false. }
  rewrite (bind_step _ _ _ _ _ Ec), (bind_step _ _ _ _ _ (decref_ok _ _ _ Hx ltac:(done))).
  rewrite bool_decide_false by done. eexists. split; [done|].
  match goal with |- context [with_file i ?f s] =>
    destruct (with_file_rest i f s) as (_ & _ & ->) end.
  split; [done|]. unfold free_slots. rewrite with_file_files. split; [done|].
  by apply (free_alter_same _ _ i (SpikeFile fd INIT_FILE_REF)).
Qed.

Lemma spike_file_init_spec {S} `{L : !Lens S machine} `{LS : !Lens S spike} (s : S) :
  lget s = spike_start ->
  spike_file_init s =
  Ok tt (lput (Spike ([SpikeFile 0 4; SpikeFile 1 4; SpikeFile 2 4] ++
                        replicate 125 (SpikeFile (-1) 0))
                     ([Some 0; Some 1; Some 2]%nat ++ replicate 125 None) (replicate 8 0) 0) s).
Proof.
  intros Hs. unfold spike_file_init. cbn [for_each].
  rewrite (bind_step _ _ _ _ _ (init_step 0 0 s ltac:(lia) eq_refl Hs)).
  set (s1 := lput _ s). assert (lget s1 = std_files 1) as H1 by apply lget_lput.
  rewrite (bind_step _ _ _ _ _ (init_step 1 1 s1 ltac:(lia) eq_refl H1)).
  set (s2 := lput _ s1). assert (lget s2 = std_files 2) as H2 by apply lget_lput.
  rewrite (bind_step _ _ _ _ _ (init_step 2 2 s2 ltac:(lia) eq_refl H2)).
  unfold s2, s1. by rewrite !lput_lput.
Qed.

(** spike_file_init on the static tables: the host files 0, 1 and 2 are the
    first three of the table, with four references each, the last one from
    the descriptor of the same number; the host is not called. *)
Theorem spike_file_init_std {S} `{L : !Lens S machine} `{LS : !Lens S spike} (s : S) :
  lget s = spike_start ->
  spike_file_init s =
  Ok tt (lput (Spike ([SpikeFile 0 4; SpikeFile 1 4; SpikeFile 2 4] ++
                        replicate 125 (SpikeFile (-1) 0))
                     ([Some 0; Some 1; Some 2]%nat ++ replicate 125 None) (replicate 8 0) 0) s).
Proof. apply spike_file_init_spec. Qed.
