(* ===== verification/HtifHost.v ===== *)
(** The system call of spike_interface/spike_file.c, [htif_syscall], over the
    protocol of HTIF: [Spike.htif_syscall], which hands a request to the host in
    one step, is implemented by [Htif.htif_syscall].  The second part is a
    device that follows the protocol, for the witnesses. *)
From S2P Require Import Prelude Mem CString Snprintf Atomic Htif Spike.

Lemma TOHOST_CMD_0 x : TOHOST_CMD 0 0 x = x.
Proof. by unfold TOHOST_CMD. Qed.

(** * Refinement *)
Section Refinement.
Context {S : Type} `{L : !Lens S machine} `{LS : !Lens S spike} `{I : !LensIndep L LS} `{H : !Host}.
Context {D : Type} `{HD : !HtifDevice D (list Z * machine)}.
Context (respond : Z -> list Z * machine -> option (list Z * machine * list Z)).
Context (queue : D -> list Z) (delay : D -> nat) (bound : nat).
Context (OK : device_ok respond queue delay bound).

(** The device serves the address of [magic_mem] as the host serves its words. *)
Context (magic : Z) (SERVE : forall w, exists r,
  respond magic w = Some (host_call (fst w) (snd w), [r]) /\ FROMHOST_DEV r = 0 /\ FROMHOST_CMD r = 0).

(** The shared area and the memory are, once the device has caught up, those of
    the abstract state; at most [n] responses of the console are on their way. *)
Definition same_host (n : nat) (hs : hstate D (list Z * machine)) (s : S) : Prop :=
  exists os, outlook respond queue hs (magic_mem (lget s), lget s) os /\
    Forall console os /\ (length os <= n)%nat /\ htif_lk (hr hs) = 0.

(** C16. Refinement: htif_syscall, as the kernel runs it against the registers of
    a device that follows the protocol, terminates and does to memory and to the
    shared area what one call of the host does. *)
Theorem htif_syscall_refines fuel n hs s :
  magic <> 0 -> same_host n hs s ->
  Z.of_nat (Datatypes.S bound * (2 * (n + 1) + 1) + bound) < Zpos fuel ->
  exists hs' s', Htif.htif_syscall fuel magic hs = Ok tt hs' /\
    Spike.htif_syscall s = Ok tt s' /\ same_host 0 hs' s'.
Proof.
  intros Hm (os & HO & HC & Hn & Hl) Hfuel.
  destruct (SERVE (magic_mem (lget s), lget s)) as (r & Hr & Hdev & Hcmd).
  set (a := host_call (magic_mem (lget s)) (lget s)) in *.
  assert (exists hs', do_tohost_fromhost fuel 0 0 magic hs = Ok tt hs' /\
    hr hs' = HRegs 0 0 (foldl take_response (htif_console_buf (hr hs)) (os ++ [])) 0 /\
    queue (hdev hs') = [] /\ hworld hs' = a) as (hs' & E & Er & Eq & Ew).
  { apply (do_tohost_fromhost_spec respond queue delay bound OK fuel 0 0 magic hs _ os a [] r HO HC Hl).
    all: rewrite ?TOHOST_CMD_0; try done. rewrite !length_app. cbn [length]. nia. }
  exists hs'. eexists. split; [exact E|]. split; [reflexivity|].
  exists []. rewrite Er. split; [|done].
  split; [constructor|]. exists []. rewrite Er, Ew, Eq. cbn.
  split; [|done]. rewrite decide_True by done. split; [|done].
  fold a. rewrite !lget_lput, mach_lput, lget_lput. by destruct a.
Qed.
End Refinement.

(** * A device *)
Section Device.
Context {W : Type} (respond : Z -> W -> option (W * list Z)).

(** The responses that wait, and whether the device is to rest for a round. *)
Definition dev_state : Type := list Z * bool.

(** Every second round it rests; else it gives a response before it takes a
    command. *)
Definition dev_poll (d : dev_state) (w : W) (t f : Z) : option (dev_state * W * Z * Z) :=
  let (q, rest) := d in
  if rest then Some ((q, false), w, t, f)
  else match q with
       | r :: q' =>
           if f =? 0 then Some ((q', true), w, t, r)
           else if t =? 0 then Some ((q, false), w, t, f)
           else match respond t w with
                | None => None
                | Some (w', rs) => Some ((q ++ rs, true), w', 0, f)
                end
       | [] =>
           if t =? 0 then Some ((q, false), w, t, f)
           else match respond t w with
                | None => None
                | Some (w', rs) => Some ((rs, true), w', 0, f)
                end
       end.

Definition emulator : HtifDevice dev_state W := {| poll := dev_poll |}.

Lemma emulator_ok :
  (forall c w w' rs, respond c w = Some (w', rs) -> Forall (fun r => r <> 0) rs) ->
  device_ok (HD := emulator) respond fst (fun d => if d.2 then 1%nat else 0%nat) 1.
Proof.
  intros Hnz. split; [intros [q []]; simpl; lia| | |exact Hnz].
  - intros [q []] w t f d' w' t' f' Hp; cbn in Hp.
    { injection Hp as <- <- <- <-. by apply turn_idle; [|simpl; lia]. }
    destruct (Z.eqb_spec t 0) as [->|Ht].
    + destruct q as [|r q]; [|destruct (Z.eqb_spec f 0) as [->|Hf]]; injection Hp as <- <- <- <-.
      * apply turn_sleep; [by right|done|simpl; lia].
      * by eapply turn_give.
      * apply turn_sleep; [by left|done|simpl; lia].
    + destruct q as [|r q]; [|destruct (Z.eqb_spec f 0) as [->|Hf]].
      * destruct (respond t w) as [[w1 rs]|] eqn:Hr; [|done]. injection Hp as <- <- <- <-.
        by eapply turn_take.
      * injection Hp as <- <- <- <-. by eapply turn_give.
      * destruct (respond t w) as [[w1 rs]|] eqn:Hr; [|done]. injection Hp as <- <- <- <-.
        by eapply turn_take.
  - intros [q []] w t f Hp; cbn in Hp; [done|].
    destruct q as [|r q]; [|destruct (f =? 0); [done|]]; destruct (Z.eqb_spec t 0); try done;
      destruct (respond t w) as [[w1 rs]|] eqn:Hr; done.
Qed.
End Device.
