(* ===== verification/Sv39.v ===== *)
(** The Sv39 part of kernel/riscv.h: page table entries and the indices of a
    virtual address; and the page table as a tree in memory.  [descend] follows
    a path of indices from the root, [pt_wf] says that the tree does not share
    pages, and [entry] is the abstract page table: a function from virtual
    addresses to leaf entries.  The lemmas at the end say how the two writes
    the kernel makes to a table (a leaf entry, a new table) act on it. *)
From S2P Require Import Prelude Mem.

(** ** kernel/riscv.h *)
Definition PTE_V : Z := Z.shiftl 1 0.
Definition PTE_R : Z := Z.shiftl 1 1.
Definition PTE_W : Z := Z.shiftl 1 2.
Definition PTE_X : Z := Z.shiftl 1 3.
Definition PTE_U : Z := Z.shiftl 1 4.
Definition PTE_G : Z := Z.shiftl 1 5.
Definition PTE_A : Z := Z.shiftl 1 6.
Definition PTE_D : Z := Z.shiftl 1 7.

Definition PA2PTE (pa : Z) : Z := u64 (Z.shiftl (Z.shiftr pa 12) 10).
Definition PTE2PA (pte : Z) : Z := u64 (Z.shiftl (Z.shiftr pte 10) 12).
Definition PTE_FLAGS (pte : Z) : Z := Z.land pte 0x3FF.

Definition PXMASK : Z := 0x1FF.
Definition PXSHIFT (level : Z) : Z := PGSHIFT + 9 * level.
Definition PX (level va : Z) : Z := Z.land (Z.shiftr va (PXSHIFT level)) PXMASK.
Definition MAXVA : Z := Z.shiftl 1 (9 + 9 + 9 + 12 - 1).

Definition SATP_SV39 : Z := Z.shiftl 8 60.
Definition MAKE_SATP (pagetable : Z) : Z := Z.lor SATP_SV39 (Z.shiftr pagetable 12).

(** The test [*pte & PTE_V]. *)
Definition pte_valid (pte : Z) : bool := negb (Z.land pte PTE_V =? 0).

(** ** Arithmetic of the macros *)

Lemma PX_eq level va : 0 <= level -> PX level va = va / 2 ^ (12 + 9 * level) mod 512.
Proof.
  intros Hl. unfold PX, PXSHIFT, PXMASK, PGSHIFT.
  change 0x1FF with (Z.ones 9). rewrite Z.land_ones, Z.shiftr_div_pow2 by lia. done.
Qed.

Lemma PX_range level va : 0 <= level -> 0 <= PX level va < 512.
Proof. intros. rewrite PX_eq by done. apply Z.mod_pos_bound. lia. Qed.

(** The page number of a 39-bit address is made of its three indices. *)
Lemma vpn_PX va :
  0 <= va < 2 ^ 39 ->
  va / PGSIZE = PX 2 va * 2 ^ 18 + PX 1 va * 2 ^ 9 + PX 0 va.
Proof.
  intros Hv. rewrite !PX_eq by lia. unfold PGSIZE.
  change (2 ^ (12 + 9 * 2)) with (4096 * 512 * 512).
  change (2 ^ (12 + 9 * 1)) with (4096 * 512).
  change (2 ^ (12 + 9 * 0)) with 4096.
  rewrite <- !Z.div_div by lia.
  assert (va / 4096 / 512 / 512 < 512).
  { do 3 (apply Z.div_lt_upper_bound; [lia|]). lia. }
  assert (0 <= va / 4096 / 512 / 512) by (do 3 (apply Z.div_pos; [|lia]); lia).
  rewrite (Z.mod_small (va / 4096 / 512 / 512)) by lia.
  pose proof (Z.div_mod (va / 4096) 512).
  pose proof (Z.div_mod (va / 4096 / 512) 512). lia.
Qed.

(** Two addresses with the same indices are on the same page. *)
Lemma PX_inj va va' :
  0 <= va < 2 ^ 39 -> 0 <= va' < 2 ^ 39 ->
  PX 2 va = PX 2 va' -> PX 1 va = PX 1 va' -> PX 0 va = PX 0 va' ->
  va / PGSIZE = va' / PGSIZE.
Proof. intros ?? E2 E1 E0. rewrite !vpn_PX by done. by rewrite E2, E1, E0. Qed.

Lemma PX_page va va' level :
  0 <= level -> va / PGSIZE = va' / PGSIZE -> PX level va = PX level va'.
Proof.
  intros Hl E. rewrite !PX_eq by done.
  replace (2 ^ (12 + 9 * level)) with (PGSIZE * 2 ^ (9 * level)).
  - rewrite <- !Z.div_div by (try done; apply Z.pow_pos_nonneg; lia). by rewrite E.
  - unfold PGSIZE. change 4096 with (2 ^ 12). rewrite <- Z.pow_add_r by lia. done.
Qed.

Lemma MAXVA_eq : MAXVA = 2 ^ 38.
Proof. done. Qed.

(** Encoding and decoding an entry. *)
Lemma pte_roundtrip pa f :
  page_aligned pa -> 0 <= pa < 2 ^ 56 -> 0 <= f < 1024 ->
  PTE2PA (Z.lor (PA2PTE pa) f) = pa /\ PTE_FLAGS (Z.lor (PA2PTE pa) f) = f.
Proof.
  unfold page_aligned, PGSIZE. intros Ha Hr Hf.
  assert (PA2PTE pa = Z.shiftl (pa / 4096) 10) as ->.
  { unfold PA2PTE. rewrite Z.shiftr_div_pow2, u64_small by (rewrite ?Z.shiftl_mul_pow2; dlia). done. }
  assert (Z.shiftr f 10 = 0) as Hs.
  { rewrite Z.shiftr_div_pow2 by lia. apply Z.div_small. simpl. lia. }
  split.
  - unfold PTE2PA. rewrite Z.shiftr_lor, Hs, Z.lor_0_r, Z.shiftr_shiftl_l by lia.
    rewrite Z.sub_diag, Z.shiftl_0_r, Z.shiftl_mul_pow2 by lia.
    rewrite u64_small; dlia.
  - unfold PTE_FLAGS. change 0x3FF with (Z.ones 10).
    rewrite Z.land_lor_distr_l. rewrite (Z.land_ones f), (Z.mod_small f) by (simpl; lia).
    rewrite Z.land_ones, Z.shiftl_mul_pow2, Z.mod_mul by lia. apply Z.lor_0_l.
Qed.

Lemma pte_valid_testbit e : pte_valid e = Z.testbit e 0.
Proof.
  unfold pte_valid. change PTE_V with (Z.ones 1). rewrite Z.land_ones by lia.
  change (2 ^ 1) with 2. rewrite Zmod_odd, Z.bit0_odd. by destruct (Z.odd e).
Qed.

Lemma pte_valid_lor e : pte_valid (Z.lor e PTE_V) = true.
Proof. rewrite pte_valid_testbit, Z.lor_spec. apply orb_true_r. Qed.

Lemma pte_valid_0 : pte_valid 0 = false.
Proof. done. Qed.

Lemma PA2PTE_range pa : 0 <= PA2PTE pa < 2 ^ 64.
Proof. apply u64_range. Qed.

Lemma lor_range a b n : 0 <= n -> 0 <= a < 2 ^ n -> 0 <= b < 2 ^ n -> 0 <= Z.lor a b < 2 ^ n.
Proof.
  intros Hn Ha Hb. split; [apply Z.lor_nonneg; lia|].
  assert (Z.lor a b = Z.lor a b mod 2 ^ n) as ->; [|apply Z.mod_pos_bound; lia].
  rewrite <- Z.land_ones, Z.land_lor_distr_l, !Z.land_ones, !Z.mod_small by lia. done.
Qed.

Lemma lxor_range a b n : 0 <= n -> 0 <= a < 2 ^ n -> 0 <= b < 2 ^ n -> 0 <= Z.lxor a b < 2 ^ n.
Proof.
  intros Hn Ha Hb. split; [apply Z.lxor_nonneg; lia|].
  assert (Z.lxor a b = Z.lxor a b mod 2 ^ n) as ->; [|apply Z.mod_pos_bound; lia].
  apply Z.bits_inj'. intros i Hi.
  destruct (Z.ltb_spec i n); [by rewrite Z.mod_pow2_bits_low|].
  rewrite Z.mod_pow2_bits_high, Z.lxor_spec by lia.
  rewrite <- (Z.mod_small a (2 ^ n)), <- (Z.mod_small b (2 ^ n)) by lia.
  by rewrite !Z.mod_pow2_bits_high by lia.
Qed.

(** A pointer to a next-level table: flags [PTE_V] alone. *)
Lemma table_pte q :
  ram_page q ->
  pte_valid (u64 (Z.lor (PA2PTE q) PTE_V)) = true /\
  PTE2PA (u64 (Z.lor (PA2PTE q) PTE_V)) = q.
Proof.
  intros (Ha & Hlo & Hhi).
  rewrite u64_small by (apply lor_range; [lia|apply PA2PTE_range|done]).
  split; [apply pte_valid_lor|].
  apply pte_roundtrip; [done|consts; lia|done].
Qed.

(** ** The tree *)

(** Follow a path of indices from the table at [pt]. *)
Fixpoint descend (m : memory) (pt : Z) (path : list Z) : option Z :=
  match path with
  | [] => Some pt
  | i :: path' =>
      let e := ld64 m (pt + 8 * i) in
      if pte_valid e then descend m (PTE2PA e) path' else None
  end.

Definition index_ok (i : Z) : Prop := 0 <= i < 512.

(** The paths to the tables of a three-level page table. *)
Definition path_ok (path : list Z) : Prop := Forall index_ok path /\ (length path <= 2)%nat.

(** The page [p] holds a table of the tree. *)
Definition in_tree (m : memory) (root p : Z) : Prop :=
  exists path, path_ok path /\ descend m root path = Some p.

(** Tables are pages of RAM and no table is reached by two paths. *)
Record pt_wf (m : memory) (root : Z) : Prop := {
  pt_ram : forall p, in_tree m root p -> ram_page p;
  pt_inj : forall path path' p, path_ok path -> path_ok path' ->
             descend m root path = Some p -> descend m root path' = Some p -> path = path';
}.

(** The path of a virtual address to its last-level table. *)
Definition va_path (va : Z) : list Z := [PX 2 va; PX 1 va].

(** The abstract page table: the leaf entry of [va], 0 where there is none. *)
Definition entry (m : memory) (root va : Z) : Z :=
  match descend m root (va_path va) with
  | Some p => ld64 m (p + 8 * PX 0 va)
  | None => 0
  end.

Lemma va_path_ok va : path_ok (va_path va).
Proof.
  split; [|simpl; lia]. unfold va_path.
  apply Forall_cons; split; [apply PX_range; lia|].
  apply Forall_cons; split; [apply PX_range; lia|constructor].
Qed.

Lemma path_ok_nil : path_ok [].
Proof. split; [constructor|simpl; lia]. Qed.

Lemma path_ok_snoc path i :
  path_ok (path ++ [i]) <-> path_ok path /\ index_ok i /\ (length path <= 1)%nat.
Proof.
  unfold path_ok. rewrite Forall_app, Forall_singleton, length_app. simpl.
  split; intros; destruct_and?; split_and?; done || lia.
Qed.

Lemma descend_snoc m root path i :
  descend m root (path ++ [i]) =
  match descend m root path with
  | Some p => let e := ld64 m (p + 8 * i) in if pte_valid e then Some (PTE2PA e) else None
  | None => None
  end.
Proof.
  revert root. induction path as [|j path IH]; intros root; simpl; [done|].
  destruct (pte_valid _); [apply IH|done].
Qed.

Lemma root_in_tree m root : in_tree m root root.
Proof. exists []. split; [apply path_ok_nil|done]. Qed.

(** ** Frames *)

(** The tables above the last level decide where paths lead. *)
Lemma descend_frame m m' root :
  (forall path p, path_ok path -> (length path <= 1)%nat ->
     descend m root path = Some p -> same_page p m m') ->
  forall path, path_ok path -> descend m' root path = descend m root path.
Proof.
  intros Hs path. induction path as [|i path IH] using rev_ind; intros Hok; [done|].
  apply path_ok_snoc in Hok as (Hok & Hi & Hlen).
  rewrite !descend_snoc, IH by done.
  destruct (descend m root path) as [p|] eqn:Hp; [|done]. simpl.
  rewrite (loadn_same_on 8 m' m (p + 8 * i)); [done|]. symmetry.
  unfold index_ok in Hi. apply (same_on_sub p (p + PGSIZE)); [lia|consts; lia|eauto].
Qed.

Lemma in_tree_ext m m' root p :
  (forall path, path_ok path -> descend m' root path = descend m root path) ->
  in_tree m' root p <-> in_tree m root p.
Proof.
  intros H. split; intros (path & Hok & Hp); exists path; (split; [done|]).
  - by rewrite <- H.
  - by rewrite H.
Qed.

Lemma pt_wf_ext m m' root :
  (forall path, path_ok path -> descend m' root path = descend m root path) ->
  pt_wf m root -> pt_wf m' root.
Proof.
  intros H [Hr Hi]. split.
  - intros p Hp. apply Hr. by apply (in_tree_ext m m').
  - intros path path' p Hok Hok'. rewrite !H by done. by apply Hi.
Qed.

(** Writes outside of the tree leave the page table as it is. *)
Lemma pt_frame m m' root :
  (forall p, in_tree m root p -> same_page p m m') ->
  pt_wf m root ->
  pt_wf m' root /\ (forall p, in_tree m' root p <-> in_tree m root p) /\
  (forall va, entry m' root va = entry m root va).
Proof.
  intros Hs Hwf.
  assert (forall path, path_ok path -> descend m' root path = descend m root path) as Hd.
  { apply descend_frame. intros path p Hok _ Hp. apply Hs. by exists path. }
  split_and!; [by apply (pt_wf_ext m)|by intros; apply in_tree_ext|].
  intros va. unfold entry. rewrite Hd by apply va_path_ok.
  destruct (descend m root (va_path va)) as [p|] eqn:Hp; [|done].
  apply loadn_same_on. symmetry. pose proof (PX_range 0 va).
  apply (same_on_sub p (p + PGSIZE)); [lia|consts; lia|].
  apply Hs. exists (va_path va). split; [apply va_path_ok|done].
Qed.

(** Two slots of tables are the same slot or do not overlap. *)
Lemma slot_disjoint p i p' j :
  page_aligned p -> page_aligned p' -> index_ok i -> index_ok j ->
  ~ (p = p' /\ i = j) ->
  p + 8 * i + 8 <= p' + 8 * j \/ p' + 8 * j + 8 <= p + 8 * i.
Proof.
  unfold index_ok. intros Hp Hp' Hi Hj Hne. destruct (decide (p = p')) as [->|Hpp].
  - assert (i <> j) by naive_solver. lia.
  - destruct (page_disjoint p p' Hp Hp' Hpp); consts; lia.
Qed.

(** ** Writing a leaf entry *)

Lemma leaf_write_descend m root va p v :
  pt_wf m root -> descend m root (va_path va) = Some p ->
  forall path, path_ok path ->
    descend (st64 m (p + 8 * PX 0 va) v) root path = descend m root path.
Proof.
  intros [Hram Hinj] Hp. apply descend_frame. intros path q Hok Hlen Hq.
  symmetry. apply storen_same_on. pose proof (PX_range 0 va).
  assert (q <> p) as Hne.
  { intros ->. pose proof (Hinj _ _ _ Hok (va_path_ok va) Hq Hp) as ->. simpl in Hlen. lia. }
  destruct (Hram q) as (Hqa & _); [by exists path|].
  destruct (Hram p) as (Hpa & _); [exists (va_path va); split; [apply va_path_ok|done]|].
  destruct (page_disjoint q p Hqa Hpa Hne); consts; lia.
Qed.

(** It updates the abstract page table at the pages of [va] only. *)
Lemma leaf_write_entry m root va p v va' :
  pt_wf m root -> descend m root (va_path va) = Some p ->
  0 <= va < 2 ^ 39 -> 0 <= va' < 2 ^ 39 ->
  entry (st64 m (p + 8 * PX 0 va) v) root va' =
    if decide (va' / PGSIZE = va / PGSIZE) then u64 v else entry m root va'.
Proof.
  intros Hwf Hp Hva Hva'. unfold entry.
  rewrite (leaf_write_descend m root va p v) by (done || apply va_path_ok).
  destruct (decide (va' / PGSIZE = va / PGSIZE)) as [E|E].
  - unfold va_path in *. rewrite !(PX_page va' va) by (done || lia). rewrite Hp. apply ld64_st64.
  - destruct (descend m root (va_path va')) as [q|] eqn:Hq; [|done].
    apply loadn_storen_ne.
    destruct (slot_disjoint p (PX 0 va) q (PX 0 va')); [| | | | |lia|lia].
    + apply (pt_ram _ _ Hwf). exists (va_path va). split; [apply va_path_ok|done].
    + apply (pt_ram _ _ Hwf). exists (va_path va'). split; [apply va_path_ok|done].
    + apply PX_range. lia.
    + apply PX_range. lia.
    + intros [-> E0]. apply E.
      pose proof (pt_inj _ _ Hwf _ _ _ (va_path_ok va) (va_path_ok va') Hp Hq) as Heq.
      injection Heq as E2 E1. by apply PX_inj.
Qed.

(** ** Adding a table *)

(** [q] becomes the table of [path ++ [i]]: it is filled with zeros, then
    linked from the slot [i] of the table [p] of [path]. *)
Definition add_table (m : memory) (p i q : Z) : memory :=
  st64 (store_bytes m q (replicate (Z.to_nat PGSIZE) Byte.x00)) (p + 8 * i)
       (Z.lor (PA2PTE q) PTE_V).

Lemma le_combine_zeros n : le_combine (replicate n Byte.x00) = 0.
Proof.
  replace (replicate n Byte.x00) with (repeat Byte.x00 n); [apply le_combine_0|].
  induction n; simpl; congruence.
Qed.

(** A word of memory that has been filled with zeros. *)
Lemma loadn_zeros n m q len o :
  0 <= o -> o + Z.of_nat n <= len ->
  loadn n (store_bytes m q (replicate (Z.to_nat len) Byte.x00)) (q + o) = 0.
Proof.
  intros Ho Hhi. unfold loadn. rewrite <- (le_combine_zeros n). f_equal.
  apply list_eq. intros i. destruct (decide (i < n)%nat) as [Hi|Hi].
  - rewrite lookup_load_bytes, lookup_store_bytes, length_replicate by done.
    rewrite decide_True by lia. rewrite !lookup_replicate_2; [done|done|lia].
  - rewrite !lookup_ge_None_2; [done| |]; rewrite ?length_load_bytes, ?length_replicate; lia.
Qed.

Lemma ld64_zero_page m q o :
  0 <= o -> o + 8 <= PGSIZE ->
  ld64 (store_bytes m q (replicate (Z.to_nat PGSIZE) Byte.x00)) (q + o) = 0.
Proof. intros. by apply (loadn_zeros 8). Qed.

Section AddTable.
Context (m : memory) (root : Z) (path : list Z) (p i q : Z).
Hypothesis Hwf : pt_wf m root.
Hypothesis Hpath : path_ok (path ++ [i]).
Hypothesis Hp : descend m root path = Some p.
Hypothesis Hinvalid : pte_valid (ld64 m (p + 8 * i)) = false.
Hypothesis Hq : ram_page q.
Hypothesis Hfresh : ~ in_tree m root q.

Let m' := add_table m p i q.

Lemma add_table_in_tree pa p' : path_ok pa -> descend m root pa = Some p' -> in_tree m root p'.
Proof. by exists pa. Qed.

(** A slot of a table that was already there: changed only if it is the new
    link. *)
Lemma add_table_old_slot p' j :
  in_tree m root p' -> index_ok j -> ~ (p' = p /\ j = i) ->
  ld64 m' (p' + 8 * j) = ld64 m (p' + 8 * j).
Proof.
  intros Hin Hj Hne. unfold m', add_table.
  apply path_ok_snoc in Hpath as (Hok & Hi & _).
  destruct (pt_ram _ _ Hwf p') as (Hpa' & _); [done|].
  destruct (pt_ram _ _ Hwf p) as (Hpa & _); [by exists path|].
  rewrite loadn_storen_ne.
  - apply loadn_same_on, store_bytes_same_on. rewrite length_replicate.
    assert (p' <> q) as Hpq by (by intros ->).
    unfold index_ok in Hj.
    destruct (page_disjoint p' q Hpa' (proj1 Hq) Hpq); consts; lia.
  - destruct (slot_disjoint p i p' j); [done..|naive_solver|lia|lia].
Qed.

Lemma add_table_link : ld64 m' (p + 8 * i) = u64 (Z.lor (PA2PTE q) PTE_V).
Proof. apply ld64_st64. Qed.

(** The slots of the new table are empty. *)
Lemma add_table_new_slot j : index_ok j -> ld64 m' (q + 8 * j) = 0.
Proof.
  intros Hj. unfold m', add_table.
  apply path_ok_snoc in Hpath as (Hok & Hi & _).
  destruct (pt_ram _ _ Hwf p) as (Hpa & _); [by exists path|].
  assert (p <> q) as Hpq by (intros ->; apply Hfresh; by exists path).
  unfold index_ok in *.
  rewrite loadn_storen_ne; [apply ld64_zero_page; consts; lia|].
  destruct (page_disjoint p q Hpa (proj1 Hq) Hpq); consts; lia.
Qed.

Lemma add_table_below pa : (path ++ [i]) `prefix_of` pa -> descend m root pa = None.
Proof.
  intros [k ->]. clear Hpath Hq Hfresh m'. induction k as [|j k IH] using rev_ind.
  - rewrite app_nil_r, descend_snoc, Hp. simpl. by rewrite Hinvalid.
  - by rewrite app_assoc, descend_snoc, IH.
Qed.

Lemma add_table_descend pa :
  path_ok pa ->
  descend m' root pa = if decide (pa = path ++ [i]) then Some q else descend m root pa.
Proof.
  induction pa as [|j pa IH] using rev_ind; intros Hok.
  { rewrite decide_False; [done|]. by destruct path. }
  apply path_ok_snoc in Hok as (Hok & Hj & Hlen).
  rewrite !descend_snoc, IH by done.
  destruct (decide (pa = path ++ [i])) as [->|Hne].
  - rewrite add_table_new_slot by done. rewrite decide_False.
    + rewrite (add_table_below (path ++ [i])); done.
    + intros E. apply (f_equal length) in E. rewrite length_app in E. simpl in E. lia.
  - destruct (descend m root pa) as [p'|] eqn:Hp'; cbn beta iota zeta.
    + destruct (decide (p' = p /\ j = i)) as [[-> ->]|Hn].
      * assert (pa = path) as ->.
        { apply (pt_inj _ _ Hwf _ _ p); [done| |done|done].
          by apply path_ok_snoc in Hpath as (? & _). }
        rewrite decide_True by done. rewrite add_table_link.
        destruct (table_pte q Hq) as [-> ->]. done.
      * rewrite add_table_old_slot; [|by exists pa|done|done].
        rewrite decide_False; [done|].
        intros [-> ->]%app_inj_tail. naive_solver.
    + rewrite decide_False; [done|].
      intros [-> ->]%app_inj_tail. congruence.
Qed.

Lemma add_table_in_tree_iff x : in_tree m' root x <-> in_tree m root x \/ x = q.
Proof.
  split.
  - intros (pa & Hok & Hd). rewrite add_table_descend in Hd by done.
    destruct (decide _); [right; congruence|left; by exists pa].
  - intros [(pa & Hok & Hd)| ->].
    + exists pa. split; [done|]. rewrite add_table_descend by done.
      destruct (decide (pa = path ++ [i])) as [->|]; [|done].
      by rewrite (add_table_below (path ++ [i])) in Hd.
    + exists (path ++ [i]). split; [done|]. rewrite add_table_descend, decide_True; done.
Qed.

Lemma add_table_wf : pt_wf m' root.
Proof.
  split.
  - intros x [Hx| ->]%add_table_in_tree_iff; [by apply (pt_ram _ _ Hwf)|done].
  - intros pa pa' x Hok Hok'. rewrite !add_table_descend by done.
    destruct (decide (pa = path ++ [i])) as [->|], (decide (pa' = path ++ [i])) as [->|];
      [done|..|by apply (pt_inj _ _ Hwf)].
    + intros [= <-] Hd. exfalso. apply Hfresh. by exists pa'.
    + intros Hd [= <-]. exfalso. apply Hfresh. by exists pa.
Qed.

(** The abstract page table does not change. *)
Lemma add_table_entry va : entry m' root va = entry m root va.
Proof.
  unfold entry. rewrite add_table_descend by apply va_path_ok.
  destruct (decide (va_path va = path ++ [i])) as [E|E].
  - rewrite (add_table_below (va_path va)) by (by rewrite E).
    apply add_table_new_slot, PX_range. lia.
  - destruct (descend m root (va_path va)) as [p'|] eqn:Hp'; [|done].
    apply add_table_old_slot; [exists (va_path va); split; [apply va_path_ok|done]| |].
    + apply PX_range. lia.
    + intros [-> _].
      pose proof (pt_inj _ _ Hwf (va_path va) path p (va_path_ok va)) as Hinj.
      apply path_ok_snoc in Hpath as (Hok & _ & Hlen).
      specialize (Hinj Hok Hp' Hp). subst path. simpl in Hlen. lia.
Qed.

(** Memory changes inside of the new tree only. *)
Lemma add_table_touches x :
  m' !! x <> m !! x -> exists t, in_tree m' root t /\ t <= x < t + PGSIZE.
Proof.
  intros Hx. pose proof (proj1 (path_ok_snoc path i) Hpath) as (Hok & Hi & _).
  unfold index_ok in Hi.
  destruct (decide (p <= x < p + PGSIZE)) as [Hin|Hout].
  { exists p. split; [|done]. apply add_table_in_tree_iff. left. by exists path. }
  destruct (decide (q <= x < q + PGSIZE)) as [Hin|Hout'].
  { exists q. split; [|done]. apply add_table_in_tree_iff. by right. }
  exfalso. apply Hx. unfold m', add_table, storen.
  rewrite !lookup_store_bytes, length_le_split, length_replicate.
  rewrite !decide_False by (consts; lia). done.
Qed.
End AddTable.

(** ** A new root *)

(** A table without valid entries is a page table of its own, and empty. *)
Lemma pt_wf_empty m root :
  ram_page root -> (forall i, index_ok i -> pte_valid (ld64 m (root + 8 * i)) = false) ->
  pt_wf m root /\ (forall p, in_tree m root p <-> p = root) /\ (forall va, entry m root va = 0).
Proof.
  intros Hr Hz.
  assert (forall path p, path_ok path -> descend m root path = Some p -> path = [] /\ p = root) as Hd.
  { intros [|i path] p [Hok _] Hp; [split; [done|simpl in Hp; congruence]|].
    apply Forall_cons in Hok as [Hi _]. simpl in Hp. by rewrite Hz in Hp. }
  assert (forall p, in_tree m root p <-> p = root) as Ht.
  { intros p. split; [intros (path & Hok & Hp); by eapply Hd|intros ->; apply root_in_tree]. }
  split_and!; [split| done|].
  - intros p Hp. by apply Ht in Hp as ->.
  - intros path path' p Hok Hok' H H'. by rewrite (proj1 (Hd _ _ Hok H)), (proj1 (Hd _ _ Hok' H')).
  - intros va. unfold entry. destruct (descend m root (va_path va)) as [p|] eqn:Hp; [|done].
    by destruct (Hd _ _ (va_path_ok va) Hp).
Qed.

(** * Properties *)

(** PTE2PA and PTE_FLAGS undo PA2PTE and the flags of an entry, and the
    three indices of a 39-bit address determine its page: two addresses share
    a leaf slot exactly when they are on the same page. *)
Theorem sv39_encoding :
  (forall pa f, page_aligned pa -> 0 <= pa < 2 ^ 56 -> 0 <= f < 1024 ->
     PTE2PA (Z.lor (PA2PTE pa) f) = pa /\ PTE_FLAGS (Z.lor (PA2PTE pa) f) = f) /\
  (forall va va', 0 <= va < 2 ^ 39 -> 0 <= va' < 2 ^ 39 ->
     va_path va = va_path va' /\ PX 0 va = PX 0 va' <-> va / PGSIZE = va' / PGSIZE).
Proof.
  split; [apply pte_roundtrip|]. intros va va' H H'. split.
  - intros [[= H2 H1] H0]. by apply PX_inj.
  - intros Hp. unfold va_path. by rewrite !(PX_page va va') by (done || lia).
Qed.
