(* ===== verification/Vmm.v ===== *)
(** kernel/vmm.c: page tables.  The code walks and edits three-level tables in
    physical memory; the theorems describe it through [entry], the abstract
    page table of Sv39.v, and the list of free pages of Pmm.v. *)
From S2P Require Import Prelude Mem CString Snprintf Console Pmm Sv39.

(** ** The code *)

(** enum VMPermision (kernel/vmm.h) *)
Definition PROT_NONE : Z := 0.
Definition PROT_READ : Z := 1.
Definition PROT_WRITE : Z := 2.
Definition PROT_EXEC : Z := 4.

(** A C condition: an integer is true when it is not zero. *)
Definition truthy (z : Z) : bool := negb (z =? 0).

Definition prot_to_type (prot user : Z) : Z :=
  let perm := 0 in
  let perm := if truthy (Z.land prot PROT_READ) then Z.lor perm (Z.lor PTE_R PTE_A) else perm in
  let perm := if truthy (Z.land prot PROT_WRITE) then Z.lor perm (Z.lor PTE_W PTE_D) else perm in
  let perm := if truthy (Z.land prot PROT_EXEC) then Z.lor perm (Z.lor PTE_X PTE_A) else perm in
  let perm := if perm =? 0 then PTE_R else perm in
  if truthy user then Z.lor perm PTE_U else perm.

(** The loop of page_walk, from [level] down to the last table. *)
Fixpoint walk_levels (level : nat) (pt va alloc : Z) : M mm Z :=
  match level with
  | O => ret (pt + 8 * PX 0 va)
  | S l =>
      let pte := pt + 8 * PX (Z.of_nat level) va in
      e <- load64 pte ;;
      if pte_valid e then walk_levels l (PTE2PA e) va alloc
      else if truthy alloc then
        pt <- alloc_page ;;
        if truthy pt then
          memset pt 0 PGSIZE ;;;
          store64 pte (Z.lor (PA2PTE pt) PTE_V) ;;;
          walk_levels l pt va alloc
        else ret 0
      else ret 0
  end.

Definition page_walk (page_dir va alloc : Z) : M mm Z :=
  (if MAXVA <=? va then panic "page_walk" else ret tt) ;;;
  walk_levels 2 page_dir va alloc.

(** map_pages: at most [MAXVA / PGSIZE] pages are mapped before page_walk
    panics, so the fuel is never used up. *)
Definition map_pages (page_dir va size pa perm : Z) : M mm Z :=
  let last := ROUNDDOWN (u64 (va + size - 1)) PGSIZE in
  loop (Z.to_pos (MAXVA / PGSIZE + 2)) (fun '(first, pa) =>
    if first <=? last then
      pte <- page_walk page_dir first 1 ;;
      if pte =? 0 then ret (inr (-1))
      else
        e <- load64 pte ;;
        (if pte_valid e
         then panic "map_pages fails on mapping va (0x%lx) to pa (0x%lx)"
         else ret tt) ;;;
        store64 pte (Z.lor (Z.lor (PA2PTE pa) (u64 perm)) PTE_V) ;;;
        ret (inl (u64 (first + PGSIZE), u64 (pa + PGSIZE)))
    else ret (inr 0)) (ROUNDDOWN (u64 va) PGSIZE, pa).

Definition lookup_pa (pagetable va : Z) : M mm Z :=
  if MAXVA <=? va then ret 0
  else
    pte <- page_walk pagetable va 0 ;;
    if pte =? 0 then ret 0
    else
      e <- load64 pte ;;
      if (Z.land e PTE_V =? 0) || ((Z.land e PTE_R =? 0) && (Z.land e PTE_W =? 0))
      then ret 0
      else ret (PTE2PA e).

Definition kern_vm_map (page_dir va pa sz perm : Z) : M mm unit :=
  r <- map_pages page_dir va sz pa perm ;;
  if negb (r =? 0) then panic "kern_vm_map" else ret tt.

Definition kern_vm_init `{Layout} : M mm unit :=
  t_page_dir <- alloc_page ;;
  memset t_page_dir 0 PGSIZE ;;;
  kern_vm_map t_page_dir KERN_BASE DRAM_BASE (u64 (_etext - KERN_BASE))
    (prot_to_type (Z.lor PROT_READ PROT_EXEC) 0) ;;;
  pa <- lookup_pa t_page_dir KERN_BASE ;;
  sprint "KERN_BASE 0x%lx
" [VInt pa] ;;;
  kern_vm_map t_page_dir _etext _etext (u64 (PHYS_TOP - _etext))
    (prot_to_type (Z.lor PROT_READ PROT_WRITE) 0) ;;;
  pa <- lookup_pa t_page_dir _etext ;;
  sprint "physical address of _etext is: 0x%lx
" [VInt pa] ;;;
  modify (set_g_kernel_pagetable t_page_dir).

Definition user_va_to_pa (page_dir va : Z) : M mm Z :=
  pte <- page_walk page_dir va 0 ;;
  if pte =? 0 then ret 0
  else
    e <- load64 pte ;;
    ret (u64 (PTE2PA e + Z.land va (Z.shiftl 1 PGSHIFT - 1))).

Definition user_vm_map (page_dir va size pa perm : Z) : M mm unit :=
  r <- map_pages page_dir va size pa perm ;;
  if negb (r =? 0) then panic "fail to user_vm_map .
" else ret tt.

(** [size] and [free] are parameters the body does not use. *)
Definition user_vm_unmap (page_dir va size free : Z) : M mm unit :=
  pte <- page_walk page_dir va 0 ;;
  e <- load64 pte ;;
  let pa := u64 (PTE2PA e + Z.land va (Z.shiftl 1 PGSHIFT - 1)) in
  free_page pa ;;;
  e <- load64 pte ;;
  store64 pte (Z.lxor e PTE_V).

(** ** The invariant of an address space

    [vm_inv s root l]: the tables of [root] form a tree of their own, and the
    allocator owns the pages [l], none of which is a table. *)
Definition vm_inv (s : mm) (root : Z) (l : list Z) : Prop :=
  pt_wf (smem s) root /\ pmm_free s l /\ (forall p, p ∈ l -> ~ in_tree (smem s) root p).

(** What growing a page table may do: take the tables [taken] from the front
    of the free list, leaving [l'], and write to the tree; the rest of memory,
    and the rest of the state, stay as they are. *)
Record vm_grows (s s' : mm) (root : Z) (taken l' : list Z) : Prop := {
  vg_inv : vm_inv s' root l';
  vg_tree : forall p, in_tree (smem s') root p <-> in_tree (smem s) root p \/ p ∈ taken;
  vg_touch : forall x, smem s' !! x <> smem s !! x ->
               exists t, in_tree (smem s') root t /\ t <= x < t + PGSIZE;
  vg_range : same_range s s' /\ g_kernel_pagetable s' = g_kernel_pagetable s;
}.

Lemma vm_grows_refl s root l : vm_inv s root l -> vm_grows s s root [] l.
Proof.
  intros H. split; [done| |done|done]. intros p. rewrite elem_of_nil. tauto.
Qed.

Lemma vm_grows_trans s s1 s2 root t1 t2 l :
  vm_grows s s1 root t1 (t2 ++ l) -> vm_grows s1 s2 root t2 l ->
  vm_grows s s2 root (t1 ++ t2) l.
Proof.
  intros [I1 T1 C1 [(A1 & B1 & D1) R1]] [I2 T2 C2 [(A2 & B2 & D2) R2]].
  split; [done| | |].
  - intros p. rewrite T2, T1, elem_of_app. tauto.
  - intros x Hx. destruct (decide (smem s2 !! x = smem s1 !! x)) as [E|E]; [|by apply C2].
    destruct (C1 x) as (t & Ht & Hr); [congruence|]. exists t. split; [|done].
    apply T2. by left.
  - unfold same_range. split_and!; congruence.
Qed.

(** Memory that changes inside of a tree only is unchanged on other pages. *)
Lemma touch_same_page m m' root z :
  (forall x, m' !! x <> m !! x -> exists t, in_tree m' root t /\ t <= x < t + PGSIZE) ->
  pt_wf m' root -> page_aligned z -> ~ in_tree m' root z -> same_page z m m'.
Proof.
  intros Hc Hwf Hz Hn x Hx. destruct (decide (m' !! x = m !! x)) as [->|E]; [done|].
  destruct (Hc x E) as (t & Ht & Hr). destruct (pt_ram _ _ Hwf t Ht) as [Hta _].
  destruct (decide (t = z)) as [->|Hne]; [done|].
  destruct (page_disjoint t z Hta Hz Hne); lia.
Qed.

Lemma vm_grows_same_page s s' root taken l z :
  vm_grows s s' root taken l -> page_aligned z ->
  ~ in_tree (smem s) root z -> z ∉ taken -> same_page z (smem s) (smem s').
Proof.
  intros [(Hwf & _) Ht Hc _] Hz Hn Hz'. apply (touch_same_page _ _ root); [done..|].
  rewrite Ht. tauto.
Qed.

(** ** page_walk *)

(** The indices of [va] from [level] down to 1. *)
Fixpoint vpath (level : nat) (va : Z) : list Z :=
  match level with
  | O => []
  | S l => PX (Z.of_nat level) va :: vpath l va
  end.

Lemma vpath_2 va : vpath 2 va = va_path va.
Proof. done. Qed.

Lemma ram_slot p i : ram_page p -> index_ok i -> ram_ok (p + 8 * i) (Z.of_nat 8) = true.
Proof. unfold index_ok. intros Hp Hi. apply ram_page_ok; [done|lia|consts; lia]. Qed.

Lemma path_ok_mid path i rest : path_ok (path ++ i :: rest) -> path_ok (path ++ [i]).
Proof.
  unfold path_ok. rewrite !length_app, !Forall_app. simpl.
  intros [[? [? ?]%Forall_cons] ?]. split_and!; [done|by apply Forall_singleton|lia].
Qed.

(** Without allocation the walk only reads: it finds the slot of [va] in the
    last-level table, or there is none. *)
Lemma walk_levels_find s root path pt level va :
  pt_wf (smem s) root -> descend (smem s) root path = Some pt ->
  path_ok (path ++ vpath level va) ->
  walk_levels level pt va 0 s =
    Ok (match descend (smem s) pt (vpath level va) with
        | Some p => p + 8 * PX 0 va
        | None => 0
        end) s.
Proof.
  intros Hwf. revert path pt. induction level as [|l IH]; intros path pt Hd Hok; [done|].
  cbn [walk_levels vpath descend]. unfold bind at 1, load.
  pose proof (path_ok_mid _ _ _ Hok) as Hok1.
  pose proof (proj1 (path_ok_snoc _ _) Hok1) as (Hokp & Hi & _).
  rewrite ram_slot by (try done; apply (pt_ram _ _ Hwf); by exists path).
  destruct (pte_valid _) eqn:Hv; [|done].
  apply (IH (path ++ [PX (Z.of_nat (S l)) va])).
  - rewrite descend_snoc, Hd. cbv zeta. by rewrite Hv.
  - by rewrite <- app_assoc.
Qed.

Lemma page_walk_find s root va :
  pt_wf (smem s) root -> va < MAXVA ->
  page_walk root va 0 s =
    Ok (match descend (smem s) root (va_path va) with
        | Some p => p + 8 * PX 0 va
        | None => 0
        end) s.
Proof.
  intros Hwf Hva. unfold page_walk. destruct (Z.leb_spec MAXVA va); [lia|].
  unfold bind, ret. apply (walk_levels_find s root []); [done|done|apply va_path_ok].
Qed.

Lemma wp_page_walk_maxva root va alloc s (Q : Z -> mm -> Prop) (E : stop -> mm -> Prop) :
  MAXVA <= va -> (forall s', smem s' = smem s -> E (Shutdown (-1)) s') ->
  wp (page_walk root va alloc) Q E s.
Proof.
  intros Hva HE. unfold page_walk. destruct (Z.leb_spec MAXVA va); [|lia].
  by apply wp_bind, wp_panic.
Qed.

(** The state after linking the free page [q] as a table. *)
Definition grow_state (s : mm) (p i q : Z) : mm :=
  put_mem (add_table (smem s) p i q) (alloc_state s).

Lemma grow_step s root path p i q l :
  vm_inv s root (q :: l) -> path_ok (path ++ [i]) ->
  descend (smem s) root path = Some p -> pte_valid (ld64 (smem s) (p + 8 * i)) = false ->
  vm_grows s (grow_state s p i q) root [q] l /\
  (forall va, entry (smem (grow_state s p i q)) root va = entry (smem s) root va) /\
  descend (smem (grow_state s p i q)) root (path ++ [i]) = Some q.
Proof.
  intros (Hwf & Hf & Hdis) Hok Hp Hinv.
  destruct (pmm_free_page _ _ _ Hf) as (Hq & Hnq & _).
  destruct (alloc_page_cons _ _ _ Hf) as (_ & Hf' & _).
  assert (~ in_tree (smem s) root q) as Hfresh by (apply Hdis; by left).
  assert (smem (grow_state s p i q) = add_table (smem s) p i q) as Hm by done.
  split_and!.
  - split; rewrite ?Hm.
    + split_and!; [by eapply add_table_wf| |].
      * apply pmm_free_frame; [done|]. intros z Hz.
        assert (managed s z) as [[Hza _] _].
        { destruct Hf as (_ & _ & Hman). rewrite Forall_forall in Hman. apply Hman. by right. }
        apply (touch_same_page _ _ root); [by eapply add_table_touches|by eapply add_table_wf|done|].
        rewrite (add_table_in_tree_iff _ _ path) by done. intros [Hin| ->]; [|done].
        by apply (Hdis z); [right|].
      * intros z Hz. rewrite Hm, (add_table_in_tree_iff _ _ path) by done.
        intros [Hin| ->]; [|done]. by apply (Hdis z); [right|].
    + intros z. rewrite (add_table_in_tree_iff _ _ path) by done.
      by rewrite list_elem_of_singleton.
    + by eapply add_table_touches.
    + done.
  - intros va. rewrite Hm. by eapply add_table_entry.
  - rewrite Hm, (add_table_descend _ _ path), decide_True; done.
Qed.

Lemma entry_eq_descend m root va p :
  descend m root (va_path va) = Some p -> entry m root va = ld64 m (p + 8 * PX 0 va).
Proof. unfold entry. by intros ->. Qed.

(** The number of tables on the path of [va], from [level] at [pt] down, that
    do not exist. *)
Fixpoint missing (m : memory) (pt : Z) (level : nat) (va : Z) : nat :=
  match level with
  | O => 0
  | S l =>
      let e := ld64 m (pt + 8 * PX (Z.of_nat level) va) in
      if pte_valid e then missing m (PTE2PA e) l va else level
  end.

Lemma missing_le m pt level va : (missing m pt level va <= level)%nat.
Proof.
  revert pt. induction level as [|n IH]; intros pt; simpl; [done|].
  destruct (pte_valid _); [|done]. etransitivity; [apply IH|lia].
Qed.

(** What a walk with allocation achieves: the slot of [va] exists and the
    abstract page table is the same, or the free pages are used up. *)
Definition walked (s : mm) (root va : Z) (l : list Z) (n : nat) (r : Z) (s' : mm) : Prop :=
  exists taken l', l = taken ++ l' /\ (length taken <= n)%nat /\
    vm_grows s s' root taken l' /\
    (forall va, entry (smem s') root va = entry (smem s) root va) /\
    ((r = 0 /\ l' = []) \/
     exists p, descend (smem s') root (va_path va) = Some p /\ r = p + 8 * PX 0 va).

Lemma walk_levels_alloc level s root path pt va l :
  vm_inv s root l -> descend (smem s) root path = Some pt ->
  path ++ vpath level va = va_path va ->
  wp (walk_levels level pt va 1) (walked s root va l (missing (smem s) pt level va)) never s.
Proof.
  revert s path pt l. induction level as [|n IH]; intros s path pt l HI Hd Hpath.
  { apply wp_ret. exists [], l. split_and!; [done|done|by apply vm_grows_refl|done|].
    right. exists pt. simpl in Hpath. rewrite app_nil_r in Hpath. by rewrite <- Hpath. }
  pose proof (va_path_ok va) as Hok. rewrite <- Hpath in Hok. cbn [vpath] in Hok, Hpath.
  pose proof (path_ok_mid _ _ _ Hok) as Hok1.
  pose proof (proj1 (path_ok_snoc _ _) Hok1) as (Hokp & Hi & _).
  cbn [walk_levels missing]. cbv zeta. pose proof HI as (Hwf & Hf & _).
  apply wp_bind, wp_load; [apply ram_slot; [apply (pt_ram _ _ Hwf); by exists path|done]|].
  destruct (pte_valid _) eqn:Hv.
  - eapply wp_mono; [apply (IH s (path ++ [PX (Z.of_nat (S n)) va]))| |done].
    + done.
    + rewrite descend_snoc, Hd. cbv zeta. by rewrite Hv.
    + by rewrite <- app_assoc.
    + done.
  - apply wp_bind. destruct l as [|q l].
    { eapply wp_intro; [by apply alloc_page_nil|]. apply wp_ret.
      exists [], []. split_and!; [done|simpl; lia|by apply vm_grows_refl|done|by left]. }
    destruct (alloc_page_cons _ _ _ Hf) as (Ha & _ & Hm).
    destruct (pmm_free_page _ _ _ Hf) as (Hq & _ & Hnz).
    eapply wp_intro; [exact Ha|]. unfold truthy.
    destruct (Z.eqb_spec q 0) as [|_]; [done|]. simpl negb. cbv iota.
    apply wp_bind. eapply wp_intro.
    { apply memset_spec; [done|]. destruct Hq as (_ & ? & ?). split; lia. }
    apply wp_bind, wp_store; [apply ram_slot; [apply (pt_ram _ _ Hwf); by exists path|done]|].
    rewrite smem_put_mem, put_mem_put_mem, Hm. change (byte.of_Z 0) with Byte.x00.
    fold (add_table (smem s) pt (PX (Z.of_nat (S n)) va) q).
    fold (grow_state s pt (PX (Z.of_nat (S n)) va) q).
    destruct (grow_step s root path pt (PX (Z.of_nat (S n)) va) q l) as (Hg & He & Hd'); [done..|].
    eapply wp_mono; [apply (IH _ (path ++ [PX (Z.of_nat (S n)) va]))| |done].
    + apply Hg.
    + done.
    + by rewrite <- app_assoc.
    + intros r s' (t & l' & -> & Hn & Hg' & He' & Hr). exists (q :: t), l'.
      pose proof (missing_le (smem (grow_state s pt (PX (Z.of_nat (S n)) va) q)) q n va).
      split_and!; [done|simpl; lia| | |done].
      * by apply (vm_grows_trans s _ s' root [q] t l' Hg).
      * intros va'. by rewrite He', He.
Qed.

Lemma page_walk_alloc s root va l :
  vm_inv s root l -> va < MAXVA ->
  wp (page_walk root va 1) (walked s root va l (missing (smem s) root 2 va)) never s.
Proof.
  intros HI Hva. unfold page_walk. destruct (Z.leb_spec MAXVA va); [lia|].
  apply wp_bind, wp_ret. by apply (walk_levels_alloc 2 s root []).
Qed.

(** ** Reading a mapping: lookup_pa and user_va_to_pa *)

Lemma slot_pos p i : ram_page p -> index_ok i -> p + 8 * i <> 0.
Proof. unfold index_ok. intros Hp Hi. apply ram_page_pos in Hp. lia. Qed.

Lemma va_path_ram m root va p :
  pt_wf m root -> descend m root (va_path va) = Some p -> ram_page p.
Proof. intros Hwf Hp. apply (pt_ram _ _ Hwf). exists (va_path va). split; [apply va_path_ok|done]. Qed.

(** lookup_pa, on the abstract page table: the page of [va] if its entry is
    valid and readable or writable, else 0. *)
Definition lookup_val (e : Z) : Z :=
  if pte_valid e && (truthy (Z.land e PTE_R) || truthy (Z.land e PTE_W)) then PTE2PA e else 0.

Lemma lookup_pa_spec s root va :
  pt_wf (smem s) root ->
  lookup_pa root va s =
    Ok (if MAXVA <=? va then 0 else lookup_val (entry (smem s) root va)) s.
Proof.
  intros Hwf. unfold lookup_pa. destruct (Z.leb_spec MAXVA va) as [|Hva]; [done|].
  unfold bind. rewrite page_walk_find by done. unfold entry.
  destruct (descend (smem s) root (va_path va)) as [p|] eqn:Hp; [|done].
  pose proof (va_path_ram _ _ _ _ Hwf Hp) as Hr.
  pose proof (PX_range 0 va ltac:(lia)) as Hi.
  destruct (Z.eqb_spec (p + 8 * PX 0 va) 0) as [E|_]; [by apply slot_pos in E|].
  unfold load. rewrite ram_slot by done. unfold lookup_val, pte_valid, truthy.
  destruct (_ =? 0), (_ =? 0), (_ =? 0); done.
Qed.

(** user_va_to_pa, on the tree: 0 only when the last-level table is missing;
    the validity of the entry is not looked at. *)
Lemma user_va_to_pa_spec s root va :
  pt_wf (smem s) root -> 0 <= va < MAXVA ->
  user_va_to_pa root va s =
    Ok (match descend (smem s) root (va_path va) with
        | None => 0
        | Some _ => u64 (PTE2PA (entry (smem s) root va) + va mod PGSIZE)
        end) s.
Proof.
  intros Hwf Hva. unfold user_va_to_pa, bind. rewrite page_walk_find by (done || lia).
  destruct (descend (smem s) root (va_path va)) as [p|] eqn:Hp; [|done].
  pose proof (va_path_ram _ _ _ _ Hwf Hp) as Hr.
  pose proof (PX_range 0 va ltac:(lia)) as Hi.
  destruct (Z.eqb_spec (p + 8 * PX 0 va) 0) as [E|_]; [by apply slot_pos in E|].
  unfold load. rewrite ram_slot by done. rewrite (entry_eq_descend _ _ _ _ Hp).
  change (Z.shiftl 1 PGSHIFT - 1) with (Z.ones 12). rewrite Z.land_ones by lia. done.
Qed.

(** ** map_pages *)

(** The leaf entry map_pages writes. *)
Definition map_pte (pa perm : Z) : Z := u64 (Z.lor (Z.lor (PA2PTE pa) (u64 perm)) PTE_V).

(** The abstract page table after [n] pages have been mapped from [first] to
    [pa] onwards. *)
Definition map_result (m : memory) (root first pa perm n va : Z) : Z :=
  let k := va / PGSIZE - first / PGSIZE in
  if decide (0 <= k < n) then map_pte (u64 (pa + PGSIZE * k)) perm else entry m root va.

(** The first and the last page of [va, va + size), and their number. *)
Definition first_page (va : Z) : Z := ROUNDDOWN va PGSIZE.
Definition last_page (va size : Z) : Z := ROUNDDOWN (u64 (va + size - 1)) PGSIZE.
Definition map_count (va size : Z) : Z :=
  Z.max 0 ((last_page va size - first_page va) / PGSIZE + 1).

(** The progress of map_pages: [n] pages of the range were unmapped and are
    mapped now. *)
Definition mapped (s : mm) (root va pa perm : Z) (l : list Z) (n : Z) (taken l' : list Z)
    (s' : mm) : Prop :=
  l = taken ++ l' /\ vm_grows s s' root taken l' /\
  (forall va', 0 <= va' < 2 ^ 39 ->
     entry (smem s') root va' = map_result (smem s) root (first_page va) pa perm n va') /\
  (forall k, 0 <= k < n -> pte_valid (entry (smem s) root (first_page va + PGSIZE * k)) = false).

Lemma leaf_step s root va p v l :
  vm_inv s root l -> descend (smem s) root (va_path va) = Some p ->
  vm_grows s (put_mem (st64 (smem s) (p + 8 * PX 0 va) v) s) root [] l.
Proof.
  intros (Hwf & Hf & Hdis) Hp. pose proof (va_path_ram _ _ _ _ Hwf Hp) as (Hpa & Hr).
  pose proof (PX_range 0 va ltac:(lia)) as Hi.
  set (m' := st64 (smem s) (p + 8 * PX 0 va) v).
  assert (forall path, path_ok path -> descend m' root path = descend (smem s) root path) as Hd
    by by apply leaf_write_descend.
  assert (forall x, in_tree m' root x <-> in_tree (smem s) root x) as Ht
    by (intros; by apply in_tree_ext).
  assert (forall x, m' !! x <> smem s !! x ->
            exists t, in_tree m' root t /\ t <= x < t + PGSIZE) as Hc.
  { intros x Hx. exists p. split.
    - apply Ht. exists (va_path va). split; [apply va_path_ok|done].
    - destruct (decide (p <= x < p + PGSIZE)); [done|]. exfalso. apply Hx.
      unfold m', storen. rewrite lookup_store_bytes, length_le_split, decide_False by (consts; lia).
      done. }
  split; rewrite ?smem_put_mem; [|intros; rewrite Ht, elem_of_nil; tauto|done|done].
  unfold vm_inv. rewrite smem_put_mem. split_and!; [by apply (pt_wf_ext (smem s))| |].
  - apply pmm_free_frame; [done|]. intros z Hz. destruct Hf as (_ & _ & Hman).
    rewrite Forall_forall in Hman. destruct (Hman z Hz) as [[Hza _] _].
    apply (touch_same_page _ _ root); [done|by apply (pt_wf_ext (smem s))|done|].
    rewrite Ht. by apply Hdis.
  - intros z Hz. rewrite Ht. by apply Hdis.
Qed.

(** The last-level tables and the middle tables of [n] pages from [first]. *)
Definition tables_bound (first n : Z) : Z :=
  if n <=? 0 then 0
  else
    let last := first + PGSIZE * (n - 1) in
    (last / 2 ^ 21 - first / 2 ^ 21 + 1) + (last / 2 ^ 30 - first / 2 ^ 30 + 1).

Lemma tables_bound_mono first n n' :
  n <= n' -> tables_bound first n <= tables_bound first n'.
Proof.
  intros Hn. unfold tables_bound. cbv zeta.
  destruct (Z.leb_spec n 0), (Z.leb_spec n' 0); [lia| |lia|].
  - pose proof (Z.div_le_mono first (first + PGSIZE * (n' - 1)) (2 ^ 21)).
    pose proof (Z.div_le_mono first (first + PGSIZE * (n' - 1)) (2 ^ 30)). consts.
    lia.
  - pose proof (Z.div_le_mono (first + PGSIZE * (n - 1)) (first + PGSIZE * (n' - 1)) (2 ^ 21)).
    pose proof (Z.div_le_mono (first + PGSIZE * (n - 1)) (first + PGSIZE * (n' - 1)) (2 ^ 30)).
    consts. lia.
Qed.

(** After a page has been walked to, the next one misses only the tables of
    the regions it enters. *)
Lemma missing_next m root va va' p :
  descend m root (va_path va) = Some p -> va <= va' ->
  Z.of_nat (missing m root 2 va') <=
    (va' / 2 ^ 21 - va / 2 ^ 21) + (va' / 2 ^ 30 - va / 2 ^ 30).
Proof.
  intros Hd Hle.
  pose proof (Z.div_le_mono va va' (2 ^ 21) ltac:(lia) Hle).
  pose proof (Z.div_le_mono va va' (2 ^ 30) ltac:(lia) Hle).
  assert (va' / 2 ^ 21 = va / 2 ^ 21 -> va' / 2 ^ 30 = va / 2 ^ 30) as H21.
  { intros E. change (2 ^ 30) with (2 ^ 21 * 2 ^ 9). rewrite <- !Z.div_div by lia. by rewrite E. }
  destruct (decide (va' / 2 ^ 30 = va / 2 ^ 30)) as [E2|E2].
  2: { pose proof (missing_le m root 2 va'). lia. }
  assert (PX 2 va' = PX 2 va) as P2.
  { rewrite !PX_eq by lia. change (2 ^ (12 + 9 * 2)) with (2 ^ 30). by rewrite E2. }
  unfold va_path in Hd. cbn [descend] in Hd. cbv zeta in Hd.
  cbn [missing]. cbv zeta. change (Z.of_nat 2) with 2. change (Z.of_nat 1) with 1. rewrite P2.
  destruct (pte_valid (ld64 m (root + 8 * PX 2 va))); [|done].
  destruct (decide (va' / 2 ^ 21 = va / 2 ^ 21)) as [E1|E1].
  - assert (PX 1 va' = PX 1 va) as ->.
    { rewrite !PX_eq by lia. change (2 ^ (12 + 9 * 1)) with (2 ^ 21). by rewrite E1. }
    destruct (pte_valid _); cbv iota; [lia|done].
  - clear Hd. destruct (pte_valid _); cbv iota; lia.
Qed.

Lemma page_div f k : page_aligned f -> (f + PGSIZE * k) / PGSIZE = f / PGSIZE + k.
Proof. unfold page_aligned. consts. intros. dlia. Qed.

Lemma mapped_step s root va pa perm l n taken l' s' t l'' s1 p :
  mapped s root va pa perm l n taken l' s' -> 0 <= n -> 0 <= va ->
  first_page va + PGSIZE * n < MAXVA ->
  l' = t ++ l'' -> vm_grows s' s1 root t l'' ->
  (forall va', entry (smem s1) root va' = entry (smem s') root va') ->
  descend (smem s1) root (va_path (first_page va + PGSIZE * n)) = Some p ->
  pte_valid (entry (smem s1) root (first_page va + PGSIZE * n)) = false ->
  mapped s root va pa perm l (n + 1) (taken ++ t) l''
    (put_mem (st64 (smem s1) (p + 8 * PX 0 (first_page va + PGSIZE * n))
                   (Z.lor (Z.lor (PA2PTE (u64 (pa + PGSIZE * n))) (u64 perm)) PTE_V)) s1).
Proof.
  intros (-> & Hg & He & Hinv) Hn Hva Hmax -> Hg1 He1 Hp Hv.
  assert (page_aligned (first_page va)) as Hfa by apply ROUNDDOWN_page.
  assert (0 <= first_page va) as Hf0.
  { unfold first_page, ROUNDDOWN. consts. dlia. }
  assert (0 <= first_page va + PGSIZE * n < 2 ^ 39) as Hr.
  { unfold MAXVA in Hmax. change (Z.shiftl 1 (9 + 9 + 9 + 12 - 1)) with (2 ^ 38) in Hmax.
    consts. lia. }
  split_and!.
  - by rewrite app_assoc.
  - rewrite <- (app_nil_r (taken ++ t)).
    eapply vm_grows_trans; [eapply vm_grows_trans; [exact Hg|exact Hg1]|].
    apply leaf_step; [apply Hg1|done].
  - intros va' Hva'. rewrite smem_put_mem.
    rewrite (leaf_write_entry _ _ _ _ _ va') by (done || apply (vg_inv _ _ _ _ _ Hg1)).
    rewrite page_div, He1, He by done. unfold map_result. cbv zeta.
    destruct (decide (va' / PGSIZE = first_page va / PGSIZE + n)) as [E|E].
    + rewrite E. replace (first_page va / PGSIZE + n - first_page va / PGSIZE) with n by lia.
      rewrite decide_True by lia. done.
    + repeat case_decide; done || lia.
  - intros k Hk. destruct (decide (k = n)) as [->|]; [|apply Hinv; lia].
    rewrite He1, He in Hv by done. unfold map_result in Hv. cbv zeta in Hv.
    rewrite page_div in Hv by done. rewrite decide_False in Hv by lia. done.
Qed.

(** ** The rounds of map_pages *)
Section MapPages.
Context (s : mm) (root va size pa perm : Z) (l : list Z).
Notation first := (first_page va).
Notation last := (last_page va size).

(** Before round [n]. *)
Record map_round (n : Z) (s' : mm) (taken l' : list Z) : Prop := {
  mr_count : 0 <= n <= map_count va size;
  mr_max : n = 0 \/ first + PGSIZE * n < MAXVA + PGSIZE;
  mr_mapped : mapped s root va pa perm l n taken l' s';
  mr_tables : Z.of_nat (length taken) <= tables_bound first n;
  mr_last : 0 < n -> exists p, descend (smem s') root (va_path (first + PGSIZE * (n - 1))) = Some p;
}.

(** The results of map_pages, and why it panics. *)
Definition map_done (r : Z) (s' : mm) : Prop :=
  exists n taken l', mapped s root va pa perm l n taken l' s' /\
    ((r = 0 /\ n = map_count va size /\ Z.of_nat (length taken) <= tables_bound first n) \/
     (r = -1 /\ 0 <= n < map_count va size /\ l' = [] /\
      Z.of_nat (length l) <= tables_bound first (map_count va size))).

Definition map_stopped (e : stop) : Prop :=
  e = Shutdown (-1) /\
  ((exists k, 0 <= k < map_count va size /\ pte_valid (entry (smem s) root (first + PGSIZE * k)) = true) \/
   MAXVA <= last).

Hypothesis Hva : 0 <= va < 2 ^ 64.

Lemma map_first : page_aligned first /\ 0 <= first.
Proof. split; [apply ROUNDDOWN_page|]. unfold first_page, ROUNDDOWN. consts. dlia. Qed.

Lemma map_count_spec n : 0 <= n -> first + PGSIZE * n <= last <-> n < map_count va size.
Proof.
  intros Hn. unfold map_count. destruct map_first as [Hfa _].
  assert (page_aligned last) as Hla by apply ROUNDDOWN_page. unfold page_aligned in *. consts. dlia.
Qed.

Lemma map_round_0 : vm_inv s root l -> map_round 0 s [] l.
Proof.
  intros HI. split; [unfold map_count; lia|by left| |done|lia].
  split_and!; [done|by apply vm_grows_refl| |lia].
  intros va' _. unfold map_result. cbv zeta. by rewrite decide_False by lia.
Qed.

(** The tables for one more page. *)
Lemma round_tables n s' taken l' t :
  map_round n s' taken l' -> (length t <= missing (smem s') root 2 (first + PGSIZE * n))%nat ->
  Z.of_nat (length (taken ++ t)) <= tables_bound first (n + 1).
Proof.
  intros [Hn _ _ Hlen Hlast] Ht. rewrite length_app. unfold tables_bound in *. cbv zeta in *.
  destruct (Z.leb_spec (n + 1) 0) as [|_]; [lia|]. replace (n + 1 - 1) with n by lia.
  destruct (Z.leb_spec n 0) as [Hz|Hpos].
  - pose proof (missing_le (smem s') root 2 (first + PGSIZE * n)).
    assert (n = 0) as -> by lia. rewrite Z.mul_0_r, Z.add_0_r in *. lia.
  - destruct (Hlast Hpos) as [p0 Hp0].
    pose proof (missing_next _ _ _ (first + PGSIZE * n) _ Hp0 ltac:(consts; lia)). lia.
Qed.

(** No page for a table. *)
Lemma round_full n s' taken l' t s1 :
  map_round n s' taken l' -> n < map_count va size -> l' = t ++ [] -> vm_grows s' s1 root t [] ->
  (forall va', entry (smem s1) root va' = entry (smem s') root va') ->
  (length t <= missing (smem s') root 2 (first + PGSIZE * n))%nat -> map_done (-1) s1.
Proof.
  intros HR Hn -> Hg1 He1 Ht. pose proof (round_tables _ _ _ _ _ HR Ht) as Hlen.
  pose proof HR as [Hc _ (Hl & Hg & He & Hinv) _ _]. exists n, (taken ++ t), []. split.
  - split_and!; [by rewrite <- app_assoc| | |done].
    + eapply vm_grows_trans; [exact Hg|done].
    + intros va' Hva'. rewrite He1. by apply He.
  - right. split_and!; [done|lia|lia|done|].
    pose proof (tables_bound_mono first (n + 1) (map_count va size) ltac:(lia)).
    rewrite Hl, app_assoc, app_nil_r. lia.
Qed.

(** The entry is written. *)
Lemma round_next n s' taken l' t l'' s1 p :
  map_round n s' taken l' -> n < map_count va size -> first + PGSIZE * n < MAXVA ->
  l' = t ++ l'' -> vm_grows s' s1 root t l'' ->
  (forall va', entry (smem s1) root va' = entry (smem s') root va') ->
  (length t <= missing (smem s') root 2 (first + PGSIZE * n))%nat ->
  descend (smem s1) root (va_path (first + PGSIZE * n)) = Some p ->
  pte_valid (entry (smem s1) root (first + PGSIZE * n)) = false ->
  map_round (n + 1)
    (put_mem (st64 (smem s1) (p + 8 * PX 0 (first + PGSIZE * n))
                   (Z.lor (Z.lor (PA2PTE (u64 (pa + PGSIZE * n))) (u64 perm)) PTE_V)) s1) (taken ++ t) l''.
Proof.
  intros HR Hn Hmax El Hg1 He1 Ht Hp Hv. pose proof (round_tables _ _ _ _ _ HR Ht) as Hlen.
  pose proof (vg_inv _ _ _ _ _ Hg1) as (Hwf1 & _). pose proof HR as [Hc _ Hm _ _].
  split; [lia|right; lia| |done|].
  - apply (mapped_step s root va pa perm l n taken l' s' t l'' s1 p); done || lia.
  - intros _. exists p. replace (n + 1 - 1) with n by lia. rewrite smem_put_mem.
    by rewrite leaf_write_descend by (done || apply va_path_ok).
Qed.

Lemma round_mapped_before n s' taken l' :
  map_round n s' taken l' -> n < map_count va size -> first + PGSIZE * n < MAXVA ->
  pte_valid (entry (smem s') root (first + PGSIZE * n)) = true -> map_stopped (Shutdown (-1)).
Proof.
  intros [Hc _ (_ & _ & He & _) _ _] Hn Hmax Hv. destruct map_first as [Hfa Hf0].
  split; [done|]. left. exists n. split; [lia|].
  rewrite He in Hv by (change MAXVA with (2 ^ 38) in *; consts; lia).
  unfold map_result in Hv. cbv zeta in Hv. rewrite page_div in Hv by done. by rewrite decide_False in Hv by lia.
Qed.
End MapPages.

(** map_pages on every outcome: all pages mapped; out of memory in the middle;
    or a panic, since a page was mapped already or is beyond MAXVA. *)
Lemma map_pages_spec s root va size pa perm l :
  vm_inv s root l -> 0 <= va < 2 ^ 64 -> 0 <= pa < 2 ^ 64 ->
  wp (map_pages root va size pa perm) (map_done s root va size pa perm l)
     (fun e s' => map_stopped s root va size e) s.
Proof.
  intros HI Hva Hpa. unfold map_pages. rewrite (u64_small va) by done.
  fold (last_page va size) (first_page va). destruct (map_first va Hva) as [_ Hf0].
  assert (last_page va size < 2 ^ 64) as Hl64.
  { unfold last_page. pose proof (u64_range (va + size - 1)).
    pose proof (rounddown_bounds (u64 (va + size - 1)) PGSIZE). unfold ROUNDDOWN. consts. lia. }
  apply (wp_loop _ (fun x s' => exists n taken l', x = (first_page va + PGSIZE * n, u64 (pa + PGSIZE * n)) /\
            map_round s root va size pa perm l n s' taken l')
         (fun x _ => Z.max 0 ((MAXVA - fst x) / PGSIZE + 1))).
  - exists 0, [], l. rewrite !Z.mul_0_r, !Z.add_0_r, u64_small by done. split; [done|by apply map_round_0].
  - cbn [fst]. change MAXVA with 274877906944 in *. consts. dlia.
  - lia.
  - intros x s' (n & taken & l' & -> & HR). pose proof HR as [Hn _ Hm Hlen _].
    pose proof (map_count_spec va size Hva n ltac:(lia)) as Hin.
    destruct (Z.leb_spec (first_page va + PGSIZE * n) (last_page va size)) as [Hle|Hgt].
    2: { apply wp_ret. exists n, taken, l'. split; [done|]. left. split_and!; [done|lia|done]. }
    apply wp_bind. destruct (Z.leb_spec MAXVA (first_page va + PGSIZE * n)) as [Hbig|Hsmall].
    { apply wp_page_walk_maxva; [done|]. intros s1 _. split; [done|]. right. lia. }
    apply Hin in Hle. eapply wp_mono; [apply page_walk_alloc; [apply Hm|done]| |done].
    intros r s1 (t & l'' & El & Ht & Hg1 & He1 & [[-> ->]|(p & Hp & ->)]).
    { change (0 =? 0) with true. cbv iota. apply wp_ret. by eapply round_full. }
    pose proof (vg_inv _ _ _ _ _ Hg1) as (Hwf1 & _). pose proof (va_path_ram _ _ _ _ Hwf1 Hp) as Hram.
    pose proof (PX_range 0 (first_page va + PGSIZE * n) ltac:(lia)) as Hi.
    destruct (Z.eqb_spec (p + 8 * PX 0 (first_page va + PGSIZE * n)) 0) as [E|_]; [by apply slot_pos in E|].
    apply wp_bind, wp_load; [by apply ram_slot|]. rewrite <- (entry_eq_descend _ _ _ _ Hp).
    destruct (pte_valid _) eqn:Hv.
    { apply wp_bind, wp_panic. intros s2 _. rewrite He1 in Hv. by eapply round_mapped_before. }
    apply wp_bind, wp_ret. apply wp_bind, wp_store; [by apply ram_slot|]. apply wp_ret. split.
    + exists (n + 1), (taken ++ t), l''. split; [|by eapply round_next].
      rewrite u64_add_u64. f_equal; [|f_equal; lia].
      rewrite u64_small; [lia|]. change MAXVA with (2 ^ 38) in *. consts. lia.
    + cbn [fst]. rewrite u64_small by (change MAXVA with (2 ^ 38) in *; consts; lia).
      change MAXVA with (2 ^ 38) in *. consts. dlia.
Qed.

(** ** Mapping and reading back *)

(** Flags that fit the low ten bits of an entry, and can be read or written. *)
Definition perm_ok (perm : Z) : Prop :=
  0 <= perm < 1024 /\ truthy (Z.land perm PTE_R) || truthy (Z.land perm PTE_W) = true.

Lemma map_pte_decode pa perm :
  page_aligned pa -> 0 <= pa < 2 ^ 56 -> 0 <= perm < 1024 ->
  PTE2PA (map_pte pa perm) = pa /\ PTE_FLAGS (map_pte pa perm) = Z.lor perm PTE_V.
Proof.
  intros Ha Hr Hp. unfold map_pte. rewrite (u64_small perm) by lia.
  rewrite <- Z.lor_assoc.
  assert (0 <= Z.lor perm PTE_V < 2 ^ 10) as Hf by (apply lor_range; [lia|done|done]).
  rewrite u64_small by (apply lor_range; [lia|apply PA2PTE_range|lia]).
  by apply pte_roundtrip.
Qed.

Lemma land_flags e b : Z.land 0x3FF b = b -> Z.land e b = Z.land (PTE_FLAGS e) b.
Proof. intros Hb. unfold PTE_FLAGS. by rewrite <- Z.land_assoc, Hb. Qed.

Lemma lookup_map_pte pa perm :
  page_aligned pa -> 0 <= pa < 2 ^ 56 -> perm_ok perm -> lookup_val (map_pte pa perm) = pa.
Proof.
  intros Ha Hr [Hp Hrw]. destruct (map_pte_decode pa perm) as [Hpa Hf]; [done..|].
  unfold lookup_val, pte_valid.
  rewrite (land_flags _ PTE_V), (land_flags _ PTE_R), (land_flags _ PTE_W), Hf by done.
  rewrite !Z.land_lor_distr_l. change (Z.land PTE_V PTE_R) with 0.
  change (Z.land PTE_V PTE_W) with 0. rewrite !Z.lor_0_r, Hrw.
  assert (Z.lor (Z.land perm PTE_V) (Z.land PTE_V PTE_V) =? 0 = false) as ->; [|done].
  apply Z.eqb_neq. intros [_ E]%Z.lor_eq_0_iff. done.
Qed.

(** The permission codes of the kernel. *)
Lemma prot_to_type_values :
  prot_to_type (Z.lor PROT_WRITE PROT_READ) 1 =
    Z.lor (Z.lor (Z.lor PTE_R PTE_A) (Z.lor PTE_W PTE_D)) PTE_U /\
  prot_to_type (Z.lor PROT_READ PROT_EXEC) 0 = Z.lor (Z.lor PTE_R PTE_A) (Z.lor PTE_X PTE_A) /\
  prot_to_type (Z.lor PROT_READ PROT_WRITE) 0 = Z.lor (Z.lor PTE_R PTE_A) (Z.lor PTE_W PTE_D).
Proof. done. Qed.

Lemma truthy_flag b c : truthy (Z.lor b c) = truthy b || truthy c.
Proof.
  unfold truthy. destruct (Z.eqb_spec (Z.lor b c) 0) as [E|E].
  - apply Z.lor_eq_0_iff in E as [-> ->]. done.
  - destruct (Z.eqb_spec b 0) as [->|]; [|done]. destruct (Z.eqb_spec c 0) as [->|]; [|done].
    by rewrite Z.lor_0_r in E.
Qed.

(** The bits of prot_to_type are those of its arguments. *)
Lemma prot_to_type_bits prot user :
  let t := prot_to_type prot user in
  0 <= t < 1024 /\
  truthy (Z.land t PTE_W) = truthy (Z.land prot PROT_WRITE) /\
  truthy (Z.land t PTE_X) = truthy (Z.land prot PROT_EXEC) /\
  truthy (Z.land t PTE_U) = truthy user /\
  truthy (Z.land t PTE_R) = truthy (Z.land prot PROT_READ)
    || negb (truthy (Z.land prot PROT_WRITE) || truthy (Z.land prot PROT_EXEC)) /\
  Z.land t PTE_V = 0 /\ Z.land t PTE_G = 0.
Proof.
  unfold prot_to_type.
  destruct (truthy (Z.land prot PROT_READ)), (truthy (Z.land prot PROT_WRITE)),
    (truthy (Z.land prot PROT_EXEC)), (truthy user); vm_compute; repeat split; discriminate || done.
Qed.

(** Mapping a single aligned page. *)
Lemma map_count_page va : page_aligned va -> 0 <= va < 2 ^ 39 ->
  first_page va = va /\ last_page va PGSIZE = va /\ map_count va PGSIZE = 1.
Proof.
  intros Ha Hva. unfold map_count, first_page, last_page, ROUNDDOWN, page_aligned in *.
  rewrite u64_small by (consts; lia). consts. split_and!; dlia.
Qed.

(** A page whose entry is not valid can be mapped as long as two pages are
    free; the mapping is the only change, and it is read back by lookup_pa. *)
Lemma user_vm_map_spec s root va pa perm l :
  vm_inv s root l -> page_aligned va -> 0 <= va < MAXVA ->
  page_aligned pa -> 0 <= pa < 2 ^ 56 ->
  wp (user_vm_map root va PGSIZE pa perm)
     (fun _ s' => exists taken l', l = taken ++ l' /\ (length taken <= 2)%nat /\
        vm_grows s s' root taken l' /\
        pte_valid (entry (smem s) root va) = false /\
        (forall va', 0 <= va' < 2 ^ 39 -> entry (smem s') root va' =
           if decide (va' / PGSIZE = va / PGSIZE) then map_pte pa perm
           else entry (smem s) root va'))
     (fun e s' => e = Shutdown (-1) /\
        (pte_valid (entry (smem s) root va) = true \/ (length l <= 2)%nat)) s.
Proof.
  intros HI Ha Hva Hpa Hpr. pose proof MAXVA_eq as HM.
  destruct (map_count_page va) as (Hf & Hl & Hc); [done|lia|].
  assert (tables_bound va 1 = 2) as Ht.
  { unfold tables_bound. rewrite !Z.sub_diag, Z.mul_0_r, Z.add_0_r, !Z.sub_diag. done. }
  unfold user_vm_map. apply wp_bind.
  eapply wp_mono; [apply (map_pages_spec s root va PGSIZE pa perm l); done || lia| |].
  - unfold map_done. rewrite Hf, Hc, Ht. intros r s' (n & taken & l' & (Hll & Hg & He & Hv) & [H|H]); rewrite Hf in *.
    + destruct H as (-> & -> & Hlen). rewrite Ht in Hlen.
      simpl negb. cbv iota. apply wp_ret. exists taken, l'. split_and!; [done|lia|done| |].
      * specialize (Hv 0). rewrite Z.mul_0_r, Z.add_0_r in Hv. apply Hv. lia.
      * intros va' Hva'. rewrite He by done. unfold map_result. cbv zeta.
        destruct (decide (va' / PGSIZE = va / PGSIZE)) as [->|Hne].
        -- rewrite decide_True by lia. by rewrite Z.sub_diag, Z.mul_0_r, Z.add_0_r, u64_small by lia.
        -- by rewrite decide_False by lia.
    + destruct H as (-> & Hn & -> & Hlen). simpl negb. cbv iota.
      apply wp_panic. intros _ _. split; [done|]. right. lia.
  - unfold map_stopped. rewrite Hf, Hl, Hc. intros e s' [-> [(k & Hk & Hvk)|Hbig]]; (split; [done|]).
    + left. assert (k = 0) as -> by lia. by rewrite Z.mul_0_r, Z.add_0_r in Hvk.
    + lia.
Qed.

(** An address that is not page aligned: a request for one page maps two, the
    second to the physical page that follows. *)
Lemma map_count_unaligned va : ~ page_aligned va -> 0 <= va < 2 ^ 39 -> map_count va PGSIZE = 2.
Proof.
  intros Ha Hva. unfold map_count, first_page, last_page, ROUNDDOWN, page_aligned in *.
  rewrite u64_small by (consts; lia). consts. dlia.
Qed.

(** ** Unmapping *)

Definition unmap_state (s : mm) (slot pa : Z) : mm :=
  put_mem (st64 (smem (free_state pa s)) slot (Z.lxor (ld64 (smem s) slot) PTE_V))
          (free_state pa s).

Lemma free_state_same_page s pa z :
  ram_page pa -> page_aligned z -> z <> pa -> same_page z (smem s) (smem (free_state pa s)).
Proof.
  intros [Ha _] Hz Hne. symmetry.
  change (smem (free_state pa s)) with (st64 (smem s) pa (g_free_mem_list s)).
  apply storen_same_on. destruct (page_disjoint z pa Hz Ha Hne); consts; lia.
Qed.

(** Freeing a page that is not a table. *)
Lemma free_state_inv s root l pa :
  vm_inv s root l -> managed s pa -> pa ∉ l -> ~ in_tree (smem s) root pa ->
  vm_inv (free_state pa s) root (pa :: l) /\
  (forall p, in_tree (smem (free_state pa s)) root p <-> in_tree (smem s) root p) /\
  (forall va, entry (smem (free_state pa s)) root va = entry (smem s) root va) /\
  (forall va p, descend (smem s) root (va_path va) = Some p ->
     descend (smem (free_state pa s)) root (va_path va) = Some p /\
     ld64 (smem (free_state pa s)) (p + 8 * PX 0 va) = ld64 (smem s) (p + 8 * PX 0 va)).
Proof.
  intros (Hwf & Hf & Hdis) Hm Hn Ht.
  assert (forall p, in_tree (smem s) root p ->
            same_page p (smem s) (smem (free_state pa s))) as Hs.
  { intros p Hp. destruct (pt_ram _ _ Hwf p Hp) as [Hpa _].
    apply free_state_same_page; [apply Hm|done|by intros ->]. }
  destruct (pt_frame (smem s) (smem (free_state pa s)) root Hs Hwf) as (Hwf' & Htree & He).
  destruct (free_page_spec s pa l Hf Hm Hn) as [_ Hf'].
  split_and!; [split_and!; [done|done|]|done|done|].
  - intros p [->|Hp]%elem_of_cons; rewrite Htree; [done|by apply Hdis].
  - intros va p Hp.
    assert (descend (smem (free_state pa s)) root (va_path va) = Some p) as Hp'.
    { rewrite (descend_frame (smem s)); [done| |apply va_path_ok].
      intros path q Hok _ Hq. apply Hs. by exists path. }
    split; [done|].
    rewrite <- (entry_eq_descend _ _ _ _ Hp), <- (entry_eq_descend _ _ _ _ Hp'). apply He.
Qed.

(** How user_vm_unmap runs when the entry of [va], valid or not, holds the
    address of a managed page other than its own table. *)
Lemma user_vm_unmap_run s root va size free p pa :
  pt_wf (smem s) root -> page_aligned va -> 0 <= va < MAXVA ->
  descend (smem s) root (va_path va) = Some p ->
  PTE2PA (entry (smem s) root va) = pa -> managed s pa -> p <> pa ->
  user_vm_unmap root va size free s = Ok tt (unmap_state s (p + 8 * PX 0 va) pa).
Proof.
  intros Hwf Ha Hva Hp Hpa Hm Hne.
  pose proof (va_path_ram _ _ _ _ Hwf Hp) as Hram.
  pose proof (PX_range 0 va ltac:(lia)) as Hi.
  rewrite (entry_eq_descend _ _ _ _ Hp) in Hpa.
  assert (u64 (PTE2PA (ld64 (smem s) (p + 8 * PX 0 va)) + Z.land va (Z.shiftl 1 PGSHIFT - 1)) = pa)
    as Hpa'.
  { change (Z.shiftl 1 PGSHIFT - 1) with (Z.ones 12). rewrite Z.land_ones by lia.
    unfold page_aligned, PGSIZE in Ha. change (2 ^ 12) with 4096. rewrite Ha, Z.add_0_r, Hpa.
    apply u64_small. destruct Hm as [Hmr _]. apply ram_page_pos in Hmr. lia. }
  assert (ld64 (smem (free_state pa s)) (p + 8 * PX 0 va) = ld64 (smem s) (p + 8 * PX 0 va)) as Hld.
  { symmetry. apply loadn_same_on. apply (same_on_sub p (p + PGSIZE)); [lia|consts; lia|].
    apply free_state_same_page; [apply Hm|apply Hram|done]. }
  unfold user_vm_unmap, bind. rewrite page_walk_find, Hp by (done || lia).
  unfold load at 1. rewrite ram_slot, Hpa' by done. rewrite free_page_managed by done.
  unfold load. rewrite ram_slot by done. unfold store. rewrite ram_slot by done.
  by rewrite Hld.
Qed.

(** Its effect on the page table, when the page is not a table. *)
Lemma unmap_state_table s root va p pa :
  pt_wf (smem s) root -> 0 <= va < MAXVA ->
  descend (smem s) root (va_path va) = Some p ->
  managed s pa -> ~ in_tree (smem s) root pa ->
  let s' := unmap_state s (p + 8 * PX 0 va) pa in
  pt_wf (smem s') root /\ (forall q, in_tree (smem s') root q <-> in_tree (smem s) root q) /\
  descend (smem s') root (va_path va) = Some p /\
  (forall va', 0 <= va' < 2 ^ 39 -> entry (smem s') root va' =
     if decide (va' / PGSIZE = va / PGSIZE) then Z.lxor (entry (smem s) root va) PTE_V
     else entry (smem s) root va').
Proof.
  intros Hwf Hva Hp Hm Ht s'. pose proof MAXVA_eq as HM.
  assert (forall q, in_tree (smem s) root q ->
            same_page q (smem s) (smem (free_state pa s))) as Hs.
  { intros q Hq. destruct (pt_ram _ _ Hwf q Hq) as [Hqa _].
    apply free_state_same_page; [apply Hm|done|by intros ->]. }
  destruct (pt_frame (smem s) (smem (free_state pa s)) root Hs Hwf) as (Hwf1 & Ht1 & He1).
  assert (forall path, path_ok path ->
            descend (smem (free_state pa s)) root path = descend (smem s) root path) as Hd1.
  { apply descend_frame. intros path q Hok _ Hq. apply Hs. by exists path. }
  assert (descend (smem (free_state pa s)) root (va_path va) = Some p) as Hp1.
  { rewrite Hd1; [done|apply va_path_ok]. }
  assert (smem s' = st64 (smem (free_state pa s)) (p + 8 * PX 0 va)
                      (Z.lxor (ld64 (smem s) (p + 8 * PX 0 va)) PTE_V)) as Hs'.
  { unfold s', unmap_state. apply smem_put_mem. }
  rewrite Hs'.
  pose proof (leaf_write_descend _ _ va p (Z.lxor (ld64 (smem s) (p + 8 * PX 0 va)) PTE_V) Hwf1 Hp1)
    as Hd2.
  split_and!.
  - by apply (pt_wf_ext (smem (free_state pa s))).
  - intros q. rewrite (in_tree_ext (smem (free_state pa s))) by done. apply Ht1.
  - rewrite Hd2; [done|apply va_path_ok].
  - intros va' Hva'. rewrite (leaf_write_entry _ _ va p) by (done || lia).
    case_decide; [|by rewrite He1]. rewrite <- (entry_eq_descend _ _ _ _ Hp).
    apply u64_small, (lxor_range _ _ 64); [lia| |done].
    rewrite (entry_eq_descend _ _ _ _ Hp). apply ld64_range.
Qed.

(** user_vm_unmap on a page-aligned address whose entry holds a page that the
    allocator manages and does not own: the page becomes free, and the valid
    bit of the entry flips. *)
Lemma user_vm_unmap_spec s root va size free l p pa :
  vm_inv s root l -> page_aligned va -> 0 <= va < MAXVA ->
  descend (smem s) root (va_path va) = Some p ->
  PTE2PA (entry (smem s) root va) = pa ->
  managed s pa -> pa ∉ l -> ~ in_tree (smem s) root pa ->
  exists s', user_vm_unmap root va size free s = Ok tt s' /\
  vm_inv s' root (pa :: l) /\
  (forall va', 0 <= va' < 2 ^ 39 -> entry (smem s') root va' =
     if decide (va' / PGSIZE = va / PGSIZE) then Z.lxor (entry (smem s) root va) PTE_V
     else entry (smem s) root va').
Proof.
  intros HI Ha Hva Hp Hpa Hm Hn Ht. pose proof HI as (Hwf & _).
  assert (p <> pa) as Hne.
  { intros ->. apply Ht. exists (va_path va). split; [apply va_path_ok|done]. }
  exists (unmap_state s (p + 8 * PX 0 va) pa).
  destruct (unmap_state_table s root va p pa) as (Hwf' & Ht' & _ & He'); [done..|].
  split_and!; [by apply user_vm_unmap_run| |done].
  destruct (free_state_inv s root l pa HI Hm Hn Ht) as (HI1 & _ & _ & Hd1).
  destruct (Hd1 va p Hp) as [Hp1 _].
  apply (leaf_step (free_state pa s) root va p); done.
Qed.

(** An address without a last-level table: the null entry is dereferenced. *)
Lemma user_vm_unmap_null s root va size free :
  pt_wf (smem s) root -> va < MAXVA -> descend (smem s) root (va_path va) = None ->
  user_vm_unmap root va size free s = Stop (BadAccess 0) s.
Proof.
  intros Hwf Hva Hp. unfold user_vm_unmap, bind. by rewrite page_walk_find, Hp by done.
Qed.

(** Unmapping the same address again finds the entry, now invalid but not
    empty, frees the same page again and makes the entry valid: the page is
    mapped, and it is what every later allocation returns. *)
Lemma user_vm_unmap_twice s root va size free p pa n :
  pt_wf (smem s) root -> page_aligned va -> 0 <= va < MAXVA ->
  descend (smem s) root (va_path va) = Some p ->
  PTE2PA (entry (smem s) root va) = pa ->
  managed s pa -> ~ in_tree (smem s) root pa ->
  exists s', (bind (user_vm_unmap root va size free)
                   (fun _ => user_vm_unmap root va size free)) s = Ok tt s' /\
    entry (smem s') root va = entry (smem s) root va /\
    alloc_many n s' = Ok (replicate n pa) s'.
Proof.
  intros Hwf Ha Hva Hp Hpa Hm Ht. pose proof MAXVA_eq as HM.
  assert (p <> pa) as Hne.
  { intros ->. apply Ht. exists (va_path va). split; [apply va_path_ok|done]. }
  pose proof (va_path_ram _ _ _ _ Hwf Hp) as Hram. pose proof (PX_range 0 va ltac:(lia)) as Hi.
  destruct (unmap_state_table s root va p pa) as (Hwf1 & Ht1 & Hp1 & He1); [done..|].
  set (s1 := unmap_state s (p + 8 * PX 0 va) pa) in *.
  assert (entry (smem s1) root va = Z.lxor (entry (smem s) root va) PTE_V) as Hev.
  { rewrite He1 by lia. by rewrite decide_True. }
  assert (~ in_tree (smem s1) root pa) as Ht1' by (by rewrite Ht1).
  destruct (unmap_state_table s1 root va p pa) as (_ & _ & _ & He2); [done..|].
  set (s2 := unmap_state s1 (p + 8 * PX 0 va) pa) in *.
  exists s2. split_and!.
  - unfold bind. rewrite (user_vm_unmap_run s root va size free p pa) by done. fold s1.
    rewrite (user_vm_unmap_run s1 root va size free p pa); try done.
    rewrite Hev. unfold PTE2PA in *. by rewrite Z.shiftr_lxor, Z.lxor_0_r.
  - rewrite He2, decide_True, Hev by (done || lia).
    by rewrite Z.lxor_assoc, Z.lxor_nilpotent, Z.lxor_0_r.
  - destruct Hm as [Hmr _]. apply alloc_self; [done|done|].
    unfold s2, unmap_state. rewrite smem_put_mem, loadn_storen_ne by
      (destruct (page_disjoint p pa (proj1 Hram) (proj1 Hmr) Hne); consts; lia).
    by apply free_state_self.
Qed.

(** ** A new page table *)

Section ZeroPage.
Context {S : Type} `{L : !Lens S machine}.

(** The state after memset(p, 0, PGSIZE). *)
Definition zeroed (p : Z) (s : S) : S :=
  put_mem (store_bytes (smem s) p (replicate (Z.to_nat PGSIZE) Byte.x00)) s.

Lemma memset_page p s : ram_page p -> memset p 0 PGSIZE s = Ok p (zeroed p s).
Proof. intros (_ & ? & ?). by apply memset_spec. Qed.

Lemma zeroed_same_page p q s :
  page_aligned p -> page_aligned q -> q <> p -> same_page q (smem s) (smem (zeroed p s)).
Proof.
  intros Hp Hq Hne. unfold zeroed. rewrite smem_put_mem. symmetry. apply store_bytes_same_on.
  rewrite length_replicate. destruct (page_disjoint p q Hp Hq ltac:(done)); consts; lia.
Qed.
End ZeroPage.

(** A page that the allocator does not own becomes an empty page table. *)
Lemma zeroed_root s p l :
  pmm_free s l -> ram_page p -> p ∉ l ->
  vm_inv (zeroed p s) p l /\ (forall q, in_tree (smem (zeroed p s)) p q <-> q = p) /\
  (forall va, entry (smem (zeroed p s)) p va = 0).
Proof.
  intros Hf Hp Hn.
  destruct (pt_wf_empty (smem (zeroed p s)) p) as (Hwf & Ht & He); [done| |].
  { intros i Hi. unfold zeroed, index_ok in *. rewrite smem_put_mem, ld64_zero_page; [done|lia|].
    consts. lia. }
  split_and!; [|done|done]. split_and!; [done| |].
  - apply pmm_free_frame; [done|]. intros q Hq.
    assert (ram_page q) as [Hqa _].
    { destruct Hf as (_ & _ & Hm). rewrite Forall_forall in Hm. by apply Hm. }
    pose proof (zeroed_same_page p q s (proj1 Hp) Hqa ltac:(by intros ->)) as Hs.
    unfold zeroed in Hs. by rewrite smem_put_mem in Hs.
  - intros q Hq Hin. apply Ht in Hin. by subst.
Qed.

(** map_pages when nothing stands in its way. *)
Lemma map_pages_ok s root va size pa perm l :
  vm_inv s root l -> 0 <= va < 2 ^ 64 -> 0 <= pa < 2 ^ 64 ->
  (forall k, 0 <= k < map_count va size ->
     pte_valid (entry (smem s) root (first_page va + PGSIZE * k)) = false) ->
  last_page va size < MAXVA ->
  tables_bound (first_page va) (map_count va size) < Z.of_nat (length l) ->
  wp (map_pages root va size pa perm)
     (fun r s' => r = 0 /\ exists taken l',
        mapped s root va pa perm l (map_count va size) taken l' s' /\
        Z.of_nat (length taken) <= tables_bound (first_page va) (map_count va size)) never s.
Proof.
  intros HI Hva Hpa Hv Hlast Hl.
  eapply wp_mono; [by apply (map_pages_spec s root va size pa perm l)| |].
  - intros r s' (n & taken & l' & Hm & [(-> & -> & Ht)|(_ & _ & _ & Hle)]); [eauto|lia].
  - intros e s' (_ & [(k & Hk & Hk')|Hle]); [by rewrite Hv in Hk'|lia].
Qed.

(** * Properties *)

(** C26. page_walk.  Without the permission to allocate it changes nothing and
    returns the address of the entry of the last level, or 0 where a table is
    missing.  With it, page_walk adds the missing tables, at most two, from the
    free pages: the table stays well formed, every address is mapped as before,
    and all pages but those of the table are left alone; it returns the address
    of the entry of the last level, or 0 when the free pages are used up. *)
Theorem page_walk_keeps_mappings s root va l :
  vm_inv s root l -> va < MAXVA ->
  page_walk root va 0 s =
    Ok (match descend (smem s) root (va_path va) with Some p => p + 8 * PX 0 va | None => 0 end) s /\
  wp (page_walk root va 1) (fun r s' => exists taken l', l = taken ++ l' /\ (length taken <= 2)%nat /\
     vm_inv s' root l' /\
     (forall p, in_tree (smem s') root p <-> in_tree (smem s) root p \/ p ∈ taken) /\
     (forall va', entry (smem s') root va' = entry (smem s) root va') /\
     (forall z, page_aligned z -> ~ in_tree (smem s) root z -> z ∉ taken -> same_page z (smem s) (smem s')) /\
     ((r = 0 /\ l' = []) \/
      exists p, descend (smem s') root (va_path va) = Some p /\ r = p + 8 * PX 0 va /\
        ld64 (smem s') r = entry (smem s) root va)) never s.
Proof.
  intros HI Hva. split; [by apply page_walk_find; [apply HI|]|].
  eapply wp_mono; [by apply page_walk_alloc| |done].
  intros r s' (taken & l' & El & Hlen & Hg & He & Hr). pose proof (missing_le (smem s) root 2 va).
  exists taken, l'. split_and!; [done|lia|apply Hg|apply Hg|done|intros z ? ? ?; by eapply vm_grows_same_page|].
  destruct Hr as [Hr|(p & Hp & ->)]; [by left|]. right. exists p. split_and!; [done..|].
  by rewrite <- He, (entry_eq_descend _ _ _ _ Hp).
Qed.

(** C9. map_pages on every outcome.  It returns 0 when each page of the range
    was unmapped and now maps to the corresponding physical page, every other
    address being mapped as before; it returns -1 when the free pages are used
    up in the middle of the range, after a prefix of it has been mapped; it
    panics on a page that is mapped already or an address beyond MAXVA.  The
    number of tables it allocates is at most [tables_bound]. *)
Theorem map_pages_outcomes s root va size pa perm l :
  vm_inv s root l -> 0 <= va < 2 ^ 64 -> 0 <= pa < 2 ^ 64 ->
  wp (map_pages root va size pa perm)
     (fun r s' => exists n taken l', mapped s root va pa perm l n taken l' s' /\
        ((r = 0 /\ n = map_count va size /\
          Z.of_nat (length taken) <= tables_bound (first_page va) n) \/
         (r = -1 /\ 0 <= n < map_count va size /\ l' = [] /\
          Z.of_nat (length l) <= tables_bound (first_page va) (map_count va size))))
     (fun e s' => e = Shutdown (-1) /\
        ((exists k, 0 <= k < map_count va size /\
            pte_valid (entry (smem s) root (first_page va + PGSIZE * k)) = true) \/
         MAXVA <= last_page va size)) s.
Proof. apply map_pages_spec. Qed.

(** Round trip: with more than two free pages, user_vm_map of an unmapped
    page makes lookup_pa return the physical page for every address of this
    page, and keeps the result of lookup_pa for every other address. *)
Theorem user_vm_map_lookup s root va pa perm l :
  vm_inv s root l -> page_aligned va -> 0 <= va < MAXVA ->
  page_aligned pa -> 0 <= pa < 2 ^ 56 -> perm_ok perm ->
  pte_valid (entry (smem s) root va) = false -> (2 < length l)%nat ->
  wp (user_vm_map root va PGSIZE pa perm)
     (fun _ s' => forall va', 0 <= va' < MAXVA ->
        exists r, lookup_pa root va' s' = Ok r s' /\
          if decide (va' / PGSIZE = va / PGSIZE) then r = pa else lookup_pa root va' s = Ok r s)
     never s.
Proof.
  intros HI Ha Hva Hpa Hpr Hperm Hv Hl. pose proof MAXVA_eq as HM.
  eapply wp_mono; [by apply (user_vm_map_spec s root va pa perm l)| |].
  - intros _ s' (taken & l' & _ & _ & Hg & _ & He) va' Hva'.
    pose proof (vg_inv _ _ _ _ _ Hg) as [Hwf' _]. pose proof HI as [Hwf _].
    exists (lookup_val (entry (smem s') root va')).
    rewrite !lookup_pa_spec by done. destruct (Z.leb_spec MAXVA va') as [|_]; [lia|].
    split; [done|]. rewrite He by lia. case_decide; [by apply lookup_map_pte|done].
  - intros e s' (_ & [Hv'|Hl']); [congruence|lia].
Qed.

(** lookup_pa answers from the abstract page table alone: the page of a
    valid entry that can be read or written, 0 for any other address, MAXVA
    and beyond included; it changes nothing. *)
Theorem lookup_pa_reads_entry s root va :
  pt_wf (smem s) root ->
  lookup_pa root va s =
    Ok (if MAXVA <=? va then 0 else lookup_val (entry (smem s) root va)) s.
Proof. apply lookup_pa_spec. Qed.

(** user_va_to_pa answers with the page of the entry plus the offset as soon
    as the last-level table exists, valid entry or not: the address of an
    unmapped page next to a mapped one translates to its offset in physical
    page 0, not to NULL. *)
Theorem user_va_to_pa_ignores_valid s root va :
  pt_wf (smem s) root -> 0 <= va < MAXVA -> is_Some (descend (smem s) root (va_path va)) ->
  user_va_to_pa root va s =
    Ok (u64 (PTE2PA (entry (smem s) root va) + va mod PGSIZE)) s /\
  (entry (smem s) root va = 0 -> user_va_to_pa root va s = Ok (va mod PGSIZE) s).
Proof.
  intros Hwf Hva [p Hp]. rewrite user_va_to_pa_spec, Hp by done. split; [done|].
  intros ->. change (PTE2PA 0) with 0. rewrite Z.add_0_l, u64_small; [done|].
  pose proof (Z.mod_pos_bound va PGSIZE). consts. lia.
Qed.

(** user_vm_unmap gives the page of an aligned, mapped address back to the
    allocator, where it is the next page to be allocated, and flips the valid
    bit of this entry only. *)
Theorem user_vm_unmap_frees s root va size free l p pa :
  vm_inv s root l -> page_aligned va -> 0 <= va < MAXVA ->
  descend (smem s) root (va_path va) = Some p ->
  PTE2PA (entry (smem s) root va) = pa ->
  managed s pa -> pa ∉ l -> ~ in_tree (smem s) root pa ->
  exists s', user_vm_unmap root va size free s = Ok tt s' /\
  vm_inv s' root (pa :: l) /\
  (forall va', 0 <= va' < 2 ^ 39 -> entry (smem s') root va' =
     if decide (va' / PGSIZE = va / PGSIZE) then Z.lxor (entry (smem s) root va) PTE_V
     else entry (smem s) root va').
Proof. apply user_vm_unmap_spec. Qed.

(** Unmapping the same address twice frees its page twice and leaves the
    address mapped to it, while every later allocation returns the same
    page. *)
Theorem user_vm_unmap_twice_remaps s root va size free p pa n :
  pt_wf (smem s) root -> page_aligned va -> 0 <= va < MAXVA ->
  descend (smem s) root (va_path va) = Some p ->
  PTE2PA (entry (smem s) root va) = pa ->
  managed s pa -> ~ in_tree (smem s) root pa ->
  exists s', (bind (user_vm_unmap root va size free)
                   (fun _ => user_vm_unmap root va size free)) s = Ok tt s' /\
    entry (smem s') root va = entry (smem s) root va /\
    alloc_many n s' = Ok (replicate n pa) s'.
Proof. apply user_vm_unmap_twice. Qed.

(** prot_to_type gives an entry the bits it was asked for: W, X and U exactly
    when asked for, R when asked for or when neither W nor X is, never V or
    G. *)
Theorem prot_to_type_flags prot user :
  let t := prot_to_type prot user in
  0 <= t < 1024 /\
  truthy (Z.land t PTE_W) = truthy (Z.land prot PROT_WRITE) /\
  truthy (Z.land t PTE_X) = truthy (Z.land prot PROT_EXEC) /\
  truthy (Z.land t PTE_U) = truthy user /\
  truthy (Z.land t PTE_R) = truthy (Z.land prot PROT_READ)
    || negb (truthy (Z.land prot PROT_WRITE) || truthy (Z.land prot PROT_EXEC)) /\
  Z.land t PTE_V = 0 /\ Z.land t PTE_G = 0.
Proof. apply prot_to_type_bits. Qed.
