(* ===== verification/KernVm.v ===== *)
(** kern_vm_init (kernel/vmm.c): the page table of the kernel is an identity map
    of [KERN_BASE, PHYS_TOP), executable up to [_etext] and writable from
    there. *)
From S2P Require Import Prelude Mem CString Snprintf Console Pmm Sv39 Vmm.

Section KernVm.
Context {K : Layout} {HK : LayoutOk K}.

(** The entry of an address in an identity map with the flags [perm]. *)
Definition identity_pte (va perm : Z) : Z := map_pte (PGSIZE * (va / PGSIZE)) perm.

Definition kern_text_perm : Z := prot_to_type (Z.lor PROT_READ PROT_EXEC) 0.
Definition kern_data_perm : Z := prot_to_type (Z.lor PROT_READ PROT_WRITE) 0.

(** The kernel's page table. *)
Definition kern_entry (va : Z) : Z :=
  if decide (KERN_BASE <= va < _etext) then identity_pte va kern_text_perm
  else if decide (_etext <= va < PHYS_TOP) then identity_pte va kern_data_perm
  else 0.

(** One of its two identity maps. *)
Lemma kern_vm_map_spec s root lo hi perm l :
  vm_inv s root l -> page_aligned lo -> page_aligned hi -> KERN_BASE <= lo < hi -> hi <= PHYS_TOP ->
  (forall va, lo <= va < hi -> entry (smem s) root va = 0) -> 65 < Z.of_nat (length l) ->
  wp (kern_vm_map root lo lo (u64 (hi - lo)) perm)
     (fun _ s' => exists taken l', l = taken ++ l' /\ Z.of_nat (length taken) <= 65 /\
        vm_grows s s' root taken l' /\
        forall va, 0 <= va < 2 ^ 39 -> entry (smem s') root va =
          if decide (lo <= va < hi) then identity_pte va perm else entry (smem s) root va) never s.
Proof.
  intros HI Hlo Hhi [Hk Hlt] Htop He Hlen.
  assert (first_page lo = lo) as Hf by (by apply ROUNDDOWN_aligned).
  assert (u64 (hi - lo) = hi - lo) as Hs by (apply u64_small; consts; lia).
  assert (u64 (lo + (hi - lo) - 1) = hi - 1) as Hs' by (rewrite u64_small; consts; lia).
  assert (last_page lo (u64 (hi - lo)) = hi - PGSIZE) as Hl.
  { unfold last_page, ROUNDDOWN, page_aligned in *. rewrite Hs, Hs'. consts. dlia. }
  assert (PGSIZE * map_count lo (u64 (hi - lo)) = hi - lo) as Hc.
  { unfold map_count. rewrite Hf, Hl. unfold page_aligned in *. consts. dlia. }
  set (n := map_count lo (u64 (hi - lo))) in *.
  assert (tables_bound lo n <= 65) as Hb.
  { unfold tables_bound. destruct (n <=? 0); [lia|]. consts. dlia. }
  unfold kern_vm_map. apply wp_bind. eapply wp_mono.
  - apply (map_pages_ok s root lo _ lo perm l); rewrite ?Hf, ?Hl; [done|consts; lia|consts; lia| | |fold n; lia].
    + intros k Hk'. rewrite He; [done|]. fold n in Hk'. consts. lia.
    + change MAXVA with (2 ^ 38). consts. lia.
  - intros r s' (-> & taken & l' & (-> & Hg & Hm & _) & Ht). apply wp_ret.
    rewrite Hf in *. exists taken, l'. split_and!; [done|fold n in Ht; lia|done|].
    intros va Hva. rewrite Hm by done. unfold map_result. cbv zeta. fold n.
    unfold page_aligned in *.
    destruct (decide (lo <= va < hi)) as [Hin|Hout].
    + rewrite decide_True by (consts; dlia). unfold identity_pte. f_equal.
      rewrite u64_small by (consts; dlia). consts. dlia.
    + rewrite decide_False by (consts; dlia). done.
  - done.
Qed.

(** kern_vm_init builds that page table; 131 free pages are enough. *)
Lemma kern_vm_init_spec s root l :
  pmm_free s (root :: l) -> 130 < Z.of_nat (length l) ->
  wp kern_vm_init (fun _ s' => exists taken l', l = taken ++ l' /\
       Z.of_nat (length taken) <= 130 /\ vm_inv s' root l' /\
       g_kernel_pagetable s' = root /\
       forall va, 0 <= va < 2 ^ 39 -> entry (smem s') root va = kern_entry va) never s.
Proof.
  intros Hf Hlen. pose proof HK as [He1 _ _ He2 He3 He4].
  unfold kern_vm_init. pose proof (pmm_free_page _ _ _ Hf) as (Hr & Hn & _).
  destruct (alloc_page_cons s root l Hf) as (Ha & Hf1 & _).
  eapply wp_bind_ok; [exact Ha|]. cbv beta.
  eapply wp_bind_ok; [by apply memset_page|]. cbv beta.
  destruct (zeroed_root _ root l Hf1 Hr Hn) as (HI & _ & He). set (s1 := zeroed root _) in *.
  clearbody s1. apply wp_bind. eapply wp_mono.
  { apply (kern_vm_map_spec s1 root KERN_BASE _etext); try done; consts; try lia. }
  2: done.
  intros [] s2 (t1 & l1 & -> & Ht1 & [HI2 _ _ _] & Hm1).
  eapply wp_bind_ok; [apply lookup_pa_spec, HI2|]. cbv beta.
  eapply wp_bind_ok; [by apply sprint_eq|]. cbv beta.
  match goal with |- wp _ _ _ ?x => set (s3 := x) end.
  change (vm_inv s3 root l1) in HI2. change (smem s2) with (smem s3) in Hm1. clearbody s3.
  rewrite length_app in Hlen. apply wp_bind. eapply wp_mono.
  { apply (kern_vm_map_spec s3 root _etext PHYS_TOP _ l1); try done; try (consts; lia).
    intros va Hva. rewrite Hm1 by (consts; lia). by rewrite decide_False by lia. }
  2: done.
  intros [] s4 (t2 & l2 & -> & Ht2 & [HI4 _ _ _] & Hm2).
  eapply wp_bind_ok; [apply lookup_pa_spec, HI4|]. cbv beta.
  eapply wp_bind_ok; [by apply sprint_eq|]. cbv beta. apply wp_modify.
  exists (t1 ++ t2), l2. rewrite length_app, app_assoc. split_and!; [done|lia|done|done|].
  intros va Hva. change (entry (smem s4) root va = kern_entry va). rewrite Hm2, Hm1, He by done.
  unfold kern_entry. repeat case_decide; try done; lia.
Qed.
End KernVm.

(** * Properties *)

(** C10. kern_vm_init never fails with 131 free pages, and the table it leaves in
    g_kernel_pagetable maps exactly [KERN_BASE, PHYS_TOP) to itself, text
    readable and executable but not writable, the rest readable and writable
    but not executable. *)
Theorem kern_vm_init_identity {K : Layout} {HK : LayoutOk K} s root l :
  pmm_free s (root :: l) -> 130 < Z.of_nat (length l) ->
  wp kern_vm_init (fun _ s' => exists taken l', l = taken ++ l' /\
       Z.of_nat (length taken) <= 130 /\ vm_inv s' root l' /\
       g_kernel_pagetable s' = root /\
       forall va, 0 <= va < 2 ^ 39 -> entry (smem s') root va = kern_entry va) never s.
Proof. apply kern_vm_init_spec. Qed.
