(* ===== verification/Space.v ===== *)
(** Building an address space: the abstract state of a page table while the
    kernel allocates pages, writes to the pages it has allocated and maps
    pages, and the rule for each of these operations.  The rules are the
    interface of Pmm.v and Vmm.v to the code that creates processes
    (alloc_process, do_fork, the ELF loader). *)
From S2P Require Import Prelude Mem Context CString Snprintf Console Pmm Sv39 Vmm.

(** The page table of [root] has the tables [taken] and the entries [f]; the
    allocator owns [l]; the pages that are not tables hold what they hold in
    [m]. *)
Record aspace (t : mm) (m : memory) (root : Z) (taken l : list Z) (f : Z -> Z) : Prop := {
  as_inv : vm_inv t root l;
  as_tree : forall p, in_tree (smem t) root p <-> p = root \/ p ∈ taken;
  as_entry : forall va, 0 <= va < 2 ^ 39 -> entry (smem t) root va = f va;
  as_mem : forall z, page_aligned z -> z <> root -> z ∉ taken -> same_page z m (smem t);
}.

(** A page that belongs to the code that builds the address space. *)
Record private (p root : Z) (taken l : list Z) : Prop := {
  pv_ram : ram_page p;
  pv_root : p <> root;
  pv_taken : p ∉ taken;
  pv_free : p ∉ l;
}.

Lemma private_grow p root taken l t' l' :
  l = t' ++ l' -> private p root taken l -> private p root (taken ++ t') l'.
Proof. intros -> [? ? ? ?]. split; [done|done|set_solver..]. Qed.

Lemma private_tail p root taken q l : private p root taken (q :: l) -> private p root taken l.
Proof. intros [? ? ? ?]. split; [done|done|done|set_solver]. Qed.

(** The entries after one page has been mapped. *)
Definition map_entry (f : Z -> Z) (va pa perm va' : Z) : Z :=
  if decide (va' / PGSIZE = va / PGSIZE) then map_pte pa perm else f va'.

(** The entries after the pages of [l], each with an address, a physical page
    and permissions, have been mapped. *)
Definition map_all (f : Z -> Z) (l : list (Z * Z * Z)) : Z -> Z :=
  foldl (fun f e => map_entry f (fst (fst e)) (snd (fst e)) (snd e)) f l.

Lemma map_all_snoc f l va pa perm :
  map_all f (l ++ [(va, pa, perm)]) = map_entry (map_all f l) va pa perm.
Proof. unfold map_all. by rewrite foldl_app. Qed.

Lemma map_all_other f l va :
  Forall (fun e => va / PGSIZE <> fst (fst e) / PGSIZE) l -> map_all f l va = f va.
Proof.
  revert f. induction l as [|e l IH]; intros f Hf; [done|].
  apply Forall_cons in Hf as [Hne Hf]. cbn [map_all foldl].
  fold (map_all (map_entry f e.1.1 e.1.2 e.2) l).
  rewrite IH by done. unfold map_entry. by rewrite decide_False.
Qed.

Lemma map_all_in f l va pa perm va' :
  NoDup (map (fun e => fst (fst e) / PGSIZE) l) -> (va, pa, perm) ∈ l ->
  va' / PGSIZE = va / PGSIZE -> map_all f l va' = map_pte pa perm.
Proof.
  intros Hnd Hin Hva. revert f Hnd Hin. induction l as [|e l IH]; intros f Hnd Hin; [by apply elem_of_nil in Hin|].
  cbn [map] in Hnd. apply NoDup_cons in Hnd as [Hn Hnd]. cbn [map_all foldl].
  fold (map_all (map_entry f e.1.1 e.1.2 e.2) l).
  apply elem_of_cons in Hin as [<-|Hin]; [|by apply IH].
  rewrite map_all_other; [unfold map_entry; by rewrite decide_True|].
  apply Forall_forall. intros e He E. apply Hn. apply list_elem_of_fmap. exists e.
  split; [|done]. simpl. congruence.
Qed.

Lemma map_all_cases f es va :
  map_all f es va = f va \/
  exists va0 pa perm, (va0, pa, perm) ∈ es /\ va / PGSIZE = va0 / PGSIZE /\ map_all f es va = map_pte pa perm.
Proof.
  induction es as [|[[va0 pa] perm] es IH] using rev_ind; [by left|]. rewrite map_all_snoc.
  unfold map_entry. case_decide as Hva.
  - right. exists va0, pa, perm. rewrite elem_of_app, list_elem_of_singleton. auto.
  - destruct IH as [->|(va1 & pa1 & perm1 & Hin & Hp & ->)]; [by left|]. right. exists va1, pa1, perm1.
    rewrite elem_of_app. auto.
Qed.

Lemma store_bytes_same_on_both lo hi m m' a bs :
  same_on lo hi m m' -> same_on lo hi (store_bytes m a bs) (store_bytes m' a bs).
Proof. intros Hs x Hx. rewrite !lookup_store_bytes. case_decide; [done|by apply Hs]. Qed.

Section Frame.
Implicit Types t : mm.

(** The tables and the free pages are all that an address space depends on. *)
Lemma vm_inv_frame t m' root l :
  vm_inv t root l ->
  (forall z, z ∈ l \/ in_tree (smem t) root z -> same_page z (smem t) m') ->
  vm_inv (put_mem m' t) root l /\
  (forall p, in_tree m' root p <-> in_tree (smem t) root p) /\
  (forall va, entry m' root va = entry (smem t) root va).
Proof.
  intros (Hwf & Hf & Hd) Hs.
  destruct (pt_frame (smem t) m' root) as (Hwf' & Ht & He); [by eauto|done|].
  split; [|done]. split_and!; [by rewrite smem_put_mem|by apply pmm_free_frame; eauto|].
  intros p Hp. rewrite smem_put_mem, Ht. by apply Hd.
Qed.

Lemma aspace_write t m root taken l f p a bs :
  aspace t m root taken l f -> private p root taken l ->
  p <= a -> a + Z.of_nat (length bs) <= p + PGSIZE ->
  aspace (put_mem (store_bytes (smem t) a bs) t) (store_bytes m a bs) root taken l f.
Proof.
  intros [HI Ht He Hm] [Hr Hn1 Hn2 Hn3] Hlo Hhi.
  assert (forall z, page_aligned z -> z <> p -> same_page z (smem t) (store_bytes (smem t) a bs))
    as Hs.
  { intros z Hz Hne. symmetry. apply store_bytes_same_on.
    destruct (page_disjoint z p Hz (proj1 Hr) Hne); lia. }
  destruct (vm_inv_frame t (store_bytes (smem t) a bs) root l HI) as (HI' & Ht' & He').
  { pose proof HI as (Hwf & (_ & _ & Hman) & _). rewrite Forall_forall in Hman. intros z [Hz|Hz].
    - apply Hs; [apply (Hman z Hz)|]. by intros ->.
    - apply Hs; [apply (pt_ram _ _ Hwf z Hz)|]. intros ->. apply Ht in Hz. tauto. }
  split; [done|..]; rewrite smem_put_mem.
  - intros q. by rewrite Ht', Ht.
  - intros va Hva. by rewrite He', He.
  - intros z Hz Hz1 Hz2. by apply store_bytes_same_on_both, Hm.
Qed.

(** The console does not matter. *)
Lemma aspace_same t t' m root taken l f :
  aspace t m root taken l f -> smem t' = smem t -> same_range t t' ->
  g_free_mem_list t' = g_free_mem_list t -> aspace t' m root taken l f.
Proof.
  intros [(Hwf & (Hl & Hnd & Hman) & Hd) Ht He Hm] Es (E1 & E2 & _) Ef.
  split; [|by rewrite ?Es..]. split_and!; [by rewrite Es| |by rewrite Es].
  split_and!; [by rewrite Es, Ef|done|]. eapply Forall_impl; [exact Hman|].
  unfold managed. by rewrite E1, E2.
Qed.
End Frame.

(** ** The rules *)

Section Rules.
Context {S : Type} `{L : !Lens S mm}.
#[local] Instance lens_S_machine : Lens S machine := lens_comp L lens_mm_machine.
Implicit Types s : S.

(** Only memory management changes. *)
Definition only_mm s s' : Prop := s' = lput (lget s' : mm) s.

#[export] Instance only_mm_preorder : PreOrder only_mm.
Proof.
  split; unfold only_mm; [intros s; by rewrite lput_lget|].
  intros s1 s2 s3 E1 E2. rewrite E2 at 1. rewrite E1. by rewrite lput_lput.
Qed.

Lemma only_mm_lput (t : mm) s : only_mm s (lput t s).
Proof. unfold only_mm. by rewrite lget_lput. Qed.

Section Step.
Context {A : Type} (Q : A -> S -> Prop) (E : stop -> S -> Prop).
Context (s : S) (m : memory) (root : Z) (taken l : list Z) (f : Z -> Z).
Hypothesis HS : aspace (lget s) m root taken l f.

Lemma sp_bytes p a bs :
  private p root taken l -> p <= a -> a + Z.of_nat (length bs) <= p + PGSIZE ->
  let s' := put_mem (store_bytes (smem s) a bs) s in
  only_mm s s' /\ aspace (lget s') (store_bytes m a bs) root taken l f.
Proof.
  intros Hp Hlo Hhi s'. split; [apply only_mm_lput|].
  set (t := lget s : mm) in *.
  change s' with (lput (put_mem (store_bytes (smem t) a bs) t) s). rewrite lget_lput.
  by apply (aspace_write t m root taken l f p).
Qed.

Lemma sp_store n a v p (k : unit -> M S A) :
  private p root taken l -> p <= a -> a + Z.of_nat n <= p + PGSIZE ->
  (forall s', only_mm s s' -> aspace (lget s') (storen n m a v) root taken l f -> wp (k tt) Q E s') ->
  wp (bind (store n a v) k) Q E s.
Proof.
  intros Hp Hlo Hhi Hk. pose proof (pv_ram _ _ _ _ Hp) as (_ & ? & ?).
  eapply wp_bind_ok.
  { unfold store. by rewrite (proj2 (ram_ok_iff a (Z.of_nat n))) by lia. }
  cbv beta. destruct (sp_bytes p a (le_split n v)) as [Ho Ha]; [done|done|by rewrite length_le_split|].
  by apply Hk.
Qed.

Lemma sp_load n a p (k : Z -> M S A) :
  ram_page p -> p <> root -> p ∉ taken -> p <= a -> a + Z.of_nat n <= p + PGSIZE ->
  wp (k (loadn n m a)) Q E s -> wp (bind (load n a) k) Q E s.
Proof.
  intros Hr Hn1 Hn2 Hlo Hhi Hk. pose proof Hr as (Hpa & ? & ?).
  eapply wp_bind_ok.
  { unfold load. by rewrite (proj2 (ram_ok_iff a (Z.of_nat n))) by lia. }
  cbv beta. assert (loadn n (smem s) a = loadn n m a) as ->; [|done].
  symmetry. apply loadn_same_on, (same_on_sub p (p + PGSIZE)); [lia..|].
  by apply (as_mem _ _ _ _ _ _ HS).
Qed.

Lemma sp_memset p (k : Z -> M S A) :
  private p root taken l ->
  (forall s', only_mm s s' ->
     aspace (lget s') (store_bytes m p (replicate (Z.to_nat PGSIZE) Byte.x00)) root taken l f ->
     wp (k p) Q E s') ->
  wp (bind (memset p 0 PGSIZE) k) Q E s.
Proof.
  intros Hp Hk. eapply wp_bind_ok; [apply memset_page, Hp|]. cbv beta.
  destruct (sp_bytes p p (replicate (Z.to_nat PGSIZE) Byte.x00)) as [Ho Ha]; [done|lia| |by apply Hk].
  rewrite length_replicate. consts. lia.
Qed.

Lemma sp_print fmt vl (k : unit -> M S A) :
  fmt_ok false false (String.list_byte_of_string fmt) (map kind vl) = true ->
  (forall s', only_mm s s' -> aspace (lget s') m root taken l f -> wp (k tt) Q E s') ->
  wp (bind (sprint fmt vl) k) Q E s.
Proof.
  intros Hf Hk. eapply wp_bind_ok; [by apply sprint_eq|]. cbv beta. apply Hk.
  - apply only_mm_lput.
  - set (t := lget s : mm) in *.
    change (write_stderr ?bs s) with (lput (write_stderr bs t) s). rewrite lget_lput.
    by eapply aspace_same.
Qed.
End Step.

Lemma sp_alloc {A} p (Q : A -> S -> Prop) E s m root taken l f (k : Z -> M S A) :
  aspace (lget s) m root taken (p :: l) f ->
  (forall s', only_mm s s' -> aspace (lget s') m root taken l f -> private p root taken l ->
     p <> 0 -> wp (k p) Q E s') ->
  wp (bind (zoom alloc_page) k) Q E s.
Proof.
  intros [(Hwf & Hf & Hd) Ht He Hm] Hk. destruct (alloc_page_cons _ _ _ Hf) as (Ea & Hf' & Em).
  destruct (pmm_free_page _ _ _ Hf) as (Hr & Hn & Hz).
  assert (~ (p = root \/ p ∈ taken)) as Hnt by (rewrite <- Ht; apply Hd; left).
  eapply wp_bind_ok; [unfold zoom; by rewrite Ea|]. cbv beta. apply Hk; [apply only_mm_lput| |by split; auto|done].
  rewrite lget_lput. split; rewrite ?Em; try done. split_and!; [by rewrite Em|done|].
  intros q Hq. rewrite Em. apply Hd. by right.
Qed.

(** Copying a page that is no table of the address space into a page that
    belongs to the code. *)
Lemma sp_memcpy {A} p q (Q : A -> S -> Prop) E s m root taken l f (k : Z -> M S A) :
  aspace (lget s) m root taken l f -> private p root taken l ->
  ram_page q -> q <> root -> q ∉ taken -> q <> p ->
  (forall s', only_mm s s' ->
     aspace (lget s') (store_bytes m p (load_bytes m q (Z.to_nat PGSIZE))) root taken l f ->
     wp (k p) Q E s') ->
  wp (bind (memcpy p q PGSIZE) k) Q E s.
Proof.
  intros HS Hp Hq Hn1 Hn2 Hne Hk. pose proof Hp as [(Hpa & Hp1 & Hp2) _ _ _].
  pose proof Hq as (Hqa & Hq1 & Hq2).
  eapply wp_bind_ok.
  { apply memcpy_spec; [done|by split|by split|]. destruct (page_disjoint p q Hpa Hqa); [done|lia..]. }
  cbv beta. unfold copied.
  assert (load_bytes (smem s) q (Z.to_nat PGSIZE) = load_bytes m q (Z.to_nat PGSIZE)) as ->.
  { apply load_bytes_same_on. rewrite Z2Nat.id by done. symmetry. by apply (as_mem _ _ _ _ _ _ HS). }
  destruct (sp_bytes s m root taken l f HS p p (load_bytes m q (Z.to_nat PGSIZE))) as [Ho Ha];
    [done|lia|rewrite length_load_bytes; consts; lia|]. by apply Hk.
Qed.

(** A page in use when nothing has been taken from the list. *)
Lemma sp_map {A} va pa perm (Q : A -> S -> Prop) E s m root taken l f (k : unit -> M S A) :
  aspace (lget s) m root taken l f ->
  page_aligned va -> 0 <= va < MAXVA -> page_aligned pa -> 0 <= pa < 2 ^ 56 ->
  pte_valid (f va) = false -> (2 < length l)%nat ->
  (forall s' t' l', only_mm s s' -> l = t' ++ l' -> (length t' <= 2)%nat ->
     aspace (lget s') m root (taken ++ t') l' (map_entry f va pa perm) -> wp (k tt) Q E s') ->
  wp (bind (zoom (user_vm_map root va PGSIZE pa perm)) k) Q E s.
Proof.
  intros [HI Ht He Hm] Hva1 Hva2 Hpa1 Hpa2 Hv Hl Hk. pose proof MAXVA_eq as HM.
  apply wp_bind, wp_zoom.
  eapply wp_mono; [by apply (user_vm_map_spec (lget s) root va pa perm l)| |].
  - intros [] t (t' & l' & -> & Hlen & Hg & _ & He'). cbv beta.
    apply (Hk _ t' l'); [apply only_mm_lput|done|done|]. rewrite lget_lput.
    pose proof (vg_tree _ _ _ _ _ Hg) as Ht'. split; [apply Hg| | |].
    + intros q. rewrite Ht', Ht, elem_of_app. tauto.
    + intros va' Hva'. rewrite He' by done. unfold map_entry. case_decide; [done|by apply He].
    + intros z Hz Hz1 Hz2. rewrite not_elem_of_app in Hz2. destruct Hz2 as [Hz2 Hz3].
      etransitivity; [by apply Hm|]. eapply vm_grows_same_page; [done|done| |done].
      rewrite Ht. tauto.
  - intros e t (_ & [Hv'|Hl']); [|lia]. rewrite He in Hv' by lia. congruence.
Qed.
End Rules.
