(* ===== verification/Kstate.v ===== *)
(** The state of the kernel proper: the process table and the globals of
    kernel/process.c, kernel/sched.c and kernel/strap.c beside the state of
    memory management, and the layout of a trap frame and of the table of
    mapped regions in memory (kernel/process.h, kernel/riscv.h).  A
    [process *] is [None] for NULL or [Some i] for [&procs[i]]. *)
From S2P Require Import Prelude Mem CString Snprintf Console Pmm.

(** ** kernel/process.h *)
Definition NPROC : nat := 32.

Inductive proc_status : Type := FREE | READY | RUNNING | BLOCKED | ZOMBIE.

#[export] Instance proc_status_eq_dec : EqDecision proc_status.
Proof. solve_decision. Defined.

(** The value of the enumeration constant, as [%d] prints it. *)
Definition status_int (st : proc_status) : Z :=
  match st with FREE => 0 | READY => 1 | RUNNING => 2 | BLOCKED => 3 | ZOMBIE => 4 end.

Definition CODE_SEGMENT : Z := 0.
Definition DATA_SEGMENT : Z := 1.
Definition STACK_SEGMENT : Z := 2.
Definition CONTEXT_SEGMENT : Z := 3.
Definition SYSTEM_SEGMENT : Z := 4.

Record process := Process {
  kstack : Z;
  pagetable : Z;
  trapframe : Z;                (* address of a struct trapframe *)
  mapped_info : Z;              (* address of a page of struct mapped_region *)
  total_mapped_region : Z;
  pid : Z;
  status : proc_status;
  parent : option nat;
  queue_next : option nat;
  tick_count : Z
}.

Definition set_kstack (v : Z) (p : process) : process :=
  Process v (pagetable p) (trapframe p) (mapped_info p) (total_mapped_region p) (pid p)
          (status p) (parent p) (queue_next p) (tick_count p).
Definition set_pagetable (v : Z) (p : process) : process :=
  Process (kstack p) v (trapframe p) (mapped_info p) (total_mapped_region p) (pid p)
          (status p) (parent p) (queue_next p) (tick_count p).
Definition set_trapframe (v : Z) (p : process) : process :=
  Process (kstack p) (pagetable p) v (mapped_info p) (total_mapped_region p) (pid p)
          (status p) (parent p) (queue_next p) (tick_count p).
Definition set_mapped_info (v : Z) (p : process) : process :=
  Process (kstack p) (pagetable p) (trapframe p) v (total_mapped_region p) (pid p)
          (status p) (parent p) (queue_next p) (tick_count p).
Definition set_total_mapped_region (v : Z) (p : process) : process :=
  Process (kstack p) (pagetable p) (trapframe p) (mapped_info p) v (pid p)
          (status p) (parent p) (queue_next p) (tick_count p).
Definition set_pid (v : Z) (p : process) : process :=
  Process (kstack p) (pagetable p) (trapframe p) (mapped_info p) (total_mapped_region p) v
          (status p) (parent p) (queue_next p) (tick_count p).
Definition set_status (v : proc_status) (p : process) : process :=
  Process (kstack p) (pagetable p) (trapframe p) (mapped_info p) (total_mapped_region p) (pid p)
          v (parent p) (queue_next p) (tick_count p).
Definition set_parent (v : option nat) (p : process) : process :=
  Process (kstack p) (pagetable p) (trapframe p) (mapped_info p) (total_mapped_region p) (pid p)
          (status p) v (queue_next p) (tick_count p).
Definition set_queue_next (v : option nat) (p : process) : process :=
  Process (kstack p) (pagetable p) (trapframe p) (mapped_info p) (total_mapped_region p) (pid p)
          (status p) (parent p) v (tick_count p).
Definition set_tick_count (v : Z) (p : process) : process :=
  Process (kstack p) (pagetable p) (trapframe p) (mapped_info p) (total_mapped_region p) (pid p)
          (status p) (parent p) (queue_next p) v.

(** A process structure filled with zeros. *)
Definition zero_process : process := Process 0 0 0 0 0 0 FREE None None 0.

(** Offsets of struct trapframe; a register's offset is eight times its place
    in struct riscv_regs. *)
Definition tf_sp : Z := 8.
Definition tf_a0 : Z := 72.
Definition tf_a1 : Z := 80.
Definition tf_a2 : Z := 88.
Definition tf_a3 : Z := 96.
Definition tf_a4 : Z := 104.
Definition tf_a5 : Z := 112.
Definition tf_a6 : Z := 120.
Definition tf_a7 : Z := 128.
Definition tf_t6 : Z := 240.
Definition tf_kernel_sp : Z := 248.
Definition tf_kernel_trap : Z := 256.
Definition tf_epc : Z := 264.
Definition tf_kernel_satp : Z := 272.
Definition sizeof_trapframe : Z := 280.

(** [&info[i]] and the offsets of struct mapped_region. *)
Definition region (info i : Z) : Z := info + 16 * i.
Definition mr_va : Z := 0.
Definition mr_npages : Z := 8.
Definition mr_seg_type : Z := 12.

(** ** The state *)
Record kstate := KState {
  kmm : mm;
  procs : list process;
  current : option nat;
  ready_queue_head : option nat;
  g_ufree_page : Z;
  g_ticks : Z
}.

Definition set_kmm (t : mm) (s : kstate) : kstate :=
  KState t (procs s) (current s) (ready_queue_head s) (g_ufree_page s) (g_ticks s).
Definition set_procs (ps : list process) (s : kstate) : kstate :=
  KState (kmm s) ps (current s) (ready_queue_head s) (g_ufree_page s) (g_ticks s).
Definition set_current (c : option nat) (s : kstate) : kstate :=
  KState (kmm s) (procs s) c (ready_queue_head s) (g_ufree_page s) (g_ticks s).
Definition set_ready_queue_head (h : option nat) (s : kstate) : kstate :=
  KState (kmm s) (procs s) (current s) h (g_ufree_page s) (g_ticks s).
Definition set_g_ufree_page (v : Z) (s : kstate) : kstate :=
  KState (kmm s) (procs s) (current s) (ready_queue_head s) v (g_ticks s).
Definition set_g_ticks (v : Z) (s : kstate) : kstate :=
  KState (kmm s) (procs s) (current s) (ready_queue_head s) (g_ufree_page s) v.

#[export] Instance lens_k_mm : Lens kstate mm.
Proof. refine {| lget := kmm; lput := set_kmm |}; [done|by intros []|done]. Defined.

#[export] Instance lens_k_machine : Lens kstate machine := lens_comp lens_k_mm lens_mm_machine.

(** ** Access through a process pointer *)

(** A null pointer faults; an index beyond the table is undefined. *)
Definition deref (p : option nat) : M kstate process :=
  match p with
  | None => halt (BadAccess 0)
  | Some i => fun s => match procs s !! i with
                       | Some pr => Ok pr s
                       | None => Stop Undefined s
                       end
  end.

Definition upd_proc (i : nat) (f : process -> process) (s : kstate) : kstate :=
  set_procs (alter f i (procs s)) s.

(** [p->field = v] *)
Definition assign (p : option nat) (f : process -> process) : M kstate unit :=
  deref p ;;;
  match p with
  | None => ret tt
  | Some i => modify (upd_proc i f)
  end.

(** ** Frames: what an operation on memory leaves alone *)

(** The part of the state that is not memory management. *)
Definition kvars (s : kstate) :=
  (procs s, current s, ready_queue_head s, g_ufree_page s, g_ticks s).

Lemma kvars_set_kmm t s : kvars (set_kmm t s) = kvars s.
Proof. done. Qed.

Lemma kvars_put_mem m s : kvars (put_mem m s) = kvars s.
Proof. done. Qed.

Lemma kvars_write_stderr bs s : kvars (write_stderr bs s) = kvars s.
Proof. done. Qed.

Lemma wp_deref i pr (Q : process -> kstate -> Prop) E s :
  procs s !! i = Some pr -> Q pr s -> wp (deref (Some i)) Q E s.
Proof. unfold wp, deref. by intros ->. Qed.

Lemma wp_assign i pr f (Q : unit -> kstate -> Prop) E s :
  procs s !! i = Some pr -> Q tt (upd_proc i f s) -> wp (assign (Some i) f) Q E s.
Proof. intros Hi HQ. apply wp_bind. by eapply wp_deref. Qed.

Lemma assign_ok i pr f s : procs s !! i = Some pr -> assign (Some i) f s = Ok tt (upd_proc i f s).
Proof. intros Hi. unfold assign, bind, deref, modify. by rewrite Hi. Qed.

Lemma deref_ok i pr s : procs s !! i = Some pr -> deref (Some i) s = Ok pr s.
Proof. intros Hi. unfold deref. by rewrite Hi. Qed.

Lemma procs_upd i f s pr :
  procs s !! i = Some pr -> procs (upd_proc i f s) !! i = Some (f pr).
Proof. intros Hi. simpl. by rewrite list_lookup_alter_eq, Hi. Qed.

Lemma procs_upd_ne i j f s : i <> j -> procs (upd_proc i f s) !! j = procs s !! j.
Proof. intros Hi. simpl. by apply list_lookup_alter_ne. Qed.

Lemma length_procs_upd i f s : length (procs (upd_proc i f s)) = length (procs s).
Proof. apply length_alter. Qed.

Lemma upd_proc_upd_proc i f g s :
  upd_proc i f (upd_proc i g s) = upd_proc i (fun p => f (g p)) s.
Proof. unfold upd_proc, set_procs. simpl. f_equal. apply list_alter_alter_eq. Qed.

(** An operation on memory management keeps the other variables. *)
Lemma wp_zoom_kvars {A} (c : M mm A) (Q : A -> mm -> Prop) (E : stop -> mm -> Prop) s :
  wp c Q E (kmm s) ->
  wp (zoom c) (fun a s' => kvars s' = kvars s /\ Q a (kmm s'))
              (fun e s' => kvars s' = kvars s /\ E e (kmm s')) s.
Proof. intros H. apply wp_zoom. eapply wp_mono; [exact H| |]; done. Qed.
