(* ===== verification/Mmode.v ===== *)
(** kernel/machine: the machine-mode start-up code (minit.c, mentry.S) and the
    machine-mode traps (mtrap.c, mtrap_vector.S), and the state of the whole
    kernel image that start-up works on. *)
From S2P Require Import Prelude Mem Context CString Snprintf Console Pmm Fdt Devices Spike Kstate.

(** ** The state of the kernel image *)
Record image := Image { ik : kstate; ispike : spike; ihtif : htif_var }.

#[export] Instance lens_image_kstate : Lens image kstate.
Proof.
  refine {| lget := ik; lput := fun k s => Image k (ispike s) (ihtif s) |}; [done| |done].
  by intros [].
Defined.

#[export] Instance lens_image_spike : Lens image spike.
Proof.
  refine {| lget := ispike; lput := fun t s => Image (ik s) t (ihtif s) |}; [done| |done].
  by intros [].
Defined.

#[export] Instance lens_image_htif : Lens image htif_var.
Proof.
  refine {| lget := ihtif; lput := fun h s => Image (ik s) (ispike s) h |}; [done| |done].
  by intros [].
Defined.

#[export] Instance lens_image_mm : Lens image mm := lens_comp lens_image_kstate lens_k_mm.
#[export] Instance lens_image_machine : Lens image machine :=
  lens_comp lens_image_mm lens_mm_machine.

#[export] Instance indep_machine_spike : LensIndep lens_image_machine lens_image_spike.
Proof. by split. Qed.
#[export] Instance indep_machine_htif : LensIndep lens_image_machine lens_image_htif.
Proof. by split. Qed.

(** ** kernel/riscv.h *)
Definition MSTATUS_MPP_MASK : Z := Z.shiftl 3 11.
Definition MSTATUS_MPP_M : Z := Z.shiftl 3 11.
Definition MSTATUS_MPP_S : Z := Z.shiftl 1 11.
Definition MSTATUS_MPP_U : Z := Z.shiftl 0 11.
Definition MSTATUS_MIE : Z := Z.shiftl 1 3.
Definition MSTATUS_MPIE : Z := Z.shiftl 1 7.
Definition IRQ_S_EXT : Z := 9.
Definition IRQ_S_TIMER : Z := 5.
Definition IRQ_S_SOFT : Z := 1.
Definition MIP_SEIP : Z := Z.shiftl 1 IRQ_S_EXT.
Definition MIP_SSIP : Z := Z.shiftl 1 IRQ_S_SOFT.
Definition MIP_STIP : Z := Z.shiftl 1 IRQ_S_TIMER.
Definition CAUSE_MISALIGNED_FETCH : Z := 0x0.
Definition CAUSE_FETCH_ACCESS : Z := 0x1.
Definition CAUSE_ILLEGAL_INSTRUCTION : Z := 0x2.
Definition CAUSE_BREAKPOINT : Z := 0x3.
Definition CAUSE_MISALIGNED_LOAD : Z := 0x4.
Definition CAUSE_LOAD_ACCESS : Z := 0x5.
Definition CAUSE_MISALIGNED_STORE : Z := 0x6.
Definition CAUSE_STORE_ACCESS : Z := 0x7.
Definition CAUSE_USER_ECALL_M : Z := 0x8.
Definition CAUSE_FETCH_PAGE_FAULT : Z := 0xc.
Definition CAUSE_LOAD_PAGE_FAULT_M : Z := 0xd.
Definition CAUSE_STORE_PAGE_FAULT_M : Z := 0xf.
Definition CAUSE_MTIMER : Z := 0x8000000000000007.
Definition SIP_SSIP : Z := Z.shiftl 1 1.
Definition SIE_SEIE : Z := Z.shiftl 1 9.
Definition SIE_STIE : Z := Z.shiftl 1 5.
Definition SIE_SSIE : Z := Z.shiftl 1 1.
Definition MIE_MTIE : Z := Z.shiftl 1 7.

(** ** The hardware and the linker

    [warl c v]: the value CSR [c] holds after a write of [v]; the platform may
    leave bits unimplemented. *)
Class Hart := {
  warl : Z -> Z -> Z;
  stack0 : Z;             (* char stack0[4096 * NCPU] *)
  g_itrframe : Z;         (* struct riscv_regs g_itrframe *)
  s_start_addr : Z;
  mtrapvec_addr : Z;
  mem_done_addr : Z
}.

Definition mhartid : Z := 0xF14.
Definition r_a3 : nat := 12.
Definition r_a4 : nat := 13.

Section Code.
Context `{P : Platform} `{HT : Hart}.
Notation M := (M image).

Definition mwrite_csr (c v : Z) : M unit := write_csr c (warl c v).

(** ** minit.c *)

Definition init_dtb (fuel : nat) (dtb : Z) : M unit :=
  query_htif fuel dtb ;;;
  h <- gets (fun s => htif (ihtif s)) ;;
  (if h =? 0 then ret tt else sprint ("HTIF is available!" ++ CRLF)%string []) ;;;
  query_mem fuel mem_done_addr dtb ;;;
  t <- gets (lget (T := mm)) ;;
  sprint "(Emulated) memory size: %ld MB
" [VInt (Z.shiftr (g_mem_size t) 20)].

(** [read_const_csr(misa) & (1 << (ext - 'A'))] *)
Definition supports_extension (ext : Z) : M bool :=
  v <- read_csr misa ;;
  ret (negb (s32 (Z.land v (Z.shiftl 1 (ext - 65))) =? 0)).

Definition delegate_interrupts : Z := Z.lor (Z.lor MIP_SSIP MIP_STIP) MIP_SEIP.
Definition delegate_exceptions : Z :=
  Z.lor (Z.lor (Z.lor (Z.lor (Z.lor (Z.shiftl 1 CAUSE_MISALIGNED_FETCH)
    (Z.shiftl 1 CAUSE_FETCH_PAGE_FAULT)) (Z.shiftl 1 CAUSE_BREAKPOINT))
    (Z.shiftl 1 CAUSE_LOAD_PAGE_FAULT_M)) (Z.shiftl 1 CAUSE_STORE_PAGE_FAULT_M))
    (Z.shiftl 1 CAUSE_USER_ECALL_M).

Definition delegate_traps : M unit :=
  s_mode <- supports_extension 83 ;;
  if negb s_mode then
    sprint "S mode is not supported.
" []
  else
    let interrupts := delegate_interrupts in
    let exceptions := delegate_exceptions in
    mwrite_csr mideleg interrupts ;;;
    mwrite_csr medeleg exceptions ;;;
    v <- read_csr mideleg ;;
    assert_ (v =? interrupts) "kernel/machine/minit.c" 65 "read_csr(mideleg) == interrupts" ;;;
    v <- read_csr medeleg ;;
    assert_ (v =? exceptions) "kernel/machine/minit.c" 66 "read_csr(medeleg) == exceptions".

(** The CLINT registers of hart 0, the only one (NCPU). *)
Definition set_timer (t : Z) : M unit :=
  modify (fun s => lput (set_mtimecmp (u64 t) (lget s)) s).

Definition timerinit (hartid : Z) : M unit :=
  (if hartid =? 0 then
     k <- gets lget ;;
     set_timer (mtime k + TIMER_INTERVAL)
   else halt Undefined) ;;;
  v <- read_csr mie ;;
  mwrite_csr mie (Z.lor v MIE_MTIE).

(** mret: the privilege that mstatus.MPP names and the address in mepc. *)
Definition mret_status (v : Z) : Z :=
  let mpie := Z.land v MSTATUS_MPIE in
  let v := Z.land v (u64 (Z.lnot (Z.lor (Z.lor MSTATUS_MPP_MASK MSTATUS_MPIE) MSTATUS_MIE))) in
  Z.lor (Z.lor v MSTATUS_MPIE) (if mpie =? 0 then 0 else MSTATUS_MIE).

Definition mret : M (Z * Z) :=
  v <- read_csr mstatus ;;
  pc <- read_csr mepc ;;
  mwrite_csr mstatus (mret_status v) ;;;
  ret (Z.shiftr (Z.land v MSTATUS_MPP_MASK) 11, pc).

Definition m_start (fuel : nat) (hartid dtb : Z) : M (Z * Z) :=
  spike_file_init ;;;
  sprint "In m_start, hartid:%d
" [VInt hartid] ;;;
  init_dtb fuel dtb ;;;
  mwrite_csr mscratch g_itrframe ;;;
  v <- read_csr mstatus ;;
  mwrite_csr mstatus (Z.lor (Z.land v (u64 (Z.lnot MSTATUS_MPP_MASK))) MSTATUS_MPP_S) ;;;
  mwrite_csr mepc s_start_addr ;;;
  mwrite_csr mtvec mtrapvec_addr ;;;
  v <- read_csr mstatus ;;
  mwrite_csr mstatus (Z.lor v MSTATUS_MIE) ;;;
  delegate_traps ;;;
  v <- read_csr sie ;;
  mwrite_csr sie (Z.lor (Z.lor (Z.lor v SIE_SEIE) SIE_STIE) SIE_SSIE) ;;;
  timerinit hartid ;;;
  mret.

(** The stack of the hart: li a3, 4096; csrr a4, mhartid; addi a4, a4, 1;
    mul a3, a3, a4; add sp, sp, a3. *)
Definition hart_stack : M unit :=
  set_reg r_sp stack0 ;;;
  h <- read_csr mhartid ;;
  let a4 := u64 (h + 1) in
  set_reg r_a4 a4 ;;;
  let a3 := u64 (4096 * a4) in
  set_reg r_a3 a3 ;;;
  set_reg r_sp (u64 (stack0 + a3)).

(** mentry.S: the stack of the hart, then m_start with a0 and a1. *)
Definition _mentry (fuel : nat) : M (Z * Z) :=
  mwrite_csr mscratch 0 ;;;
  hart_stack ;;;
  a0 <- get_reg r_a0 ;;
  a1 <- get_reg (r_a0 + 1) ;;
  m_start fuel a0 a1.

(** ** mtrap.c *)

Definition handle_instruction_access_fault : M unit := panic "Instruction access fault!".
Definition handle_load_access_fault : M unit := panic "Load access fault!".
Definition handle_store_access_fault : M unit := panic "Store/AMO access fault!".
Definition handle_illegal_instruction : M unit := panic "Illegal instruction!".
Definition handle_misaligned_load : M unit := panic "Misaligned Load!".
Definition handle_misaligned_store : M unit := panic "Misaligned AMO!".

Definition handle_timer : M unit :=
  k <- gets lget ;;
  set_timer (mtimecmp k + TIMER_INTERVAL) ;;;
  mwrite_csr sip SIP_SSIP.

(** The case of a load access fault has no break: it falls into the next. *)
Definition handle_mtrap : M unit :=
  cause <- read_csr mcause ;;
  if cause =? CAUSE_MTIMER then handle_timer
  else if cause =? CAUSE_FETCH_ACCESS then handle_instruction_access_fault
  else if cause =? CAUSE_LOAD_ACCESS then
    handle_load_access_fault ;;;
    handle_store_access_fault
  else if cause =? CAUSE_STORE_ACCESS then handle_store_access_fault
  else if cause =? CAUSE_ILLEGAL_INSTRUCTION then handle_illegal_instruction
  else if cause =? CAUSE_MISALIGNED_LOAD then handle_misaligned_load
  else if cause =? CAUSE_MISALIGNED_STORE then handle_misaligned_store
  else
    sprint "machine trap(): unexpected mscause %p
" [VInt cause] ;;;
    epc <- read_csr mepc ;;
    tval <- read_csr mtval ;;
    sprint "            mepc=%p mtval=%p
" [VInt epc; VInt tval] ;;;
    panic "unexpected exception happened in M-mode.
".

(** mtrapvec (mtrap_vector.S): the registers at the time of the trap are saved
    in g_itrframe, and restored after handle_mtrap. *)
Definition mtrapvec_entry : M unit :=
  (* csrrw a0, mscratch, a0 *)
  a0 <- get_reg r_a0 ;;
  k <- read_csr mscratch ;;
  mwrite_csr mscratch a0 ;;;
  set_reg r_a0 k ;;;
  (* addi t6, a0, 0 *)
  a0 <- get_reg r_a0 ;;
  set_reg r_t6 a0 ;;;
  store_all_registers ;;;
  (* csrr t0, mscratch; sd t0, 72(a0) *)
  v <- read_csr mscratch ;;
  set_reg r_t0 v ;;;
  a0 <- get_reg r_a0 ;;
  store64 (a0 + 72) v ;;;
  (* sp = stack0 + 4096 * (mhartid + 1) *)
  hart_stack ;;;
  (* csrw mscratch, a0 *)
  a0 <- get_reg r_a0 ;;
  mwrite_csr mscratch a0.

(** The result is the privilege and the pc after mret. *)
Definition mtrapvec_exit : M (Z * Z) :=
  (* csrr t6, mscratch *)
  k <- read_csr mscratch ;;
  set_reg r_t6 k ;;;
  restore_all_registers ;;;
  mret.

Definition mtrapvec : M (Z * Z) :=
  mtrapvec_entry ;;;
  handle_mtrap ;;;
  mtrapvec_exit.
End Code.

(** ** Specifications *)

Section Specs.
Context `{P : Platform} `{HT : Hart}.
Implicit Types s : image.

(** The next timer interrupt is set and a software interrupt raised for the
    supervisor. *)
Definition ticked s : image :=
  let k : machine := lget s in
  put_csr sip (warl sip SIP_SSIP) (lput (set_mtimecmp (u64 (mtimecmp k + TIMER_INTERVAL)) k) s).

Lemma handle_mtrap_timer s :
  csr mcause (lget s) = CAUSE_MTIMER -> handle_mtrap s = Ok tt (ticked s).
Proof. intros Hc. unfold handle_mtrap. erewrite bind_step by reflexivity. by rewrite Hc. Qed.

Lemma panic_stops fmt s : exists s', panic (S := image) (A := unit) fmt s = Stop (Shutdown (-1)) s'.
Proof.
  unfold panic, do_panic. erewrite bind_step by reflexivity. unfold shutdown.
  erewrite bind_step by (apply sprint_eq; reflexivity). by eexists.
Qed.

Lemma handle_mtrap_other s :
  csr mcause (lget s) <> CAUSE_MTIMER -> exists s', handle_mtrap s = Stop (Shutdown (-1)) s'.
Proof.
  intros Hc. unfold handle_mtrap. erewrite bind_step by reflexivity.
  destruct (Z.eqb_spec (csr mcause (lget s)) CAUSE_MTIMER) as [|_]; [done|].
  unfold handle_instruction_access_fault, handle_load_access_fault, handle_store_access_fault,
    handle_illegal_instruction, handle_misaligned_load, handle_misaligned_store.
  destruct (_ =? CAUSE_FETCH_ACCESS); [apply panic_stops|].
  destruct (_ =? CAUSE_LOAD_ACCESS).
  { destruct (panic_stops "Load access fault!" s) as [s' E]. exists s'. by apply bind_stop. }
  do 4 (destruct (_ =? _); [apply panic_stops|]).
  erewrite bind_step by (apply sprint_eq; reflexivity).
  do 2 erewrite bind_step by reflexivity.
  erewrite bind_step by (apply sprint_eq; reflexivity). apply panic_stops.
Qed.

Lemma gpr_ticked s : gpr (lget (ticked s)) = gpr (lget s).
Proof. done. Qed.

Lemma wp_ticked (Q : unit -> image -> Prop) E s :
  csr mcause (lget s) = CAUSE_MTIMER -> Q tt (ticked s) -> wp handle_mtrap Q E s.
Proof. intros Hc HQ. unfold wp. by rewrite handle_mtrap_timer. Qed.

Lemma csr_ticked c s : c <> sip -> csr c (lget (ticked s)) = csr c (lget s).
Proof. intros Hc. unfold ticked. rewrite csr_put_csr. by destruct (Z.eqb_spec c sip). Qed.

Lemma smem_ticked s : smem (ticked s) = smem s.
Proof. done. Qed.

(** The stack of the hart is a matter of registers: sp is its upper end. *)
Definition stacked (h : Z) (g : list Z) : list Z :=
  let a3 := u64 (4096 * u64 (h + 1)) in
  <[r_sp := u64 (stack0 + a3)]> (<[r_a3 := a3]> (<[r_a4 := u64 (h + 1)]> (<[r_sp := stack0]> g))).

Lemma hart_stack_spec s :
  hart_stack s = Ok tt (put_gpr (stacked (csr mhartid (lget s)) (gpr (lget s))) s).
Proof.
  unfold hart_stack. do 4 erewrite bind_step by reflexivity.
  unfold set_reg, modify. by rewrite !put_gpr_put_gpr.
Qed.

Lemma stacked_other h g r :
  r <> r_sp -> r <> r_a3 -> r <> r_a4 -> stacked h g !! r = g !! r.
Proof. intros. unfold stacked. by rewrite !list_lookup_insert_ne by done. Qed.

Lemma length_stacked h g : length (stacked h g) = length g.
Proof. unfold stacked. by rewrite !length_insert. Qed.

(** What start-up up to init_dtb leaves alone. *)
Definition same_hardware s s' : Prop :=
  smem s' = smem s /\ csrs (lget s') = csrs (lget s) /\ mtime (lget s') = mtime (lget s) /\
  gpr (lget s') = gpr (lget s) /\ kvars (ik s') = kvars (ik s).

(** A well-formed device tree at [dtb] that gives the memory of the kernel
    [size] bytes. *)
Definition good_dtb (m : memory) (fuel : nat) (dtb : Z) (roots : list dtree) (size : Z) : Prop :=
  exists lo hi strings,
    readable lo hi /\ 0 <= dtb /\ hi - dtb <= 4 * Z.of_nat fuel /\
    fdt_blob m lo hi strings dtb roots /\ Forall (tree_room lo hi) roots /\
    list_ok m hi None (2, 1) roots = true /\
    last (list_sizes m mem_done_addr None (2, 1) roots) = Some size /\ 0 < size < 2 ^ 64.

Lemma mem_size_text z :
  0 <= z < 2 ^ 63 ->
  exists t, text false false (String.list_byte_of_string "(Emulated) memory size: %ld MB
") [VInt z] = Some t.
Proof.
  intros Hz. eexists. cbn -[s64 signed_text Z.eqb Z.opp Z.pow app].
  rewrite s64_small by lia. destruct (Z.eqb_spec z (- 2 ^ 63)) as [E|_]; [lia|reflexivity].
Qed.

Lemma init_dtb_spec fuel dtb roots size s :
  good_dtb (smem s) fuel dtb roots size ->
  exists s', init_dtb fuel dtb s = Ok tt s' /\ same_hardware s s' /\ ispike s' = ispike s /\
    g_mem_size (kmm (ik s')) = size /\
    ihtif s' = (if existsb (has_htif (smem s)) roots then HtifVar 1 else ihtif s).
Proof.
  intros (lo & hi & strings & Hr & Hd & Hf & Hb & Hroom & Hok & Hl & Hpos & Hmax). unfold init_dtb.
  rewrite (bind_step tt (found (existsb (has_htif (smem s)) roots) s))
    by (destruct Hr as (? & ? & ?); by eapply query_htif_spec).
  set (s1 := found _ s).
  assert (smem s1 = smem s /\ ik s1 = ik s /\ ispike s1 = ispike s /\
          ihtif s1 = (if existsb (has_htif (smem s)) roots then HtifVar 1 else ihtif s))
    as (Hm1 & Hk1 & Hp1 & Hh1) by (unfold s1, found; by destruct (existsb _ _)).
  clearbody s1. erewrite bind_step by reflexivity.
  assert (exists s2, (if htif (ihtif s1) =? 0 then ret tt
            else sprint ("HTIF is available!" ++ CRLF)%string []) s1 = Ok tt s2 /\
          same_hardware s1 s2 /\ ispike s2 = ispike s1 /\ ihtif s2 = ihtif s1)
    as (s2 & E2 & Hw2 & Hp2 & Hh2).
  { destruct (_ =? 0); [by eexists|]. eexists. split; [by apply sprint_eq|done]. }
  rewrite (bind_step _ _ _ _ _ E2).
  assert (smem s2 = smem s) as Hm2 by (destruct Hw2 as (-> & _); exact Hm1).
  pose proof (query_mem_outcome mem_done_addr lo hi strings fuel dtb roots s2) as Hq.
  change (mem (mach (lget s2))) with (smem s2) in Hq. cbv zeta in Hq. rewrite Hm2 in Hq.
  specialize (Hq Hr Hd Hf Hb Hroom Hok). rewrite Hl in Hq.
  change (default 0 (Some size)) with size in Hq.
  destruct (Z.ltb_spec 0 size) as [_|]; [|lia]. rewrite (bind_step _ _ _ _ _ Hq).
  erewrite bind_step by reflexivity. eexists. split.
  { change (lget (put_size size s2)) with (set_g_mem_size size (kmm (ik s2))).
    destruct (mem_size_text (Z.shiftr size 20)) as [t Ht]; [|exact (sprint_text _ _ t _ Ht)].
    rewrite Z.shiftr_div_pow2 by lia. dlia. }
  unfold same_hardware in *. destruct Hw2 as (E & Ec & Et & Eg & Eps).
  assert (lget s1 = lget s :> machine) as E1.
  { change (mach (kmm (ik s1)) = mach (kmm (ik s))). by rewrite Hk1. }
  rewrite E1 in Ec, Et, Eg. rewrite Hk1 in Eps. split_and!; try done; simpl; congruence.
Qed.

(** ** The way to the supervisor *)

(** The registers m_start writes. *)
Definition start_csrs : list Z := [mstatus; mepc; mtvec; mscratch; mideleg; medeleg; sie; mie].

Lemma supports_extension_spec ext s :
  65 <= ext < 65 + 31 ->
  supports_extension ext s = Ok (Z.testbit (csr misa (lget s)) (ext - 65)) s.
Proof.
  intros He. unfold supports_extension. erewrite bind_step by reflexivity. unfold ret.
  f_equal. set (n := ext - 65). assert (0 <= n < 31) as Hn by lia.
  assert (Z.land (csr misa (lget s)) (Z.shiftl 1 n) =
          if Z.testbit (csr misa (lget s)) n then 2 ^ n else 0) as ->.
  { rewrite Z.shiftl_1_l. apply Z.bits_inj'. intros i Hi. rewrite Z.land_spec, Z.pow2_bits_eqb by lia.
    destruct (Z.testbit _ n) eqn:Hb; rewrite ?Z.bits_0, ?Z.pow2_bits_eqb by lia;
      (destruct (Z.eqb_spec n i) as [<-|_]; [by rewrite Hb|by rewrite andb_false_r]). }
  assert (0 < 2 ^ n < 2 ^ 31) as Hp.
  { split; [apply Z.pow_pos_nonneg; lia|apply Z.pow_lt_mono_r; lia]. }
  destruct (Z.testbit _ n); rewrite s32_small by lia; [|done].
  by destruct (Z.eqb_spec (2 ^ n) 0); [lia|].
Qed.

Lemma delegate_traps_spec s :
  Z.testbit (csr misa (lget s)) 18 = true ->
  warl mideleg delegate_interrupts = delegate_interrupts ->
  warl medeleg delegate_exceptions = delegate_exceptions ->
  delegate_traps s =
  Ok tt (put_csr medeleg delegate_exceptions (put_csr mideleg delegate_interrupts s)).
Proof.
  intros Hs Hi He. unfold delegate_traps, mwrite_csr. rewrite Hi, He.
  erewrite bind_step by (apply supports_extension_spec; lia).
  change (83 - 65) with 18. rewrite Hs. cbv [negb]. do 2 erewrite bind_step by reflexivity.
  erewrite bind_step by reflexivity. rewrite !csr_put_csr. csimp.
  do 2 erewrite bind_step by reflexivity. by rewrite csr_put_csr.
Qed.

Lemma s_mode_kept s c v : c <> misa -> csr misa (lget (put_csr c v s)) = csr misa (lget s).
Proof. intros Hc. rewrite csr_put_csr. by destruct (Z.eqb_spec misa c). Qed.

(** The privilege that mret takes from mstatus, when MPP has been set to S. *)
Lemma mpp_supervisor v :
  0 <= v < 2 ^ 64 ->
  let v1 := Z.lor (Z.land v (u64 (Z.lnot MSTATUS_MPP_MASK))) MSTATUS_MPP_S in
  Z.shiftr (Z.land (u64 (Z.lor (u64 v1) MSTATUS_MIE)) MSTATUS_MPP_MASK) 11 = 1.
Proof.
  intros Hv v1. apply Z.bits_inj'. intros i Hi.
  rewrite Z.shiftr_spec, Z.land_spec by lia.
  change MSTATUS_MPP_MASK with (Z.shiftl (Z.ones 2) 11).
  rewrite Z.shiftl_spec, Z.add_simpl_r, Z.testbit_ones_nonneg by lia.
  destruct (Z.ltb_spec i 2) as [H2|H2].
  - rewrite andb_true_r. unfold u64, wrap. rewrite Z.mod_pow2_bits_low by lia.
    unfold v1, u64, wrap. rewrite Z.lor_spec, Z.mod_pow2_bits_low, Z.lor_spec, Z.land_spec by lia.
    assert (i = 0 \/ i = 1) as [->| ->] by lia; [|by rewrite andb_false_r].
    by rewrite orb_true_r.
  - rewrite andb_false_r. symmetry. rewrite Z.bits_above_log2; [done|lia|]. change (Z.log2 1) with 0. lia.
Qed.

(** After init_dtb: the rest of m_start. *)
Definition plain_csrs : Prop := forall c v, In c start_csrs -> warl c v = v.

Lemma mwrite_step {A} c v (f : unit -> M image A) s :
  plain_csrs -> In c start_csrs -> bind (mwrite_csr c v) f s = f tt (put_csr c v s).
Proof. intros Hp Hc. unfold mwrite_csr. by rewrite (Hp c v Hc). Qed.

Definition timer_set (t : Z) s : image := lput (set_mtimecmp t (lget s)) s.

Lemma csr_timer_set c t s : csr c (lget (timer_set t s)) = csr c (lget s).
Proof. done. Qed.

Lemma mret_spec s :
  plain_csrs ->
  mret s =
  Ok (Z.shiftr (Z.land (csr mstatus (lget s)) MSTATUS_MPP_MASK) 11, csr mepc (lget s))
     (put_csr mstatus (mret_status (csr mstatus (lget s))) s).
Proof.
  intros Hp. unfold mret. do 2 erewrite bind_step by reflexivity.
  by rewrite mwrite_step by (done || simpl; tauto).
Qed.

Lemma timerinit_spec s :
  plain_csrs ->
  timerinit 0 s =
  let s1 := timer_set (u64 (mtime (lget s) + TIMER_INTERVAL)) s in
  Ok tt (put_csr mie (Z.lor (csr mie (lget s)) MIE_MTIE) s1).
Proof.
  intros Hp. unfold timerinit. rewrite Z.eqb_refl, bind_assoc.
  do 3 erewrite bind_step by reflexivity. unfold mwrite_csr. by rewrite Hp by (simpl; tauto).
Qed.

(** What holds of the control registers in the first instruction of s_start. *)
Definition in_s_start s s' : Prop :=
  csr mideleg (lget s') = delegate_interrupts /\ csr medeleg (lget s') = delegate_exceptions /\
  csr mtvec (lget s') = u64 mtrapvec_addr /\ csr mscratch (lget s') = u64 g_itrframe /\
  csr mie (lget s') = u64 (Z.lor (csr mie (lget s)) MIE_MTIE) /\
  csr sie (lget s') =
    u64 (Z.lor (Z.lor (Z.lor (csr sie (lget s)) SIE_SEIE) SIE_STIE) SIE_SSIE) /\
  csr satp (lget s') = csr satp (lget s) /\
  mtimecmp (lget s') = u64 (mtime (lget s) + TIMER_INTERVAL).

Lemma m_start_rest s :
  plain_csrs -> Z.testbit (csr misa (lget s)) 18 = true -> 0 <= csr mstatus (lget s) < 2 ^ 64 ->
  exists s',
    (mwrite_csr mscratch g_itrframe ;;;
     v <- read_csr mstatus ;;
     mwrite_csr mstatus (Z.lor (Z.land v (u64 (Z.lnot MSTATUS_MPP_MASK))) MSTATUS_MPP_S) ;;;
     mwrite_csr mepc s_start_addr ;;;
     mwrite_csr mtvec mtrapvec_addr ;;;
     v <- read_csr mstatus ;;
     mwrite_csr mstatus (Z.lor v MSTATUS_MIE) ;;;
     delegate_traps ;;;
     v <- read_csr sie ;;
     mwrite_csr sie (Z.lor (Z.lor (Z.lor v SIE_SEIE) SIE_STIE) SIE_SSIE) ;;;
     timerinit 0 ;;;
     mret) s = Ok (1, u64 s_start_addr) s' /\
    in_s_start s s' /\ smem s' = smem s /\ gpr (lget s') = gpr (lget s) /\
    ispike s' = ispike s /\ ihtif s' = ihtif s /\ kvars (ik s') = kvars (ik s) /\
    g_mem_size (kmm (ik s')) = g_mem_size (kmm (ik s)).
Proof.
  intros Hp Hs Hv. eexists. split.
  - rewrite mwrite_step by (done || simpl; tauto). erewrite bind_step by reflexivity.
    do 3 (rewrite mwrite_step by (done || simpl; tauto)). erewrite bind_step by reflexivity.
    rewrite mwrite_step by (done || simpl; tauto).
    erewrite bind_step.
    2: { apply delegate_traps_spec; [by rewrite !s_mode_kept by done|apply Hp; simpl; tauto..]. }
    erewrite bind_step by reflexivity. rewrite mwrite_step by (done || simpl; tauto).
    erewrite bind_step by (by apply timerinit_spec). cbv zeta.
    rewrite (mret_spec _ Hp).
    rewrite !csr_put_csr, !csr_timer_set. csimp.
    rewrite (mpp_supervisor _ Hv). reflexivity.
  - unfold in_s_start. rewrite !csr_put_csr, !csr_timer_set. csimp. rewrite ?csr_timer_set. csimp.
    by split_and!.
Qed.
(** ** The trap vector *)

(** After mtrapvec_entry the registers [g] are in the frame. *)
Definition saved_frame_mem (m : memory) (tf : Z) (g : list Z) : memory :=
  st64 (save_regs m tf 0 (<[r_t6 := tf]> (<[r_a0 := tf]> g))) (tf + 72)
    (u64 (default 0 (g !! r_a0))).

Lemma mtrapvec_entry_spec s g tf :
  gpr (lget s) = g -> length g = 31%nat -> csr mscratch (lget s) = tf ->
  frame_ok tf -> plain_csrs ->
  wp mtrapvec_entry (fun _ s' =>
    length (gpr (lget s')) = 31%nat /\ csr mscratch (lget s') = tf /\
    smem s' = saved_frame_mem (smem s) tf g /\
    (forall c, c <> mscratch -> csr c (lget s') = csr c (lget s)) /\
    mtimecmp (lget s') = mtimecmp (lget s)) never s.
Proof.
  intros Hg Hlen Htf Hp Hplain. unfold mtrapvec_entry.
  assert (forall v, warl mscratch v = v) as Hw by (intros v; apply Hplain; simpl; tauto).
  unfold mwrite_csr. do 6 cstep. autorewrite with lens. rewrite Hg, Htf.
  rewrite list_lookup_insert_eq by (rewrite Hlen; unfold r_a0; lia). simpl default.
  set (a0 := default 0 (g !! r_a0)). set (g1 := <[r_t6 := tf]> (<[r_a0 := tf]> g)).
  assert (length g1 = 31%nat) as Hlen1 by (unfold g1; by rewrite !length_insert).
  eapply wp_bind_ok.
  { unfold store_all_registers. apply (store_regs_spec 31 0 g1 _ tf); try done.
    apply list_lookup_insert_eq. rewrite length_insert, Hlen. unfold r_t6. lia. }
  cbv beta. rewrite drop_0. autorewrite with lens.
  do 3 cstep. csimp. rewrite Hw.
  assert (<[r_t0 := u64 a0]> g1 !! r_a0 = Some tf) as Ha0.
  { unfold g1. rewrite !list_lookup_insert_ne by done.
    apply list_lookup_insert_eq. rewrite Hlen. unfold r_a0. lia. }
  rewrite Ha0. simpl default.
  eapply wp_bind_ok; [unfold store; rewrite frame_slot by (done || lia); reflexivity|]. cbv beta.
  eapply wp_bind_ok; [apply hart_stack_spec|]. cbv beta. cstep. rewrite Hw.
  assert (u64 tf = tf) as Eu by (apply u64_small; destruct Hp; consts; lia).
  eapply wp_write_csr. autorewrite with lens. csimp.
  rewrite length_stacked, length_insert, Hlen1, stacked_other, Ha0 by done. simpl default.
  split_and!; try done. intros c Hc. rewrite !csr_put_csr.
  destruct (Z.eqb_spec c mscratch); [done|]. autorewrite with lens.
  by destruct (Z.eqb_spec c mscratch).
Qed.

Lemma mtrapvec_exit_spec s tf :
  length (gpr (lget s)) = 31%nat -> csr mscratch (lget s) = tf -> frame_ok tf -> plain_csrs ->
  mtrapvec_exit s =
  Ok (Z.shiftr (Z.land (csr mstatus (lget s)) MSTATUS_MPP_MASK) 11, csr mepc (lget s))
     (put_csr mstatus (mret_status (csr mstatus (lget s)))
        (put_gpr (saved_regs (smem s) tf) s)).
Proof.
  intros Hlen Htf Hp Hplain. unfold mtrapvec_exit. do 2 erewrite bind_step by reflexivity.
  rewrite Htf. set (s1 := put_gpr _ s).
  assert (restore_all_registers s1 = Ok tt (put_gpr (saved_regs (smem s1) tf) s1)) as Er.
  { unfold restore_all_registers. apply (restore_regs_spec 31 0 (gpr (lget s1)) _ tf); try done.
    - unfold s1. by rewrite gpr_put_gpr, length_insert.
    - unfold s1. rewrite gpr_put_gpr. apply list_lookup_insert_eq. rewrite Hlen. unfold r_t6. lia. }
  rewrite (bind_step _ _ _ _ _ Er), (mret_spec _ Hplain). rewrite !csr_put_gpr.
  unfold s1. by rewrite !csr_put_gpr, smem_put_gpr, put_gpr_put_gpr.
Qed.

(** From reset to s_start. *)
Lemma mentry_spec fuel dtb roots size s :
  ispike s = spike_start -> good_dtb (smem s) fuel dtb roots size -> plain_csrs ->
  Z.testbit (csr misa (lget s)) 18 = true -> 0 <= csr mstatus (lget s) < 2 ^ 64 ->
  csr mhartid (lget s) = 0 -> gpr (lget s) !! r_a0 = Some 0 ->
  gpr (lget s) !! (r_a0 + 1)%nat = Some dtb ->
  exists s', _mentry fuel s = Ok (1, u64 s_start_addr) s' /\ in_s_start s s' /\
    smem s' = smem s /\ gpr (lget s') = stacked 0 (gpr (lget s)) /\
    g_mem_size (kmm (ik s')) = size /\ ispike s' = std_files 3 /\
    ihtif s' = (if existsb (has_htif (smem s)) roots then HtifVar 1 else ihtif s) /\
    kvars (ik s') = kvars (ik s).
Proof.
  intros Hsp Hd Hp Hs Hv Hh Ha Hb. unfold _mentry.
  rewrite mwrite_step by (done || simpl; tauto).
  erewrite bind_step by apply hart_stack_spec. rewrite csr_put_csr. csimp. rewrite Hh.
  set (g := stacked 0 (gpr (lget s))). set (s1 := put_gpr g (put_csr mscratch 0 s)).
  assert (g !! r_a0 = Some 0 /\ g !! (r_a0 + 1)%nat = Some dtb) as [Hga Hgb].
  { unfold g. by rewrite !stacked_other by done. }
  do 2 erewrite bind_step by reflexivity. unfold s1 at 1 2. rewrite gpr_put_gpr, Hga, Hgb. simpl default.
  assert (lget s1 = spike_start) as Hsp1 by exact Hsp.
  unfold m_start. rewrite (bind_step _ _ _ _ _ (spike_file_init_spec s1 Hsp1)).
  set (s2 := lput _ s1). erewrite bind_step by (apply sprint_eq; reflexivity).
  set (s3 := write_stderr _ s2). assert (good_dtb (smem s3) fuel dtb roots size) as Hd3 by exact Hd.
  destruct (init_dtb_spec _ _ _ _ _ Hd3) as (s4 & E4 & (Hm4 & Hc4 & Ht4 & Hg4 & Hps4) & Hk4 & Hz4 & Hi4).
  rewrite (bind_step _ _ _ _ _ E4).
  assert (forall c, c <> mscratch -> csr c (lget s4) = csr c (lget s)) as Hcsr.
  { intros c Hc. unfold csr. rewrite Hc4.
    change (csrs (lget s3)) with (<[mscratch := u64 0]> (csrs (lget s))). by rewrite lookup_insert_ne. }
  destruct (m_start_rest s4 Hp) as (s5 & -> & Hin & Hm5 & Hg5 & Hk5 & Hi5 & Hps5 & Hz5);
    [by rewrite Hcsr..|].
  exists s5. split; [done|]. split; [|rewrite Hm5, Hg5, Hk5, Hi5, Hps5, Hz5; by split_and!].
  destruct Hin as (? & ? & ? & ? & Hmie & Hsie & Hsatp & Hcmp).
  rewrite Hcsr in Hmie, Hsie, Hsatp by done. rewrite Ht4 in Hcmp. by split_and!.
Qed.

(** * Properties *)

(** C32. A timer interrupt is invisible to the code it interrupts: mtrapvec
    returns to it with every register but t6 as it was, the next timer
    interrupt is set, a software interrupt is raised for the supervisor, and
    no memory outside of g_itrframe changes. *)
Theorem timer_trap_transparent s g :
  gpr (lget s) = g -> length g = 31%nat -> csr mscratch (lget s) = g_itrframe ->
  frame_ok g_itrframe -> csr mcause (lget s) = CAUSE_MTIMER -> plain_csrs ->
  wp mtrapvec (fun r s' =>
    r = (Z.shiftr (Z.land (csr mstatus (lget s)) MSTATUS_MPP_MASK) 11, csr mepc (lget s)) /\
    gpr (lget s') = u64 <$> <[r_t6 := g_itrframe]> g /\
    csr mscratch (lget s') = g_itrframe /\
    csr sip (lget s') = u64 (warl sip SIP_SSIP) /\
    mtimecmp (lget s') = u64 (mtimecmp (lget s) + TIMER_INTERVAL) /\
    (forall lo hi, g_itrframe + 248 <= lo \/ hi <= g_itrframe ->
       same_on lo hi (smem s') (smem s))) never s.
Proof.
  intros Hg Hlen Htf Hp Hc Hplain. set (tf := g_itrframe) in *. unfold mtrapvec.
  eapply wp_seq; [by apply (mtrapvec_entry_spec s g tf)|done|].
  intros [] s1 (Hlen1 & Htf1 & Hm1 & Hc1 & Ht1).
  eapply wp_bind_ok; [apply handle_mtrap_timer; by rewrite Hc1|]. cbv beta.
  eapply wp_intro.
  { apply (mtrapvec_exit_spec _ tf); [by rewrite gpr_ticked|by rewrite csr_ticked|done..]. }
  rewrite !csr_ticked, !Hc1 by done. rewrite gpr_put_csr, gpr_put_gpr, smem_ticked, Hm1.
  split_and!; [done|by apply saved_frame| | | |].
  - rewrite csr_put_csr. csimp. by rewrite csr_ticked.
  - rewrite csr_put_csr. csimp. unfold ticked. by rewrite csr_put_csr.
  - change (u64 (mtimecmp (lget s1) + TIMER_INTERVAL) = u64 (mtimecmp (lget s) + TIMER_INTERVAL)).
    by rewrite Ht1.
  - intros lo hi Ho. rewrite smem_put_csr, smem_put_gpr, smem_ticked, Hm1. unfold saved_frame_mem.
    etransitivity; [apply storen_same_on; lia|]. apply save_regs_same_on. rewrite !length_insert. lia.
Qed.

(** handle_mtrap returns for a timer interrupt only; any other trap in
    machine mode, a load access fault included (its case falls through to the
    next), ends the machine with exit code -1. *)
Theorem handle_mtrap_outcomes s :
  if csr mcause (lget s) =? CAUSE_MTIMER
  then handle_mtrap s = Ok tt (ticked s)
  else exists s', handle_mtrap s = Stop (Shutdown (-1)) s'.
Proof.
  destruct (Z.eqb_spec (csr mcause (lget s)) CAUSE_MTIMER);
    [by apply handle_mtrap_timer|by apply handle_mtrap_other].
Qed.

(** C31. From reset, with a well-formed device tree, the machine-mode start-up
    reaches s_start in supervisor mode: the three standard files are open, the
    memory size and the availability of HTIF are those of the device tree,
    traps are delegated, the timer is armed, and memory is as it was. *)
Theorem mentry_reaches_s_start fuel dtb roots size s :
  ispike s = spike_start -> good_dtb (smem s) fuel dtb roots size -> plain_csrs ->
  Z.testbit (csr misa (lget s)) 18 = true -> 0 <= csr mstatus (lget s) < 2 ^ 64 ->
  csr mhartid (lget s) = 0 -> gpr (lget s) !! r_a0 = Some 0 ->
  gpr (lget s) !! (r_a0 + 1)%nat = Some dtb ->
  exists s', _mentry fuel s = Ok (1, u64 s_start_addr) s' /\ in_s_start s s' /\
    smem s' = smem s /\ gpr (lget s') = stacked 0 (gpr (lget s)) /\
    g_mem_size (kmm (ik s')) = size /\ ispike s' = std_files 3 /\
    ihtif s' = (if existsb (has_htif (smem s)) roots then HtifVar 1 else ihtif s) /\
    kvars (ik s') = kvars (ik s).
Proof. apply mentry_spec. Qed.
End Specs.
