(* ===== verification/Robust.v ===== *)
(** What the operations on memory do whatever memory holds: they terminate, and
    they leave everything but the machine alone.  These facts do not need the
    invariants of the page tables or of the free list, so that the theorems on
    scheduling (System.v) hold for any behaviour of user code. *)
From S2P Require Import Prelude Mem Context CString Snprintf Console Pmm Sv39 Vmm Kstate.

(** A relation on states that does not look at the machine. *)
Class Ignores {S} `{Lens S machine} (R : relation S) : Prop := {
  ignores_preorder :: PreOrder R;
  ignores : forall k s, R s (lput k s);
}.

(** A relation that does not look at the registers and the console. *)
Class IgnoresIo {S} `{Lens S machine} (R : relation S) : Prop := {
  ignores_io_preorder :: PreOrder R;
  ignores_io : forall k s, mem k = smem s -> R s (lput k s);
}.

#[export] Instance ignores_machine_io {S} `{Lens S machine} (R : relation S) : Ignores R -> IgnoresIo R.
Proof. intros I. split; [apply I|]. intros k s _. apply I. Qed.

Section Robust.
Context {S : Type} `{L : !Lens S machine} (R : relation S).

Section Io.
Context `{I : !IgnoresIo R}.

Lemma keeps_load n a : keeps R (load n a).
Proof. intros s. unfold wp, load. by destruct (ram_ok a (Z.of_nat n)). Qed.

Lemma keeps_read_csr c : keeps R (read_csr c).
Proof. apply keeps_gets. apply I. Qed.

Lemma keeps_write_csr c v : keeps R (write_csr c v).
Proof. apply keeps_modify. intros s. apply ignores_io. done. Qed.

Lemma keeps_write_stderr bs : keeps R (modify (write_stderr bs)).
Proof. apply keeps_modify. intros s. apply ignores_io. done. Qed.

Lemma keeps_vprintk fmt vl : keeps R (vprintk fmt vl).
Proof.
  unfold vprintk. destruct (vsnprintf _ _ _ _) as [[res out]|]; [apply keeps_write_stderr|].
  by apply keeps_halt.
Qed.

Lemma keeps_sprint fmt vl : keeps R (sprint fmt vl).
Proof. apply keeps_vprintk. Qed.

Lemma keeps_panic {A} fmt : keeps (A := A) R (panic fmt).
Proof.
  unfold panic, do_panic, shutdown. apply keeps_bind; [apply I|apply keeps_write_stderr|].
  intros _. apply keeps_bind; [apply I|apply keeps_sprint|]. intros _. by apply keeps_halt.
Qed.
End Io.

Context `{I : !Ignores R}.

Lemma keeps_store n a v : keeps R (store n a v).
Proof.
  intros s. unfold wp, store. destruct (ram_ok a (Z.of_nat n)); [|done]. apply ignores.
Qed.

(** An access succeeds or faults. *)
Lemma wp_load_err n a (Q : Z -> S -> Prop) (E : stop -> S -> Prop) s :
  (forall e s', is_error e -> E e s') -> Q (loadn n (smem s) a) s -> wp (load n a) Q E s.
Proof.
  intros HE HQ. unfold wp, load. destruct (ram_ok a (Z.of_nat n)); [done|]. by apply HE.
Qed.

Lemma wp_store_err n a v (Q : unit -> S -> Prop) (E : stop -> S -> Prop) s :
  (forall e s', is_error e -> E e s') ->
  Q tt (put_mem (storen n (smem s) a v) s) -> wp (store n a v) Q E s.
Proof.
  intros HE HQ. unfold wp, store. destruct (ram_ok a (Z.of_nat n)); [done|]. by apply HE.
Qed.

End Robust.

#[export] Hint Resolve @keeps_ret @keeps_gets @keeps_get_st @keeps_load @keeps_store @keeps_read_csr
  @keeps_write_csr @keeps_sprint @keeps_vprintk @keeps_panic @ignores_preorder @ignores_io_preorder : pke.

(** [keeps_tac]: decompose a computation into operations known to be robust. *)
Ltac keeps_tac :=
  repeat match goal with
  | |- forall _, _ => intro
  | |- keeps _ (bind _ _) => apply keeps_bind
  | |- keeps _ (for_each _ _) => apply keeps_for_each
  | |- keeps _ (match ?b with _ => _ end) => destruct b
  | |- keeps _ (halt _) => apply keeps_halt; exact Logic.I
  | |- _ => solve [eauto 3 with pke typeclass_instances]
  end.

(** The string is only read. *)
Lemma keeps_read_string {S} `{L : !Lens S machine} (R : relation S) `{I : !IgnoresIo R} pa : keeps R (read_string pa).
Proof.
  apply (keeps_loop _ _ (fun _ => True) (fun x => Z.max 0 (PHYS_TOP - fst x)));
    [done|unfold str_fuel; cbn [fst]; lia|lia|].
  intros [p bs] s _. apply wp_bind. unfold wp at 1, load. simpl fst.
  destruct (ram_ok p (Z.of_nat 1)) eqn:Hr; [|done]. apply ram_ok_iff in Hr.
  destruct (loadn 1 (smem s) p =? 0); apply wp_ret; (split; [reflexivity|]); [done|].
  split; [done|]. simpl fst. lia.
Qed.

Section CString.
Context {S : Type} `{L : !Lens S machine} (R : relation S) `{I : !Ignores R}.

Lemma keeps_memset_loop n dest len v :
  (0 < n)%nat -> 0 <= len -> keeps R (memset_loop n dest len v).
Proof.
  intros Hn Hlen.
  apply (keeps_loop _ _ (fun d => dest <= d) (fun d => Z.max 0 (dest + len - d))); [lia..|].
  intros d s Hd. destruct (Z.ltb_spec d (dest + len)).
  - apply wp_bind. eapply wp_mono; [apply (keeps_store R)| |done].
    intros [] s' HR. apply wp_ret. split; [done|lia].
  - apply wp_ret. split; [reflexivity|done].
Qed.

Lemma keeps_memset dest c len : 0 <= len -> keeps R (memset dest c len).
Proof.
  intros Hlen. unfold memset. keeps_tac; apply keeps_memset_loop; lia.
Qed.

(** One step of a copy loop whose first pointer advances to a limit. *)
Lemma wp_copy_body {B} n d t (r : B) (Q : B -> Prop) s :
  Q r ->
  wp (bind (load n t) (fun w => bind (store n d w) (fun _ => ret r)))
     (fun r' s' => R s s' /\ Q r') (fun e _ => is_error e) s.
Proof.
  intros HQ. apply wp_bind. eapply wp_mono; [apply (keeps_load R)| |done].
  intros w s1 H1. apply wp_bind. eapply wp_mono; [apply (keeps_store R)| |done].
  intros [] s2 H2. apply wp_ret. split; [|done]. etransitivity; [apply H1|apply H2].
Qed.

Lemma keeps_memcpy dest src len : 0 <= len -> keeps R (memcpy dest src len).
Proof.
  intros Hlen. unfold memcpy.
  apply (keeps_bind_post R (fun ds => dest <= fst ds)).
  - intros s. destruct (_ =? 0); [|apply wp_ret; split; [simpl; lia|reflexivity]].
    apply (wp_loop _ (fun ds s' => dest <= fst ds /\ R s s')
             (fun ds _ => Z.max 0 (dest + len - fst ds))); [|simpl; lia|lia|].
    { split; [simpl; lia|reflexivity]. }
    intros [d t] s1 [Hd HR]. simpl fst in *. destruct (Z.ltb_spec d (dest + len - (8 - 1))).
    + eapply wp_mono; [apply (wp_copy_body 8 d t _ (fun r => r = inl (d + 8, t + 8))); done| |done].
      intros r s2 [HR2 ->]. simpl. split; [|lia]. split; [lia|]. etransitivity; [apply HR|apply HR2].
    + by apply wp_ret.
  - intros [d t] Hd. simpl fst in *. apply keeps_bind; [apply I| |keeps_tac].
    apply (keeps_loop _ _ (fun ds => dest <= fst ds)
             (fun ds => Z.max 0 (dest + len - fst ds))); [done|simpl; lia|lia|].
    intros [d' t'] s Hd'. simpl fst in *. destruct (Z.ltb_spec d' (dest + len)).
    + eapply wp_mono; [apply (wp_copy_body 1 d' t' _ (fun r => r = inl (d' + 1, t' + 1))); done| |done].
      intros r s2 [HR2 ->]. simpl. split; [done|lia].
    + apply wp_ret. split; [reflexivity|done].
Qed.

Lemma keeps_strlen a : keeps R (strlen a).
Proof.
  intros s. eapply wp_mono; [apply strlen_terminates| |].
  - intros n s' [_ ->]. reflexivity.
  - by intros e s' [p ->].
Qed.
End CString.

(** ** kernel/pmm.c and kernel/vmm.c *)

Definition anything : relation mm := fun _ _ => True.

#[export] Instance anything_ignores : Ignores anything.
Proof. split; [split|]; done. Qed.

Lemma anything_modify f : keeps anything (modify f).
Proof. by apply keeps_modify. Qed.

#[export] Hint Resolve anything_modify : pke.

Lemma keeps_alloc_page : keeps anything alloc_page.
Proof. unfold alloc_page. keeps_tac. Qed.

Lemma keeps_free_page pa : keeps anything (free_page pa).
Proof. unfold free_page. keeps_tac. Qed.

#[export] Hint Resolve keeps_alloc_page keeps_free_page : pke.

Lemma keeps_walk_levels level : forall pt va alloc, keeps anything (walk_levels level pt va alloc).
Proof.
  induction level as [|l IH]; intros pt va alloc; cbn [walk_levels]; keeps_tac; try apply IH.
  apply keeps_memset; [apply _|done].
Qed.

(** page_walk returns for addresses below MAXVA only. *)
Lemma keeps_page_walk pt va alloc s :
  wp (page_walk pt va alloc) (fun _ s' => va < MAXVA /\ anything s s') (fun e _ => is_error e) s.
Proof.
  unfold page_walk. destruct (Z.leb_spec MAXVA va).
  - apply wp_bind. by apply wp_panic.
  - apply wp_bind, wp_ret. eapply wp_mono; [apply keeps_walk_levels| |done]. done.
Qed.

Lemma keeps_page_walk' pt va alloc : keeps anything (page_walk pt va alloc).
Proof. intros s. eapply wp_mono; [apply keeps_page_walk| |]; done. Qed.

#[export] Hint Resolve keeps_page_walk' : pke.

(** Every round of map_pages is on a new page below MAXVA, or panics. *)
Lemma keeps_map_pages pt va size pa perm : keeps anything (map_pages pt va size pa perm).
Proof.
  unfold map_pages.
  apply (keeps_loop _ _ (fun x => 0 <= fst x) (fun x => Z.max 0 ((MAXVA - fst x) / PGSIZE + 1))).
  - pose proof (u64_range va). pose proof (rounddown_bounds (u64 va) PGSIZE).
    simpl. unfold ROUNDDOWN. consts. dlia.
  - simpl. pose proof (u64_range va). change MAXVA with (2 ^ 38). unfold ROUNDDOWN. consts. dlia.
  - lia.
  - intros [first pa'] s Hf. simpl fst in *. destruct (first <=? _); [|by apply wp_ret].
    apply wp_bind. eapply wp_mono; [apply keeps_page_walk| |done].
    intros pte s1 [Hlt _]. destruct (pte =? 0); [by apply wp_ret|].
    apply wp_bind. eapply wp_mono; [apply (keeps_load anything)| |done].
    intros e s2 _. apply wp_bind. destruct (pte_valid e); [by apply wp_panic|]. apply wp_ret.
    apply wp_bind. eapply wp_mono; [apply (keeps_store anything)| |done]. intros [] s3 _.
    apply wp_ret. split; [done|]. cbn [fst]. change MAXVA with (2 ^ 38) in *.
    rewrite u64_small by (consts; lia). consts. dlia.
Qed.

#[export] Hint Resolve keeps_map_pages : pke.

Lemma keeps_lookup_pa pt va : keeps anything (lookup_pa pt va).
Proof. unfold lookup_pa. keeps_tac. Qed.

Lemma keeps_user_va_to_pa pt va : keeps anything (user_va_to_pa pt va).
Proof. unfold user_va_to_pa. keeps_tac. Qed.

Lemma keeps_user_vm_map pt va size pa perm : keeps anything (user_vm_map pt va size pa perm).
Proof. unfold user_vm_map. keeps_tac. Qed.

Lemma keeps_user_vm_unmap pt va size free : keeps anything (user_vm_unmap pt va size free).
Proof. unfold user_vm_unmap. keeps_tac. Qed.

#[export] Hint Resolve keeps_lookup_pa keeps_user_va_to_pa keeps_user_vm_map
  keeps_user_vm_unmap : pke.

Lemma keeps_kern_vm_init `{K : Layout} : keeps anything kern_vm_init.
Proof. unfold kern_vm_init, kern_vm_map. keeps_tac. by apply keeps_memset. Qed.

(** ** In the kernel's state *)

(** A relation that does not look at memory management. *)
Class IgnoresMm (R : relation kstate) : Prop := {
  ignores_mm_preorder :: PreOrder R;
  ignores_mm : forall t s, R s (set_kmm t s);
}.

#[export] Instance ignores_mm_machine R : IgnoresMm R -> Ignores R.
Proof. intros H. split; [apply _|]. intros k s. apply (ignores_mm (set_mach k (kmm s))). Qed.

#[export] Instance ignores_mm_io R : IgnoresMm R -> IgnoresIo R.
Proof. apply _. Qed.

Lemma keeps_zoom {A} R `{!IgnoresMm R} (c : M mm A) : keeps anything c -> keeps R (zoom c).
Proof.
  intros Hc s. apply wp_zoom. eapply wp_mono; [apply Hc| |done]. intros a t _. apply ignores_mm.
Qed.

Lemma keeps_deref R `{!PreOrder R} p : keeps R (deref p).
Proof.
  intros s. destruct p as [i|]; [|done]. unfold wp, deref. destruct (procs s !! i); [|done]. reflexivity.
Qed.

Lemma keeps_assign R `{!PreOrder R} i f :
  (forall s, R s (upd_proc i f s)) -> keeps R (assign (Some i) f).
Proof.
  intros H. unfold assign. apply keeps_bind; [done|by apply keeps_deref|]. intros _.
  by apply keeps_modify.
Qed.

#[export] Hint Resolve keeps_zoom keeps_deref : pke.

(** Operations on memory change nothing else. *)
Definition same_kvars : relation kstate := fun s s' => kvars s' = kvars s.

#[export] Instance same_kvars_ignores : IgnoresMm same_kvars.
Proof. split; [split|]; unfold same_kvars; [done|congruence|done]. Qed.
