(* ===== verification/Sched.v ===== *)
(** kernel/sched.c, and switch_to of kernel/process.c, which it ends with.  The abstract state of the scheduler is the list of the
    processes of the ready queue; [insert_to_ready_queue] appends to it unless
    the process is there, and [schedule] takes its head. *)
From S2P Require Import Prelude Mem Context CString Snprintf Console Pmm Sv39 Kstate.

(** ** The code *)

Section Code.
Context `{Layout}.

Definition SSTATUS_SPP : Z := Z.shiftl 1 8.
Definition SSTATUS_SPIE : Z := Z.shiftl 1 5.

Definition switch_to {A} (proc : option nat) : M kstate A :=
  assert_ (bool_decide (is_Some proc)) "kernel/process.c" 45 "proc" ;;;
  modify (set_current proc) ;;;
  write_csr stvec smode_trap_vector ;;;
  p <- deref proc ;;
  store64 (trapframe p + tf_kernel_sp) (kstack p) ;;;
  k <- read_csr satp ;;
  store64 (trapframe p + tf_kernel_satp) k ;;;
  store64 (trapframe p + tf_kernel_trap) smode_trap_handler_addr ;;;
  x <- read_csr sstatus ;;
  let x := Z.land x (u64 (Z.lnot SSTATUS_SPP)) in
  let x := Z.lor x SSTATUS_SPIE in
  write_csr sstatus x ;;;
  epc <- load64 (trapframe p + tf_epc) ;;
  write_csr sepc epc ;;;
  let user_satp := MAKE_SATP (pagetable p) in
  return_to_user (trapframe p) user_satp.

(** The browsing loop of insert_to_ready_queue: the last element of the
    queue, or [None] when [proc] is met before it. *)
Definition browse_queue (proc head : option nat) : M kstate (option (option nat)) :=
  loop (Pos.of_nat (S NPROC)) (fun p =>
    pr <- deref p ;;
    match queue_next pr with
    | None => ret (inr (Some p))
    | Some _ =>
        if decide (p = proc) then ret (inr None) else ret (inl (queue_next pr))
    end) head.

Definition insert_to_ready_queue (proc : option nat) : M kstate unit :=
  p <- deref proc ;;
  sprint "going to insert process %d to ready queue.
" [VInt (pid p)] ;;;
  head <- gets ready_queue_head ;;
  match head with
  | None =>
      assign proc (set_status READY) ;;;
      assign proc (set_queue_next None) ;;;
      modify (set_ready_queue_head proc)
  | Some _ =>
      r <- browse_queue proc head ;;
      match r with
      | None => ret tt (* already in queue *)
      | Some p =>
          if decide (p = proc) then ret tt
          else
            assign p (set_queue_next proc) ;;;
            assign proc (set_status READY) ;;;
            assign proc (set_queue_next None)
      end
  end.

(** The loop over the process table when the queue is empty: the value of
    [should_shutdown] at its end. *)
Fixpoint scan_procs (n i : nat) (should_shutdown : bool) : M kstate bool :=
  match n with
  | O => ret should_shutdown
  | S n' =>
      p <- deref (Some i) ;;
      if negb (bool_decide (status p = FREE)) && negb (bool_decide (status p = ZOMBIE)) then
        sprint "ready queue empty, but process %d is not in free/zombie state:%d
" [VInt (Z.of_nat i); VInt (status_int (status p))] ;;;
        scan_procs n' (S i) false
      else scan_procs n' (S i) should_shutdown
  end.

(** schedule never returns.  Its statement [current->status == RUNNING;] is a
    comparison whose value is dropped. *)
Definition schedule {A} : M kstate A :=
  head <- gets ready_queue_head ;;
  match head with
  | None =>
      should_shutdown <- scan_procs NPROC 0 true ;;
      if (should_shutdown : bool) then
        sprint "no more ready processes, system shutdown now.
" [] ;;;
        shutdown 0
      else panic "Not handled: we should let system wait for unfinished processes.
"
  | Some _ => ret tt
  end ;;;
  modify (fun s => set_current (ready_queue_head s) s) ;;;
  c <- gets current ;;
  p <- deref c ;;
  assert_ (bool_decide (status p = READY)) "kernel/sched.c" 67 "current->status == READY" ;;;
  modify (set_ready_queue_head (queue_next p)) ;;;
  sprint "going to schedule process %d to run.
" [VInt (pid p)] ;;;
  switch_to c.
End Code.

(** ** The abstract queue *)

(** The processes [l] are linked through [queue_next] from [head]. *)
Fixpoint queue (ps : list process) (head : option nat) (l : list nat) : Prop :=
  match l with
  | [] => head = None
  | i :: l' => head = Some i /\ exists p, ps !! i = Some p /\ queue ps (queue_next p) l'
  end.

(** The ready queue holds the processes [l], each once. *)
Definition ready (s : kstate) (l : list nat) : Prop :=
  queue (procs s) (ready_queue_head s) l /\ NoDup l.

(** The change of state insert_to_ready_queue makes when the queue is [l]. *)
Definition enqueue (i : nat) (l : list nat) (s : kstate) : kstate :=
  if decide (i ∈ l) then s
  else
    let entry p := set_queue_next None (set_status READY p) in
    match last l with
    | None => set_ready_queue_head (Some i) (upd_proc i entry s)
    | Some j => upd_proc i entry (upd_proc j (set_queue_next (Some i)) s)
    end.

(** The queue it leaves. *)
Definition enqueued (i : nat) (l : list nat) : list nat :=
  if decide (i ∈ l) then l else l ++ [i].

(** ** Lemmas on the queue *)

Lemma queue_lookup ps h l i : queue ps h l -> i ∈ l -> exists p, ps !! i = Some p.
Proof.
  revert h. induction l as [|j l IH]; intros h Hq Hi; [by apply elem_of_nil in Hi|].
  destruct Hq as (_ & p & Hp & Hq). apply elem_of_cons in Hi as [->|Hi]; eauto.
Qed.

(** A change that keeps the links of the queued processes. *)
Lemma queue_frame ps ps' h l :
  (forall i p, i ∈ l -> ps !! i = Some p ->
     exists p', ps' !! i = Some p' /\ queue_next p' = queue_next p) ->
  queue ps h l -> queue ps' h l.
Proof.
  revert h. induction l as [|j l IH]; intros h Hf Hq; [done|].
  destruct Hq as (-> & p & Hp & Hq). split; [done|].
  destruct (Hf j p) as (p' & Hp' & Hn); [left|done|]. exists p'. split; [done|].
  rewrite Hn. apply IH; [|done]. intros i q Hi. apply Hf. by right.
Qed.

(** Appending: the last link changes from NULL to the new element. *)
Lemma queue_snoc ps ps' h l i p' :
  queue ps h l -> ps' !! i = Some p' -> queue_next p' = None ->
  (forall j p, j ∈ l -> ps !! j = Some p -> exists q, ps' !! j = Some q /\
     queue_next q = if decide (last l = Some j) then Some i else queue_next p) ->
  NoDup l -> l <> [] -> queue ps' h (l ++ [i]).
Proof.
  intros Hq Hi Hn Hf Hnd. revert h Hq Hf.
  induction Hnd as [|j l Hj Hnd IH]; intros h Hq Hf Hne; [done|].
  destruct Hq as (-> & p & Hp & Hq). split; [done|].
  destruct (Hf j p) as (q & Hq' & Hqn); [left|done|]. exists q. split; [done|].
  rewrite Hqn. destruct l as [|k l].
  - rewrite decide_True by done. simpl. eauto.
  - rewrite decide_False.
    + apply IH; [done| |done]. intros x px Hx Hpx. destruct (Hf x px) as (qx & ? & ?); [by right|done|].
      exists qx. split; [done|]. by rewrite last_cons_cons in *.
    + intros Hl. rewrite last_cons_cons in Hl. apply Hj. by apply last_Some_elem_of in Hl.
Qed.

Lemma queue_last_next ps h l j p :
  queue ps h (l ++ [j]) -> ps !! j = Some p -> queue_next p = None.
Proof.
  revert h. induction l as [|i l IH]; intros h Hq Hj; destruct Hq as (_ & q & Hq & Hrest).
  - simpl in Hrest. congruence.
  - eauto.
Qed.

(** ** insert_to_ready_queue *)

Lemma enqueue_kmm i l s : kmm (enqueue i l s) = kmm s.
Proof. unfold enqueue. case_decide; [done|]. by destruct (last l). Qed.

(** The loop finds the process or the last element. *)
Lemma browse_queue_spec i h l s :
  queue (procs s) h l -> NoDup l -> l <> [] -> (length l <= NPROC)%nat ->
  browse_queue (Some i) h s =
    Ok (if decide (i ∈ l /\ last l <> Some i) then None else Some (last l)) s.
Proof.
  intros Hq Hnd Hne Hlen.
  set (r := if decide (i ∈ l /\ last l <> Some i) then None else Some (last l)).
  assert (wp (browse_queue (Some i) h) (fun r' s' => s' = s /\ r' = r) never s) as H.
  { apply (wp_loop_bound _ (fun n h' s' => s' = s /\ exists l1 l2, l = l1 ++ l2 /\ l2 <> [] /\
              n = Z.of_nat (length l2) /\ queue (procs s) h' l2 /\ i ∉ l1)
            _ _ _ (Z.of_nat (length l))).
    - split; [done|]. exists [], l. split_and!; try done. set_solver.
    - unfold NPROC in *. lia.
    - intros n h' s' (_ & l1 & l2 & _ & _ & -> & _). lia.
    - intros n h' s' (-> & l1 & l2 & El & Hl2 & -> & Hq2 & Hi1).
      destruct l2 as [|j l2]; [done|]. destruct Hq2 as (-> & p & Hp & Hq2).
      apply wp_bind. eapply wp_deref; [done|].
      destruct (queue_next p) as [k|] eqn:Hn.
      + destruct l2 as [|k' l2]; [done|]. pose proof (proj1 Hq2) as [= ->].
        assert (j ∉ k' :: l2) as Hj2.
        { rewrite El in Hnd. apply NoDup_app in Hnd as (_ & _ & Hnd). by inversion Hnd. }
        case_decide as Hji.
        * apply wp_ret. split; [done|]. injection Hji as ->. unfold r.
          rewrite decide_True; [done|]. rewrite El. split; [set_solver|].
          rewrite last_app_cons, last_cons_cons. intros Hl. apply Hj2. by apply last_Some_elem_of.
        * apply wp_ret. exists (Z.of_nat (length (k' :: l2))). split; [simpl; lia|]. split; [done|].
          exists (l1 ++ [j]), (k' :: l2). rewrite <- app_assoc. split_and!; try done.
          rewrite elem_of_app, list_elem_of_singleton. intros [?| ->]; [done|by apply Hji].
      + destruct l2 as [|k' l2]; [|by destruct Hq2]. apply wp_ret. split; [done|].
        unfold r. rewrite El, last_snoc, decide_False; [done|].
        rewrite elem_of_app, list_elem_of_singleton. intros [[?| ->] ?]; done. }
  apply wp_ok in H as (r' & s' & -> & -> & ->). done.
Qed.

Definition insert_msg (p : process) : list byte :=
  printed "going to insert process %d to ready queue.
" [VInt (pid p)].

Lemma insert_to_ready_queue_spec i l s p :
  ready s l -> (length l <= NPROC)%nat -> procs s !! i = Some p ->
  insert_to_ready_queue (Some i) s = Ok tt (enqueue i l (write_stderr (insert_msg p) s)).
Proof.
  intros [Hq Hnd] Hlen Hi. unfold insert_to_ready_queue.
  apply (bind_ok p s); [by apply deref_ok|].
  apply (bind_ok tt (write_stderr (insert_msg p) s)); [by apply sprint_eq|].
  set (s1 := write_stderr _ s). change (procs s) with (procs s1) in *.
  change (ready_queue_head s) with (ready_queue_head s1) in Hq. clearbody s1.
  eapply bind_ok; [done|]. cbv beta. unfold enqueue.
  destruct l as [|h l].
  - rewrite Hq, decide_False by set_solver.
    eapply bind_ok; [by eapply assign_ok|].
    eapply bind_ok; [eapply assign_ok; by apply procs_upd|].
    by rewrite upd_proc_upd_proc.
  - pose proof (proj1 Hq) as Hh. rewrite Hh. rewrite Hh in Hq.
    eapply bind_ok; [by apply (browse_queue_spec i (Some h) (h :: l))|].
    destruct (decide (i ∈ h :: l /\ last (h :: l) <> Some i)) as [[Hin Hl]|Hl]; cbv iota.
    + by rewrite decide_True.
    + destruct (last (h :: l)) as [j|] eqn:Hlast; [|by apply last_None in Hlast].
      destruct (decide (Some j = Some i)) as [[= ->]|Hji].
      * rewrite decide_True; [done|]. by apply last_Some_elem_of.
      * rewrite decide_False by tauto.
        destruct (queue_lookup _ _ _ j Hq) as [pj Hj]; [by apply last_Some_elem_of|].
        eapply bind_ok; [by eapply assign_ok|].
        assert (procs (upd_proc j (set_queue_next (Some i)) s1) !! i = Some p) as Hi'.
        { by rewrite procs_upd_ne by congruence. }
        eapply bind_ok; [by eapply assign_ok|].
        erewrite assign_ok by (by apply procs_upd). by rewrite upd_proc_upd_proc.
Qed.

(** What the change does to each process: its link, and the status of the
    new element. *)
Definition unlinked (p : process) : process := set_queue_next None (set_status READY p).

Lemma enqueue_proc i l s j p :
  procs s !! j = Some p ->
  exists p', procs (enqueue i l s) !! j = Some p' /\ unlinked p' = unlinked p /\
    status p' = (if decide (i ∉ l /\ j = i) then READY else status p) /\
    queue_next p' = (if decide (i ∈ l) then queue_next p
                     else if decide (j = i) then None
                     else if decide (last l = Some j) then Some i else queue_next p).
Proof.
  intros Hj. unfold enqueue. destruct (decide (i ∈ l)) as [Hin|Hin].
  { exists p. split_and!; [done|done|by rewrite decide_False by tauto|done]. }
  destruct (last l) as [k|] eqn:Hl; simpl; rewrite ?list_lookup_alter.
  - destruct (decide (i = j)) as [->|Hij].
    + rewrite (decide_False (P := k = j)), Hj by (intros ->; by apply Hin, last_Some_elem_of).
      eexists. split; [done|]. by rewrite !decide_True by tauto.
    + rewrite (decide_False (P := _ /\ _)), (decide_False (P := j = i)) by (intros ?; naive_solver).
      destruct (decide (k = j)) as [->|Hkj]; rewrite Hj; eexists; (split; [done|]).
      * by rewrite decide_True.
      * by rewrite decide_False by congruence.
  - destruct (decide (i = j)) as [->|Hij]; rewrite Hj; eexists; (split; [done|]).
    + by rewrite !decide_True by tauto.
    + by rewrite !decide_False by (intros ?; naive_solver).
Qed.

Lemma enqueue_length i l s : length (procs (enqueue i l s)) = length (procs s).
Proof.
  unfold enqueue. case_decide; [done|]. destruct (last l); simpl; by rewrite !length_alter.
Qed.

(** The queue afterwards. *)
Lemma enqueue_ready i l s p :
  ready s l -> procs s !! i = Some p -> ready (enqueue i l s) (enqueued i l).
Proof.
  intros [Hq Hnd] Hi. unfold enqueued. destruct (decide (i ∈ l)) as [Hin|Hin].
  { unfold enqueue. by rewrite decide_True. }
  split; [|apply NoDup_app; split_and!; [done|set_solver|apply NoDup_singleton]].
  destruct (enqueue_proc i l s i p Hi) as (p' & Hp' & _ & _ & Hn).
  rewrite decide_False, decide_True in Hn by done.
  destruct (decide (l = [])) as [->|Hne].
  - unfold enqueue in *. rewrite decide_False in * by done. simpl in *. eauto.
  - assert (ready_queue_head (enqueue i l s) = ready_queue_head s) as ->.
    { unfold enqueue. rewrite decide_False by done.
      destruct (last l) eqn:Hl; [done|by apply last_None in Hl]. }
    apply (queue_snoc (procs s) _ _ _ _ p'); try done.
    intros j q Hj Hq'. destruct (enqueue_proc i l s j q Hq') as (q' & Hq'' & _ & _ & Hn').
    exists q'. split; [done|]. rewrite Hn', decide_False, decide_False; [done|by intros ->|done].
Qed.

(** ** switch_to *)

Section Switch.
Context {K : Layout}.

(** Memory after the kernel's entries of the trap frame have been set. *)
Definition switched (p : process) (s : kstate) : memory :=
  st64 (st64 (st64 (smem s) (trapframe p + tf_kernel_sp) (kstack p))
             (trapframe p + tf_kernel_satp) (csr satp (lget s)))
       (trapframe p + tf_kernel_trap) smode_trap_handler_addr.

(** The state in which user mode is entered for the process [i]. *)
Definition in_user (i : nat) (p : process) (m : memory) (s : kstate) : Prop :=
  current s = Some i /\ smem s = m /\
  gpr (lget s) = saved_regs m (trapframe p) /\
  csr sepc (lget s) = ld64 m (trapframe p + tf_epc) /\
  csr satp (lget s) = u64 (MAKE_SATP (pagetable p)) /\
  csr sscratch (lget s) = u64 (trapframe p) /\
  csr stvec (lget s) = u64 smode_trap_vector /\
  Z.testbit (csr sstatus (lget s)) 8 = false /\ Z.testbit (csr sstatus (lget s)) 5 = true.

Lemma lget_set_current c s : lget (T := machine) (set_current c s) = lget s.
Proof. done. Qed.

Lemma smem_set_current c s : smem (set_current c s) = smem s.
Proof. done. Qed.

Lemma switch_to_spec {A} i p s :
  procs s !! i = Some p -> ram_page (trapframe p) -> length (gpr (lget s)) = 31%nat ->
  wp (@switch_to K A (Some i)) (fun _ _ => False) (fun e s' => e = SRet /\
    kvars s' = kvars (set_current (Some i) s) /\
    Mem.console (lget s') = Mem.console (lget s) /\ in_user i p (switched p s) s') s.
Proof.
  intros Hi Hp Hg. unfold switch_to.
  change (bool_decide (is_Some (Some i))) with true.
  do 3 cstep. eapply wp_bind_ok; [by apply deref_ok|]. cbv beta.
  do 8 cstep. unfold wp. csimp. rewrite !lget_set_current, !smem_set_current.
  fold (switched p s). rewrite return_to_user_spec by (autorewrite with lens; done).
  csimp. split; [done|]. split; [done|]. split; [done|]. unfold in_user. csimp. fold (switched p s).
  assert (forall x n, 0 <= n < 64 -> Z.testbit (u64 x) n = Z.testbit x n) as Hx.
  { intros x n Hn. apply Z.mod_pow2_bits_low. lia. }
  split_and!; try done.
  - apply u64_small, ld64_range.
  - by rewrite Hx, Z.lor_spec, Z.land_spec, andb_false_r by lia.
  - by rewrite Hx, Z.lor_spec, orb_true_r by lia.
Qed.

(** It changes the machine and [current]. *)
Lemma switch_to_machine {A} i p s :
  procs s !! i = Some p -> ram_page (trapframe p) -> length (gpr (lget s)) = 31%nat ->
  wp (@switch_to K A (Some i)) (fun _ _ => False)
    (fun _ s' => s' = lput (lget s' : machine) (set_current (Some i) s)) s.
Proof.
  intros Hi Hp Hg. unfold switch_to.
  change (bool_decide (is_Some (Some i))) with true.
  do 3 cstep. eapply wp_bind_ok; [by apply deref_ok|]. cbv beta.
  do 8 cstep. unfold wp. rewrite return_to_user_spec by (autorewrite with lens; done).
  unfold put_gpr, put_csr, put_mem. autorewrite with lens. done.
Qed.
End Switch.

(** ** schedule *)

(** A process that schedule may leave behind when it shuts the machine down. *)
Definition finished (p : process) : Prop := status p = FREE \/ status p = ZOMBIE.

#[export] Instance finished_dec p : Decision (finished p) := _.

(** The console is the only thing printing changes. *)
Definition same_but_console (s s' : kstate) : Prop :=
  kvars s' = kvars s /\ smem s' = smem s /\
  (forall c, csr c (lget s') = csr c (lget s)) /\ gpr (lget s') = gpr (lget s).

#[export] Instance same_but_console_preorder : PreOrder same_but_console.
Proof.
  split; [by intros s|]. intros s1 s2 s3 (H1 & H2 & H3 & H4) (H5 & H6 & H7 & H8).
  split_and!; [congruence|congruence| |congruence]. intros c. by rewrite H7.
Qed.

Lemma same_but_console_write bs s : same_but_console s (write_stderr bs s).
Proof. done. Qed.

Lemma scan_procs_spec n : forall i b s,
  (i + n <= length (procs s))%nat ->
  wp (scan_procs n i b) (fun r s' => same_but_console s s' /\
    r = b && bool_decide (Forall finished (take n (drop i (procs s))))) never s.
Proof.
  induction n as [|n IH]; intros i b s Hlen.
  { apply wp_ret. split; [done|]. by rewrite take_0, andb_true_r. }
  cbn [scan_procs]. destruct (lookup_lt_is_Some_2 (procs s) i) as [p Hp]; [lia|].
  eapply wp_bind_ok; [by apply deref_ok|]. cbv beta.
  rewrite (drop_S _ _ _ Hp). cbn [take]. rewrite (bool_decide_ext _ _ (Forall_cons _ _ _)).
  rewrite bool_decide_and.
  assert (negb (bool_decide (status p = FREE)) && negb (bool_decide (status p = ZOMBIE)) =
          negb (bool_decide (finished p))) as ->.
  { unfold finished in *. repeat case_bool_decide; simpl; tauto. }
  destruct (bool_decide (finished p)); simpl negb; cbv iota.
  - apply IH. lia.
  - eapply wp_bind_ok; [by apply sprint_eq|]. cbv beta.
    eapply wp_mono; [apply IH; simpl; lia| |done].
    intros r s' [Hs ->]. split; [|by rewrite andb_false_r].
    etransitivity; [|done]. apply same_but_console_write.
Qed.

Section Schedule.
Context {K : Layout}.

(** An empty queue: shutdown when every process is free or a zombie, and a
    panic otherwise. *)
Lemma schedule_empty {A} s :
  ready_queue_head s = None -> length (procs s) = NPROC ->
  wp (@schedule K A) (fun _ _ => False)
     (fun e _ => e = Shutdown (if bool_decide (Forall finished (procs s)) then 0 else -1)) s.
Proof.
  intros Hh Hlen. unfold schedule. eapply wp_bind_ok; [done|]. cbv beta. rewrite Hh.
  do 2 apply wp_bind. eapply wp_mono; [apply scan_procs_spec; lia| |done].
  intros r s' [_ ->]. rewrite drop_0, take_ge, andb_true_l by lia.
  destruct (bool_decide _).
  - eapply wp_bind_ok; [by apply sprint_eq|]. by apply wp_shutdown.
  - by apply wp_panic.
Qed.

(** Otherwise the head of the queue leaves it, if it is ready, and runs. *)
Lemma schedule_next {A} i l p s :
  ready s (i :: l) -> procs s !! i = Some p -> status p = READY ->
  ram_page (trapframe p) -> length (gpr (lget s)) = 31%nat ->
  wp (@schedule K A) (fun _ _ => False) (fun e s' => e = SRet /\
    ready s' l /\ kvars s' = kvars (set_ready_queue_head (queue_next p) (set_current (Some i) s)) /\
    in_user i p (switched p s) s') s.
Proof.
  intros [Hq Hnd] Hi Hst Htf Hg. destruct Hq as (Hh & p' & Hp' & Hq).
  assert (p' = p) as -> by congruence.
  unfold schedule. eapply wp_bind_ok; [done|]. cbv beta. rewrite Hh.
  do 3 cstep. eapply wp_bind_ok; [simpl; rewrite Hh; by apply deref_ok|].
  cbv beta. rewrite Hst. do 2 cstep.
  eapply wp_bind_ok; [by apply sprint_eq|]. cbv beta. simpl current. rewrite Hh.
  eapply wp_mono; [by apply (switch_to_spec i p)|done|].
  intros e s' (-> & Hk & _ & Hu). split; [done|]. split; [|done].
  unfold ready. unfold kvars in Hk. simpl in Hk. injection Hk as -> _ -> _ _.
  split; [done|]. by apply NoDup_cons in Hnd as [_ Hnd].
Qed.

Lemma schedule_assert {A} i l p s :
  ready s (i :: l) -> procs s !! i = Some p -> status p <> READY ->
  wp (@schedule K A) (fun _ _ => False) (fun e _ => e = PowerOff) s.
Proof.
  intros [Hq Hnd] Hi Hst. destruct Hq as (Hh & p' & Hp' & Hq).
  unfold schedule. eapply wp_bind_ok; [done|]. cbv beta. rewrite Hh.
  do 3 cstep. eapply wp_bind_ok; [simpl; rewrite Hh; by apply deref_ok|].
  cbv beta. rewrite bool_decide_false by done. unfold assert_, die, poweroff.
  apply wp_bind. eapply wp_bind_ok; [by apply sprint_eq|]. cbv beta.
  eapply wp_bind_ok; [by apply sprint_eq|]. by apply wp_halt.
Qed.
End Schedule.

(** * Properties *)

(** C19. insert_to_ready_queue, on every ready queue [l]: its loop terminates; a
    process that is in the queue leaves the state as it is; any other one
    becomes READY and the last element, and the other processes keep their
    status. *)
Theorem insert_to_ready_queue_appends i l s p :
  ready s l -> (length l <= NPROC)%nat -> procs s !! i = Some p ->
  exists s', insert_to_ready_queue (Some i) s = Ok tt s' /\
    ready s' (if decide (i ∈ l) then l else l ++ [i]) /\
    (i ∈ l -> s' = write_stderr (insert_msg p) s) /\
    (forall j q, procs s !! j = Some q -> exists q', procs s' !! j = Some q' /\
       status q' = if decide (i ∉ l /\ j = i) then READY else status q).
Proof.
  intros Hr Hlen Hp. set (s1 := write_stderr (insert_msg p) s).
  exists (enqueue i l s1). split_and!.
  - by apply insert_to_ready_queue_spec.
  - by apply (enqueue_ready i l s1 p).
  - intros Hi. unfold enqueue. by rewrite decide_True.
  - intros j q Hq.
    change (procs s) with (procs s1) in Hq.
    destruct (enqueue_proc i l s1 j q Hq) as (q' & ? & _ & ? & _). eauto.
Qed.

(** C20. schedule takes the first process of the queue and enters user mode for
    it: sepc, satp, sscratch and stvec are set from its trap frame and page
    table, sstatus says user mode with interrupts, and the registers are those
    of its trap frame. *)
Theorem schedule_runs_head {K : Layout} {A} i l p s :
  ready s (i :: l) -> procs s !! i = Some p -> status p = READY ->
  ram_page (trapframe p) -> length (gpr (lget s)) = 31%nat ->
  wp (@schedule K A) (fun _ _ => False) (fun e s' => e = SRet /\
    ready s' l /\ kvars s' = kvars (set_ready_queue_head (queue_next p) (set_current (Some i) s)) /\
    in_user i p (switched p s) s') s.
Proof. apply schedule_next. Qed.

(** schedule with an empty queue stops the machine: with exit code 0 when
    every process is free or a zombie, and through a panic otherwise. *)
Theorem schedule_stops_machine {K : Layout} {A} s :
  ready_queue_head s = None -> length (procs s) = NPROC ->
  wp (@schedule K A) (fun _ _ => False)
     (fun e _ => e = Shutdown (if bool_decide (Forall finished (procs s)) then 0 else -1)) s.
Proof. apply schedule_empty. Qed.
