(* ===== verification/Process.v ===== *)
(** kernel/process.c: the process table, the creation of a process, fork and
    wait. *)
From S2P Require Import Prelude Mem Context CString Snprintf Console Pmm Sv39 Vmm Kstate Sched.

Section Code.
Context `{Layout}.

(** init_proc_pool: the memset of the table, then the loop. *)
Definition init_proc_pool : M kstate unit :=
  modify (set_procs (replicate NPROC zero_process)) ;;;
  for_each (seq 0 NPROC) (fun i =>
    assign (Some i) (set_status FREE) ;;;
    assign (Some i) (set_pid (Z.of_nat i))).

(** The first process, from [i] on, whose status is FREE. *)
Fixpoint find_free (n i : nat) : M kstate nat :=
  match n with
  | O => ret i
  | S n' =>
      p <- deref (Some i) ;;
      if bool_decide (status p = FREE) then ret i else find_free n' (S i)
  end.

(** [procs[i].mapped_info[k] = ...]: the three fields of a region. *)
Definition set_region (info k va npages seg_type : Z) : M kstate unit :=
  store64 (region info k + mr_va) va ;;;
  store32 (region info k + mr_npages) npages ;;;
  store32 (region info k + mr_seg_type) seg_type.

Definition alloc_process : M kstate (option nat) :=
  i <- find_free NPROC 0 ;;
  if (NPROC <=? i)%nat then panic "cannot find any free process structure.
"
  else
  let proc := Some i in
  (* trapframe, used to save context *)
  tf <- zoom alloc_page ;;
  assign proc (set_trapframe tf) ;;;
  memset tf 0 sizeof_trapframe ;;;
  (* page directory *)
  dir <- zoom alloc_page ;;
  assign proc (set_pagetable dir) ;;;
  memset dir 0 PGSIZE ;;;
  stack <- zoom alloc_page ;;
  assign proc (set_kstack (u64 (stack + PGSIZE))) ;;;
  user_stack <- zoom alloc_page ;;
  store64 (tf + tf_sp) USER_STACK_TOP ;;;
  (* allocates a page to record memory regions (segments) *)
  info <- zoom alloc_page ;;
  assign proc (set_mapped_info info) ;;;
  memset info 0 PGSIZE ;;;
  (* map user stack in userspace *)
  zoom (user_vm_map dir (USER_STACK_TOP - PGSIZE) PGSIZE user_stack
          (prot_to_type (Z.lor PROT_WRITE PROT_READ) 1)) ;;;
  set_region info 0 (USER_STACK_TOP - PGSIZE) 1 STACK_SEGMENT ;;;
  (* map trapframe in user space *)
  zoom (user_vm_map dir tf PGSIZE tf (prot_to_type (Z.lor PROT_WRITE PROT_READ) 0)) ;;;
  set_region info 1 tf 1 CONTEXT_SEGMENT ;;;
  (* map S-mode trap vector section in user space *)
  zoom (user_vm_map dir trap_sec_start PGSIZE trap_sec_start
          (prot_to_type (Z.lor PROT_READ PROT_EXEC) 0)) ;;;
  set_region info 2 trap_sec_start 1 SYSTEM_SEGMENT ;;;
  sp <- load64 (tf + tf_sp) ;;
  sprint "in alloc_proc. user frame 0x%lx, user stack 0x%lx, user kstack 0x%lx 
" [VInt tf; VInt sp; VInt (u64 (stack + PGSIZE))] ;;;
  assign proc (set_total_mapped_region 3) ;;;
  ret proc.

Definition free_process (proc : option nat) : M kstate Z :=
  assign proc (set_status ZOMBIE) ;;;
  ret 0.

(** [*dst = *src] for struct trapframe, word by word. *)
Definition copy_trapframe (dst src : Z) : M kstate unit :=
  for_each (range 0 35) (fun k =>
    v <- load64 (src + 8 * k) ;;
    store64 (dst + 8 * k) v).

(** [va & (-1 << 12)] *)
Definition page_of (va : Z) : Z := Z.land va (u64 (Z.shiftl (-1) 12)).

(** do_fork, case STACK_SEGMENT *)
Definition fork_stack (parent child : process) (i : Z) : M kstate unit :=
  va <- load64 (region (mapped_info child) 0 + mr_va) ;;
  dst <- zoom (lookup_pa (pagetable child) va) ;;
  va <- load64 (region (mapped_info parent) i + mr_va) ;;
  src <- zoom (lookup_pa (pagetable parent) va) ;;
  memcpy dst src PGSIZE ;;;
  ret tt.

(** [int] arithmetic: overflow is undefined. *)
Definition int_op (z : Z) : M kstate Z :=
  if (- 2 ^ 31 <=? z) && (z <? 2 ^ 31) then ret z else halt Undefined.

(** do_fork, the page [j] of a data segment; [va] is an [int]. *)
Definition copy_data_page (parent child : process) (i j : Z) : M kstate unit :=
  pa <- zoom alloc_page ;;
  pva <- load64 (region (mapped_info parent) i + mr_va) ;;
  let va := u64 (s32 (u64 (pva + PGSIZE * j))) in
  src <- zoom (lookup_pa (pagetable parent) va) ;;
  memcpy pa src PGSIZE ;;;
  zoom (user_vm_map (pagetable child) va PGSIZE pa
          (prot_to_type (Z.lor PROT_WRITE PROT_READ) 1)).

(** do_fork, case DATA_SEGMENT.  The [int] [j] is compared with an [uint32],
    which is read again in every round. *)
Definition fork_data (parent child : process) (i : Z) : M kstate unit :=
  pva <- load64 (region (mapped_info parent) i + mr_va) ;;
  store64 (region (mapped_info child) i + mr_va) pva ;;;
  loop (Z.to_pos (2 ^ 31 + 1)) (fun j =>
    npages <- load32 (region (mapped_info parent) i + mr_npages) ;;
    if u32 j <? npages then
      copy_data_page parent child i j ;;;
      j <- int_op (j + 1) ;;
      ret (inl j)
    else ret (inr tt)) 0.

(** do_fork, case CODE_SEGMENT; [c] is the child's place in the table. *)
Definition fork_code (parent child : process) (c : nat) (i : Z) : M kstate unit :=
  pva <- load64 (region (mapped_info parent) i + mr_va) ;;
  pa <- zoom (lookup_pa (pagetable parent) pva) ;;
  zoom (user_vm_map (pagetable child) (page_of pva) PGSIZE pa
          (prot_to_type (Z.lor PROT_EXEC PROT_READ) 1)) ;;;
  pa <- zoom (lookup_pa (pagetable parent) pva) ;;
  sprint "do_fork map code segment at pa:%lx of parent to child at va:%lx.
" [VInt pa; VInt (page_of pva)] ;;;
  n <- load32 (region (mapped_info parent) i + mr_npages) ;;
  set_region (mapped_info child) (total_mapped_region child) pva n CODE_SEGMENT ;;;
  assign (Some c) (set_total_mapped_region (total_mapped_region child + 1)).

(** The body of do_fork's loop.  The processes are read again for every
    region, since [child->total_mapped_region] changes. *)
Definition fork_region (parent : option nat) (c : nat) (i : Z) : M kstate unit :=
  pp <- deref parent ;;
  cp <- deref (Some c) ;;
  t <- load32 (region (mapped_info pp) i + mr_seg_type) ;;
  if t =? CONTEXT_SEGMENT then copy_trapframe (trapframe cp) (trapframe pp)
  else if t =? STACK_SEGMENT then fork_stack pp cp i
  else if t =? DATA_SEGMENT then fork_data pp cp i
  else if t =? CODE_SEGMENT then fork_code pp cp c i
  else ret tt.

Definition do_fork (parent : option nat) : M kstate Z :=
  pp <- deref parent ;;
  sprint "will fork a child from parent %d.
" [VInt (pid pp)] ;;;
  child <- alloc_process ;;
  match child with
  | None => halt (BadAccess 0)
  | Some c =>
      pp <- deref parent ;;
      for_each (range 0 (total_mapped_region pp)) (fork_region parent c) ;;;
      assign child (set_status READY) ;;;
      cp <- deref child ;;
      store64 (trapframe cp + tf_a0) 0 ;;;
      assign child (set_parent parent) ;;;
      insert_to_ready_queue child ;;;
      cp <- deref child ;;
      ret (s32 (pid cp))
  end.

(** The first loop of wait: the value of [flag] at its end.  [pid] is an
    [int], compared as an unsigned 64-bit integer. *)
Definition is_child (cur : option nat) (np : process) : bool :=
  bool_decide (parent np <> None) && bool_decide (parent np = cur).

Fixpoint wait_flag (ps : list process) (cur : option nat) (pid_arg flag : Z) : Z :=
  match ps with
  | [] => flag
  | np :: ps' =>
      wait_flag ps' cur pid_arg
        (if is_child cur np && (pid np =? u64 pid_arg) then 1
         else if is_child cur np then 0 else flag)
  end.

(** The loop after schedule().  Nothing changes while it spins: one round
    without a result means that it never returns. *)
Definition wait_poll (pid_arg flag : Z) : M kstate Z :=
  loop 1 (fun _ : unit =>
    s <- get_st ;;
    let zombies := filter (fun np => is_child (current s) np = true /\ status np = ZOMBIE)
                          (procs s) in
    if pid_arg =? -1 then
      ret match zombies with np :: _ => inr (s32 (pid np)) | [] => inl tt end
    else if (0 <? pid_arg) && (flag =? 1) then
      ret match filter (fun np => pid np = u64 pid_arg) zombies with
          | _ :: _ => inr pid_arg
          | [] => inl tt
          end
    else ret (inr (-1))) tt.

Definition wait (pid_arg : Z) : M kstate Z :=
  s <- get_st ;;
  let flag := wait_flag (procs s) (current s) pid_arg (-1) in
  if flag =? -1 then ret (-1)
  else
    assign (current s) (set_status READY) ;;;
    insert_to_ready_queue (current s) ;;;
    (schedule : M kstate unit) ;;;
    wait_poll pid_arg flag.
End Code.
