(* ===== verification/NewProc.v ===== *)
(** alloc_process of kernel/process.c at the level of memory: the address
    space, the trap frame and the table of regions of a new process. *)
From S2P Require Import Prelude Mem Context CString Snprintf Console Pmm Sv39 Vmm Space Kstate Sched Process.

(** ** Regions *)

(** The memory after set_region. *)
Definition region_mem (m : memory) (info k va npages seg_type : Z) : memory :=
  st32 (st32 (st64 m (region info k + mr_va) va) (region info k + mr_npages) npages)
    (region info k + mr_seg_type) seg_type.

(** What region [k] of the table at [info] holds. *)
Definition region_at (m : memory) (info k : Z) : Z * Z * Z :=
  (ld64 m (region info k + mr_va), ld32 m (region info k + mr_npages),
   ld32 m (region info k + mr_seg_type)).

Lemma region_mem_at m info k k' va n t :
  0 <= va < 2 ^ 64 -> 0 <= n < 2 ^ 32 -> 0 <= t < 2 ^ 32 ->
  region_at (region_mem m info k va n t) info k' =
  if decide (k' = k) then (va, n, t) else region_at m info k'.
Proof.
  intros Hva Hn Ht. unfold region_at, region_mem, region, mr_va, mr_npages, mr_seg_type.
  case_decide as Hk; [subst k'|].
  - rewrite loadn_storen, !(loadn_storen_ne 4), loadn_storen, loadn_storen by lia.
    change (8 * Z.of_nat 8) with 64. change (8 * Z.of_nat 4) with 32.
    by rewrite !Z.mod_small by lia.
  - by rewrite !(loadn_storen_ne 4), !(loadn_storen_ne 8) by lia.
Qed.

Lemma region_mem_same_on m info k va n t lo hi :
  hi <= region info k \/ region info k + 16 <= lo ->
  same_on lo hi (region_mem m info k va n t) m.
Proof.
  intros H. unfold region_mem, mr_va, mr_npages, mr_seg_type.
  do 2 (etransitivity; [apply storen_same_on; lia|]). apply storen_same_on; lia.
Qed.

(** ** Rules for the state of the kernel *)

Lemma only_mm_kvars (s s' : kstate) : only_mm s s' -> kvars s' = kvars s.
Proof. intros H. by rewrite H. Qed.

Section Steps.
Context {A : Type} (Q : A -> kstate -> Prop) (E : stop -> kstate -> Prop).
Context (s : kstate) (m : memory) (root : Z) (taken l : list Z) (f : Z -> Z).
Hypothesis HS : aspace (kmm s) m root taken l f.

(** The other variables are those of [s0], up to the process [i]. *)
Lemma kp_assign i g F (s0 : kstate) (k : unit -> M kstate A) :
  is_Some (procs s !! i) -> kvars s = kvars (upd_proc i F s0) ->
  (forall s', aspace (kmm s') m root taken l f ->
     kvars s' = kvars (upd_proc i (fun p => g (F p)) s0) -> wp (k tt) Q E s') ->
  wp (bind (assign (Some i) g) k) Q E s.
Proof.
  intros [pr Hi] Hk Hw. eapply wp_bind_ok; [by eapply assign_ok|]. cbv beta. apply Hw; [done|].
  rewrite <- (upd_proc_upd_proc i g F s0). unfold kvars in *. simpl in *.
  injection Hk as E1 E2 E3 E4 E5. by rewrite E1, E2, E3, E4, E5.
Qed.

Lemma kp_region info i va n t (k : unit -> M kstate A) :
  private info root taken l -> 0 <= i < 256 ->
  (forall s', only_mm s s' -> aspace (kmm s') (region_mem m info i va n t) root taken l f ->
     wp (k tt) Q E s') ->
  wp (bind (set_region info i va n t) k) Q E s.
Proof.
  intros Hp Hi Hk. unfold set_region. apply wp_assoc.
  unfold region, mr_va, mr_npages, mr_seg_type in *.
  eapply (sp_store (L := lens_k_mm) _ _ _ _ _ _ _ _ HS); [exact Hp|consts; lia..|]. intros s1 Ho1 H1.
  apply wp_assoc. eapply (sp_store (L := lens_k_mm) _ _ _ _ _ _ _ _ H1); [exact Hp|consts; lia..|]. intros s2 Ho2 H2.
  eapply (sp_store (L := lens_k_mm) _ _ _ _ _ _ _ _ H2); [exact Hp|consts; lia..|]. intros s3 Ho3 H3.
  apply Hk; [|exact H3]. do 2 (etransitivity; [eassumption|]). done.
Qed.
End Steps.

(** ** alloc_process *)

Lemma find_free_first n k i s pr :
  (forall j p, (j < i)%nat -> procs s !! j = Some p -> status p <> FREE) ->
  (i <= length (procs s))%nat -> procs s !! i = Some pr -> status pr = FREE ->
  (k <= i < k + n)%nat -> find_free n k s = Ok i s.
Proof.
  intros Hj Hlen Hi Hs. revert k. induction n as [|n IH]; intros k Hk; [lia|]. cbn [find_free].
  destruct (lookup_lt_is_Some_2 (procs s) k) as [p Hp].
  { apply lookup_lt_Some in Hi. lia. }
  erewrite bind_step by (by apply deref_ok). destruct (decide (k = i)) as [->|Hne].
  - assert (p = pr) as -> by congruence. by rewrite bool_decide_true.
  - rewrite bool_decide_false by (apply (Hj k); [lia|done]). apply IH. lia.
Qed.

(** The flags of the three mappings of a new process. *)
Definition stack_perm : Z := prot_to_type (Z.lor PROT_WRITE PROT_READ) 1.
Definition frame_perm : Z := prot_to_type (Z.lor PROT_WRITE PROT_READ) 0.
Definition trap_perm : Z := prot_to_type (Z.lor PROT_READ PROT_EXEC) 0.

Section Alloc.
Context {K : Layout} {KO : LayoutOk K}.

(** The mappings: the user stack, the trap frame and the trap vector. *)
Definition new_entries (tf ustack : Z) : Z -> Z :=
  map_entry (map_entry (map_entry (fun _ => 0)
    (USER_STACK_TOP - PGSIZE) ustack stack_perm) tf tf frame_perm)
    trap_sec_start trap_sec_start trap_perm.

(** The pages of the trap frame, of the page directory and of the regions. *)
Definition new_mem (m : memory) (tf dir info : Z) : memory :=
  let zeros p n m := store_bytes m p (replicate (Z.to_nat n) Byte.x00) in
  let m := zeros dir PGSIZE (zeros tf sizeof_trapframe m) in
  let m := zeros info PGSIZE (st64 m (tf + tf_sp) USER_STACK_TOP) in
  let m := region_mem m info 0 (USER_STACK_TOP - PGSIZE) 1 STACK_SEGMENT in
  let m := region_mem m info 1 tf 1 CONTEXT_SEGMENT in
  region_mem m info 2 trap_sec_start 1 SYSTEM_SEGMENT.

Definition new_process (tf dir stack info : Z) (p : process) : process :=
  Process (u64 (stack + PGSIZE)) dir tf info 3 (pid p) (status p) (parent p) (queue_next p)
    (tick_count p).

Lemma kmm_zeroed p (s : kstate) : kmm (zeroed p s) = zeroed p (kmm s).
Proof. done. Qed.

Lemma smem_zeroed p (t : mm) :
  smem (zeroed p t) = store_bytes (smem t) p (replicate (Z.to_nat PGSIZE) Byte.x00).
Proof. done. Qed.

(** Until the page directory exists. *)
Lemma alloc_frame_dir {A} tf dir l i (k : Z -> Z -> M kstate A) Q E s pr :
  pmm_free (kmm s) (tf :: dir :: l) -> procs s !! i = Some pr ->
  (forall s', kvars s' = kvars (upd_proc i (fun p => set_pagetable dir (set_trapframe tf p)) s) ->
     let zeros p n m := store_bytes m p (replicate (Z.to_nat n) Byte.x00) in
     aspace (kmm s') (zeros dir PGSIZE (zeros tf sizeof_trapframe (smem s))) dir [] l (fun _ => 0) ->
     same_range (kmm s) (kmm s') -> private tf dir [] l -> wp (k tf dir) Q E s') ->
  wp (tf <- zoom alloc_page ;;
      assign (Some i) (set_trapframe tf) ;;;
      memset tf 0 sizeof_trapframe ;;;
      dir <- zoom alloc_page ;;
      assign (Some i) (set_pagetable dir) ;;;
      memset dir 0 PGSIZE ;;;
      k tf dir) Q E s.
Proof.
  intros Hf Hi Hk. destruct (alloc_page_cons _ _ _ Hf) as (Ea & Hf1 & Em1).
  destruct (pmm_free_page _ _ _ Hf) as (Hr & Hn & _).
  eapply wp_bind_ok; [unfold zoom; cbn [lget lens_k_mm]; by rewrite Ea|]. cbv beta.
  set (s1 := lput _ s). eapply wp_bind_ok; [by eapply (assign_ok i pr)|]. cbv beta.
  assert (0 <= sizeof_trapframe) as H0 by done.
  eapply wp_bind_ok.
  { apply memset_spec; [done|]. destruct Hr as (_ & ? & ?). unfold ram_range, sizeof_trapframe.
    consts. lia. }
  cbv beta. set (s2 := upd_proc i (set_trapframe tf) s1). set (m1 := store_bytes _ tf _).
  assert (pmm_free (put_mem m1 (kmm s2)) (dir :: l)) as Hf2.
  { apply pmm_free_frame; [exact Hf1|]. intros q Hq. unfold m1. symmetry.
    assert (q <> tf) as Hne by (intros ->; done).
    assert (ram_page q) as [Hqa _].
    { destruct Hf1 as (_ & _ & Hm). rewrite Forall_forall in Hm. by apply Hm. }
    apply store_bytes_same_on. rewrite length_replicate.
    destruct (page_disjoint tf q (proj1 Hr) Hqa) as [?|?]; [done|unfold sizeof_trapframe; consts; lia..]. }
  set (s3 := put_mem m1 s2). change (put_mem m1 (kmm s2)) with (kmm s3) in Hf2.
  destruct (alloc_page_cons _ _ _ Hf2) as (Ea2 & Hf3 & Em3).
  destruct (pmm_free_page _ _ _ Hf2) as (Hr2 & Hn2 & _).
  eapply wp_bind_ok; [unfold zoom; cbn [lget lens_k_mm]; by rewrite Ea2|]. cbv beta.
  set (s4 := lput _ s3).
  assert (procs s4 !! i = Some (set_trapframe tf pr)) as Hi4.
  { change (procs s4) with (procs s2). by apply procs_upd. }
  eapply wp_bind_ok; [by eapply assign_ok|]. cbv beta.
  eapply wp_bind_ok; [by apply memset_page|]. cbv beta.
  destruct (zeroed_root (alloc_state (kmm s3)) dir l Hf3 Hr2 Hn2) as (HI & Ht & He).
  apply Hk.
  - rewrite <- (upd_proc_upd_proc i (set_pagetable dir) (set_trapframe tf) s). done.
  - rewrite kmm_zeroed. change (kmm (upd_proc i (set_pagetable dir) s4)) with (alloc_state (kmm s3)).
    split; [exact HI|intros p; rewrite elem_of_nil, Ht; tauto|by intros va _; apply He|].
    intros z _ _ _. by rewrite smem_zeroed.
  - rewrite kmm_zeroed. by unfold zeroed.
  - apply not_elem_of_cons in Hn as [Hne Hn].
    split; [exact Hr|exact Hne|apply not_elem_of_nil|exact Hn].
Qed.

Lemma page_index_ne p q : page_aligned p -> page_aligned q -> p <> q -> p / PGSIZE <> q / PGSIZE.
Proof. unfold page_aligned. consts. dlia. Qed.

(** The page of the trap vector is in the text of the kernel, below the pages of
    the allocator; the trap frame is one of them, and user stacks are below
    both. *)
Definition new_pages (tf : Z) : Prop :=
  tf / PGSIZE <> (USER_STACK_TOP - PGSIZE) / PGSIZE /\
  trap_sec_start / PGSIZE <> tf / PGSIZE /\
  trap_sec_start / PGSIZE <> (USER_STACK_TOP - PGSIZE) / PGSIZE /\
  0 <= trap_sec_start < MAXVA /\ 0 <= tf < MAXVA.

Lemma new_pages_distinct (t : mm) tf :
  _etext <= free_mem_start_addr t -> managed t tf -> new_pages tf.
Proof.
  unfold new_pages. intros He [(Ha & Hlo & Hhi) [Hm _]]. pose proof KO as [_ _ Ht [Ht1 Ht2] Hee Het].
  change MAXVA with 0x4000000000. unfold page_aligned, USER_STACK_TOP in *. consts. split_and!; dlia.
Qed.

Lemma kvars_proc (s s' : kstate) i F :
  kvars s' = kvars (upd_proc i F s) -> is_Some (procs s !! i) -> is_Some (procs s' !! i).
Proof.
  intros Hk [p Hp]. injection Hk as -> _ _ _ _. simpl. rewrite list_lookup_alter_eq, Hp. by eexists.
Qed.

(** The three mappings and their regions. *)
Lemma alloc_maps {A} (s : kstate) m tf dir ustack info l (k : M kstate A) Q E :
  aspace (kmm s) m dir [] l (fun _ => 0) -> private tf dir [] l -> private info dir [] l ->
  ram_page ustack -> new_pages tf -> (6 < length l)%nat ->
  (forall s' taken l', only_mm s s' -> l = taken ++ l' -> (length taken <= 6)%nat ->
     private tf dir taken l' -> private info dir taken l' ->
     aspace (kmm s')
       (region_mem (region_mem (region_mem m info 0 (USER_STACK_TOP - PGSIZE) 1 STACK_SEGMENT)
          info 1 tf 1 CONTEXT_SEGMENT) info 2 trap_sec_start 1 SYSTEM_SEGMENT)
       dir taken l' (new_entries tf ustack) -> wp k Q E s') ->
  wp (zoom (user_vm_map dir (USER_STACK_TOP - PGSIZE) PGSIZE ustack stack_perm) ;;;
      set_region info 0 (USER_STACK_TOP - PGSIZE) 1 STACK_SEGMENT ;;;
      zoom (user_vm_map dir tf PGSIZE tf frame_perm) ;;;
      set_region info 1 tf 1 CONTEXT_SEGMENT ;;;
      zoom (user_vm_map dir trap_sec_start PGSIZE trap_sec_start trap_perm) ;;;
      set_region info 2 trap_sec_start 1 SYSTEM_SEGMENT ;;;
      k) Q E s.
Proof.
  intros H0 Ptf Pin Hus (Hd1 & Hd2 & Hd3 & Htr & Htr') Hl Hk.
  pose proof trap_sec_page as Htrp. pose proof (pv_ram _ _ _ _ Ptf) as (Htf & Htf1 & Htf2).
  destruct Hus as (Hus & Hus1 & Hus2).
  assert (0 <= ustack < 2 ^ 56 /\ 0 <= tf < 2 ^ 56 /\ 0 <= trap_sec_start < 2 ^ 56) as (Hb1 & Hb2 & Hb3).
  { change MAXVA with 0x4000000000 in *. consts. lia. }
  apply (sp_map (L := lens_k_mm) _ _ _ _ _ s _ _ _ _ _ _ H0); [done..|lia|].
  intros s1 t1 l1 Ho1 -> Ht1 H1. simpl app in H1. rewrite length_app in Hl.
  apply (private_grow _ _ _ _ _ _ eq_refl) in Ptf, Pin.
  apply (kp_region _ _ s1 _ _ _ _ _ H1); [exact Pin|lia|]. clear H1. intros s2 Ho2 H2.
  apply (sp_map (L := lens_k_mm) _ _ _ _ _ s2 _ _ _ _ _ _ H2);
    [done..|unfold map_entry; by rewrite decide_False|lia|].
  intros s3 t2 l2 Ho3 -> Ht2 H3. clear H2. rewrite length_app in Hl.
  apply (private_grow _ _ _ _ _ _ eq_refl) in Ptf, Pin.
  apply (kp_region _ _ s3 _ _ _ _ _ H3); [exact Pin|lia|]. clear H3. intros s4 Ho4 H4.
  apply (sp_map (L := lens_k_mm) _ _ _ _ _ s4 _ _ _ _ _ _ H4);
    [done..|unfold map_entry; by rewrite !decide_False|lia|].
  intros s5 t3 l3 Ho5 -> Ht3 H5. clear H4.
  apply (private_grow _ _ _ _ _ _ eq_refl) in Ptf, Pin.
  apply (kp_region _ _ s5 _ _ _ _ _ H5); [exact Pin|lia|]. clear H5. intros s6 Ho6 H6.
  apply (Hk s6 (t1 ++ t2 ++ t3) l3); rewrite ?app_assoc; try done.
  - do 5 (etransitivity; [eassumption|]). exact Ho6.
  - rewrite !length_app. lia.
Qed.
Lemma alloc_process_spec s i pr tf dir stack ustack info l :
  length (procs s) = NPROC ->
  (forall j p, (j < i)%nat -> procs s !! j = Some p -> status p <> FREE) ->
  procs s !! i = Some pr -> status pr = FREE ->
  pmm_free (kmm s) (tf :: dir :: stack :: ustack :: info :: l) -> (6 < length l)%nat ->
  _etext <= free_mem_start_addr (kmm s) ->
  wp alloc_process (fun r s' => r = Some i /\
    kvars s' = kvars (upd_proc i (new_process tf dir stack info) s) /\
    exists taken l', l = taken ++ l' /\ (length taken <= 6)%nat /\
      aspace (kmm s') (new_mem (smem s) tf dir info) dir taken l' (new_entries tf ustack)) never s.
Proof.
  intros Hlen Hfirst Hi Hst Hf Hl Hetext. unfold alloc_process.
  pose proof (lookup_lt_Some _ _ _ Hi) as Hlt. rewrite Hlen in Hlt.
  eapply wp_bind_ok; [eapply (find_free_first NPROC 0 i s pr); [exact Hfirst|lia|exact Hi|exact Hst|lia]|].
  cbv beta. destruct (Nat.leb_spec NPROC i) as [|_]; [lia|].
  pose proof Hf as (_ & _ & Hman). apply Forall_cons in Hman as [Htf _].
  pose proof (new_pages_distinct _ _ Hetext Htf) as Hd. clear Htf.
  assert (is_Some (procs s !! i)) as Hsi by eauto.
  eapply (alloc_frame_dir tf dir); [exact Hf|exact Hi|]. intros s1 Hk1 zeros H1 Hr1 Ptf.
  apply (sp_alloc (L := lens_k_mm) stack _ _ s1 _ _ _ _ _ _ H1).
  intros s2 Ho2 H2 _ _. clear H1. apply private_tail in Ptf.
  pose proof (eq_trans (only_mm_kvars _ _ Ho2) Hk1) as Hk2.
  eapply (kp_assign _ _ s2 _ _ _ _ _ H2 i _ _ s _ (kvars_proc _ _ _ _ Hk2 Hsi) Hk2).
  clear Hk2. intros s3 H3 Hk3.
  apply (sp_alloc (L := lens_k_mm) ustack _ _ s3 _ _ _ _ _ _ H3).
  intros s4 Ho4 H4 Pus _. clear H2 H3. apply private_tail in Ptf.
  apply (sp_store (L := lens_k_mm) _ _ s4 _ _ _ _ _ H4 8 _ _ tf); [exact Ptf|unfold tf_sp; consts; lia..|].
  intros s5 Ho5 H5. clear H4. apply (sp_alloc (L := lens_k_mm) info _ _ s5 _ _ _ _ _ _ H5).
  intros s6 Ho6 H6 Pin _. clear H5. apply private_tail in Ptf.
  assert (kvars s6 = kvars s3) as Hk6.
  { do 2 (etransitivity; [by apply only_mm_kvars|]). by apply only_mm_kvars. }
  rewrite Hk3 in Hk6.
  eapply (kp_assign _ _ s6 _ _ _ _ _ H6 i _ _ s _ (kvars_proc _ _ _ _ Hk6 Hsi) Hk6).
  clear Hk6 Hk3. intros s7 H7 Hk7.
  apply (sp_memset (L := lens_k_mm) _ _ s7 _ _ _ _ _ H7 info); [exact Pin|].
  intros s8 Ho8 H8. clear H6 H7.
  pose proof (eq_trans (only_mm_kvars _ _ Ho8) Hk7) as Hk8. clear Ho8 Hk7 s7.
  apply (alloc_maps _ _ tf dir ustack info l _ _ _ H8); [exact Ptf|exact Pin|apply Pus|exact Hd|exact Hl|].
  intros s9 taken l' Ho9 El Hlt' Ptf' Pin' H9. pose proof (eq_trans (only_mm_kvars _ _ Ho9) Hk8) as Hk9.
  clear H8 Ho9 Hk8 Ptf Pin. destruct Ptf' as [Htfr Htf1 Htf2 _].
  apply (sp_load (L := lens_k_mm) _ _ s9 _ _ _ _ _ H9 8 _ tf); [done..|unfold tf_sp; consts; lia|
    unfold tf_sp; consts; lia|].
  apply (sp_print (L := lens_k_mm) _ _ s9 _ _ _ _ _ H9); [reflexivity|]. intros s10 Ho10 H10.
  pose proof (eq_trans (only_mm_kvars _ _ Ho10) Hk9) as Hk10.
  eapply (kp_assign _ _ s10 _ _ _ _ _ H10 i _ _ s _ (kvars_proc _ _ _ _ Hk10 Hsi) Hk10).
  intros s11 H11 Hk11. apply wp_ret. split; [done|]. split; [exact Hk11|].
  exists taken, l'. split; [exact El|]. split; [exact Hlt'|exact H11].
Qed.

Lemma region_at_same m m' info k :
  0 <= k < 256 -> same_page info m m' -> region_at m' info k = region_at m info k.
Proof.
  intros Hk Hs.
  assert (forall n o, 0 <= o -> o + Z.of_nat n <= PGSIZE -> loadn n m' (info + o) = loadn n m (info + o))
    as Hl.
  { intros n o H1 H2. apply loadn_same_on. symmetry. eapply same_on_sub; [| |exact Hs]; lia. }
  unfold region_at, region, mr_va, mr_npages, mr_seg_type. rewrite <- !Z.add_assoc.
  by rewrite !Hl by (consts; lia).
Qed.

(** What is in the pages of a new process. *)
Lemma new_mem_regions m tf dir info k :
  ram_page tf -> 0 <= k < 256 ->
  region_at (new_mem m tf dir info) info k =
  if decide (k = 0) then (USER_STACK_TOP - PGSIZE, 1, STACK_SEGMENT)
  else if decide (k = 1) then (tf, 1, CONTEXT_SEGMENT)
  else if decide (k = 2) then (trap_sec_start, 1, SYSTEM_SEGMENT)
  else (0, 0, 0).
Proof.
  intros (_ & Ht1 & Ht2) Hk. unfold new_mem. cbv zeta. pose proof trap_sec_range as [Hr1 Hr2].
  pose proof etext_end as Hr3. pose proof end_top as Hr4.
  rewrite !region_mem_at 
    by (unfold SYSTEM_SEGMENT, CONTEXT_SEGMENT, STACK_SEGMENT, USER_STACK_TOP; consts; lia).
  destruct (decide (k = 0)) as [->|]; [reflexivity|].
  destruct (decide (k = 1)) as [->|]; [reflexivity|].
  destruct (decide (k = 2)) as [->|]; [reflexivity|].
  unfold region_at, region, mr_va, mr_npages, mr_seg_type. rewrite <- !Z.add_assoc.
  rewrite !loadn_zeros by (consts; lia). done.
Qed.

Lemma new_mem_frame m tf dir info k :
  ram_page tf -> ram_page info -> ram_page dir -> tf <> info -> tf <> dir -> 0 <= k < 35 ->
  ld64 (new_mem m tf dir info) (tf + 8 * k) = if decide (k = 1) then USER_STACK_TOP else 0.
Proof.
  intros (Ht & _) (Hi & _) (Hd & _) Hne Hned Hk. unfold new_mem. cbv zeta.
  assert (forall m1 m2, same_page tf m1 m2 -> ld64 m1 (tf + 8 * k) = ld64 m2 (tf + 8 * k)) as Hl.
  { intros m1 m2 Hs. apply loadn_same_on. eapply same_on_sub; [| |exact Hs]; consts; lia. }
  destruct (page_disjoint tf info Ht Hi Hne) as [Hdis|Hdis];
  destruct (page_disjoint tf dir Ht Hd Hned) as [Hdis'|Hdis'].
  all: rewrite (Hl _ (st64 (store_bytes (store_bytes m tf (replicate (Z.to_nat sizeof_trapframe) Byte.x00))
        dir (replicate (Z.to_nat PGSIZE) Byte.x00)) (tf + tf_sp) USER_STACK_TOP));
    [|do 3 (etransitivity; [apply region_mem_same_on; unfold region; consts; lia|]);
      apply store_bytes_same_on; rewrite length_replicate; consts; lia].
  all: unfold tf_sp; case_decide; [subst k; by rewrite loadn_storen|].
  all: rewrite loadn_storen_ne by lia.
  all: rewrite (loadn_same_on _ _ (store_bytes m tf (replicate (Z.to_nat sizeof_trapframe) Byte.x00)))
    by (apply store_bytes_same_on; rewrite length_replicate; consts; lia).
  all: apply loadn_zeros; unfold sizeof_trapframe; lia.
Qed.
End Alloc.

(** * Properties *)

(** C40. alloc_process takes the first free process structure and builds its
    address space: five pages and at most six tables leave the allocator; the
    page table maps exactly the user stack, the trap frame and the trap
    vector, the last two without the U bit; the table of regions records the
    three mappings and nothing else; the trap frame is zero but for sp.
    Eleven free pages, and one more, are enough. *)
Theorem alloc_process_builds {K : Layout} {KO : LayoutOk K} s i pr tf dir stack ustack info l :
  length (procs s) = NPROC ->
  (forall j p, (j < i)%nat -> procs s !! j = Some p -> status p <> FREE) ->
  procs s !! i = Some pr -> status pr = FREE ->
  pmm_free (kmm s) (tf :: dir :: stack :: ustack :: info :: l) -> (6 < length l)%nat ->
  _etext <= free_mem_start_addr (kmm s) ->
  wp alloc_process (fun r s' => r = Some i /\
    kvars s' = kvars (upd_proc i (new_process tf dir stack info) s) /\
    (exists taken l', l = taken ++ l' /\ (length taken <= 6)%nat /\ vm_inv (kmm s') dir l') /\
    (forall va, 0 <= va < 2 ^ 39 -> entry (smem s') dir va = new_entries tf ustack va) /\
    (forall k, 0 <= k < 256 -> region_at (smem s') info k =
       if decide (k = 0) then (USER_STACK_TOP - PGSIZE, 1, STACK_SEGMENT)
       else if decide (k = 1) then (tf, 1, CONTEXT_SEGMENT)
       else if decide (k = 2) then (trap_sec_start, 1, SYSTEM_SEGMENT)
       else (0, 0, 0)) /\
    (forall k, 0 <= k < 35 ->
       ld64 (smem s') (tf + 8 * k) = if decide (k = 1) then USER_STACK_TOP else 0)) never s.
Proof.
  intros Hlen Hfirst Hi Hst Hf Hl He. pose proof Hf as (_ & Hnd & Hman).
  assert (Forall ram_page (tf :: dir :: stack :: ustack :: info :: l)) as Hram.
  { eapply Forall_impl; [exact Hman|]. by intros p [Hp _]. }
  apply Forall_cons in Hram as [Htf Hram]. apply Forall_cons in Hram as [Hdir Hram].
  do 2 (apply Forall_cons in Hram as [_ Hram]). apply Forall_cons in Hram as [Hinfo _].
  assert (tf <> info /\ tf <> dir /\ dir <> info /\ tf ∉ l /\ info ∉ l) as (Hne1 & Hne2 & Hne3 & Hn1 & Hn2).
  { rewrite !NoDup_cons, !not_elem_of_cons in Hnd. naive_solver. }
  eapply wp_mono; [by apply (alloc_process_spec s i pr tf dir stack ustack info l)| |done].
  intros r s' (-> & Hk & taken & l' & El & Htk & [HI _ Hent Hmem]). split; [done|]. split; [done|].
  assert (tf ∉ taken /\ info ∉ taken) as [Ht1 Ht2] by (rewrite El, !not_elem_of_app in *; tauto).
  split; [by exists taken, l'|]. split; [exact Hent|]. split.
  - intros k Hkk. rewrite <- (new_mem_regions (smem s) tf dir info k) by done.
    apply region_at_same; [done|]. apply Hmem; [apply Hinfo|congruence|done].
  - intros k Hkk. rewrite <- (new_mem_frame (smem s) tf dir info k) by done. symmetry.
    apply loadn_same_on. assert (same_page tf (new_mem (smem s) tf dir info) (smem s')) as Hs
      by (apply Hmem; [apply Htf|done|done]).
    eapply same_on_sub; [| |exact Hs]; consts; lia.
Qed.
