(* ===== verification/Vmspace.v ===== *)
(** kernel/vmm.c, [print_proc_vmspace]: what is mapped in the address space of a
    process. *)
From S2P Require Import Prelude Mem Context CString Snprintf Console Pmm Sv39 Vmm Kstate NewProc.

(** [\t] is the character 9. *)
Definition vmspace_fmt : string := Eval vm_compute in
  ("======" ++ String (Ascii.ascii_of_nat 9) ("below is the vm space of process%d" ++
    String (Ascii.ascii_of_nat 9) "========
"))%string.

Section Code.
Context `{Layout}.

Definition print_type (t : Z) : M kstate unit :=
  if t =? CODE_SEGMENT then sprint "type: CODE SEGMENT" []
  else if t =? DATA_SEGMENT then sprint "type: DATA SEGMENT" []
  else if t =? STACK_SEGMENT then sprint "type: STACK SEGMENT" []
  else if t =? CONTEXT_SEGMENT then sprint "type: TRAPFRAME SEGMENT" []
  else if t =? SYSTEM_SEGMENT then sprint "type: USER KERNEL STACK SEGMENT" []
  else ret tt.

Definition print_region (p : process) (i : Z) : M kstate unit :=
  let r := region (mapped_info p) i in
  va <- load64 (r + mr_va) ;;
  n <- load32 (r + mr_npages) ;;
  sprint "-va:%lx, npage:%d, " [VInt va; VInt n] ;;;
  t <- load32 (r + mr_seg_type) ;;
  print_type t ;;;
  va <- load64 (r + mr_va) ;;
  pa <- zoom (lookup_pa (pagetable p) va) ;;
  sprint ", mapped to pa:%lx
" [VInt pa].

Definition print_proc_vmspace (proc : option nat) : M kstate unit :=
  p <- deref proc ;;
  sprint vmspace_fmt [VInt (pid p)] ;;;
  for_each (range 0 (total_mapped_region p)) (print_region p).
End Code.

(** ** What is printed *)

Definition write_all (ls : list (list byte)) (s : kstate) : kstate :=
  foldl (fun s bs => write_stderr bs s) s ls.

Definition type_lines (t : Z) : list (list byte) :=
  if t =? CODE_SEGMENT then [printed "type: CODE SEGMENT" []]
  else if t =? DATA_SEGMENT then [printed "type: DATA SEGMENT" []]
  else if t =? STACK_SEGMENT then [printed "type: STACK SEGMENT" []]
  else if t =? CONTEXT_SEGMENT then [printed "type: TRAPFRAME SEGMENT" []]
  else if t =? SYSTEM_SEGMENT then [printed "type: USER KERNEL STACK SEGMENT" []]
  else [].

(** The page of the first address of a region, in the abstract page table. *)
Definition region_pa (m : memory) (root va : Z) : Z :=
  if MAXVA <=? va then 0 else lookup_val (entry m root va).

Definition region_lines (m : memory) (p : process) (i : Z) : list (list byte) :=
  let '(va, n, t) := region_at m (mapped_info p) i in
  [printed "-va:%lx, npage:%d, " [VInt va; VInt n]] ++ type_lines t ++
  [printed ", mapped to pa:%lx
" [VInt (region_pa m (pagetable p) va)]].

Definition vmspace_title (p : process) : list byte :=
  printed vmspace_fmt [VInt (pid p)].

Section Spec.
Context {K : Layout}.

Lemma write_all_app a b s : write_all (a ++ b) s = write_all b (write_all a s).
Proof. apply foldl_app. Qed.

Lemma write_all_cons l ls s : write_all (l :: ls) s = write_all ls (write_stderr l s).
Proof. done. Qed.

Lemma sprint_title p (s : kstate) :
  sprint vmspace_fmt [VInt (pid p)] s = Ok tt (write_stderr (vmspace_title p) s).
Proof. apply sprint_eq. reflexivity. Qed.

Lemma write_all_vars ls s :
  smem (write_all ls s) = smem s /\ procs (write_all ls s) = procs s.
Proof.
  revert s. induction ls as [|l ls IH]; intros s; [done|]. cbn [write_all foldl].
  destruct (IH (write_stderr l s)) as [E1 E2]. unfold write_all in *. rewrite E1, E2.
  split; [apply smem_write_stderr|done].
Qed.

Lemma print_type_spec t s : print_type t s = Ok tt (write_all (type_lines t) s).
Proof.
  unfold print_type, type_lines.
  repeat match goal with |- context [if ?b then _ else _] => destruct b; [by apply sprint_eq|] end. done.
Qed.

Lemma print_region_spec p i s :
  ram_page (mapped_info p) -> 0 <= i < 256 -> pt_wf (smem s) (pagetable p) ->
  print_region p i s = Ok tt (write_all (region_lines (smem s) p i) s).
Proof.
  intros (_ & Hlo & Hhi) Hi Hwf. unfold print_region, region_lines, region_at.
  set (r := region (mapped_info p) i).
  assert (forall o k, 0 <= o -> o + Z.of_nat k <= 16 -> ram_ok (r + o) (Z.of_nat k) = true) as Hram.
  { intros o k Ho Hk. apply ram_ok_iff. unfold r, region. consts. lia. }
  unfold load. rewrite !write_all_app.
  eapply bind_ok; [by rewrite Hram by (unfold mr_va; lia)|].
  eapply bind_ok; [by rewrite Hram by (unfold mr_npages; lia)|].
  eapply bind_ok; [by apply sprint_eq|].
  eapply bind_ok; [by rewrite Hram by (unfold mr_seg_type; lia)|]. rewrite smem_write_stderr.
  eapply bind_ok; [apply print_type_spec|].
  set (s1 := write_stderr _ s).
  assert (smem (write_all (type_lines (loadn 4 (smem s) (r + mr_seg_type))) s1) = smem s) as Es.
  { rewrite (proj1 (write_all_vars _ _)). unfold s1. apply smem_write_stderr. }
  eapply bind_ok; [by rewrite Hram by (unfold mr_va; lia)|]. rewrite Es.
  set (s2 := write_all (type_lines _) s1) in *.
  assert (zoom (lookup_pa (pagetable p) (loadn 8 (smem s) (r + mr_va))) s2 =
    Ok (region_pa (smem s) (pagetable p) (loadn 8 (smem s) (r + mr_va))) s2) as E.
  { unfold zoom. cbn [lget lens_k_mm]. change (smem s2) with (smem (kmm s2)) in Es.
    rewrite lookup_pa_spec by (by rewrite Es). rewrite Es. by destruct s2. }
  eapply bind_ok; [exact E|]. by apply sprint_eq.
Qed.
End Spec.

(** * Properties *)

(** print_proc_vmspace writes the title and, for each region of the table, its
    address, its number of pages, the name of its type and the page to which the
    abstract page table maps its first address; nothing else changes. *)
Theorem print_proc_vmspace_reports {K : Layout} s j p :
  procs s !! j = Some p -> ram_page (mapped_info p) -> total_mapped_region p <= 256 ->
  pt_wf (smem s) (pagetable p) ->
  print_proc_vmspace (Some j) s =
  Ok tt (write_all (vmspace_title p ::
    flat_map (region_lines (smem s) p) (range 0 (total_mapped_region p))) s).
Proof.
  intros Hp Hr Ht Hwf. unfold print_proc_vmspace.
  eapply bind_ok; [by apply deref_ok|].
  eapply bind_ok; [apply sprint_title|]. rewrite write_all_cons. set (s0 := write_stderr _ s).
  assert (smem s0 = smem s) as E0 by apply smem_write_stderr.
  assert (forall l, Forall (fun i => 0 <= i < 256) l -> forall s', smem s' = smem s ->
    for_each l (print_region p) s' = Ok tt (write_all (flat_map (region_lines (smem s) p) l) s')) as H.
  { induction l as [|i l IH]; intros Hl s' Es; [done|]. apply Forall_cons in Hl as [Hi Hl].
    cbn [for_each flat_map]. rewrite write_all_app.
    eapply bind_ok; [apply print_region_spec; [done|done|by rewrite Es]|]. rewrite Es.
    apply IH; [done|]. by rewrite (proj1 (write_all_vars _ _)). }
  apply H; [|exact E0]. apply Forall_forall. intros i Hi. apply elem_of_seqZ in Hi. lia.
Qed.
