(* ===== verification/Fork.v ===== *)
(** do_fork of kernel/process.c at the level of memory: the address space of
    the child against that of its parent. *)
From S2P Require Import Prelude Mem Context CString Snprintf Console Pmm Sv39 Vmm Space Kstate Sched Process NewProc.

Lemma page_of_down va : 0 <= va < 2 ^ 64 -> page_of va = va / PGSIZE * PGSIZE.
Proof.
  intros Hva. unfold page_of. change (u64 (Z.shiftl (-1) 12)) with (2 ^ 64 - 2 ^ 12).
  change PGSIZE with (2 ^ 12). rewrite <- Z.shiftl_mul_pow2, <- Z.shiftr_div_pow2 by lia.
  apply Z.bits_inj'. intros n Hn.
  rewrite Z.land_spec, Z.shiftl_spec by lia.
  assert (Z.testbit (2 ^ 64 - 2 ^ 12) n = (12 <=? n) && (n <? 64)) as ->.
  { change (2 ^ 64 - 2 ^ 12) with (Z.shiftl (Z.ones 52) 12). rewrite Z.shiftl_spec by lia.
    destruct (Z.leb_spec 12 n); [|by rewrite Z.testbit_neg_r by lia].
    rewrite Z.testbit_ones by lia. destruct (Z.leb_spec 0 (n - 12)), (Z.ltb_spec (n - 12) 52), (Z.ltb_spec n 64); lia || done. }
  destruct (Z.leb_spec 12 n) as [H|H]; cbn [andb].
  - rewrite Z.shiftr_spec by lia. replace (n - 12 + 12) with n by lia.
    destruct (Z.ltb_spec n 64); [by rewrite andb_true_r|].
    rewrite andb_false_r. symmetry.
    rewrite Z.bits_above_log2; [done|lia|].
    destruct (decide (va = 0)) as [->|]; [simpl; lia|].
    apply Z.log2_lt_pow2; [lia|]. eapply Z.lt_le_trans; [apply Hva|]. apply Z.pow_le_mono_r; lia.
  - rewrite andb_false_r. by rewrite Z.testbit_neg_r by lia.
Qed.

(** ** Pages *)

Lemma pages_same (p q : Z) (m : memory) a bs :
  page_aligned p -> page_aligned q -> p <> q -> q <= a -> a + Z.of_nat (length bs) <= q + PGSIZE ->
  same_page p (store_bytes m a bs) m.
Proof.
  intros Hp Hq Hne Hlo Hhi. apply store_bytes_same_on. destruct (page_disjoint p q Hp Hq Hne); lia.
Qed.

Lemma page_bytes_same p m m' :
  same_page p m' m -> load_bytes m' p (Z.to_nat PGSIZE) = load_bytes m p (Z.to_nat PGSIZE).
Proof. intros Hs. apply load_bytes_same_on. by rewrite Z2Nat.id. Qed.

Lemma page_words_same p m m' k :
  same_page p m' m -> 0 <= k < 35 -> ld64 m' (p + 8 * k) = ld64 m (p + 8 * k).
Proof.
  intros Hs Hk. apply loadn_same_on. eapply same_on_sub; [| |exact Hs]; consts; lia.
Qed.

Lemma load_stored_page m p bs :
  Z.of_nat (length bs) = PGSIZE -> load_bytes (store_bytes m p bs) p (Z.to_nat PGSIZE) = bs.
Proof. intros Hl. rewrite <- Hl, Nat2Z.id. apply load_store_bytes. Qed.

(** A segment that the loader has recorded: its address and its type. *)
Abbreviation seg := (Z * Z)%type.

Section Fork.
Context {K : Layout} {KO : LayoutOk K}.
(** The memory and the free pages before the fork, and the page directory of
    the child. *)
Context (m0 : memory) (F0 : list Z) (dir : Z).

(** The address space of the child while it is built: only pages that were
    free are written. *)
Record around (s : kstate) (m : memory) (taken l : list Z) (f : Z -> Z) : Prop := {
  ar_space : aspace (kmm s) m dir taken l f;
  ar_kept : forall z, page_aligned z -> z ∉ F0 -> same_page z m m0;
  ar_dir : dir ∈ F0;
  ar_pages : forall p, p ∈ taken ++ l -> p ∈ F0;
}.

(** A page in use before the fork. *)
Definition kept (q : Z) : Prop := ram_page q /\ q ∉ F0.

Lemma kept_private s m taken l f q :
  around s m taken l f -> kept q -> private q dir taken l.
Proof.
  intros [_ _ Hd Hp] [Hr Hn]. split; [done|by intros ->|intros H; apply Hn, Hp, elem_of_app; auto..].
Qed.

Lemma around_step s s' m m' taken l f :
  around s m taken l f -> aspace (kmm s') m' dir taken l f ->
  (forall z, page_aligned z -> z ∉ F0 -> same_page z m' m) -> around s' m' taken l f.
Proof.
  intros [_ Hk Hd Hp] HS Hs. split; [done| |done|done].
  intros z Hz Hn. etransitivity; [by apply Hs|by apply Hk].
Qed.

Section Rules.
Context {A : Type} (Q : A -> kstate -> Prop) (E : stop -> kstate -> Prop).
Context (s : kstate) (m : memory) (taken l : list Z) (f : Z -> Z).
Hypothesis HA : around s m taken l f.

Lemma fk_load n a q (k : Z -> M kstate A) :
  kept q -> q <= a -> a + Z.of_nat n <= q + PGSIZE ->
  wp (k (loadn n m0 a)) Q E s -> wp (bind (load n a) k) Q E s.
Proof.
  intros Hq Hlo Hhi Hk. pose proof (kept_private _ _ _ _ _ _ HA Hq) as [Hr H1 H2 _].
  apply (sp_load (L := lens_k_mm) _ _ s _ _ _ _ _ (ar_space _ _ _ _ _ HA) n _ q); try done.
  rewrite (loadn_same_on n m m0); [done|].
  eapply same_on_sub; [exact Hlo|exact Hhi|]. apply (ar_kept _ _ _ _ _ HA); [apply Hr|apply Hq].
Qed.

Lemma fk_lookup proot va (k : Z -> M kstate A) :
  pt_wf m0 proot -> (forall p, in_tree m0 proot p -> p ∉ F0) -> va < MAXVA ->
  wp (k (lookup_val (entry m0 proot va))) Q E s ->
  wp (bind (zoom (lookup_pa proot va)) k) Q E s.
Proof.
  intros Hwf Hn Hva Hk.
  destruct (pt_frame m0 (smem (kmm s)) proot) as (Hwf' & _ & He); [|done|].
  { intros p Hp. pose proof (pt_ram _ _ Hwf p Hp) as Hr.
    pose proof (kept_private _ _ _ _ _ p HA (conj Hr (Hn p Hp))) as [_ H1 H2 _].
    etransitivity; [|by apply (as_mem _ _ _ _ _ _ (ar_space _ _ _ _ _ HA)); [apply Hr|..]].
    symmetry. apply (ar_kept _ _ _ _ _ HA); [apply Hr|by apply Hn]. }
  eapply wp_bind_ok; [|exact Hk]. unfold zoom. cbn [lget lens_k_mm].
  rewrite lookup_pa_spec by done. rewrite He. rewrite (proj2 (Z.leb_gt _ _) Hva). by destruct s.
Qed.

Lemma fk_child va (k : Z -> M kstate A) :
  0 <= va < MAXVA -> wp (k (lookup_val (f va))) Q E s ->
  wp (bind (zoom (lookup_pa dir va)) k) Q E s.
Proof.
  intros Hva Hk. destruct (ar_space _ _ _ _ _ HA) as [(Hwf & _) _ He _].
  eapply wp_bind_ok; [|exact Hk]. unfold zoom. cbn [lget lens_k_mm].
  rewrite lookup_pa_spec by done. rewrite He by (change MAXVA with 0x4000000000 in *; lia).
  rewrite (proj2 (Z.leb_gt _ _) (proj2 Hva)). by destruct s.
Qed.

(** Writing to a page [p] of the child. *)
Definition own (p : Z) : Prop := private p dir taken l /\ p ∈ F0.

Lemma own_write p s' a bs :
  own p -> p <= a -> a + Z.of_nat (length bs) <= p + PGSIZE ->
  aspace (kmm s') (store_bytes m a bs) dir taken l f -> around s' (store_bytes m a bs) taken l f.
Proof.
  intros [[[Hpa _] _ _ _] Hp] Hlo Hhi HS. eapply around_step; [exact HA|exact HS|].
  intros z Hz Hn. apply store_bytes_same_on.
  destruct (page_disjoint z p Hz Hpa); [by intros ->|lia..].
Qed.

Lemma fk_store n a v p (k : unit -> M kstate A) :
  own p -> p <= a -> a + Z.of_nat n <= p + PGSIZE ->
  (forall s', kvars s' = kvars s -> around s' (storen n m a v) taken l f -> wp (k tt) Q E s') ->
  wp (bind (store n a v) k) Q E s.
Proof.
  intros Ho Hlo Hhi Hk.
  apply (sp_store (L := lens_k_mm) _ _ s _ _ _ _ _ (ar_space _ _ _ _ _ HA) n a v p); [apply Ho|done|done|].
  intros s' Hs HS. apply Hk; [by apply only_mm_kvars|].
  apply (own_write p); [done|done|by rewrite length_le_split|done].
Qed.

Lemma fk_region info i va n t (k : unit -> M kstate A) :
  own info -> 0 <= i < 256 ->
  (forall s', kvars s' = kvars s -> around s' (region_mem m info i va n t) taken l f ->
     wp (k tt) Q E s') ->
  wp (bind (set_region info i va n t) k) Q E s.
Proof.
  intros [Hp Hin] Hi Hk.
  apply (kp_region _ _ s _ _ _ _ _ (ar_space _ _ _ _ _ HA)); [done|done|].
  intros s' Hs HS. apply Hk; [by apply only_mm_kvars|].
  eapply around_step; [exact HA|exact HS|]. intros z Hz Hn. apply region_mem_same_on.
  pose proof Hp as [[Hpa _] _ _ _].
  unfold region. destruct (page_disjoint z info Hz Hpa); [by intros ->|consts; lia..].
Qed.

Lemma fk_memcpy p q (k : Z -> M kstate A) :
  own p -> kept q ->
  (forall s', kvars s' = kvars s ->
     around s' (store_bytes m p (load_bytes m0 q (Z.to_nat PGSIZE))) taken l f -> wp (k p) Q E s') ->
  wp (bind (memcpy p q PGSIZE) k) Q E s.
Proof.
  intros Ho Hq Hk. pose proof (kept_private _ _ _ _ _ _ HA Hq) as [Hr H1 H2 _].
  apply (sp_memcpy (L := lens_k_mm) p q _ _ s _ _ _ _ _ _ (ar_space _ _ _ _ _ HA)); try done.
  - apply Ho.
  - intros ->. by apply Hq, Ho.
  - assert (load_bytes m q (Z.to_nat PGSIZE) = load_bytes m0 q (Z.to_nat PGSIZE)) as ->.
    { apply load_bytes_same_on. rewrite Z2Nat.id by done.
      apply (ar_kept _ _ _ _ _ HA); [apply Hr|apply Hq]. }
    intros s' Hs HS. apply Hk; [by apply only_mm_kvars|].
    apply (own_write p); [done|lia|rewrite length_load_bytes; consts; lia|done].
Qed.

Lemma fk_map va pa perm (k : unit -> M kstate A) :
  page_aligned va -> 0 <= va < MAXVA -> ram_page pa ->
  pte_valid (f va) = false -> (2 < length l)%nat ->
  (forall s' t' l', kvars s' = kvars s -> l = t' ++ l' -> (length t' <= 2)%nat ->
     around s' m (taken ++ t') l' (map_entry f va pa perm) -> wp (k tt) Q E s') ->
  wp (bind (zoom (user_vm_map dir va PGSIZE pa perm)) k) Q E s.
Proof.
  intros Ha Hva (Hpa & Hp1 & Hp2) Hv Hl Hk.
  apply (sp_map (L := lens_k_mm) _ _ _ _ _ s _ _ _ _ _ _ (ar_space _ _ _ _ _ HA)); try done;
    [consts; lia|].
  intros s' t' l' Hs El Ht HS. apply (Hk s' t' l'); [by apply only_mm_kvars|done|done|].
  destruct HA as [_ Hkept Hd Hp]. split; [done|done|done|]. rewrite <- app_assoc, <- El. done.
Qed.

Lemma fk_print fmt vl (k : unit -> M kstate A) :
  fmt_ok false false (String.list_byte_of_string fmt) (map kind vl) = true ->
  (forall s', kvars s' = kvars s -> around s' m taken l f -> wp (k tt) Q E s') ->
  wp (bind (sprint fmt vl) k) Q E s.
Proof.
  intros Hf Hk. apply (sp_print (L := lens_k_mm) _ _ s _ _ _ _ _ (ar_space _ _ _ _ _ HA)); [done|].
  intros s' Hs HS. apply Hk; [by apply only_mm_kvars|]. by eapply around_step.
Qed.
End Rules.

Lemma fk_alloc {A} p (Q : A -> kstate -> Prop) E s m taken l f (k : Z -> M kstate A) :
  around s m taken (p :: l) f ->
  (forall s', kvars s' = kvars s -> around s' m taken l f -> own taken l p -> wp (k p) Q E s') ->
  wp (bind (zoom alloc_page) k) Q E s.
Proof.
  intros HA Hk.
  apply (sp_alloc (L := lens_k_mm) p _ _ s _ _ _ _ _ _ (ar_space _ _ _ _ _ HA)).
  intros s' Hs HS Hp _. destruct HA as [_ Hkept Hd Hpg].
  apply Hk; [by apply only_mm_kvars| |split; [done|]].
  - split; [done|done|done|]. intros z Hz. apply Hpg. rewrite elem_of_app, elem_of_cons in *. tauto.
  - apply Hpg, elem_of_app. right. apply list_elem_of_here.
Qed.

Lemma own_grow taken l t' l' p : l = t' ++ l' -> own taken l p -> own (taken ++ t') l' p.
Proof. intros El [Hp Hn]. split; [by eapply private_grow|done]. Qed.

Lemma own_tail taken q l p : own taken (q :: l) p -> own taken l p.
Proof. intros [Hp Hn]. split; [by eapply private_tail|done]. Qed.

(** A page of the child, at the end. *)
Lemma around_own s m taken l f p :
  around s m taken l f -> own taken l p -> same_page p (smem (kmm s)) m.
Proof.
  intros HA [[[Ha _] H1 H2 _] _]. symmetry. by apply (as_mem _ _ _ _ _ _ (ar_space _ _ _ _ _ HA)).
Qed.

Lemma around_kept s m taken l f z :
  around s m taken l f -> page_aligned z -> z ∉ F0 -> same_page z m0 (smem (kmm s)).
Proof.
  intros HA Hz Hn. symmetry. etransitivity; [|by apply (ar_kept _ _ _ _ _ HA)]. symmetry.
  apply (as_mem _ _ _ _ _ _ (ar_space _ _ _ _ _ HA)); [exact Hz| |].
  - intros ->. by apply Hn, (ar_dir _ _ _ _ _ HA).
  - intros H. apply Hn, (ar_pages _ _ _ _ _ HA), elem_of_app. by left.
Qed.

(** ** The cases of the loop *)

(** CONTEXT_SEGMENT: the thirty-five words of the trap frame. *)
Lemma fk_copy_frame tf ptf Q E s m taken l f :
  around s m taken l f -> own taken l tf -> kept ptf ->
  (forall s' m', kvars s' = kvars s -> around s' m' taken l f ->
     (forall z, page_aligned z -> z <> tf -> same_page z m' m) ->
     (forall k, 0 <= k < 35 -> ld64 m' (tf + 8 * k) = ld64 m0 (ptf + 8 * k)) -> Q tt s') ->
  wp (copy_trapframe tf ptf) Q E s.
Proof.
  intros HA Ho Hq HQ. pose proof Ho as [[[Hpa _] _ _ _] Hin].
  apply (wp_for_each _ _ (fun rest s' => exists j m', rest = seqZ j (35 - j) /\ 0 <= j <= 35 /\
    kvars s' = kvars s /\ around s' m' taken l f /\
    (forall z, page_aligned z -> z <> tf -> same_page z m' m) /\
    (forall k, 0 <= k < j -> ld64 m' (tf + 8 * k) = ld64 m0 (ptf + 8 * k)))).
  - exists 0, m. split_and!; try done. intros k Hk. lia.
  - intros x rest s1 (j & m1 & Er & Hj & Hk1 & H1 & Hs1 & Hw1).
    destruct (decide (j = 35)) as [->|Hne]; [discriminate Er|].
    rewrite seqZ_cons in Er by lia. injection Er as -> ->.
    eapply (fk_load _ _ s1 _ _ _ _ H1 8 (ptf + 8 * j) ptf); [exact Hq|lia|consts; lia|].
    apply wp_bind_ret.
    apply (fk_store _ _ s1 _ _ _ _ H1 8 (tf + 8 * j) _ tf); [exact Ho|lia|consts; lia|].
    intros s2 Hk2 H2. apply wp_ret. exists (j + 1), (st64 m1 (tf + 8 * j) (ld64 m0 (ptf + 8 * j))).
    split_and!; [f_equal; lia|lia|lia|congruence|exact H2| |].
    + intros z Hz Hn. etransitivity; [|by apply Hs1]. apply storen_same_on.
      destruct (page_disjoint z tf Hz Hpa Hn); consts; lia.
    + intros k Hk. destruct (decide (k = j)) as [->|Hkj].
      * rewrite ld64_st64. apply u64_small, (loadn_range 8).
      * rewrite loadn_storen_ne by lia. apply Hw1. lia.
  - intros s1 (j & m1 & Er & Hj & Hk1 & H1 & Hs1 & Hw1).
    destruct (decide (j = 35)) as [->|Hne]; [|rewrite seqZ_cons in Er by lia; discriminate Er].
    by apply (HQ s1 m1).
Qed.

(** STACK_SEGMENT: the page of the child's stack. *)
Lemma fk_stack pp cp i ustack va q Q E s m taken l f :
  around s m taken l f -> pagetable cp = dir -> own taken l (mapped_info cp) ->
  ld64 m (region (mapped_info cp) 0 + mr_va) = va -> 0 <= va < MAXVA -> lookup_val (f va) = ustack ->
  own taken l ustack ->
  kept (mapped_info pp) -> 0 <= i < 256 -> ld64 m0 (region (mapped_info pp) i + mr_va) = va ->
  pt_wf m0 (pagetable pp) -> (forall p, in_tree m0 (pagetable pp) p -> p ∉ F0) ->
  lookup_val (entry m0 (pagetable pp) va) = q -> kept q ->
  (forall s', kvars s' = kvars s ->
     around s' (store_bytes m ustack (load_bytes m0 q (Z.to_nat PGSIZE))) taken l f -> Q tt s') ->
  wp (fork_stack pp cp i) Q E s.
Proof.
  intros HA Hd [[Hir Hi1 Hi2 _] _] Hcva Hva Hf Hus Hpi Hi Hpva Hwf Hn Hq Hkq HQ. unfold fork_stack.
  apply (sp_load (L := lens_k_mm) _ _ s _ _ _ _ _ (ar_space _ _ _ _ _ HA) 8 _ (mapped_info cp)); try done;
    [unfold region, mr_va; consts; lia..|]. rewrite Hcva, Hd.
  apply (fk_child _ _ s _ _ _ _ HA); [exact Hva|]. rewrite Hf.
  apply (fk_load _ _ s _ _ _ _ HA 8 _ (mapped_info pp)); [exact Hpi|unfold region, mr_va; consts; lia..|].
  rewrite Hpva. apply (fk_lookup _ _ s _ _ _ _ HA); [exact Hwf|exact Hn|lia|]. rewrite Hq.
  apply (fk_memcpy _ _ s _ _ _ _ HA); [exact Hus|exact Hkq|]. intros s' Hk H'. apply wp_ret. by apply HQ.
Qed.

(** ** Parent and child *)

Section Child.
Context (pp : process) (segs : list seg) (tf stack ustack info : Z) (n : nat) (s0 : kstate) (l0 : list Z).

(** The page of the parent at [va]. *)
Definition parent_page (va : Z) : Z := lookup_val (entry m0 (pagetable pp) va).

Definition stack_va : Z := USER_STACK_TOP - PGSIZE.

(** The parent: its tables and pages are in use, its first three regions are
    those of alloc_process, and the others are the segments, a page each. *)
Record parent_ok : Prop := {
  pk_info : kept (mapped_info pp);
  pk_frame : kept (trapframe pp);
  pk_wf : pt_wf m0 (pagetable pp);
  pk_tables : forall p, in_tree m0 (pagetable pp) p -> p ∉ F0;
  pk_total : total_mapped_region pp = 3 + Z.of_nat (length segs);
  pk_max : 3 + Z.of_nat (length segs) <= 256;
  pk_stack : region_at m0 (mapped_info pp) 0 = (stack_va, 1, STACK_SEGMENT);
  pk_context : region_at m0 (mapped_info pp) 1 = (trapframe pp, 1, CONTEXT_SEGMENT);
  pk_system : region_at m0 (mapped_info pp) 2 = (trap_sec_start, 1, SYSTEM_SEGMENT);
  pk_segs : forall x g, segs !! x = Some g ->
    region_at m0 (mapped_info pp) (3 + Z.of_nat x) = (fst g, 1, snd g);
  pk_stack_page : kept (parent_page stack_va);
  pk_seg : Forall (fun g => 0 <= fst g < stack_va /\ kept (parent_page (fst g)) /\
    (snd g = CODE_SEGMENT \/ snd g = DATA_SEGMENT /\ page_aligned (fst g))) segs;
  pk_nodup : NoDup (map (fun g => fst g / PGSIZE) segs);
}.

Definition code_perm : Z := prot_to_type (Z.lor PROT_EXEC PROT_READ) 1.
Definition data_perm : Z := prot_to_type (Z.lor PROT_WRITE PROT_READ) 1.

(** The entry of the child for the segment [g] in the page [p]. *)
Definition child_page (g : seg) (p : Z) : Z * Z * Z :=
  (fst g / PGSIZE * PGSIZE, p, if decide (snd g = CODE_SEGMENT) then code_perm else data_perm).

Definition codes (gs : list seg) : Z :=
  Z.of_nat (length (filter (fun g => snd g = CODE_SEGMENT) gs)).

Definition child_process (k : nat) (p : process) : process :=
  set_total_mapped_region (3 + codes (take k segs)) (new_process tf dir stack info p).

Definition child_entries (k : nat) (ps : list Z) : Z -> Z :=
  map_all (new_entries tf ustack) (zip_with child_page (take k segs) ps).

(** What the child has for a segment: the page of the parent, or a copy. *)
Definition inherits (m : memory) (taken l : list Z) (g : seg) (p : Z) : Prop :=
  if decide (snd g = CODE_SEGMENT) then p = parent_page (fst g)
  else own taken l p /\ p <> tf /\ p <> ustack /\ p <> info /\ p <> stack /\
    load_bytes m p (Z.to_nat PGSIZE) = load_bytes m0 (parent_page (fst g)) (Z.to_nat PGSIZE).

(** After the first [k] segments. *)
Record forked (k : nat) (s : kstate) (m : memory) (taken l : list Z) (ps : list Z) : Prop := {
  fo_around : around s m taken l (child_entries k ps);
  fo_kvars : kvars s = kvars (upd_proc n (child_process k) s0);
  fo_own : own taken l tf /\ own taken l ustack /\ own taken l info /\ own taken l stack;
  fo_frame : forall j, 0 <= j < 35 -> ld64 m (tf + 8 * j) = ld64 m0 (trapframe pp + 8 * j);
  fo_stack : load_bytes m ustack (Z.to_nat PGSIZE) =
             load_bytes m0 (parent_page stack_va) (Z.to_nat PGSIZE);
  fo_pages : Forall2 (inherits m taken l) (take k segs) ps;
  fo_distinct : forall x y p g, ps !! x = Some p -> ps !! y = Some p -> segs !! x = Some g ->
    snd g <> CODE_SEGMENT -> x = y;
  fo_left : (length l0 <= length l + 3 * k)%nat;
}.

Context (PK : parent_ok) (c : nat).

(** One region, by its type. *)
Lemma fork_region_case s m taken l f cp i va np t Q E :
  around s m taken l f -> procs s !! c = Some pp -> procs s !! n = Some cp ->
  0 <= i < 256 -> region_at m0 (mapped_info pp) i = (va, np, t) ->
  wp (if t =? CONTEXT_SEGMENT then copy_trapframe (trapframe cp) (trapframe pp)
      else if t =? STACK_SEGMENT then fork_stack pp cp i
      else if t =? DATA_SEGMENT then fork_data pp cp i
      else if t =? CODE_SEGMENT then fork_code pp cp n i
      else ret tt) Q E s ->
  wp (fork_region (Some c) n i) Q E s.
Proof.
  intros HA Hc Hn Hi Hr Hk. unfold fork_region.
  eapply wp_bind_ok; [by apply deref_ok|]. eapply wp_bind_ok; [by apply deref_ok|]. cbv beta.
  apply (fk_load _ _ s _ _ _ _ HA 4 _ (mapped_info pp)); [apply PK|unfold region, mr_seg_type; consts; lia..|].
  injection Hr as _ _ ->. exact Hk.
Qed.

Lemma region_fields m a i va np t :
  region_at m a i = (va, np, t) ->
  ld64 m (region a i + mr_va) = va /\ ld32 m (region a i + mr_npages) = np.
Proof. intros H. injection H as E1 E2 _. done. Qed.

Lemma codes_S k g : segs !! k = Some g ->
  codes (take (S k) segs) = codes (take k segs) + (if decide (snd g = CODE_SEGMENT) then 1 else 0).
Proof.
  intros Hk. unfold codes. rewrite (take_S_r _ _ _ Hk), filter_app, length_app, filter_cons.
  case_decide; simpl; lia.
Qed.

Lemma codes_le k : codes (take k segs) <= Z.of_nat k.
Proof.
  unfold codes. pose proof (length_filter (fun g => snd g = CODE_SEGMENT) (take k segs)) as H.
  rewrite length_take in H. lia.
Qed.

Lemma seg_range k g : segs !! k = Some g ->
  (0 <= fst g < stack_va /\ kept (parent_page (fst g)) /\
   (snd g = CODE_SEGMENT \/ snd g = DATA_SEGMENT /\ page_aligned (fst g))) /\ 3 + Z.of_nat k < 256.
Proof.
  intros Hg. pose proof (lookup_lt_Some _ _ _ Hg). pose proof (pk_max PK).
  pose proof (pk_seg PK) as Hf. rewrite Forall_lookup in Hf. split; [by apply (Hf k)|lia].
Qed.

(** The address of the next segment is not mapped yet. *)
Lemma child_entry_new k ps g :
  new_pages tf -> ram_page tf -> length ps = k -> segs !! k = Some g ->
  pte_valid (child_entries k ps (fst g / PGSIZE * PGSIZE)) = false.
Proof.
  intros (_ & _ & _ & Htr & _) (Hta & Ht1 & Ht2) Hlen Hg.
  destruct (seg_range _ _ Hg) as [[Hva _] _]. unfold stack_va, USER_STACK_TOP in Hva.
  pose proof (pk_nodup PK) as Hnd. pose proof trap_sec_range as [Htl _].
  unfold child_entries. rewrite map_all_other.
  - unfold new_entries, map_entry. unfold page_aligned, USER_STACK_TOP in *. consts.
    rewrite !decide_False by dlia. done.
  - rewrite Z.div_mul by done.
    apply Forall_lookup. intros x e He. apply lookup_zip_with_Some in He as (g' & p & -> & Hx & Hp).
    cbn [child_page fst]. rewrite Z.div_mul by done. intros E.
    apply lookup_take_Some in Hx as [Hx Hlt].
    assert (x = k) as ->; [|lia].
    apply (NoDup_lookup _ x k (fst g / PGSIZE) Hnd); rewrite list_lookup_fmap; [by rewrite Hx, E|by rewrite Hg].
Qed.

(** The entries at the end. *)
Lemma child_entry_stack k ps :
  new_pages tf -> child_entries k ps stack_va = map_pte ustack stack_perm.
Proof.
  intros (H1 & H2 & H3 & _). unfold child_entries. rewrite map_all_other.
  - unfold new_entries, map_entry, stack_va.
    rewrite !decide_False by (intros E; congruence). by rewrite decide_True.
  - apply Forall_lookup. intros x e He. apply lookup_zip_with_Some in He as (g' & p & -> & Hx & Hp).
    apply lookup_take_Some in Hx as [Hx _]. destruct (seg_range _ _ Hx) as [[Hva _] _].
    cbn [child_page fst]. rewrite Z.div_mul by done. unfold stack_va, USER_STACK_TOP in *. consts. dlia.
Qed.

Lemma child_entry_seg ps x g p :
  length ps = length segs -> segs !! x = Some g -> ps !! x = Some p ->
  child_entries (length segs) ps (fst g) =
  map_pte p (if decide (snd g = CODE_SEGMENT) then code_perm else data_perm).
Proof.
  intros Hlen Hg Hp. unfold child_entries. rewrite take_ge by done.
  apply (map_all_in _ _ (fst g / PGSIZE * PGSIZE)).
  - assert (map (fun e => fst (fst e) / PGSIZE) (zip_with child_page segs ps) =
            map (fun g => fst g / PGSIZE) segs) as ->; [|apply PK].
    apply list_eq. intros y. rewrite !list_lookup_fmap, lookup_zip_with.
    destruct (segs !! y) as [gy|] eqn:Hy; [|done].
    destruct (lookup_lt_is_Some_2 ps y) as [py Hpy]; [rewrite Hlen; by eapply lookup_lt_Some|].
    rewrite Hpy. simpl. by rewrite Z.div_mul.
  - apply list_elem_of_lookup. exists x. by rewrite lookup_zip_with, Hg, Hp.
  - by rewrite Z.div_mul.
Qed.

Hypothesis Htfu : tf <> ustack.
Hypothesis Hinfou : info <> ustack.
Hypothesis Htfi : tf <> info.
Hypothesis Hcn : c <> n.
Hypothesis Hpc : procs s0 !! c = Some pp.
Context (pr : process) (Hpn : procs s0 !! n = Some pr).

Lemma child_procs k s :
  kvars s = kvars (upd_proc n (child_process k) s0) ->
  procs s !! c = Some pp /\ procs s !! n = Some (child_process k pr).
Proof.
  intros Hk. injection Hk as -> _ _ _ _. simpl. split; [by rewrite list_lookup_alter_ne|].
  by rewrite list_lookup_alter_eq, Hpn.
Qed.

Lemma stack_entry : new_pages tf -> ram_page ustack ->
  lookup_val (new_entries tf ustack stack_va) = ustack.
Proof.
  intros (H1 & H2 & H3 & _) (Ha & Hlo & Hhi). unfold new_entries, map_entry, stack_va.
  rewrite !decide_False by (intros E; congruence). rewrite decide_True by done.
  apply lookup_map_pte; [done|consts; lia|by vm_compute].
Qed.

(** The first three regions. *)
Lemma fork_fixed s taken l rest Q E :
  new_pages tf ->
  kvars s = kvars (upd_proc n (new_process tf dir stack info) s0) ->
  around s (new_mem m0 tf dir info) taken l (new_entries tf ustack) ->
  own taken l tf -> own taken l ustack -> own taken l info -> own taken l stack ->
  (length l0 <= length l)%nat ->
  (forall s' m', forked 0 s' m' taken l [] -> wp (for_each rest (fork_region (Some c) n)) Q E s') ->
  wp (for_each (0 :: 1 :: 2 :: rest) (fork_region (Some c) n)) Q E s.
Proof.
  intros Hnp Hk HA Ht Hu Hi Hst Hl Hrest. cbn [for_each].
  assert (kvars s = kvars (upd_proc n (child_process 0) s0)) as Hk' by exact Hk. clear Hk.
  destruct (child_procs 0 s Hk') as [Hc Hn]. pose proof PK as [Pinf Pfr Pwf Ptab _ _ Pst Pctx Psys _ Pstp _ _].
  pose proof Ht as [[Htr _ _ _] _]. pose proof Hu as [[Hur _ _ _] _]. pose proof Hi as [[Hir _ _ _] _].
  apply wp_bind, (fork_region_case _ _ _ _ _ _ 0 _ _ _ _ _ HA Hc Hn ltac:(lia) Pst).
  change (STACK_SEGMENT =? CONTEXT_SEGMENT) with false. rewrite Z.eqb_refl. cbv iota.
  apply (fk_stack _ _ 0 ustack stack_va (parent_page stack_va) _ _ s _ _ _ _ HA); try done.
  { pose proof (new_mem_regions m0 tf dir info 0 Htr ltac:(lia)) as Hr.
    rewrite decide_True in Hr by reflexivity. apply (region_fields _ _ _ _ _ _ Hr). }
  { by apply stack_entry. }
  { apply (region_fields _ _ _ _ _ _ Pst). }
  intros s1 Hk1 H1. rewrite <- Hk1 in Hk'. clear HA Hc Hn.
  destruct (child_procs 0 s1 Hk') as [Hc Hn].
  apply wp_bind, (fork_region_case _ _ _ _ _ _ 1 _ _ _ _ _ H1 Hc Hn ltac:(lia) Pctx).
  rewrite Z.eqb_refl. apply (fk_copy_frame _ _ _ _ s1 _ _ _ _ H1 Ht Pfr).
  intros s2 m2 Hk2 H2 Hs2 Hw2. rewrite <- Hk2 in Hk'. clear H1 Hc Hn.
  destruct (child_procs 0 s2 Hk') as [Hc Hn].
  apply wp_bind, (fork_region_case _ _ _ _ _ _ 2 _ _ _ _ _ H2 Hc Hn ltac:(lia) Psys).
  apply wp_ret, (Hrest s2 m2). split; try done; [|lia].
  rewrite (page_bytes_same ustack _ m2) by (apply Hs2; [apply Hur|by apply not_eq_sym]).
  apply load_stored_page. rewrite length_load_bytes. by rewrite Z2Nat.id.
Qed.

Lemma forked_next k s m taken l ps s' m' taken' l' g p :
  forked k s m taken l ps -> length ps = k -> segs !! k = Some g ->
  around s' m' taken' l' (map_entry (child_entries k ps) (fst g / PGSIZE * PGSIZE) p
    (if decide (snd g = CODE_SEGMENT) then code_perm else data_perm)) ->
  kvars s' = kvars (upd_proc n (child_process (S k)) s0) ->
  (forall z, own taken l z -> own taken' l' z) ->
  (forall z, own taken l z -> z <> info -> same_page z m' m) ->
  inherits m' taken' l' g p ->
  (forall x g', ps !! x = Some p -> segs !! x = Some g' ->
     snd g = CODE_SEGMENT /\ snd g' = CODE_SEGMENT) ->
  (length l <= length l' + 3)%nat ->
  forked (S k) s' m' taken' l' (ps ++ [p]).
Proof.
  intros [HA Hk (Ot & Ou & Oi & Os) Hw Hst Hp Hd Hl] Hlen Hg HA' Hk' Hown Hsame Hin Hdist Hl'.
  split.
  - unfold child_entries. rewrite (take_S_r _ _ _ Hg), zip_with_app.
    + change (zip_with child_page [g] [p]) with [child_page g p]. unfold child_page at 2.
      rewrite map_all_snoc. exact HA'.
    + apply lookup_lt_Some in Hg. rewrite length_take. lia.
  - done.
  - split_and!; by apply Hown.
  - intros j Hj. rewrite (page_words_same tf m) by (try apply Hsame; done). by apply Hw.
  - rewrite (page_bytes_same ustack m) by (apply Hsame; [done|by apply not_eq_sym]). done.
  - rewrite (take_S_r _ _ _ Hg). apply Forall2_app; [|by constructor].
    eapply Forall2_impl; [exact Hp|]. intros g' p'. unfold inherits.
    destruct (decide (snd g' = CODE_SEGMENT)); [exact id|].
    intros (Op & H1 & H2 & H3 & H4 & Hb). split_and!; [by apply Hown|done..|].
    by rewrite (page_bytes_same p' m) by (by apply Hsame).
  - intros x y q g' Hx Hy Hgx Hc.
    apply lookup_app_Some in Hx as [Hx|[Hx1 Hx]], Hy as [Hy|[Hy1 Hy]].
    + eapply Hd; eauto.
    + apply list_lookup_singleton_Some in Hy as [_ <-]. by destruct (Hdist x g' Hx Hgx).
    + apply list_lookup_singleton_Some in Hx as [Hx0 <-].
      assert (x = k) as -> by lia. rewrite Hg in Hgx. injection Hgx as <-.
      assert (exists gy, segs !! y = Some gy) as [gy Hgy].
      { apply lookup_lt_is_Some_2. apply lookup_lt_Some in Hy, Hg. lia. }
      by destruct (Hdist y gy Hy Hgy).
    + apply list_lookup_singleton_Some in Hx as [Hx0 <-], Hy as [Hy0 _]. lia.
  - lia.
Qed.

(** What a page that came with the segments is. *)
Lemma forked_page k s m taken l ps x p g :
  forked k s m taken l ps -> length ps = k -> ps !! x = Some p -> segs !! x = Some g ->
  if decide (snd g = CODE_SEGMENT) then p ∉ F0 else own taken l p.
Proof.
  intros HF Hlen Hx Hg. pose proof (lookup_lt_Some _ _ _ Hx) as Hlt.
  assert (take k segs !! x = Some g) as Hg' by (by rewrite lookup_take_lt by lia).
  pose proof (Forall2_lookup_lr _ _ _ _ _ _ (fo_pages _ _ _ _ _ _ HF) Hg' Hx) as Hi.
  unfold inherits in Hi. destruct (decide (snd g = CODE_SEGMENT)); [|apply Hi].
  rewrite Hi. destruct (seg_range _ _ Hg) as [(_ & [_ Hn] & _) _]. exact Hn.
Qed.

Lemma region_mem_own m taken l z k va np t :
  own taken l info -> own taken l z -> z <> info -> 0 <= k < 256 ->
  same_page z (region_mem m info k va np t) m.
Proof.
  intros [[[Hi _] _ _ _] _] [[[Hz _] _ _ _] _] Hne Hk. apply region_mem_same_on.
  unfold region. destruct (page_disjoint z info Hz Hi Hne); consts; lia.
Qed.

(** A code segment: the page of the parent is mapped. *)
Lemma fork_code_step k s m taken l ps g E :
  new_pages tf -> forked k s m taken l ps -> length ps = k -> segs !! k = Some g ->
  snd g = CODE_SEGMENT -> (2 < length l)%nat ->
  wp (fork_region (Some c) n (3 + Z.of_nat k)) (fun _ s' => exists m' taken' l' p,
    forked (S k) s' m' taken' l' (ps ++ [p])) E s.
Proof.
  intros Hnp HF Hlen Hg Hcode Hl.
  pose proof HF as [HA Hk (Ot & Ou & Oi & Os) _ _ _ _ _]. destruct (child_procs k s Hk) as [Hc Hn].
  destruct (seg_range k g Hg) as [(Hva & Hkept & _) Hk256].
  pose proof PK as [Pinf _ Pwf Ptab _ _ _ _ _ Psegs _ _ _]. pose proof (Psegs _ _ Hg) as Hr.
  apply (fork_region_case _ _ _ _ _ _ (3 + Z.of_nat k) _ _ _ _ _ HA Hc Hn ltac:(lia) Hr). rewrite Hcode.
  change (CODE_SEGMENT =? CONTEXT_SEGMENT) with false. change (CODE_SEGMENT =? STACK_SEGMENT) with false.
  change (CODE_SEGMENT =? DATA_SEGMENT) with false. rewrite Z.eqb_refl. cbv iota. unfold fork_code.
  destruct (region_fields _ _ _ _ _ _ Hr) as [Hrva Hrn].
  assert (fst g < MAXVA) as Hmax by (change MAXVA with 0x4000000000; unfold stack_va, USER_STACK_TOP in Hva; consts; lia).
  assert (0 <= codes (take k segs) <= Z.of_nat k) as Hcodes by (split; [unfold codes; lia|apply codes_le]).
  apply (fk_load _ _ s _ _ _ _ HA 8 _ (mapped_info pp)); [exact Pinf|unfold region, mr_va; consts; lia..|].
  rewrite Hrva. apply (fk_lookup _ _ s _ _ _ _ HA); [exact Pwf|exact Ptab|exact Hmax|].
  fold (parent_page (fst g)). rewrite page_of_down by (unfold stack_va, USER_STACK_TOP in Hva; consts; lia).
  change (pagetable (child_process k pr)) with dir.
  apply (fk_map _ _ s _ _ _ _ HA); [|consts; change MAXVA with 0x4000000000 in *; dlia|apply Hkept| |exact Hl|].
  { unfold page_aligned. apply Z.mod_mul. done. }
  { apply child_entry_new; [exact Hnp|apply Ot|exact Hlen|exact Hg]. }
  intros s1 t' l' Hk1 El Hlt H1.
  apply (fk_lookup _ _ s1 _ _ _ _ H1); [exact Pwf|exact Ptab|exact Hmax|].
  apply (fk_print _ _ s1 _ _ _ _ H1); [reflexivity|]. intros s2 Hk2 H2.
  apply (fk_load _ _ s2 _ _ _ _ H2 4 _ (mapped_info pp)); [exact Pinf|unfold region, mr_npages; consts; lia..|].
  apply (fk_region _ _ s2 _ _ _ _ H2); [by apply (own_grow _ _ _ _ _ El)|cbn; lia|]. intros s3 Hk3 H3.
  assert (kvars s3 = kvars (upd_proc n (child_process k) s0)) as Hk' by congruence.
  destruct (child_procs k s3 Hk') as [_ Hn3]. unfold wp. rewrite (assign_ok n _ _ _ Hn3).
  eexists _, (taken ++ t'), l', (parent_page (fst g)). eapply forked_next; [exact HF|exact Hlen|exact Hg| | | | | | |].
  - rewrite decide_True by done. eapply around_step; [exact H3|apply H3|done].
  - unfold kvars in *. simpl in *. injection Hk' as E1 E2 E3 E4 E5. rewrite E1, E2, E3, E4, E5.
    do 4 f_equal. rewrite list_alter_alter_eq. apply list_alter_ext; [|done]. intros p _.
    unfold child_process. rewrite (codes_S _ _ Hg), decide_True by done.
    cbn [child_process total_mapped_region set_total_mapped_region]. by rewrite Z.add_assoc.
  - intros z Hz. by apply (own_grow _ _ _ _ _ El).
  - intros z Hz Hne. apply (region_mem_own _ taken l); [exact Oi|exact Hz|exact Hne|cbn; lia].
  - unfold inherits. by rewrite decide_True.
  - intros x g' Hx Hg'. split; [exact Hcode|]. pose proof (forked_page _ _ _ _ _ _ _ _ _ HF Hlen Hx Hg') as Hp.
    destruct (decide (snd g' = CODE_SEGMENT)); [done|]. by destruct Hkept as [_ Hnk], Hp as [_ Hp].
  - rewrite El, length_app. lia.
Qed.

(** The child after a data segment has been copied to [q]. *)
Lemma data_forked k s m taken q l ps g t' l' s' :
  forked k s m taken (q :: l) ps -> length ps = k -> segs !! k = Some g -> snd g = DATA_SEGMENT ->
  l = t' ++ l' -> (length t' <= 2)%nat -> own taken l q -> kvars s' = kvars (upd_proc n (child_process k) s0) ->
  let m1 := storen 8 m (region info (3 + Z.of_nat k) + mr_va) (fst g) in
  let m' := store_bytes m1 q (load_bytes m0 (parent_page (fst g)) (Z.to_nat PGSIZE)) in
  around s' m' (taken ++ t') l' (map_entry (child_entries k ps) (fst g / PGSIZE * PGSIZE) q data_perm) ->
  forked (S k) s' m' (taken ++ t') l' (ps ++ [q]).
Proof.
  intros HF Hlen Hg Hdata El Hlt Hq Hk m1 m' HA'. pose proof HF as [HA _ (Ot & Ou & Oi & Os) _ _ _ _ _].
  destruct (seg_range k g Hg) as [_ Hk256].
  assert (forall z, own taken (q :: l) z -> z <> q) as Hnq.
  { intros z [[_ _ _ Hz] _] ->. apply Hz, list_elem_of_here. }
  eapply forked_next; [exact HF|exact Hlen|exact Hg| | | | | | |].
  - rewrite decide_False by (rewrite Hdata; discriminate). exact HA'.
  - rewrite Hk. unfold child_process. by rewrite (codes_S _ _ Hg), decide_False, Z.add_0_r by (rewrite Hdata; discriminate).
  - intros z Hz. apply (own_grow _ _ _ _ _ El). by apply own_tail in Hz.
  - intros z Hz Hne. pose proof Hz as [[[Hza _] _ _ _] _]. pose proof Hq as [[[Hqa _] _ _ _] _].
    pose proof Oi as [[[Hia _] _ _ _] _]. transitivity m1.
    + apply (pages_same z q); [done|done|by apply Hnq|lia|rewrite length_load_bytes; consts; lia].
    + apply (pages_same z info); [done|done|done|unfold region, mr_va; consts; lia|].
      rewrite length_le_split. unfold region, mr_va; consts; lia.
  - unfold inherits. rewrite decide_False by (rewrite Hdata; discriminate).
    split_and!; [by apply (own_grow _ _ _ _ _ El)|apply not_eq_sym, Hnq; assumption..|].
    apply load_stored_page. by rewrite length_load_bytes, Z2Nat.id.
  - intros x g' Hx Hg'. exfalso. pose proof (forked_page _ _ _ _ _ _ _ _ _ HF Hlen Hx Hg') as Hp.
    destruct (decide (snd g' = CODE_SEGMENT)); [by apply Hp, Hq|by apply (Hnq q)].
  - rewrite El. cbn [length]. rewrite length_app. lia.
Qed.

(** One page of data is copied. *)
Lemma copy_data_page_spec s m taken q l f (g : Z * Z) cp i np t (Q : unit -> kstate -> Prop) E :
  around s m taken (q :: l) f -> pagetable cp = dir -> 0 <= i < 256 ->
  region_at m0 (mapped_info pp) i = (fst g, np, t) -> 0 <= fst g < 2 ^ 31 -> page_aligned (fst g) ->
  kept (parent_page (fst g)) -> pte_valid (f (fst g)) = false -> (2 < length l)%nat ->
  (forall s' t' l', kvars s' = kvars s -> l = t' ++ l' -> (length t' <= 2)%nat -> own taken l q ->
     around s' (store_bytes m q (load_bytes m0 (parent_page (fst g)) (Z.to_nat PGSIZE))) (taken ++ t') l'
       (map_entry f (fst g) q data_perm) -> Q tt s') ->
  wp (copy_data_page pp cp i 0) Q E s.
Proof.
  intros HA Hcp Hi Hr Hva Hpage Hkept Hnew Hl HQ. pose proof PK as [Pinf _ Pwf Ptab _ _ _ _ _ _ _ _ _].
  destruct (region_fields _ _ _ _ _ _ Hr) as [Hrva _]. unfold copy_data_page.
  eapply (fk_alloc q); [exact HA|]. intros s2 Hk2 H2 Hq.
  apply (fk_load _ _ s2 _ _ _ _ H2 8 _ (mapped_info pp)); [exact Pinf|unfold region, mr_va; consts; lia..|].
  rewrite Hrva. replace (u64 (s32 (u64 (fst g + PGSIZE * 0)))) with (fst g)
    by (rewrite Z.mul_0_r, Z.add_0_r, (u64_small (fst g)), s32_small, u64_small; lia).
  apply (fk_lookup _ _ s2 _ _ _ _ H2); [exact Pwf|exact Ptab|change MAXVA with 0x4000000000; lia|].
  fold (parent_page (fst g)). apply (fk_memcpy _ _ s2 _ _ _ _ H2); [exact Hq|exact Hkept|].
  intros s3 Hk3 H3. rewrite Hcp.
  apply wp_bind_ret, (fk_map _ _ s3 _ _ _ _ H3);
    [exact Hpage|change MAXVA with 0x4000000000; lia|apply Hq|exact Hnew|exact Hl|].
  intros s4 t' l' Hk4 El Hlt H4. apply wp_ret. apply (HQ s4 t' l'); [congruence|exact El|exact Hlt|exact Hq|exact H4].
Qed.

(** A data segment: its page is copied. *)
Lemma fork_data_step k s m taken q l ps g E :
  new_pages tf -> forked k s m taken (q :: l) ps -> length ps = k -> segs !! k = Some g ->
  snd g = DATA_SEGMENT -> (2 < length l)%nat ->
  wp (fork_region (Some c) n (3 + Z.of_nat k)) (fun _ s' => exists m' taken' l' p,
    forked (S k) s' m' taken' l' (ps ++ [p])) E s.
Proof.
  intros Hnp HF Hlen Hg Hdata Hl.
  pose proof HF as [HA Hk (Ot & Ou & Oi & Os) _ _ _ _ _]. destruct (child_procs k s Hk) as [Hc Hn].
  destruct (seg_range k g Hg) as [(Hva & Hkept & Hpage) Hk256].
  destruct Hpage as [Hcode|[_ Hpage]]; [rewrite Hcode in Hdata; discriminate Hdata|].
  pose proof PK as [Pinf _ _ _ _ _ _ _ _ Psegs _ _ _]. pose proof (Psegs _ _ Hg) as Hr.
  apply (fork_region_case _ _ _ _ _ _ (3 + Z.of_nat k) _ _ _ _ _ HA Hc Hn ltac:(lia) Hr). rewrite Hdata.
  change (DATA_SEGMENT =? CONTEXT_SEGMENT) with false. change (DATA_SEGMENT =? STACK_SEGMENT) with false.
  rewrite Z.eqb_refl. cbv iota. unfold fork_data. destruct (region_fields _ _ _ _ _ _ Hr) as [Hrva Hrn].
  apply (fk_load _ _ s _ _ _ _ HA 8 _ (mapped_info pp)); [exact Pinf|unfold region, mr_va; consts; lia..|].
  rewrite Hrva. change (mapped_info (child_process k pr)) with info.
  apply (fk_store _ _ s _ _ _ _ HA 8 _ _ info); [exact Oi|unfold region, mr_va; consts; lia..|].
  intros s1 Hk1 H1. set (m1 := storen 8 m _ _) in *.
  assert (fst g / PGSIZE * PGSIZE = fst g) as Eg by (unfold page_aligned in Hpage; consts; dlia).
  apply (wp_loop _ (fun j s' => j = 0 /\ s' = s1 \/ j = 1 /\ exists m' taken' l' p,
      forked (S k) s' m' taken' l' (ps ++ [p])) (fun j _ => 1 - j)); [by left|lia|intros j t [[-> _]|[-> _]]; lia|].
  intros j s' [[-> ->]|[-> (m' & tk' & l' & p & HF')]].
  2: { apply (fk_load _ _ s' _ _ _ _ (fo_around _ _ _ _ _ _ HF') 4 _ (mapped_info pp));
         [exact Pinf|unfold region, mr_npages; consts; lia..|].
       rewrite Hrn. apply wp_ret. by exists m', tk', l', p. }
  apply (fk_load _ _ s1 _ _ _ _ H1 4 _ (mapped_info pp)); [exact Pinf|unfold region, mr_npages; consts; lia..|].
  rewrite Hrn. change (u32 0 <? 1) with true. cbv iota. apply wp_bind.
  eapply (copy_data_page_spec s1 m1 taken q l _ g); [exact H1|done|lia|exact Hr| |exact Hpage|exact Hkept| |exact Hl|].
  { unfold stack_va, USER_STACK_TOP in Hva; consts; lia. }
  { rewrite <- Eg. apply child_entry_new; [exact Hnp|apply Ot|exact Hlen|exact Hg]. }
  intros s4 t' l' Hk4 El Hlt Hq H4. apply wp_bind, wp_ret, wp_ret. split; [|lia]. right. split; [done|].
  eexists _, (taken ++ t'), l', q. eapply data_forked; [exact HF|exact Hlen|exact Hg|exact Hdata|exact El|exact Hlt|exact Hq| |].
  - rewrite Hk4, Hk1. exact Hk.
  - rewrite Eg. exact H4.
Qed.

Lemma fork_segs s m taken l E :
  new_pages tf -> forked 0 s m taken l [] -> (3 * length segs < length l0)%nat ->
  wp (for_each (range 3 (Z.of_nat (length segs))) (fork_region (Some c) n))
    (fun _ s' => exists m' taken' l' ps, length ps = length segs /\
       forked (length segs) s' m' taken' l' ps) E s.
Proof.
  intros Hnp HF Hl0.
  apply (wp_for_each _ _ (fun rest s' => exists k m' taken' l' ps,
    rest = seqZ (3 + Z.of_nat k) (Z.of_nat (length segs) - Z.of_nat k) /\ (k <= length segs)%nat /\
    length ps = k /\ forked k s' m' taken' l' ps)).
  - exists 0%nat, m, taken, l, []. split_and!; [f_equal; lia|lia|done|exact HF].
  - intros x rest s1 (k & m1 & tk & l1 & ps & Er & Hk & Hlen & HF1).
    destruct (decide (k = length segs)) as [->|Hne].
    { rewrite Z.sub_diag in Er. discriminate Er. }
    rewrite seqZ_cons in Er by lia. injection Er as -> ->.
    destruct (lookup_lt_is_Some_2 segs k) as [g Hg]; [lia|].
    pose proof (fo_left _ _ _ _ _ _ HF1) as Hl1.
    destruct (seg_range k g Hg) as [(_ & _ & Ht) _].
    assert (wp (fork_region (Some c) n (3 + Z.of_nat k)) (fun _ s' => exists m' taken' l' p,
      forked (S k) s' m' taken' l' (ps ++ [p])) E s1) as Hstep.
    { destruct Ht as [Ht|[Ht _]]; [by apply (fork_code_step k s1 m1 tk l1 ps g); try done; lia|].
      destruct l1 as [|q l1]; [simpl in Hl1; lia|]. simpl in Hl1.
      apply (fork_data_step k s1 m1 tk q l1 ps g); try done. lia. }
    eapply wp_mono; [exact Hstep| |done]. intros _ s2 (m2 & tk2 & l2 & p & HF2).
    exists (S k), m2, tk2, l2, (ps ++ [p]). split_and!; [f_equal; lia|lia|rewrite length_app; simpl; lia|exact HF2].
  - intros s1 (k & m1 & tk & l1 & ps & Er & Hk & Hlen & HF1).
    destruct (decide (k = length segs)) as [->|Hne]; [|rewrite seqZ_cons in Er by lia; discriminate Er].
    by exists m1, tk, l1, ps.
Qed.
End Child.
End Fork.

Section Correct.
Context {K : Layout} {KO : LayoutOk K}.

(** The child in the process table, and the queue. *)
Definition forked_process (c : nat) (tf dir stack info : Z) (segs : list seg) (p : process) : process :=
  set_parent (Some c) (set_status READY
    (set_total_mapped_region (3 + codes segs) (new_process tf dir stack info p))).

(** Beside the process [n] only links of the queue have changed. *)
Definition others_kept (n : nat) (s s' : kstate) : Prop :=
  current s' = current s /\ length (procs s') = length (procs s) /\
  forall j p, j <> n -> procs s !! j = Some p -> exists p',
    procs s' !! j = Some p' /\ unlinked p' = unlinked p /\ status p' = status p.

Lemma enqueue_others n q s0 s F :
  kvars s = kvars (upd_proc n F s0) -> others_kept n s0 (enqueue n q s).
Proof.
  unfold kvars. intros [= Hp Hc _ _ _]. split_and!.
  - unfold enqueue. case_decide; [done|]. by destruct (last q).
  - rewrite enqueue_length, Hp. apply length_alter.
  - intros j p Hj Hpj. destruct (enqueue_proc n q s j p) as (p' & Hp' & Hu & Hst & _).
    { rewrite Hp. simpl. by rewrite list_lookup_alter_ne. }
    exists p'. split; [done|]. split; [done|]. by rewrite Hst, decide_False by tauto.
Qed.

(** The end of do_fork. *)
Lemma fork_end m0 F0 dir s s0 m taken l f c n pr q tf stack info segs Q E :
  around m0 F0 dir s m taken l f -> own F0 dir taken l tf ->
  kvars s = kvars (upd_proc n (set_total_mapped_region (3 + codes segs) ∘ new_process tf dir stack info) s0) ->
  procs s0 !! n = Some pr -> ready s0 q -> (length q <= NPROC)%nat -> n ∉ q ->
  (forall s' cp, around m0 F0 dir s' (st64 m (tf + tf_a0) 0) taken l f -> ready s' (q ++ [n]) ->
     procs s' !! n = Some cp -> unlinked cp = unlinked (forked_process c tf dir stack info segs pr) ->
     status cp = READY -> others_kept n s0 s' -> Q (s32 (pid pr)) s') ->
  wp (assign (Some n) (set_status READY) ;;;
      cp <- deref (Some n) ;;
      store64 (trapframe cp + tf_a0) 0 ;;;
      assign (Some n) (set_parent (Some c)) ;;;
      insert_to_ready_queue (Some n) ;;;
      cp <- deref (Some n) ;;
      ret (s32 (pid cp))) Q E s.
Proof.
  intros HA Ho Hk Hpn Hq Hlen Hn HQ.
  assert (procs s !! n = Some (set_total_mapped_region (3 + codes segs) (new_process tf dir stack info pr))) as Hs.
  { injection Hk as -> _ _ _ _. simpl. by rewrite list_lookup_alter_eq, Hpn. }
  eapply wp_bind_ok; [by eapply assign_ok|]. cbv beta.
  eapply wp_bind_ok; [eapply deref_ok; by apply procs_upd|]. cbv beta.
  apply (around_step _ _ _ s (upd_proc n (set_status READY) s) m m) in HA; [|apply HA|done].
  apply (fk_store _ _ _ _ _ _ _ _ _ _ HA 8 _ _ tf);
    [exact Ho|unfold tf_a0; cbn; lia|unfold tf_a0; cbn; consts; lia|].
  cbn [trapframe set_status set_total_mapped_region new_process]. intros s2 Hk2 H2.
  assert (kvars (upd_proc n (set_parent (Some c)) s2) =
          kvars (upd_proc n (forked_process c tf dir stack info segs) s0)) as Hk3.
  { unfold kvars in *. simpl in *. injection Hk as E1 E2 E3 E4 E5.
    injection Hk2 as F1 F2 F3 F4 F5. rewrite F1, F2, F3, F4, F5, E1, E2, E3, E4, E5.
    by rewrite !list_alter_alter_eq. }
  assert (procs s2 !! n = Some (set_status READY
    (set_total_mapped_region (3 + codes segs) (new_process tf dir stack info pr)))) as Hs2.
  { injection Hk2 as -> _ _ _ _. simpl. by rewrite list_lookup_alter_eq, Hs. }
  eapply wp_bind_ok; [by eapply assign_ok|]. cbv beta.
  set (s3 := upd_proc n (set_parent (Some c)) s2) in *.
  assert (procs s3 !! n = Some (forked_process c tf dir stack info segs pr)) as Hs3
    by exact (procs_upd n (set_parent (Some c)) s2 _ Hs2).
  assert (ready s3 q) as Hr3.
  { destruct Hq as [Hq Hnd]. split; [|done]. injection Hk3 as E1 _ E3 _ _.
    change (queue (alter (set_parent (Some c)) n (procs s2)) (ready_queue_head s2) q). rewrite E1, E3.
    eapply queue_frame; [|exact Hq]. intros j p Hj Hp. exists p. split; [|done]. simpl.
    rewrite list_lookup_alter_ne; [done|by intros ->]. }
  eapply wp_bind_ok; [exact (insert_to_ready_queue_spec n q s3 _ Hr3 Hlen Hs3)|]. cbv beta.
  set (s4 := write_stderr _ s3). assert (ready s4 q) as Hr4 by exact Hr3.
  pose proof (enqueue_ready n q s4 _ Hr4 Hs3) as Hr. unfold enqueued in Hr.
  rewrite decide_False in Hr by done. fold s4. destruct (enqueue_proc n q s4 n _ Hs3) as (cp & Hcp & Hu & Hst & _).
  eapply wp_bind_ok; [by apply deref_ok|]. apply wp_ret.
  assert (pid cp = pid pr) as -> by (by injection Hu).
  apply (HQ _ cp); [|exact Hr|exact Hcp|exact Hu| |exact (enqueue_others n q s0 s4 _ Hk3)].
  - eapply around_step; [exact H2| |done]. rewrite enqueue_kmm.
    eapply aspace_same; [apply H2|done..].
  - rewrite Hst. by case_decide.
Qed.

(** Building a process writes to three pages. *)
Lemma new_mem_other m tf dir info z :
  ram_page tf -> ram_page dir -> ram_page info -> page_aligned z -> z <> tf -> z <> dir -> z <> info ->
  same_page z (new_mem m tf dir info) m.
Proof.
  intros (Ht & _) (Hd & _) (Hi & _) Hz H1 H2 H3. unfold new_mem. cbv zeta.
  destruct (page_disjoint z tf Hz Ht H1) as [D1|D1], (page_disjoint z dir Hz Hd H2) as [D2|D2],
    (page_disjoint z info Hz Hi H3) as [D3|D3].
  all: do 3 (etransitivity; [apply region_mem_same_on; unfold region; consts; lia|]).
  all: etransitivity; [apply store_bytes_same_on; rewrite length_replicate; consts; lia|].
  all: etransitivity; [apply storen_same_on; unfold tf_sp; consts; lia|].
  all: etransitivity; apply store_bytes_same_on; rewrite length_replicate;
    unfold sizeof_trapframe; consts; lia.
Qed.

(** A state of the parent in which fork succeeds, with the pages that the
    child takes and the ready queue. *)
Record fork_ok (s : kstate) (c : nat) (pp : process) (segs : list seg) (n : nat) (pr : process)
    (q : list nat) (tf dir stack ustack info : Z) (l : list Z) : Prop := {
  fk_procs : length (procs s) = NPROC;
  fk_parent : procs s !! c = Some pp /\ status pp <> FREE;
  fk_first : forall j p, (j < n)%nat -> procs s !! j = Some p -> status p <> FREE;
  fk_slot : procs s !! n = Some pr /\ status pr = FREE;
  fk_queue : ready s q /\ (length q <= NPROC)%nat /\ n ∉ q;
  fk_pages : pmm_free (kmm s) (tf :: dir :: stack :: ustack :: info :: l);
  fk_enough : (6 + 3 * length segs < length l)%nat;
  fk_image : _etext <= free_mem_start_addr (kmm s);
  fk_space : parent_ok (smem s) (tf :: dir :: stack :: ustack :: info :: l) pp segs;
}.

(** What alloc_process leaves is an address space under construction. *)
Lemma alloc_around s s' tf dir stack ustack info l taken l' :
  pmm_free (kmm s) (tf :: dir :: stack :: ustack :: info :: l) -> l = taken ++ l' ->
  aspace (kmm s') (new_mem (smem s) tf dir info) dir taken l' (new_entries tf ustack) ->
  let F0 := tf :: dir :: stack :: ustack :: info :: l in
  around (smem s) F0 dir s' (new_mem (smem s) tf dir info) taken l' (new_entries tf ustack) /\
  Forall (own F0 dir taken l') [tf; ustack; info; stack].
Proof.
  intros (_ & Hnd & Hman) El HS F0. rewrite !NoDup_cons, !not_elem_of_cons in Hnd.
  destruct Hnd as ((Hn1 & _ & _ & _ & Hn4) & (Hn0 & Hn5 & Hn6 & _) & (_ & _ & Hnl) & (_ & Hn8) & Hn9 & _).
  assert (forall p, p ∈ F0 -> ram_page p) as Hram.
  { rewrite Forall_forall in Hman. intros p Hp. apply (Hman p Hp). }
  assert (tf ∈ F0) as It by left. assert (dir ∈ F0) as Id by (right; left).
  assert (stack ∈ F0) as Is by (do 2 right; left). assert (ustack ∈ F0) as Iu by (do 3 right; left).
  assert (info ∈ F0) as Ii by (do 4 right; left). split.
  - split; [exact HS| |exact Id|intros p Hp; rewrite <- El in Hp; by do 5 right].
    intros z Hz Hzn. apply new_mem_other; [by apply Hram..|exact Hz| | |]; by intros ->.
  - assert (forall p, p ∈ F0 -> p <> dir -> p ∉ l -> own F0 dir taken l' p) as Hown.
    { intros p Hp Hpd Hpl. rewrite El, not_elem_of_app in Hpl. split; [|done].
      split; [by apply Hram|done|tauto|tauto]. }
    repeat (apply Forall_cons; split; [apply Hown; [done|congruence|done]|]). done.
Qed.

(** alloc_process and the loop of do_fork. *)
Lemma fork_builds s c pp segs n pr q tf dir stack ustack info l Q E :
  fork_ok s c pp segs n pr q tf dir stack ustack info l ->
  let F0 := tf :: dir :: stack :: ustack :: info :: l in
  let m0 := smem s in
  (forall s' m taken l' ps l0,
     forked m0 F0 dir pp segs tf stack ustack info n s l0 (length segs) s' m taken l' ps ->
     length ps = length segs ->
     wp (assign (Some n) (set_status READY) ;;;
         cp <- deref (Some n) ;;
         store64 (trapframe cp + tf_a0) 0 ;;;
         assign (Some n) (set_parent (Some c)) ;;;
         insert_to_ready_queue (Some n) ;;;
         cp <- deref (Some n) ;;
         ret (s32 (pid cp))) Q E s') ->
  (forall e s', never e s' -> E e s') ->
  wp (do_fork (Some c)) Q E s.
Proof.
  intros [Hlen [Hpp Hpf] Hfirst [Hn Hst] _ Hf Hl Hetext PK] F0 m0 Hend HE. unfold do_fork.
  assert (c <> n) as Hcn by congruence.
  eapply wp_bind_ok; [by apply deref_ok|]. cbv beta. eapply wp_bind_ok; [by apply sprint_eq|]. cbv beta.
  set (s1 := write_stderr _ s). apply wp_bind.
  eapply wp_mono; [apply (alloc_process_spec s1 n pr tf dir stack ustack info l Hlen Hfirst Hn Hst)| |exact HE].
  { exact Hf. } { lia. } { exact Hetext. }
  intros r s2 (-> & Hk & taken & l' & El & Htk & HS). change (smem s1) with m0 in HS.
  change (kvars (upd_proc n (new_process tf dir stack info) s1)) with
    (kvars (upd_proc n (new_process tf dir stack info) s)) in Hk.
  destruct (alloc_around s s2 tf dir stack ustack info l taken l' Hf El HS) as [HA Hown].
  rewrite !Forall_cons in Hown. destruct Hown as (Ot & Ou & Oi & Os & _).
  pose proof Hf as (_ & Hnd & Hman). rewrite !NoDup_cons, !not_elem_of_cons in Hnd.
  destruct Hnd as ((_ & _ & Hn2 & Hn3 & _) & _ & _ & (Hn7 & _) & _). apply Forall_cons in Hman as [Htf _].
  pose proof (new_pages_distinct _ _ Hetext Htf) as Hnp.
  assert (procs s2 !! c = Some pp) as Hpp2.
  { injection Hk as -> _ _ _ _. simpl. by rewrite list_lookup_alter_ne. }
  eapply wp_bind_ok; [by apply deref_ok|]. cbv beta. rewrite (pk_total _ _ _ _ PK).
  replace (range 0 (3 + Z.of_nat (length segs))) with (0 :: 1 :: 2 :: range 3 (Z.of_nat (length segs))).
  2: { by rewrite seqZ_app by lia. }
  apply wp_bind.
  apply (fork_fixed m0 F0 dir pp segs tf stack ustack info n s l' PK c
           Hn2 Hcn Hpp pr Hn s2 taken l' _ _ _ Hnp Hk HA); [exact Ot|exact Ou|exact Oi|exact Os|done|].
  intros s3 m3 HF3. eapply wp_mono.
  - apply (fork_segs m0 F0 dir pp segs tf stack ustack info n s l' PK c
      Hn2 (not_eq_sym Hn7) Hn3 Hcn Hpp pr Hn s3 m3 taken l' _ Hnp HF3).
    rewrite El, length_app in Hl. lia.
  - intros _ s4 (m4 & tk & l4 & ps & Hps & HF4). by eapply Hend.
  - intros e s4 He. exact He.
Qed.
End Correct.

(** do_fork, with the address space of the child. *)
Lemma do_fork_space {K : Layout} {KO : LayoutOk K} s c pp segs n pr q tf dir stack ustack info l :
  fork_ok s c pp segs n pr q tf dir stack ustack info l ->
  let F0 := tf :: dir :: stack :: ustack :: info :: l in
  wp (do_fork (Some c)) (fun r s' =>
    r = s32 (pid pr) /\ ready s' (q ++ [n]) /\
    (exists cp, procs s' !! n = Some cp /\ status cp = READY /\
       unlinked cp = unlinked (forked_process c tf dir stack info segs pr)) /\
    others_kept n s s' /\
    exists s1 m taken l' ps l0, length ps = length segs /\
      forked (smem s) F0 dir pp segs tf stack ustack info n s l0 (length segs) s1 m taken l' ps /\
      around (smem s) F0 dir s' (st64 m (tf + tf_a0) 0) taken l'
        (child_entries segs tf ustack (length segs) ps)) never s.
Proof.
  intros HOK F0. pose proof HOK as [_ _ _ [Hpn _] (Hq & Hql & Hqn) _ _ _ _].
  eapply fork_builds; [exact HOK| |done]. intros s1 m taken l' ps l0 HF Hps.
  pose proof HF as [HA Hk (Ot & _) _ _ _ _ _].
  eapply (fork_end _ F0 dir s1 s m taken l' _ c n pr q tf stack info segs); try eassumption.
  { rewrite Hk. unfold child_process. by rewrite take_ge by done. }
  intros s' cp HA' Hr Hcp Hu Hcs Hoth. split; [done|]. split; [exact Hr|]. split; [by exists cp|].
  split; [exact Hoth|]. by exists s1, m, taken, l', ps, l0.
Qed.

Lemma do_fork_copies_spec {K : Layout} {KO : LayoutOk K} s c pp segs n pr q tf dir stack ustack info l :
  fork_ok s c pp segs n pr q tf dir stack ustack info l ->
  let F0 := tf :: dir :: stack :: ustack :: info :: l in
  let page va := lookup_val (entry (smem s) (pagetable pp) va) in
  wp (do_fork (Some c)) (fun r s' =>
    r = s32 (pid pr) /\ ready s' (q ++ [n]) /\
    (exists cp, procs s' !! n = Some cp /\ status cp = READY /\
       unlinked cp = unlinked (forked_process c tf dir stack info segs pr)) /\
    (forall k, 0 <= k < 35 -> ld64 (smem s') (tf + 8 * k) =
       if decide (8 * k = tf_a0) then 0 else ld64 (smem s) (trapframe pp + 8 * k)) /\
    entry (smem s') dir stack_va = map_pte ustack stack_perm /\
    load_bytes (smem s') ustack (Z.to_nat PGSIZE) = load_bytes (smem s) (page stack_va) (Z.to_nat PGSIZE) /\
    (exists ps, length ps = length segs /\
       (forall x y p g, ps !! x = Some p -> ps !! y = Some p -> segs !! x = Some g ->
          snd g <> CODE_SEGMENT -> x = y) /\
       forall x g p, segs !! x = Some g -> ps !! x = Some p ->
         entry (smem s') dir (fst g) =
           map_pte p (if decide (snd g = CODE_SEGMENT) then code_perm else data_perm) /\
         if decide (snd g = CODE_SEGMENT) then p = page (fst g)
         else p ∈ F0 /\ p <> tf /\ p <> ustack /\ p <> info /\
              load_bytes (smem s') p (Z.to_nat PGSIZE) = load_bytes (smem s) (page (fst g)) (Z.to_nat PGSIZE)) /\
    (forall z, page_aligned z -> z ∉ F0 -> same_page z (smem s) (smem s')) /\ others_kept n s s') never s.
Proof.
  intros HOK F0 page. pose proof HOK as [_ _ _ _ _ Hf _ Het PK].
  pose proof Hf as (_ & Hnd & Hman). apply Forall_cons in Hman as [Htf _].
  assert (ustack <> tf) as Hut by (intros ->; rewrite NoDup_cons, !not_elem_of_cons in Hnd; tauto).
  pose proof (new_pages_distinct _ _ Het Htf) as Hnp.
  eapply wp_mono; [exact (do_fork_space _ _ _ _ _ _ _ _ _ _ _ _ _ HOK)| |done]. fold F0.
  intros r s' (-> & Hr & Hcp & Hoth & s1 & m & taken & l' & ps & l0 & Hps & HF & HA').
  pose proof HF as [HA Hk (Ot & Ou & _) Hw Hst Hpg Hd _].
  assert (forall z, own F0 dir taken l' z -> z <> tf -> same_page z (smem s') m) as Hsame.
  { intros z Hz Hne. etransitivity; [exact (around_own _ _ _ _ _ _ _ _ _ HA' Hz)|].
    pose proof Hz as [[[Hza _] _ _ _] _]. pose proof Ot as [[[Hta _] _ _ _] _]. apply storen_same_on.
    unfold tf_a0. destruct (page_disjoint z tf Hza Hta Hne); consts; lia. }
  assert (forall va, 0 <= va < 2 ^ 39 -> entry (smem s') dir va = child_entries segs tf ustack (length segs) ps va) as He.
  { apply (as_entry _ _ _ _ _ _ (ar_space _ _ _ _ _ _ _ _ HA')). }
  split; [done|]. split; [exact Hr|]. split; [exact Hcp|].
  split; [|split; [|split; [|split; [|split; [|exact Hoth]]]]].
  - intros k Hk35. rewrite (page_words_same tf (st64 m (tf + tf_a0) 0)); [|exact (around_own _ _ _ _ _ _ _ _ _ HA' Ot)|done].
    case_decide as Hk9; [by rewrite Hk9, ld64_st64|].
    rewrite loadn_storen_ne by (unfold tf_a0 in *; lia). by apply Hw.
  - rewrite He by (unfold stack_va, USER_STACK_TOP; consts; lia). eapply child_entry_stack; [exact PK|exact Hnp].
  - by rewrite (page_bytes_same ustack m) by (by apply Hsame).
  - exists ps. split; [done|]. split; [exact Hd|]. intros x g p Hg Hp.
    destruct (seg_range _ _ _ _ PK _ _ Hg) as [[Hva _] _]. unfold stack_va, USER_STACK_TOP in Hva.
    rewrite He by (consts; lia). split; [eapply child_entry_seg; [exact PK|exact Hps|exact Hg|exact Hp]|].
    rewrite take_ge in Hpg by done. pose proof (Forall2_lookup_lr _ _ _ _ _ _ Hpg Hg Hp) as Hin.
    unfold inherits in Hin. case_decide; [exact Hin|]. destruct Hin as (Op & Hn1 & Hn2 & Hn3 & _ & Hb).
    split_and!; [apply Op|done|done|done|]. by rewrite (page_bytes_same p m) by (by apply Hsame).
  - intros z Hz Hzn. exact (around_kept _ _ _ _ _ _ _ _ _ HA' Hz Hzn).
Qed.

(** * Properties *)

(** C12. fork duplicates the parent.  When the parent's segments are recorded, a
    page each, and there is memory enough, do_fork returns the number of the
    child, which is READY at the end of the queue; the child's trap frame is
    that of the parent with a0 = 0; its stack and each of its data segments are
    pages of its own with the contents of the parent's, at the same addresses;
    each code segment is mapped to the page of the parent; and every page that
    was in use keeps its contents. *)
Theorem do_fork_copies {K : Layout} {KO : LayoutOk K} s c pp segs n pr q tf dir stack ustack info l :
  fork_ok s c pp segs n pr q tf dir stack ustack info l ->
  let F0 := tf :: dir :: stack :: ustack :: info :: l in
  let page va := lookup_val (entry (smem s) (pagetable pp) va) in
  wp (do_fork (Some c)) (fun r s' =>
    r = s32 (pid pr) /\ ready s' (q ++ [n]) /\
    (exists cp, procs s' !! n = Some cp /\ status cp = READY /\
       unlinked cp = unlinked (forked_process c tf dir stack info segs pr)) /\
    (forall k, 0 <= k < 35 -> ld64 (smem s') (tf + 8 * k) =
       if decide (8 * k = tf_a0) then 0 else ld64 (smem s) (trapframe pp + 8 * k)) /\
    entry (smem s') dir stack_va = map_pte ustack stack_perm /\
    load_bytes (smem s') ustack (Z.to_nat PGSIZE) = load_bytes (smem s) (page stack_va) (Z.to_nat PGSIZE) /\
    (exists ps, length ps = length segs /\
       (forall x y p g, ps !! x = Some p -> ps !! y = Some p -> segs !! x = Some g ->
          snd g <> CODE_SEGMENT -> x = y) /\
       forall x g p, segs !! x = Some g -> ps !! x = Some p ->
         entry (smem s') dir (fst g) =
           map_pte p (if decide (snd g = CODE_SEGMENT) then code_perm else data_perm) /\
         if decide (snd g = CODE_SEGMENT) then p = page (fst g)
         else p ∈ F0 /\ p <> tf /\ p <> ustack /\ p <> info /\
              load_bytes (smem s') p (Z.to_nat PGSIZE) = load_bytes (smem s) (page (fst g)) (Z.to_nat PGSIZE)) /\
    (forall z, page_aligned z -> z ∉ F0 -> same_page z (smem s) (smem s')) /\ others_kept n s s') never s.
Proof. apply do_fork_copies_spec. Qed.
