(* ===== verification/Regs.v ===== *)
(** The registers the trap vector has left are not touched by the code of the
    kernel written in C: whatever it does, and however it ends, [gpr] is the
    same afterwards, until return_to_user loads the registers of a process. *)
From S2P Require Import Prelude Mem Context CString Snprintf Console Pmm Sv39 Vmm Kstate Sched Process.

(** A relation between the states before and after, for the runs that return. *)
Definition preserves {S A} (R : relation S) (c : M S A) : Prop :=
  forall s, wp c (fun _ s' => R s s') (fun _ _ => True) s.

Lemma wp_preserves {S A} (R : relation S) (c : M S A) Q E s :
  wp c Q E s -> preserves R c -> wp c (fun a s' => Q a s' /\ R s s') E s.
Proof. intros H1 H2. specialize (H2 s). unfold wp in *. by destruct (c s). Qed.

Definition same_gpr {S} `{Lens S machine} : relation S := fun s s' => gpr (lget s') = gpr (lget s).

Section Preserves.
Context {S : Type} (R : relation S) `{!PreOrder R}.

Lemma pres_ret {A} (a : A) : preserves R (ret a).
Proof. intros s. apply wp_ret. reflexivity. Qed.

Lemma pres_halt {A} e : preserves (A := A) R (halt e).
Proof. done. Qed.

Lemma pres_gets {A} (f : S -> A) : preserves R (gets f).
Proof. intros s. apply wp_gets. reflexivity. Qed.

Lemma pres_get_st : preserves R get_st.
Proof. intros s. apply wp_get_st. reflexivity. Qed.

Lemma pres_modify (f : S -> S) : (forall s, R s (f s)) -> preserves R (modify f).
Proof. intros H s. by apply wp_modify. Qed.

Lemma pres_bind {A B} (c : M S A) (f : A -> M S B) :
  preserves R c -> (forall a, preserves R (f a)) -> preserves R (bind c f).
Proof.
  intros Hc Hf s. apply wp_bind. eapply wp_mono; [apply Hc| |done].
  intros a s1 H1. eapply wp_mono; [apply Hf| |done]. intros b s2 H2. by transitivity s1.
Qed.

Lemma pres_for_each {X} (l : list X) (body : X -> M S unit) :
  (forall x, preserves R (body x)) -> preserves R (for_each l body).
Proof.
  intros Hb. induction l as [|x l IH]; [apply pres_ret|]. by apply pres_bind.
Qed.

Lemma pres_loop {X B} fuel (body : X -> M S (X + B)) x :
  (forall x, preserves R (body x)) -> preserves R (loop fuel body x).
Proof.
  intros Hb s. apply wp_bind.
  eapply wp_mono; [apply (wp_iterate body (fun _ _ s' => R s s') (fun _ s' => R s s') _ fuel 0)| |done].
  - reflexivity.
  - intros n y s1 H1. eapply wp_mono; [apply Hb| |done].
    intros [y'|v] s2 H2; [exists (n - 1); split; [lia|]|]; by transitivity s1.
  - intros [y|v] s' H; [done|exact H].
Qed.
End Preserves.

#[export] Instance same_gpr_preorder {S} `{Lens S machine} : PreOrder (same_gpr (S := S)).
Proof. split; unfold same_gpr; [done|congruence]. Qed.

Create HintDb regs discriminated.
#[export] Hint Resolve pres_ret pres_halt pres_gets pres_get_st : regs.

(** [pres]: decompose a computation into operations known to preserve. *)
Ltac pres :=
  repeat match goal with
  | |- forall _, _ => intro
  | |- preserves _ (bind _ _) => apply pres_bind; [apply _| |]
  | |- preserves _ (for_each _ _) => apply pres_for_each; [apply _|]
  | |- preserves _ (loop _ _ _) => apply pres_loop; [apply _|]
  | |- preserves _ (halt _) => apply pres_halt
  | |- preserves _ (match ?b with _ => _ end) => destruct b
  | |- preserves _ (modify _) => solve [apply pres_modify; reflexivity]
  | |- _ => solve [eauto 3 with regs typeclass_instances]
  end.

(** ** The machine, strings and messages *)
Section Machine.
Context {S : Type} `{L : !Lens S machine}.

Lemma pres_load n a : preserves same_gpr (load n a).
Proof. intros s. unfold wp, load. by destruct (ram_ok a (Z.of_nat n)). Qed.

Lemma pres_store n a v : preserves same_gpr (store n a v).
Proof.
  intros s. unfold wp, store. destruct (ram_ok a (Z.of_nat n)); [|done]. apply gpr_put_mem.
Qed.

Lemma pres_write_stderr bs : preserves same_gpr (modify (write_stderr bs)).
Proof. apply pres_modify. intros s. unfold same_gpr, write_stderr. by rewrite lget_lput. Qed.

Lemma pres_vprintk fmt vl : preserves same_gpr (vprintk fmt vl).
Proof.
  unfold vprintk. destruct (vsnprintf _ _ _ _) as [[res out]|]; [|done]. apply pres_write_stderr.
Qed.

Lemma pres_sprint fmt vl : preserves same_gpr (sprint fmt vl).
Proof. apply pres_vprintk. Qed.
End Machine.

#[export] Hint Resolve pres_load pres_store pres_write_stderr pres_vprintk pres_sprint : regs.

Section Strings.
Context {S : Type} `{L : !Lens S machine}.

Lemma pres_panic {A} fmt : preserves (A := A) (same_gpr (S := S)) (panic fmt).
Proof. unfold panic, do_panic, shutdown. pres. Qed.

Lemma pres_memset dest c len : preserves (same_gpr (S := S)) (memset dest c len).
Proof. unfold memset, memset_loop. pres. Qed.

Lemma pres_memcpy dest src len : preserves (same_gpr (S := S)) (memcpy dest src len).
Proof. unfold memcpy, memcpy_words, memcpy_bytes. pres. Qed.
End Strings.

#[export] Hint Resolve pres_panic pres_memset pres_memcpy : regs.

(** ** Memory management *)

Lemma pres_alloc_page : preserves same_gpr alloc_page.
Proof. unfold alloc_page. pres. Qed.

#[export] Hint Resolve pres_alloc_page : regs.

Lemma pres_walk_levels level : forall pt va alloc, preserves same_gpr (walk_levels level pt va alloc).
Proof. induction level as [|l IH]; intros pt va alloc; cbn [walk_levels]; pres; apply IH. Qed.

#[export] Hint Resolve pres_walk_levels : regs.

Lemma pres_page_walk pt va alloc : preserves same_gpr (page_walk pt va alloc).
Proof. unfold page_walk. pres. Qed.

#[export] Hint Resolve pres_page_walk : regs.

Lemma pres_map_pages pt va size pa perm : preserves same_gpr (map_pages pt va size pa perm).
Proof. unfold map_pages. pres. Qed.

#[export] Hint Resolve pres_map_pages : regs.

Lemma pres_user_vm_map pt va size pa perm : preserves same_gpr (user_vm_map pt va size pa perm).
Proof. unfold user_vm_map. pres. Qed.

Lemma pres_lookup_pa pt va : preserves same_gpr (lookup_pa pt va).
Proof. unfold lookup_pa. pres. Qed.

#[export] Hint Resolve pres_user_vm_map pres_lookup_pa : regs.

(** ** Processes *)

Lemma pres_zoom {A} (c : M mm A) : preserves same_gpr c -> preserves (S := kstate) same_gpr (zoom c).
Proof. intros Hc s. apply wp_zoom. eapply wp_mono; [apply Hc| |done]. done. Qed.

Lemma pres_deref p : preserves (S := kstate) same_gpr (deref p).
Proof. intros s. destruct p as [i|]; [|done]. unfold wp, deref. by destruct (procs s !! i). Qed.

#[export] Hint Resolve pres_zoom pres_deref : regs.

Lemma pres_assign p f : preserves (S := kstate) same_gpr (assign p f).
Proof. unfold assign. pres. Qed.

#[export] Hint Resolve pres_assign : regs.

Lemma pres_find_free n i : preserves (S := kstate) same_gpr (find_free n i).
Proof. revert i. induction n as [|n IH]; intros i; cbn [find_free]; pres. Qed.

#[export] Hint Resolve pres_find_free : regs.

Section Fork.
Context {K : Layout}.

Lemma pres_set_region info k va n t : preserves (S := kstate) same_gpr (set_region info k va n t).
Proof. unfold set_region. pres. Qed.

Lemma pres_insert_to_ready_queue p : preserves same_gpr (insert_to_ready_queue p).
Proof. unfold insert_to_ready_queue, browse_queue. pres. Qed.

Hint Resolve pres_set_region pres_insert_to_ready_queue : regs.

Lemma pres_alloc_process : preserves same_gpr alloc_process.
Proof. unfold alloc_process. pres. Qed.

Lemma pres_fork_region parent c i : preserves same_gpr (fork_region parent c i).
Proof. unfold fork_region, fork_stack, fork_data, int_op, copy_data_page, fork_code, copy_trapframe. pres. Qed.

Hint Resolve pres_alloc_process pres_fork_region : regs.

Lemma pres_do_fork parent : preserves same_gpr (do_fork parent).
Proof. unfold do_fork. pres. Qed.
End Fork.
