(* ===== verification/Syscall.v ===== *)
(** kernel/syscall.c: the system calls and their dispatch. *)
From S2P Require Import Prelude Mem Context CString Snprintf Console Pmm Sv39 Vmm Kstate Sched Process.

(** ** kernel/syscall.h *)
Definition SYS_user_base : Z := 64.
Definition SYS_user_print : Z := SYS_user_base + 0.
Definition SYS_user_exit : Z := SYS_user_base + 1.
Definition SYS_user_allocate_page : Z := SYS_user_base + 2.
Definition SYS_user_free_page : Z := SYS_user_base + 3.
Definition SYS_user_fork : Z := SYS_user_base + 4.
Definition SYS_user_yield : Z := SYS_user_base + 5.
Definition SYS_user_wait : Z := SYS_user_base + 6.

Section Code.
Context `{Layout}.

(** [sprint(pa)]: the string of the user is the format; there are no
    arguments. *)
Definition sys_user_print (buf n : Z) : M kstate Z :=
  c <- gets current ;;
  assert_ (bool_decide (is_Some c)) "kernel/syscall.c" 25 "current" ;;;
  p <- deref c ;;
  pa <- zoom (user_va_to_pa (pagetable p) buf) ;;
  bs <- read_string pa ;;
  vprintk bs [] ;;;
  ret 0.

Definition sys_user_exit (code : Z) : M kstate Z :=
  sprint "User exit with code:%d.
" [VInt code] ;;;
  c <- gets current ;;
  free_process c ;;;
  (schedule : M kstate unit) ;;;
  ret 0.

Definition sys_user_allocate_page : M kstate Z :=
  pa <- zoom alloc_page ;;
  va <- gets g_ufree_page ;;
  modify (set_g_ufree_page (u64 (va + PGSIZE))) ;;;
  c <- gets current ;;
  p <- deref c ;;
  zoom (user_vm_map (pagetable p) va PGSIZE pa (prot_to_type (Z.lor PROT_WRITE PROT_READ) 1)) ;;;
  ret va.

Definition sys_user_free_page (va : Z) : M kstate Z :=
  c <- gets current ;;
  p <- deref c ;;
  zoom (user_vm_unmap (pagetable p) va PGSIZE 1) ;;;
  ret 0.

Definition sys_user_fork : M kstate Z :=
  sprint "User call fork.
" [] ;;;
  c <- gets current ;;
  do_fork c.

(** [wait] takes an [int]. *)
Definition sys_user_wait (pid : Z) : M kstate Z := wait (s32 pid).

Definition sys_user_yield : M kstate Z :=
  c <- gets current ;;
  assign c (set_status READY) ;;;
  insert_to_ready_queue c ;;;
  (schedule : M kstate unit) ;;;
  ret 0.

Definition do_syscall (a0 a1 a2 a3 a4 a5 a6 a7 : Z) : M kstate Z :=
  if a0 =? SYS_user_print then sys_user_print a1 a2
  else if a0 =? SYS_user_exit then sys_user_exit a1
  else if a0 =? SYS_user_allocate_page then sys_user_allocate_page
  else if a0 =? SYS_user_free_page then sys_user_free_page a1
  else if a0 =? SYS_user_fork then sys_user_fork
  else if a0 =? SYS_user_yield then sys_user_yield
  else if a0 =? SYS_user_wait then sys_user_wait a1
  else panic "Unknown syscall %ld 
".
End Code.
