(* ===== verification/Strap.v ===== *)
(** kernel/strap.c: the handling of traps from user mode. *)
From S2P Require Import Prelude Mem Context CString Snprintf Console Pmm Sv39 Vmm Kstate Sched Process Syscall.

(** ** kernel/riscv.h, kernel/sched.h *)
Definition CAUSE_USER_ECALL : Z := 0x8.
Definition CAUSE_LOAD_PAGE_FAULT : Z := 0xd.
Definition CAUSE_STORE_PAGE_FAULT : Z := 0xf.
Definition CAUSE_MTIMER_S_TRAP : Z := 0x8000000000000001.
Definition TIME_SLICE_LEN : Z := 2.
Definition SSTATUS_SIE : Z := Z.shiftl 1 1.

(** The interrupts of the supervisor. *)
Section Interrupts.
Context {S : Type} `{L : !Lens S machine}.

Definition intr_on : M S unit := x <- read_csr sstatus ;; write_csr sstatus (Z.lor x SSTATUS_SIE).

Definition intr_off : M S unit :=
  x <- read_csr sstatus ;; write_csr sstatus (Z.land x (Z.lnot SSTATUS_SIE)).

Definition is_intr_enable : M S Z :=
  x <- read_csr sstatus ;; ret (if Z.land x SSTATUS_SIE =? 0 then 0 else 1).

Lemma sie_bit x : (Z.land (u64 x) SSTATUS_SIE =? 0) = negb (Z.testbit x 1).
Proof.
  change (u64 x) with (x mod 2 ^ 64). rewrite <- Z.land_ones, <- Z.land_assoc by lia.
  change (Z.land (Z.ones 64) SSTATUS_SIE) with (Z.shiftl 1 1). rewrite Z.land_comm.
  destruct (Z.testbit x 1) eqn:E.
  - apply Z.eqb_neq. intros H. apply (f_equal (fun z => Z.testbit z 1)) in H.
    rewrite Z.land_spec, E in H. discriminate H.
  - apply Z.eqb_eq, Z.bits_inj'. intros n Hn. rewrite Z.land_spec, Z.bits_0, Z.shiftl_1_l, Z.pow2_bits_eqb by lia.
    destruct (Z.eqb_spec 1 n) as [<-|]; [exact E|done].
Qed.

Lemma intr_on_enabled (s : S) : exists s', (intr_on ;;; is_intr_enable) s = Ok 1 s'.
Proof.
  eexists. unfold intr_on, is_intr_enable, bind, read_csr, write_csr, gets, modify, ret. csimp.
  rewrite sie_bit, Z.lor_spec. change (Z.testbit SSTATUS_SIE 1) with true. by rewrite orb_true_r.
Qed.

Lemma intr_off_disabled (s : S) : exists s', (intr_off ;;; is_intr_enable) s = Ok 0 s'.
Proof.
  eexists. unfold intr_off, is_intr_enable, bind, read_csr, write_csr, gets, modify, ret. csimp.
  rewrite sie_bit, Z.land_spec. change (Z.testbit (Z.lnot SSTATUS_SIE) 1) with false. by rewrite andb_false_r.
Qed.
End Interrupts.

Section Code.
Context `{Layout}.

Definition handle_syscall (tf : Z) : M kstate unit :=
  epc <- load64 (tf + tf_epc) ;;
  store64 (tf + tf_epc) (epc + 4) ;;;
  a0 <- load64 (tf + tf_a0) ;;
  a1 <- load64 (tf + tf_a1) ;;
  a2 <- load64 (tf + tf_a2) ;;
  a3 <- load64 (tf + tf_a3) ;;
  a4 <- load64 (tf + tf_a4) ;;
  a5 <- load64 (tf + tf_a5) ;;
  a6 <- load64 (tf + tf_a6) ;;
  a7 <- load64 (tf + tf_a7) ;;
  r <- do_syscall a0 a1 a2 a3 a4 a5 a6 a7 ;;
  store64 (tf + tf_a0) r.

Definition handle_mtimer_trap : M kstate unit :=
  t <- gets g_ticks ;;
  sprint "Ticks %d
" [VInt t] ;;;
  modify (set_g_ticks (u64 (t + 1))) ;;;
  write_csr sip 0.

(** The result of map_pages is not looked at. *)
Definition handle_user_page_fault (mcause sepc stval : Z) : M kstate unit :=
  sprint "handle_page_fault: %lx
" [VInt stval] ;;;
  if mcause =? CAUSE_STORE_PAGE_FAULT then
    c <- gets current ;;
    p <- deref c ;;
    pa <- zoom alloc_page ;;
    zoom (map_pages (pagetable p) stval 1 pa (prot_to_type (Z.lor PROT_WRITE PROT_READ) 1)) ;;;
    ret tt
  else
    sprint "unknown page fault.
" [].

Definition rrsched : M kstate unit :=
  c <- gets current ;;
  p <- deref c ;;
  let t := tick_count p + 1 in
  assign c (set_tick_count t) ;;;
  if TIME_SLICE_LEN <? t then
    assign c (set_tick_count 0) ;;;
    assign c (set_status READY) ;;;
    insert_to_ready_queue c ;;;
    schedule
  else ret tt.

(** The handler never returns: it ends in switch_to.  [%p] prints an
    address. *)
Definition smode_trap_handler {A} : M kstate A :=
  st <- read_csr sstatus ;;
  (if negb (Z.land st SSTATUS_SPP =? 0) then panic "usertrap: not from user mode" else ret tt) ;;;
  c <- gets current ;;
  assert_ (bool_decide (is_Some c)) "kernel/strap.c" 95 "current" ;;;
  p <- deref c ;;
  epc <- read_csr sepc ;;
  store64 (trapframe p + tf_epc) epc ;;;
  cause <- read_csr scause ;;
  (if cause =? CAUSE_USER_ECALL then handle_syscall (trapframe p)
   else if cause =? CAUSE_MTIMER_S_TRAP then handle_mtimer_trap ;;; rrsched
   else if (cause =? CAUSE_STORE_PAGE_FAULT) || (cause =? CAUSE_LOAD_PAGE_FAULT) then
     epc <- read_csr sepc ;;
     va <- read_csr stval ;;
     handle_user_page_fault cause epc va
   else
     sprint "smode_trap_handler(): unexpected scause %p
" [VInt cause] ;;;
     epc <- read_csr sepc ;;
     va <- read_csr stval ;;
     sprint "            sepc=%p stval=%p
" [VInt epc; VInt va] ;;;
     panic "unexpected exception happened.
") ;;;
  c <- gets current ;;
  switch_to c.
End Code.
