(* ===== verification/System.v ===== *)
(** The kernel as a transition system.  Between two traps user code may change
    the machine in any way; a trap runs [smode_trap_handler], which enters user
    mode again, stops the machine, or fails.  The theorems relate these runs to
    an abstract round-robin scheduler, whatever user code does to memory. *)
From S2P Require Import Prelude Mem Context CString Snprintf Console Pmm Sv39 Vmm Kstate Robust Sched Process Syscall Strap.

(** ** The invariant *)

(** The queue is [l]; the ready processes are those of [l] and [x]. *)
Record sched_inv (s : kstate) (l x : list nat) : Prop := {
  si_length : length (procs s) = NPROC;
  si_queue : ready s l;
  si_queued : forall i p, i ∈ l -> procs s !! i = Some p -> status p = READY;
  si_ready : forall i p, procs s !! i = Some p -> status p = READY -> i ∈ l \/ i ∈ x;
  si_status : forall i p, procs s !! i = Some p ->
                status p = FREE \/ status p = READY \/ status p = ZOMBIE;
  si_pid : forall i p, procs s !! i = Some p -> pid p = Z.of_nat i;
}.

(** The process [c] runs and [l] wait for their turn. *)
Definition running (s : kstate) (c : nat) (l : list nat) : Prop :=
  sched_inv s l [c] /\ current s = Some c /\ c ∉ l /\
  exists p, procs s !! c = Some p /\ status p = READY.

(** ** What scheduling looks at *)

Definition core (p : process) := (pid p, status p, queue_next p).

(** States that scheduling does not distinguish. *)
Definition same_core : relation kstate := fun s s' =>
  current s' = current s /\ ready_queue_head s' = ready_queue_head s /\
  core <$> procs s' = core <$> procs s.

#[export] Instance same_core_ignores : IgnoresMm same_core.
Proof.
  split; [split|]; unfold same_core; [done| |done].
  intros s1 s2 s3 (? & ? & ?) (? & ? & ?). split_and!; congruence.
Qed.

Lemma same_core_upd i f s : (forall p, core (f p) = core p) -> same_core s (upd_proc i f s).
Proof.
  intros Hf. split_and!; [done..|]. simpl. apply list_eq. intros j.
  rewrite !list_lookup_fmap, list_lookup_alter.
  destruct (decide (i = j)) as [->|]; [|done]. destruct (procs s !! j); simpl; [|done].
  by rewrite Hf.
Qed.

Lemma same_core_lookup s s' i p :
  same_core s s' -> procs s' !! i = Some p ->
  exists q, procs s !! i = Some q /\ core q = core p.
Proof.
  intros (_ & _ & H) Hp. assert ((core <$> procs s') !! i = Some (core p)) as Hc.
  { by rewrite list_lookup_fmap, Hp. }
  rewrite H, list_lookup_fmap in Hc. destruct (procs s !! i) as [q|]; [|done].
  exists q. split; [done|]. simpl in Hc. congruence.
Qed.

Lemma same_core_sym s s' : same_core s s' -> same_core s' s.
Proof. intros (? & ? & ?). split_and!; congruence. Qed.

Lemma sched_inv_core s s' l x : same_core s s' -> sched_inv s l x -> sched_inv s' l x.
Proof.
  intros Hc [H1 H2 H3 H4 H5 H6]. pose proof Hc as (_ & Hh & Hps).
  assert (forall i p, procs s' !! i = Some p -> exists q, procs s !! i = Some q /\
            pid q = pid p /\ status q = status p) as Hl.
  { intros i p Hp. destruct (same_core_lookup _ _ _ _ Hc Hp) as (q & Hq & [= E1 E2 _]). eauto. }
  split.
  - apply (f_equal length) in Hps. rewrite !length_fmap in Hps. congruence.
  - destruct H2 as [Hq Hnd]. split; [|done]. rewrite Hh. eapply queue_frame; [|done].
    intros i p _ Hp. destruct (same_core_lookup _ _ _ _ (same_core_sym _ _ Hc) Hp)
      as (q & Hq' & [= _ _ E]). eauto.
  - intros i p Hi Hp. destruct (Hl i p Hp) as (q & Hq & _ & <-). eauto.
  - intros i p Hp Hs. destruct (Hl i p Hp) as (q & Hq & _ & E). rewrite <- E in Hs. eauto.
  - intros i p Hp. destruct (Hl i p Hp) as (q & Hq & _ & <-). eauto.
  - intros i p Hp. destruct (Hl i p Hp) as (q & Hq & <- & _). eauto.
Qed.

Lemma running_core s s' c l : same_core s s' -> running s c l -> running s' c l.
Proof.
  intros Hc (HI & Hcur & Hn & p & Hp & Hs). split; [by eapply sched_inv_core|].
  split; [by rewrite (proj1 Hc)|]. split; [done|].
  destruct (same_core_lookup _ _ _ _ (same_core_sym _ _ Hc) Hp) as (q & Hq & [= _ E _]).
  exists q. split; [done|congruence].
Qed.

Lemma kvars_core s s' : kvars s' = kvars s -> same_core s s'.
Proof. unfold kvars, same_core. intros [= -> -> -> _ _]. done. Qed.

(** ** The operations on the queue *)

Lemma sched_inv_bound s l x : sched_inv s l x -> (length l <= NPROC)%nat.
Proof.
  intros [Hlen [Hq Hnd] _ _ _ _].
  assert (l ⊆+ seq 0 NPROC) as Hs.
  { apply NoDup_submseteq; [done|]. intros i Hi.
    destruct (queue_lookup _ _ _ _ Hq Hi) as [p Hp]. apply lookup_lt_Some in Hp.
    apply elem_of_seq. lia. }
  apply submseteq_length in Hs. by rewrite length_seq in Hs.
Qed.

(** A process outside of the queue enters it at the end. *)
Lemma enqueue_inv i l x s p :
  sched_inv s l (i :: x) -> i ∉ l -> procs s !! i = Some p ->
  sched_inv (enqueue i l s) (l ++ [i]) x.
Proof.
  intros [H1 H2 H3 H4 H5 H6] Hi Hp.
  assert (forall j q, procs (enqueue i l s) !! j = Some q -> exists r, procs s !! j = Some r /\
            pid q = pid r /\ status q = if decide (j = i) then READY else status r) as Hl.
  { intros j q Hq. destruct (procs s !! j) as [r|] eqn:Hr.
    - destruct (enqueue_proc i l s j r Hr) as (q' & Hq' & Hu & Hs & _).
      assert (q' = q) as -> by congruence. exists r. split; [done|].
      split; [by injection Hu|]. rewrite Hs. apply decide_ext. tauto.
    - apply lookup_ge_None in Hr. apply lookup_lt_Some in Hq. rewrite enqueue_length in Hq. lia. }
  split.
  - by rewrite enqueue_length.
  - pose proof (enqueue_ready i l s p H2 Hp) as Hr. unfold enqueued in Hr.
    by rewrite decide_False in Hr.
  - intros j q Hj Hq. destruct (Hl j q Hq) as (r & Hr & _ & ->). case_decide; [done|].
    apply (H3 j); [set_solver|done].
  - intros j q Hq Hs. destruct (Hl j q Hq) as (r & Hr & _ & E). rewrite E in Hs.
    case_decide; [set_solver|]. destruct (H4 j r Hr Hs); set_solver.
  - intros j q Hq. destruct (Hl j q Hq) as (r & Hr & _ & ->). case_decide; [tauto|]. eauto.
  - intros j q Hq. destruct (Hl j q Hq) as (r & Hr & -> & _). eauto.
Qed.

(** An update of the status of one process outside of the queue. *)
Lemma set_status_inv i st l x x' s :
  sched_inv s l x -> i ∉ l -> (st = READY \/ st = ZOMBIE) ->
  (forall j, j ∈ x -> j ∈ x' \/ j = i) -> (st = READY -> i ∈ x') ->
  sched_inv (upd_proc i (set_status st) s) l x'.
Proof.
  intros [H1 H2 H3 H4 H5 H6] Hi Hst Hx Hx'.
  assert (forall j q, procs (upd_proc i (set_status st) s) !! j = Some q ->
            exists r, procs s !! j = Some r /\ pid q = pid r /\
                      status q = if decide (j = i) then st else status r) as Hl.
  { intros j q. simpl. rewrite list_lookup_alter. destruct (decide (i = j)) as [->|Hne].
    - destruct (procs s !! j) as [r|]; [|done]. intros [= <-]. exists r.
      by rewrite decide_True.
    - intros Hq. exists q. by rewrite decide_False. }
  split.
  - by rewrite length_procs_upd.
  - destruct H2 as [Hq Hnd]. split; [|done]. eapply queue_frame; [|done].
    intros j q Hj Hq'. rewrite procs_upd_ne by (intros ->; done). eauto.
  - intros j q Hj Hq. destruct (Hl j q Hq) as (r & Hr & _ & ->). rewrite decide_False; [eauto|].
    by intros ->.
  - intros j q Hq Hs. destruct (Hl j q Hq) as (r & Hr & _ & E). rewrite E in Hs.
    case_decide as Hji; [subst; right; by apply Hx'|].
    destruct (H4 j r Hr Hs) as [|Hjx]; [by left|]. destruct (Hx j Hjx); [by right|done].
  - intros j q Hq. destruct (Hl j q Hq) as (r & Hr & _ & ->). case_decide; [tauto|]. eauto.
  - intros j q Hq. destruct (Hl j q Hq) as (r & Hr & -> & _). eauto.
Qed.

(** insert_to_ready_queue, on the invariant. *)
Lemma insert_inv i l x s p :
  sched_inv s l (i :: x) -> i ∉ l -> procs s !! i = Some p ->
  wp (insert_to_ready_queue (Some i)) (fun _ s' => sched_inv s' (l ++ [i]) x /\
        current s' = current s /\
        forall j q, procs s !! j = Some q -> exists q', procs s' !! j = Some q' /\
                    pid q' = pid q /\ parent q' = parent q /\
                    status q' = if decide (j = i) then READY else status q) never s.
Proof.
  intros HI Hi Hp. eapply wp_intro.
  - apply (insert_to_ready_queue_spec i l s p); [apply HI|by eapply sched_inv_bound|done].
  - set (s1 := write_stderr _ s).
    assert (same_core s s1) as Hc by (by apply kvars_core).
    split_and!.
    + apply (enqueue_inv i l x s1 p); [by eapply sched_inv_core|done|done].
    + unfold enqueue. case_decide; [done|]. by destruct (last l).
    + intros j q Hq. destruct (enqueue_proc i l s1 j q Hq) as (q' & Hq' & Hu & Hs & _).
      exists q'. injection Hu as. split_and!; [done|done|done|]. rewrite Hs.
      apply decide_ext. tauto.
Qed.

(** [robust_step R H]: run a robust operation, where [H : R s0 s] relates the
    current state to the first one. *)
Ltac robust_side :=
  lazymatch goal with
  | |- keeps _ _ => keeps_tac
  | |- _ => intros ? ? ?; first [assumption | by left]
  end.
Ltac robust_step R H :=
  eapply (wp_bind_keeps R _ _ _ _ _ _ H); [robust_side|robust_side|];
  clear H; intros ? ? H; cbv beta.

Section Steps.
Context {K : Layout}.

(** ** Entering user mode *)

Lemma keeps_restore_all_registers : keeps same_kvars restore_all_registers.
Proof. unfold restore_all_registers, get_reg, set_reg. keeps_tac. by apply keeps_modify. Qed.

Lemma return_to_user_robust {A} tf usatp s :
  wp (@return_to_user _ _ A tf usatp) (fun _ _ => False)
     (fun e s' => is_error e \/ e = SRet /\ kvars s' = kvars s) s.
Proof.
  unfold return_to_user. do 3 (eapply wp_bind_ok; [done|]; cbv beta).
  apply wp_bind. eapply wp_mono; [apply keeps_restore_all_registers| |by left].
  intros [] s' Hk. apply wp_halt. right. split; [done|]. by rewrite Hk.
Qed.

Lemma switch_to_robust {A} i p s :
  procs s !! i = Some p ->
  wp (@switch_to K A (Some i)) (fun _ _ => False)
     (fun e s' => is_error e \/ e = SRet /\ kvars s' = kvars (set_current (Some i) s)) s.
Proof.
  intros Hi. unfold switch_to. change (bool_decide (is_Some (Some i))) with true.
  do 3 (eapply wp_bind_ok; [done|]; cbv beta).
  eapply wp_bind_ok; [by apply deref_ok|]. cbv beta.
  set (s1 := put_csr _ _ _). assert (kvars s1 = kvars (set_current (Some i) s)) as <- by done.
  clearbody s1. clear Hi s.
  assert (same_kvars s1 s1) as Hr by done.
  do 8 robust_step same_kvars Hr.
  eapply wp_mono; [apply return_to_user_robust|done|].
  intros e t [He|[-> Hk]]; [by left|right]. split; [done|]. by rewrite Hk.
Qed.

(** ** schedule, on the invariant *)

(** What becomes of a queue when the next process is chosen from it. *)
Definition scheduled (s : kstate) (l : list nat) (e : stop) (s' : kstate) : Prop :=
  is_error e \/
  (e = SRet /\ exists c l', l = c :: l' /\ running s' c l') \/
  (e = Shutdown 0 /\ l = []).

Lemma schedule_inv {A} s l :
  sched_inv s l [] -> wp (@schedule K A) (fun _ _ => False) (scheduled s l) s.
Proof.
  intros HI. pose proof HI as [H1 H2 H3 H4 H5 H6]. destruct l as [|c l].
  - eapply wp_mono; [apply schedule_empty; [apply H2|done]|done|].
    intros e s' ->. right; right. split; [|done]. rewrite bool_decide_true; [done|].
    apply Forall_lookup. intros i p Hp. unfold finished.
    destruct (H5 i p Hp) as [|[Hs|]]; [tauto| |tauto].
    destruct (H4 i p Hp Hs) as [Hi|Hi]; by apply elem_of_nil in Hi.
  - destruct (queue_lookup _ _ _ c (proj1 H2)) as [p Hp]; [left|].
    pose proof (H3 c p ltac:(left) Hp) as Hs.
    destruct H2 as [(Hh & p' & Hp' & Hq) Hnd]. assert (p' = p) as -> by congruence.
    unfold schedule. eapply wp_bind_ok; [done|]. cbv beta. rewrite Hh.
    do 3 cstep. eapply wp_bind_ok; [simpl; rewrite Hh; by apply deref_ok|].
    cbv beta. rewrite Hs. do 2 cstep.
    eapply wp_bind_ok; [by apply sprint_eq|]. cbv beta. simpl current. rewrite Hh.
    eapply wp_mono; [by apply (switch_to_robust c p)|done|].
    intros e s' [He|[-> Hk]]; [by left|]. right; left. split; [done|]. exists c, l.
    split; [done|]. unfold kvars in Hk. simpl in Hk. injection Hk as E1 E2 E3 _ _.
    apply NoDup_cons in Hnd as [Hnd1 Hnd2]. split; [|split_and!; [done|done|rewrite E1; eauto]].
    split; rewrite ?E1; try done.
    + unfold ready. by rewrite E1, E3.
    + intros i q Hi. apply H3. by right.
    + intros i q Hq' Hs'. destruct (H4 i q Hq' Hs') as [Hi|Hi]; [|by apply elem_of_nil in Hi].
      apply elem_of_cons in Hi as [->|Hi]; [right; left|by left].
Qed.

(** ** Creating a process *)

Lemma find_free_spec n i s :
  wp (find_free n i) (fun r s' => s' = s /\ ((r < i + n)%nat ->
        exists p, procs s !! r = Some p /\ status p = FREE)) (fun e _ => is_error e) s.
Proof.
  revert i. induction n as [|n IH]; intros i; cbn [find_free].
  - apply wp_ret. split; [done|lia].
  - apply wp_bind. unfold wp at 1, deref. destruct (procs s !! i) as [p|] eqn:Hp; [|done].
    case_bool_decide as Hs; [apply wp_ret; eauto|].
    eapply wp_mono; [apply IH| |done]. intros r s' [-> Hr]. split; [done|].
    intros Hlt. apply Hr. lia.
Qed.

Lemma keeps_set_region R `{!IgnoresMm R} info k va n t : keeps R (set_region info k va n t).
Proof. unfold set_region. keeps_tac. Qed.

Lemma keeps_core_assign i f :
  (forall p, core (f p) = core p) -> keeps same_core (assign (Some i) f).
Proof. intros H. apply keeps_assign; [apply _|]. intros s. by apply same_core_upd. Qed.

Hint Resolve keeps_core_assign keeps_set_region : pke.
Hint Extern 1 (keeps _ (memset _ _ _)) => apply keeps_memset; [apply _|done] : pke.
Hint Extern 1 (keeps _ (memcpy _ _ _)) => apply keeps_memcpy; [apply _|done] : pke.

(** alloc_process finds a free slot and changes nothing scheduling looks
    at. *)
Lemma alloc_process_core s :
  wp alloc_process (fun r s' => same_core s s' /\
        exists i p, r = Some i /\ procs s !! i = Some p /\ status p = FREE)
     (fun e _ => is_error e) s.
Proof.
  unfold alloc_process. apply wp_bind.
  eapply wp_mono; [apply find_free_spec| |done]. intros i s' [-> Hi].
  destruct (Nat.leb_spec NPROC i) as [|Hlt]; [by apply wp_panic|].
  destruct (Hi Hlt) as (p & Hp & Hs).
  assert (same_core s s) as Hr by reflexivity.
  do 22 robust_step same_core Hr. apply wp_ret. split; [done|]. eauto.
Qed.

Lemma keeps_copy_trapframe dst src : keeps same_core (copy_trapframe dst src).
Proof. unfold copy_trapframe. keeps_tac. Qed.

Lemma keeps_copy_data_page pp cp i j : keeps same_core (copy_data_page pp cp i j).
Proof. unfold copy_data_page. keeps_tac. Qed.

Lemma keeps_fork_data pp cp i : keeps same_core (fork_data pp cp i).
Proof.
  unfold fork_data. keeps_tac.
  apply (keeps_loop _ _ (fun j => 0 <= j < 2 ^ 31) (fun j => 2 ^ 31 - j)); [lia..|].
  intros j s Hj. eapply (wp_bind_keeps same_core s); [reflexivity|keeps_tac|done|]. intros np s1 H1.
  destruct (_ <? _); [|by apply wp_ret].
  eapply (wp_bind_keeps same_core s); [exact H1|apply keeps_copy_data_page|done|]. intros _ s2 H2.
  unfold int_op. destruct (Z.leb_spec (- 2 ^ 31) (j + 1)); [|lia].
  destruct (Z.ltb_spec (j + 1) (2 ^ 31)); [|by apply wp_bind, wp_halt].
  apply wp_bind, wp_ret, wp_ret. split; [exact H2|lia].
Qed.

Lemma keeps_fork_region parent c i : keeps same_core (fork_region parent c i).
Proof.
  unfold fork_region, fork_stack, fork_code.
  keeps_tac; first [apply keeps_copy_trapframe|apply keeps_fork_data].
Qed.

Hint Resolve keeps_fork_region : pke.

(** ** The abstract scheduler

    The running process and the queue, and what a trap does to them. *)
Inductive event : Type := Stay | Fork | Rotate | Exit.

Inductive sched_step : event -> nat * list nat -> nat * list nat -> Prop :=
| step_stay c l : sched_step Stay (c, l) (c, l)
| step_fork c l n : n <> c -> n ∉ l -> sched_step Fork (c, l) (c, l ++ [n])
| step_rotate c l c' l' : l ++ [c] = c' :: l' -> sched_step Rotate (c, l) (c', l')
| step_exit c c' l' : sched_step Exit (c, c' :: l') (c', l').

(** How a run that started with [c] running and [l] waiting may stop. *)
Definition stops (ev : event) (c : nat) (l : list nat) (e : stop) (s' : kstate) : Prop :=
  is_error e \/
  (e = SRet /\ exists c' l', sched_step ev (c, l) (c', l') /\ running s' c' l') \/
  (e = Shutdown 0 /\ ev = Exit /\ l = []).

(** ** The operations that reschedule *)

Lemma running_proc s c l : running s c l -> exists p, procs s !! c = Some p /\
  current s = Some c /\ status p = READY /\ c ∉ l.
Proof. intros (_ & ? & ? & p & ? & ?). eauto. Qed.

(** [current->status = READY; insert_to_ready_queue(current);] and then a
    computation that ends in [schedule()]. *)
Lemma rotate_queue {A} s c l (k : M kstate A) Q E :
  running s c l -> (forall s', sched_inv s' (l ++ [c]) [] -> wp k Q E s') ->
  wp (bind (assign (Some c) (set_status READY))
           (fun _ => bind (insert_to_ready_queue (Some c)) (fun _ => k))) Q E s.
Proof.
  intros HR Hk. pose proof HR as (HI & Hcur & Hn & p & Hp & Hs).
  eapply wp_bind_ok; [by eapply assign_ok|]. cbv beta.
  assert (sched_inv (upd_proc c (set_status READY) s) l [c]) as HI1.
  { eapply set_status_inv; [done|done|by left| |]; set_solver. }
  apply wp_bind. eapply wp_mono; [eapply insert_inv; [done|done|by apply procs_upd]| |done].
  intros [] s2 (HI2 & _ & _). by apply Hk.
Qed.

Lemma schedule_rotate {A} s c l :
  sched_inv s (l ++ [c]) [] ->
  wp (schedule : M kstate A) (fun _ _ => False) (stops Rotate c l) s.
Proof.
  intros HI. eapply wp_mono; [by apply schedule_inv|done|].
  intros e s' [He|[(-> & c' & l' & El & HR')|[_ El]]]; [by left| |by destruct l].
  right; left. split; [done|]. exists c', l'. split; [by apply step_rotate|done].
Qed.

Lemma rotate_spec {A} s c l (k : M kstate A) :
  running s c l ->
  wp (bind (assign (Some c) (set_status READY))
           (fun _ => bind (insert_to_ready_queue (Some c))
           (fun _ => bind (schedule : M kstate unit) (fun _ => k))))
     (fun _ _ => False) (stops Rotate c l) s.
Proof.
  intros HR. apply rotate_queue with l; [done|]. intros s2 HI2. apply wp_bind.
  eapply wp_mono; [by apply schedule_rotate| |]; done.
Qed.

(** Exit: the current process becomes a zombie, and the next one runs. *)
Lemma exit_spec s c l code :
  running s c l ->
  wp (sys_user_exit code) (fun _ _ => False) (stops Exit c l) s.
Proof.
  intros HR. pose proof HR as (HI & Hcur & Hn & p & Hp & Hs).
  unfold sys_user_exit. eapply wp_bind_ok; [by apply sprint_eq|]. cbv beta.
  eapply wp_bind_ok; [done|]. cbv beta. simpl current. rewrite Hcur.
  set (s1 := write_stderr _ s).
  apply wp_bind. apply wp_bind. eapply wp_intro; [by apply (assign_ok c p)|]. apply wp_ret.
  assert (sched_inv (upd_proc c (set_status ZOMBIE) s1) l []) as HI1.
  { eapply (set_status_inv _ _ _ [c]); [|done|by right| |done]; [|set_solver].
    eapply sched_inv_core; [|done]. by apply kvars_core. }
  apply wp_bind. eapply wp_mono; [by apply schedule_inv|done|].
  intros e s' [He|[(-> & c' & l' & -> & HR')|[-> ->]]]; [by left| |by right; right].
  right; left. split; [done|]. exists c', l'. split; [by constructor|done].
Qed.

(** ** The operations that return *)

(** A result of the event [ev] that leaves [c] running. *)
Definition returns (ev : event) (c : nat) (l : list nat) (s' : kstate) : Prop :=
  exists l', sched_step ev (c, l) (c, l') /\ running s' c l'.

Lemma wp_stay {A} (m : M kstate A) s c l E :
  running s c l -> keeps same_core m -> (forall e s', is_error e -> E e s') ->
  wp m (fun _ s' => returns Stay c l s') E s.
Proof.
  intros HR Hm HE. eapply wp_mono; [apply Hm| |intros e s' He; by apply HE].
  intros a s' Hc. exists l. split; [apply step_stay|exact (running_core _ _ _ _ Hc HR)].
Qed.

(** fork: a free slot becomes a ready process at the end of the queue. *)
Lemma do_fork_spec s c l :
  running s c l ->
  wp (do_fork (Some c)) (fun r s' => exists n q, r = Z.of_nat n /\ n <> c /\ n ∉ l /\
        running s' c (l ++ [n]) /\ procs s' !! n = Some q /\ parent q = Some c /\
        exists p, procs s !! n = Some p /\ status p = FREE)
     (fun e _ => is_error e) s.
Proof.
  intros HR. pose proof HR as (HI & Hcur & Hn & p & Hp & Hs).
  unfold do_fork. eapply wp_bind_ok; [by apply deref_ok|]. cbv beta.
  eapply wp_bind_ok; [by apply sprint_eq|]. cbv beta. set (s0 := write_stderr _ s).
  assert (running s0 c l) as HR0 by (apply (running_core s); [by apply kvars_core|done]).
  apply wp_bind. eapply wp_mono; [apply alloc_process_core| |done].
  intros r s1 (Hc1 & n & pn & -> & Hpn & Hsn). change (procs s0) with (procs s) in Hpn.
  assert (n <> c) as Hnc by congruence.
  assert (n ∉ l) as Hnl.
  { intros Hin. pose proof (si_queued _ _ _ HI n pn Hin Hpn). congruence. }
  do 2 robust_step same_core Hc1.
  pose proof (running_core _ _ _ _ Hc1 HR0) as HR1. clear HR0 HR HI.
  destruct (same_core_lookup _ _ n pn (same_core_sym _ _ Hc1) Hpn) as (q & Hq & _).
  clear Hc1. rename s' into s2. rename s'0 into s3.
  eapply wp_bind_ok; [by eapply assign_ok|]. cbv beta.
  assert (sched_inv (upd_proc n (set_status READY) s3) l [n; c]) as HI3.
  { destruct HR1 as (HI & _). eapply set_status_inv; [done|done|by left| |]; set_solver. }
  pose proof (procs_upd n (set_status READY) s3 q Hq) as Hq'.
  assert (procs (upd_proc n (set_status READY) s3) !! c = procs s3 !! c) as Hpc.
  { by apply procs_upd_ne. }
  destruct HR1 as (_ & Hcur3 & _ & pc & Hpc3 & Hsc). rewrite Hpc3 in Hpc.
  change (current s3) with (current (upd_proc n (set_status READY) s3)) in Hcur3.
  set (s4 := upd_proc n _ s3) in *. clearbody s4. clear dependent s3.
  eapply wp_bind_ok; [by apply deref_ok|]. cbv beta.
  assert (same_kvars s4 s4) as Hk by done. robust_step same_kvars Hk.
  apply kvars_core in Hk as Hc. pose proof (f_equal (fun k => k.1.1.1.1) Hk) as Eps.
  cbn in Eps. rewrite <- Eps in Hq', Hpc. rewrite <- (proj1 Hc) in Hcur3.
  eapply wp_bind_ok; [by eapply assign_ok|]. cbv beta.
  set (s5 := upd_proc n (set_parent (Some c)) s').
  assert (sched_inv s5 l [n; c]) as HI5.
  { apply (sched_inv_core s'); [by apply same_core_upd|]. by apply (sched_inv_core s4). }
  assert (procs s5 !! n = Some (set_parent (Some c) (set_status READY q))) as Hq5
    by (by apply procs_upd).
  assert (procs s5 !! c = Some pc) as Hpc5 by (unfold s5; by rewrite procs_upd_ne).
  apply wp_bind. eapply wp_mono; [by apply (insert_inv n l [c] s5 _ HI5 Hnl Hq5)| |done].
  intros [] s6 (HI6 & Hcur6 & Hl6).
  destruct (Hl6 n _ Hq5) as (q6 & Hq6 & Hpid6 & Hpar6 & _).
  destruct (Hl6 c _ Hpc5) as (pc6 & Hpc6 & _ & _ & Hsc6).
  eapply wp_bind_ok; [by apply deref_ok|]. apply wp_ret. exists n, q6.
  pose proof (lookup_lt_Some _ _ _ Hq6) as Hlt. rewrite (si_length _ _ _ HI6) in Hlt.
  split_and!; [rewrite (si_pid _ _ _ HI6 _ _ Hq6); apply s32_small; unfold NPROC in Hlt; lia|done|done| |done|done|by eauto].
  split_and!; [done|by rewrite Hcur6|set_solver|]. exists pc6. split; [done|].
  rewrite Hsc6. by case_decide.
Qed.

(** A process whose parent is [c]. *)
Definition has_child (s : kstate) (c : nat) : Prop :=
  exists j p, procs s !! j = Some p /\ parent p = Some c.

(** The first loop of wait leaves its flag alone when nobody is a child. *)
Lemma wait_flag_set ps cur a f : f = 0 \/ f = 1 -> wait_flag ps cur a f <> -1.
Proof.
  revert f. induction ps as [|p ps IH]; intros f Hf; cbn [wait_flag]; [lia|].
  apply IH. repeat case_match; auto.
Qed.

Lemma wait_flag_children ps c a :
  wait_flag ps (Some c) a (-1) <> -1 <-> exists j p, ps !! j = Some p /\ parent p = Some c.
Proof.
  induction ps as [|p ps IH]; cbn [wait_flag].
  { split; [done|]. intros (j & q & Hj & _). by rewrite lookup_nil in Hj. }
  assert (is_child (Some c) p = bool_decide (parent p = Some c)) as ->.
  { unfold is_child. destruct (decide (parent p = Some c)) as [E|E].
    - by rewrite E, !bool_decide_true by done.
    - by rewrite (bool_decide_false _ E), andb_false_r. }
  destruct (decide (parent p = Some c)) as [E|E].
  - rewrite bool_decide_true by done. split; [intros _; by exists 0%nat, p|]. intros _.
    cbn [andb]. destruct (pid p =? u64 a); apply wait_flag_set; auto.
  - rewrite bool_decide_false by done. cbn [andb]. rewrite IH. split.
    + intros (j & q & Hj & Hq). by exists (S j), q.
    + intros (j & q & Hj & Hq). destruct j as [|j]; [injection Hj as ->; done|]. by exists j, q.
Qed.

(** wait: without children it returns -1; otherwise the caller goes to the
    end of the queue, and the rest of the function never runs. *)
Lemma wait_spec s c l a :
  running s c l ->
  wp (wait a)
     (fun r s' => wait_flag (procs s) (current s) a (-1) = -1 /\ r = -1 /\ s' = s)
     (fun e s' => wait_flag (procs s) (current s) a (-1) <> -1 /\ stops Rotate c l e s') s.
Proof.
  intros HR. pose proof HR as (_ & Hcur & _). unfold wait. eapply wp_bind_ok; [done|]. cbv beta zeta.
  destruct (Z.eqb_spec (wait_flag (procs s) (current s) a (-1)) (-1)) as [E|E].
  - apply wp_ret. done.
  - rewrite Hcur in *. eapply wp_mono; [by apply rotate_spec|done|]. done.
Qed.

(** ** System calls *)

Definition syscall_event (s : kstate) (a0 a1 : Z) : event :=
  if a0 =? SYS_user_exit then Exit
  else if a0 =? SYS_user_fork then Fork
  else if a0 =? SYS_user_yield then Rotate
  else if a0 =? SYS_user_wait then
    if wait_flag (procs s) (current s) (s32 a1) (-1) =? -1 then Stay else Rotate
  else Stay.

Lemma keeps_same_core_modify f :
  (forall s, same_core s (f s)) -> keeps same_core (modify f).
Proof. apply keeps_modify. Qed.

Lemma sys_user_print_core s c l buf n : running s c l ->
  wp (sys_user_print buf n) (fun _ s' => same_core s s') (fun e _ => is_error e) s.
Proof.
  intros (_ & Hcur & _ & p & Hp & _). unfold sys_user_print.
  eapply wp_bind_ok; [done|]. cbv beta. rewrite Hcur.
  eapply wp_bind_ok; [done|]. cbv beta. eapply wp_bind_ok; [by apply deref_ok|]. cbv beta.
  assert (same_core s s) as Hc by reflexivity.
  robust_step same_core Hc.
  eapply (wp_bind_keeps same_core); [exact Hc|apply keeps_read_string; apply _|done|].
  clear Hc. intros bs s2 Hc. cbv beta. robust_step same_core Hc. by apply wp_ret.
Qed.

Lemma sys_user_allocate_page_core : keeps same_core sys_user_allocate_page.
Proof. unfold sys_user_allocate_page. keeps_tac. by apply keeps_same_core_modify. Qed.

Lemma sys_user_free_page_core va : keeps same_core (sys_user_free_page va).
Proof. unfold sys_user_free_page. keeps_tac. Qed.

Lemma do_syscall_spec s c l a0 a1 a2 a3 a4 a5 a6 a7 :
  running s c l ->
  wp (do_syscall a0 a1 a2 a3 a4 a5 a6 a7)
     (fun _ s' => returns (syscall_event s a0 a1) c l s')
     (stops (syscall_event s a0 a1) c l) s.
Proof.
  intros HR. pose proof HR as (_ & Hcur & _).
  assert (forall ev e s', is_error e -> stops ev c l e s') as HE by (by left).
  unfold do_syscall, syscall_event.
  destruct (Z.eqb_spec a0 SYS_user_print) as [->|_].
  { eapply wp_mono; [by eapply sys_user_print_core| |by left].
    intros a s' Hc. exists l. split; [apply step_stay|exact (running_core _ _ _ _ Hc HR)]. }
  destruct (Z.eqb_spec a0 SYS_user_exit) as [->|_].
  { eapply wp_mono; [by apply exit_spec|done|done]. }
  destruct (Z.eqb_spec a0 SYS_user_allocate_page) as [->|_].
  { apply (wp_stay _ s c l _ HR sys_user_allocate_page_core), HE. }
  destruct (Z.eqb_spec a0 SYS_user_free_page) as [->|_].
  { apply (wp_stay _ s c l _ HR (sys_user_free_page_core a1)), HE. }
  destruct (Z.eqb_spec a0 SYS_user_fork) as [->|_].
  { unfold sys_user_fork. eapply wp_bind_ok; [by apply sprint_eq|]. cbv beta.
    eapply wp_bind_ok; [done|]. cbv beta. simpl current. rewrite Hcur.
    eapply wp_mono; [apply (do_fork_spec _ c l)| |by left].
    - apply (running_core s); [by apply kvars_core|done].
    - intros r s' (n & q & _ & Hnc & Hnl & HR' & _). exists (l ++ [n]).
      split; [by apply step_fork|done]. }
  destruct (Z.eqb_spec a0 SYS_user_yield) as [->|_].
  { unfold sys_user_yield. eapply wp_bind_ok; [done|]. cbv beta. rewrite Hcur.
    eapply wp_mono; [by apply rotate_spec|done|done]. }
  destruct (Z.eqb_spec a0 SYS_user_wait) as [->|_].
  { eapply wp_mono; [by apply wait_spec| |]; cbv beta.
    - intros r s' (-> & _ & ->). exists l. split; [apply step_stay|done].
    - intros e s' [Hne Hst]. by apply Z.eqb_neq in Hne as ->. }
  apply wp_panic. intros s' _. by left.
Qed.

(** ** Traps *)

(** What a trap asks of the scheduler, in the state [s] in which the vector
    hands over to the handler; [p] is the process that runs. *)
Definition trap_event (s : kstate) (p : process) : event :=
  if csr scause (lget s) =? CAUSE_USER_ECALL then
    syscall_event s (ld64 (smem s) (trapframe p + tf_a0)) (ld64 (smem s) (trapframe p + tf_a1))
  else if csr scause (lget s) =? CAUSE_MTIMER_S_TRAP then
    if TIME_SLICE_LEN <? tick_count p + 1 then Rotate else Stay
  else Stay.

Lemma syscall_event_kvars s s' a0 a1 :
  kvars s' = kvars s -> syscall_event s' a0 a1 = syscall_event s a0 a1.
Proof. unfold syscall_event, kvars. by intros [= -> -> _ _ _]. Qed.

Lemma handle_syscall_spec s c l tf :
  running s c l ->
  let ev := syscall_event s (ld64 (smem s) (tf + tf_a0)) (ld64 (smem s) (tf + tf_a1)) in
  wp (handle_syscall tf) (fun _ s' => returns ev c l s') (stops ev c l) s.
Proof.
  intros HR ev.
  assert (forall e s', is_error e -> stops ev c l e s') as HE by (by left).
  unfold handle_syscall. apply wp_bind, wp_load_err; [done|].
  apply wp_bind, wp_store_err; [done|].
  do 2 (apply wp_bind, wp_load_err; [done|]). rewrite smem_put_mem.
  rewrite !loadn_storen_ne by (unfold tf_epc, tf_a0, tf_a1; lia).
  set (s1 := put_mem _ s). assert (same_kvars s s1) as Hk by done. clearbody s1.
  do 6 robust_step same_kvars Hk.
  pose proof (kvars_core _ _ Hk) as Hc. pose proof (syscall_event_kvars _ _
    (ld64 (smem s) (tf + tf_a0)) (ld64 (smem s) (tf + tf_a1)) Hk) as Hev. fold ev in Hev.
  apply wp_bind. eapply wp_mono; [by apply do_syscall_spec, (running_core s)| |].
  - rewrite Hev. intros r s2 (l' & Hst & HR'). apply wp_store_err; [done|].
    exists l'. split; [done|]. apply (running_core s2); [by apply kvars_core|done].
  - by rewrite Hev.
Qed.

Lemma handle_mtimer_core s :
  wp handle_mtimer_trap (fun _ s' => procs s' = procs s /\ same_core s s') never s.
Proof.
  unfold handle_mtimer_trap. eapply wp_bind_ok; [done|]. cbv beta.
  eapply wp_bind_ok; [by apply sprint_eq|]. cbv beta.
  eapply wp_bind_ok; [done|]. by apply wp_modify.
Qed.

Lemma rrsched_spec s c l p :
  running s c l -> procs s !! c = Some p ->
  let ev := if TIME_SLICE_LEN <? tick_count p + 1 then Rotate else Stay in
  wp rrsched (fun _ s' => returns ev c l s') (stops ev c l) s.
Proof.
  intros HR Hp ev. pose proof HR as (_ & Hcur & _). unfold rrsched.
  eapply wp_bind_ok; [done|]. cbv beta. rewrite Hcur.
  eapply wp_bind_ok; [by apply deref_ok|]. cbv beta zeta.
  eapply wp_bind_ok; [by eapply assign_ok|]. cbv beta. unfold ev.
  set (f := set_tick_count (tick_count p + 1)). pose proof (procs_upd c f s p Hp) as Hp1.
  assert (running (upd_proc c f s) c l) as HR1.
  { apply (running_core s); [by apply same_core_upd|done]. }
  destruct (TIME_SLICE_LEN <? tick_count p + 1).
  - eapply wp_bind_ok; [by eapply assign_ok|]. cbv beta. apply rotate_queue with l.
    + apply (running_core (upd_proc c f s)); [by apply same_core_upd|done].
    + intros s2 HI2. eapply wp_mono; [by apply schedule_rotate| |]; done.
  - apply wp_ret. exists l. split; [apply step_stay|done].
Qed.

Lemma page_fault_core s c l cause epc va : running s c l ->
  wp (handle_user_page_fault cause epc va) (fun _ s' => same_core s s')
     (fun e _ => is_error e) s.
Proof.
  intros (_ & Hcur & _ & p & Hp & _). unfold handle_user_page_fault.
  eapply wp_bind_ok; [by apply sprint_eq|]. cbv beta.
  destruct (cause =? CAUSE_STORE_PAGE_FAULT).
  - eapply wp_bind_ok; [done|]. cbv beta. simpl current. rewrite Hcur.
    eapply wp_bind_ok; [by apply deref_ok|]. cbv beta.
    match goal with |- wp _ _ _ ?s1 => assert (same_core s s1) as Hc by (by apply kvars_core) end.
    do 2 robust_step same_core Hc. by apply wp_ret.
  - eapply wp_intro; [by apply sprint_eq|]. by apply kvars_core.
Qed.

(** The end of the handler: back to the process that runs. *)
Lemma resume_spec {A} s c l ev :
  returns ev c l s ->
  wp (bind (gets current) (fun c => @switch_to K A c)) (fun _ _ => False) (fun e s' =>
    is_error e \/ e = SRet /\ returns ev c l s') s.
Proof.
  intros (l' & Hst & HR). pose proof HR as (_ & Hcur & _ & p & Hp & _).
  eapply wp_bind_ok; [done|]. cbv beta. rewrite Hcur.
  eapply wp_mono; [by apply (switch_to_robust c p)|done|].
  intros e s' [He|[-> Hk]]; [by left|right]. split; [done|]. exists l'. split; [done|].
  apply (running_core s); [|done]. rewrite <- Hcur in Hk.
  apply kvars_core. rewrite Hk. by destruct s.
Qed.

Lemma wp_finish {A} (m : M kstate unit) s c l ev :
  wp m (fun _ s' => returns ev c l s') (stops ev c l) s ->
  wp (bind m (fun _ => bind (gets current) (fun c => @switch_to K A c)))
     (fun _ _ => False) (stops ev c l) s.
Proof.
  intros Hm. apply wp_bind. eapply wp_mono; [exact Hm| |done].
  intros [] s' Hr. eapply wp_mono; [by apply resume_spec|done|].
  intros e t [He|[-> (l' & Hst & HR)]]; [by left|]. right; left. split; [done|].
  exists c, l'. done.
Qed.

Lemma smode_trap_handler_spec {A} s c l p :
  running s c l -> procs s !! c = Some p ->
  wp (@smode_trap_handler K A) (fun _ _ => False) (stops (trap_event s p) c l) s.
Proof.
  intros HR Hp. pose proof HR as (_ & Hcur & _).
  assert (forall ev e s', is_error e -> stops ev c l e s') as HE by (by left).
  unfold smode_trap_handler. eapply wp_bind_ok; [done|]. cbv beta.
  apply wp_bind. destruct (negb _); [by apply wp_panic; left|]. apply wp_ret.
  eapply wp_bind_ok; [done|]. cbv beta. rewrite Hcur.
  eapply wp_bind_ok; [done|]. cbv beta. eapply wp_bind_ok; [by apply deref_ok|]. cbv beta.
  eapply wp_bind_ok; [done|]. cbv beta.
  apply wp_bind, wp_store_err; [intros ? ?; apply HE|]. set (s1 := put_mem _ s).
  assert (running s1 c l) as HR1 by (apply (running_core s); [by apply kvars_core|done]).
  assert (procs s1 !! c = Some p) as Hp1 by done.
  assert (trap_event s1 p = trap_event s p) as <-.
  { unfold trap_event, s1. rewrite csr_put_mem, smem_put_mem.
    rewrite !loadn_storen_ne by (unfold tf_epc, tf_a0, tf_a1; lia). done. }
  clearbody s1. clear s HR Hp Hcur.
  eapply wp_bind_ok; [done|]. cbv beta. unfold trap_event.
  destruct (csr scause (lget s1) =? CAUSE_USER_ECALL).
  { apply wp_finish, handle_syscall_spec, HR1. }
  destruct (csr scause (lget s1) =? CAUSE_MTIMER_S_TRAP).
  { apply wp_finish. apply wp_bind. eapply wp_mono; [apply handle_mtimer_core| |done].
    intros [] s2 [Hps Hc]. apply rrsched_spec; [by apply (running_core s1)|by rewrite Hps]. }
  destruct (_ || _).
  { apply wp_finish. do 2 (eapply wp_bind_ok; [done|]; cbv beta).
    eapply wp_mono; [apply (page_fault_core s1 c l), HR1| |by left].
    intros [] s2 Hc. exists l. split; [apply step_stay|exact (running_core _ _ _ _ Hc HR1)]. }
  apply wp_bind, wp_bind, wp_sprint; [done|]. do 2 (eapply wp_bind_ok; [done|]; cbv beta).
  apply wp_bind, wp_sprint; [done|]. apply wp_panic. by left.
Qed.
End Steps.

(** ** The system *)

Section System.
Context {K : Layout}.

(** One turn: user code changes the machine in any way, then a trap is
    handled and user mode is entered again. *)
Inductive turn : kstate -> event -> kstate -> Prop :=
| turn_trap s k s' p :
    let s1 := lput k s in
    current s ≫= (fun c => procs s !! c) = Some p ->
    smode_trap_handler (A := unit) s1 = Stop SRet s' ->
    turn s (trap_event s1 p) s'.

(** Any number of turns, and the events of the abstract scheduler. *)
Inductive turns : kstate -> list event -> kstate -> Prop :=
| turns_nil s : turns s [] s
| turns_cons s ev s' evs s'' : turn s ev s' -> turns s' evs s'' -> turns s (ev :: evs) s''.

Inductive sched_steps : list event -> nat * list nat -> nat * list nat -> Prop :=
| steps_nil q : sched_steps [] q q
| steps_cons ev evs q q' q'' :
    sched_step ev q q' -> sched_steps evs q' q'' -> sched_steps (ev :: evs) q q''.

Lemma turn_refines s c l ev s' :
  running s c l -> turn s ev s' ->
  exists c' l', sched_step ev (c, l) (c', l') /\ running s' c' l'.
Proof.
  intros HR Ht. destruct Ht as [s k s' p s1 Hp Hs].
  pose proof HR as (_ & Hcur & _). rewrite Hcur in Hp. simpl in Hp.
  assert (running s1 c l) as HR1 by (apply (running_core s); [by apply kvars_core|done]).
  pose proof (smode_trap_handler_spec (A := unit) s1 c l p HR1 Hp) as Hw.
  unfold wp in Hw. rewrite Hs in Hw.
  destruct Hw as [[]|[[_ H]|[[=] _]]]. exact H.
Qed.

Lemma turns_refine s c l evs s' :
  running s c l -> turns s evs s' ->
  exists c' l', sched_steps evs (c, l) (c', l') /\ running s' c' l'.
Proof.
  intros HR Ht. revert c l HR.
  induction Ht as [s|s ev s' evs s'' Ht _ IH]; intros c l HR.
  - exists c, l. split; [constructor|done].
  - destruct (turn_refines _ _ _ _ _ HR Ht) as (c1 & l1 & Hst & HR1).
    destruct (IH _ _ HR1) as (c' & l' & Hsts & HR'). exists c', l'.
    split; [by econstructor|done].
Qed.
End System.

(** ** Fairness of the abstract scheduler *)

(** The events that give up the processor. *)
Definition yields (ev : event) : bool := match ev with Rotate | Exit => true | _ => false end.

Definition count_yields (evs : list event) : nat := length (List.filter yields evs).

(** One step brings a waiting process forward: it gets the processor, or it
    keeps its place, or it moves up by one when the processor is given up. *)
Lemma sched_step_forward ev q q' i l1 l2 :
  sched_step ev q q' -> snd q = l1 ++ i :: l2 ->
  (fst q' = i /\ yields ev = true) \/
  exists l1' l2', snd q' = l1' ++ i :: l2' /\
    length l1 = ((if yields ev then 1 else 0) + length l1')%nat.
Proof.
  intros Hst Hq. destruct Hst as [c l|c l m Hm1 Hm2|c l c' l' El|c c' l']; simpl in *.
  - right. eauto.
  - right. exists l1, (l2 ++ [m]). by rewrite Hq, <- app_assoc.
  - rewrite Hq, <- app_assoc in El. destruct l1 as [|j l1]; injection El as Ec El.
    + by left.
    + right. exists l1, (l2 ++ [c]). simpl in El. by rewrite <- El.
  - destruct l1 as [|j l1]; injection Hq as -> Hq; [by left|]. right. by exists l1, l2.
Qed.

(** * Properties *)

Section Properties.
Context {K : Layout}.

(** C1. The kernel refines the abstract round-robin scheduler: for every run of
  the system, whatever user code does to memory and registers between two
  traps, the running process and the ready queue change exactly as the
  abstract scheduler does on the events the traps stand for; the invariant of
  the process table holds at each return to user mode. *)
Theorem kernel_refines_scheduler s c l evs s' :
running s c l -> turns s evs s' ->
exists c' l', sched_steps evs (c, l) (c', l') /\ running s' c' l'.
Proof. apply turns_refine. Qed.

(** C2. Every trap is handled to an end, whatever memory holds: from a state
  that satisfies the invariant the handler enters user mode as the abstract
  scheduler prescribes, or shuts the machine down with code 0 because the
  last process has exited, or stops on an error; it does not loop, and no
  assert of the kernel fails. *)
Theorem trap_handled {A} s c l p :
running s c l -> procs s !! c = Some p ->
wp (@smode_trap_handler K A) (fun _ _ => False) (fun e s' =>
  e <> OutOfFuel /\ e <> PowerOff /\ stops (trap_event s p) c l e s') s.
Proof.
intros HR Hp. eapply wp_mono; [by apply smode_trap_handler_spec|done|].
intros e s' Hst. split_and!; [| |done];
  (destruct Hst as [He|[[-> _]|[-> _]]]; [by destruct e|done|done]).
Qed.

(** C3. No process starves: if [i] is behind [length l1] others in the queue and
  the processor is given up more often than that, by exit, yield, wait or the
  end of a time slice, [i] gets it in between, whatever is forked
  meanwhile. *)
Theorem no_starvation s c l1 i l2 evs s' :
running s c (l1 ++ i :: l2) -> turns s evs s' -> (length l1 < count_yields evs)%nat ->
exists evs1 evs2 s1, evs = evs1 ++ evs2 /\ turns s evs1 s1 /\ current s1 = Some i /\
  turns s1 evs2 s'.
Proof.
intros HR Ht. revert c l1 l2 HR.
induction Ht as [s|s ev s1 evs s2 Ht Hts IH]; intros c l1 l2 HR Hn.
{ unfold count_yields in Hn. simpl in Hn. lia. }
destruct (turn_refines _ _ _ _ _ HR Ht) as (c1 & q1 & Hst & HR1).
destruct (sched_step_forward ev _ _ i l1 l2 Hst eq_refl) as [[Hi _]|(l1' & l2' & Hq & Hl)];
  simpl in *; subst.
- exists [ev], evs, s1. split_and!; [done| |apply HR1|done].
  econstructor; [done|constructor].
- destruct (IH _ _ _ HR1) as (e1 & e2 & t & -> & H1 & H2 & H3).
  { unfold count_yields in *. simpl in Hn. destruct (yields ev); simpl in Hn; lia. }
  exists (ev :: e1), e2, t. split_and!; [done|by econstructor|done|done].
Qed.

(** C21. exit: the caller becomes a zombie and the next process runs; when no
  process waits, the machine shuts down with code 0: the panic of schedule
  for unfinished processes is never reached. *)
Theorem last_exit_shuts_down s c code :
running s c [] ->
wp (sys_user_exit code) (fun _ _ => False) (fun e _ => e = Shutdown 0) s.
Proof.
intros HR. pose proof HR as (HI & Hcur & Hn & p & Hp & Hs).
unfold sys_user_exit. eapply wp_bind_ok; [by apply sprint_eq|]. cbv beta.
eapply wp_bind_ok; [done|]. cbv beta. simpl current. rewrite Hcur.
apply wp_bind, wp_bind. eapply wp_intro; [by apply (assign_ok c p)|]. apply wp_ret.
apply wp_bind. eapply wp_mono; [apply schedule_empty| done|].
- apply (proj1 (si_queue _ _ _ HI)).
- rewrite length_procs_upd. apply (si_length _ _ _ HI).
- intros e _ ->. rewrite bool_decide_true; [done|]. apply Forall_lookup. intros i q.
  simpl. rewrite list_lookup_alter. unfold finished. destruct (decide (c = i)) as [->|Hne].
  + rewrite Hp. intros [= <-]. by right.
  + intros Hq. destruct (si_status _ _ _ HI i q Hq) as [|[Hr|]]; [tauto| |tauto].
    destruct (si_ready _ _ _ HI i q Hq Hr) as [H|H]; [by apply elem_of_nil in H|].
    apply list_elem_of_singleton in H. congruence.
Qed.

(** C22. wait does not wait.  When no process has the caller as its parent it
  returns -1 and changes nothing; when one has, whatever its status and
  whatever number is asked for, wait does not return: the caller stays ready
  at the end of the queue and the next process runs (or a fault stops the
  machine), so that the loop that looks for a zombie is never reached. *)
Theorem wait_never_polls s c l a :
running s c l ->
wp (wait a)
   (fun r s' => ~ has_child s c /\ r = -1 /\ s' = s)
   (fun e s' => has_child s c /\ stops Rotate c l e s') s.
Proof.
  intros HR. pose proof HR as (_ & Hcur & _). unfold has_child.
  pose proof (wait_flag_children (procs s) c a) as Hw. rewrite <- Hcur in Hw at 1.
  eapply wp_mono; [by apply wait_spec| |].
  - intros r s' (E & Hr). split; [|exact Hr]. rewrite <- Hw. intros H. by apply H.
  - intros e s' (E & Hs). split; [by apply Hw|exact Hs].
Qed.

(** C11. fork turns a free slot into a ready process at the end of the queue,
  whose parent is the caller, and returns its number; the caller keeps
  running. *)
Theorem fork_enqueues_child s c l :
running s c l ->
wp (do_fork (Some c)) (fun r s' => exists n q, r = Z.of_nat n /\ n <> c /\ n ∉ l /\
      running s' c (l ++ [n]) /\ procs s' !! n = Some q /\ parent q = Some c /\
      exists p, procs s !! n = Some p /\ status p = FREE)
   (fun e _ => is_error e) s.
Proof. apply do_fork_spec. Qed.
End Properties.
