(* ===== verification/User.v ===== *)
(** user/user_lib.c: the library of the user programs, on top of the kernel.  A
    system call is a trap: what the processor does on [ecall], the trap vector,
    smode_trap_handler and, at its end, [sret]. *)
From S2P Require Import Prelude Mem Context CString Snprintf Console Pmm Sv39 Vmm Kstate Sched Process NewProc Syscall Strap.

Section Code.
Context `{Layout}.
(** The addresses of the instruction [ecall] of do_user_call, and of a load or
    a store of the user. *)
Context (ecall_pc access_pc : Z).

(** A trap from user mode at [pc]: what the processor does, then the code of the
    kernel at stvec. *)
Definition enter (cause pc tval : Z) : M kstate unit :=
  write_csr sepc pc ;;;
  write_csr scause cause ;;;
  write_csr stval tval ;;;
  x <- read_csr sstatus ;;
  write_csr sstatus (Z.land x (u64 (Z.lnot SSTATUS_SPP))) ;;;
  v <- read_csr stvec ;;
  (if v =? u64 smode_trap_vector then ret tt else halt Undefined) ;;;
  h <- smode_trap_vector_code ;;
  (if h =? u64 smode_trap_handler_addr then ret tt else halt Undefined) ;;;
  smode_trap_handler.

(** When the processor returns to this process the user code goes on; when it
    returns to another one, this code has stopped. *)
Definition trap (cause pc tval : Z) : M kstate unit := fun s =>
  match enter cause pc tval s with
  | Stop SRet s' => if decide (current s' = current s) then Ok tt s' else Stop SRet s'
  | r => r
  end.

(** The arguments are in a0 to a7 when do_user_call begins. *)
Definition pass (args : list Z) : M kstate unit :=
  modify (fun s => let g := gpr (lget s) in
    put_gpr (take r_a0 g ++ map u64 args ++ drop (r_a0 + length args) g) s).

(** [sw a0, ret]: the result is an [int]. *)
Definition do_user_call (sysnum a1 a2 a3 a4 a5 a6 a7 : Z) : M kstate Z :=
  pass [sysnum; a1; a2; a3; a4; a5; a6; a7] ;;;
  trap CAUSE_USER_ECALL ecall_pc 0 ;;;
  pc <- read_csr sepc ;;
  (if pc =? u64 (ecall_pc + 4) then ret tt else halt Undefined) ;;;
  a0 <- get_reg r_a0 ;;
  let ret_ := s32 a0 in
  ret (u64 ret_).

Definition exit (code : Z) : M kstate Z :=
  r <- do_user_call SYS_user_exit (u64 code) 0 0 0 0 0 0 ;; ret (s32 r).

Definition naive_malloc : M kstate Z := do_user_call SYS_user_allocate_page 0 0 0 0 0 0 0.

Definition naive_free (va : Z) : M kstate unit :=
  do_user_call SYS_user_free_page va 0 0 0 0 0 0 ;;; ret tt.

Definition fork : M kstate Z :=
  r <- do_user_call SYS_user_fork 0 0 0 0 0 0 0 ;; ret (s32 r).

(** user_lib.c: [wait] *)
Definition user_wait (pid : Z) : M kstate Z :=
  r <- do_user_call SYS_user_wait (u64 pid) 0 0 0 0 0 0 ;; ret (s32 r).

Definition yield : M kstate unit :=
  do_user_call SYS_user_yield 0 0 0 0 0 0 0 ;;; ret tt.

(** An access of the user to [va]: the processor walks the page table of satp.
    Without the permission it traps, and when the kernel comes back it executes
    the instruction again.  Two rounds are enough for a fault that the kernel
    cures; a program whose fault it does not cure stays there. *)
Definition user_root (s : kstate) : Z := Z.land (csr satp (lget s)) (2 ^ 44 - 1) * PGSIZE.
Definition PTE_UW : Z := Z.lor PTE_V (Z.lor PTE_W PTE_U).
Definition PTE_UR : Z := Z.lor PTE_V (Z.lor PTE_R PTE_U).

Definition user_access {A} (perm cause va : Z) (k : Z -> M kstate A) : M kstate A :=
  loop 2 (fun _ =>
    e <- gets (fun s => entry (smem s) (user_root s) va) ;;
    if Z.land e perm =? perm then r <- k (PTE2PA e + va mod PGSIZE) ;; ret (inr r)
    else trap cause access_pc va ;;; ret (inl tt)) tt.

Definition user_store (va : Z) (c : byte) : M kstate unit :=
  user_access PTE_UW CAUSE_STORE_PAGE_FAULT va (fun pa => store 1 pa (byte.unsigned c)).

Definition user_load (va : Z) : M kstate Z :=
  user_access PTE_UR CAUSE_LOAD_PAGE_FAULT va (fun pa => load 1 pa).

Fixpoint user_fill (va : Z) (bs : list byte) : M kstate unit :=
  match bs with
  | [] => ret tt
  | c :: bs' => user_store va c ;;; user_fill (va + 1) bs'
  end.

Fixpoint user_read (va : Z) (n : nat) : M kstate (list byte) :=
  match n with
  | O => ret []
  | S n' => c <- user_load va ;; bs <- user_read (va + 1) n' ;; ret (byte.of_Z c :: bs)
  end.

(** [out] is on the stack of the user; it holds [out0] before the call. *)
Definition printu (out : Z) (out0 : list byte) (fmt : list byte) (vl : list varg) : M kstate Z :=
  match vsnprintf 256 out0 fmt vl with
  | None => halt Undefined
  | Some (res, bs) =>
      user_fill out bs ;;;
      let n := if u64 res <? 256 then u64 res else 256 in
      r <- do_user_call SYS_user_print out n 0 0 0 0 0 ;;
      ret (s32 r)
  end.
End Code.

(** ** A process in user mode *)
Section Spec.
Context {K : Layout}.

Record user_mode (s : kstate) (i : nat) (p : process) (g : list Z) : Prop := {
  um_current : current s = Some i;
  um_proc : procs s !! i = Some p;
  um_gpr : gpr (lget s) = g;
  um_len : length g = 31%nat;
  um_range : Forall (fun v => 0 <= v < 2 ^ 64) g;
  um_sscratch : csr sscratch (lget s) = trapframe p;
  um_stvec : csr stvec (lget s) = u64 smode_trap_vector;
  um_satp : csr satp (lget s) = u64 (MAKE_SATP (pagetable p));
  um_frame : ram_page (trapframe p);
  um_trap : ld64 (smem s) (trapframe p + tf_kernel_trap) = u64 smode_trap_handler_addr;
}.

(** The state in which handle_syscall calls do_syscall: the registers are in
    the trap frame, and the pc behind the [ecall]. *)
Record called_from (s s1 : kstate) (p : process) (g : list Z) (pc : Z) : Prop := {
  cf_machine : s1 = lput (lget s1 : machine) s;
  cf_regs : saved_regs (smem s1) (trapframe p) = <[r_t6 := trapframe p]> g;
  cf_epc : ld64 (smem s1) (trapframe p + tf_epc) = u64 (u64 pc + 4);
  cf_mem : forall lo hi, trapframe p + sizeof_trapframe <= lo \/ hi <= trapframe p ->
    same_on lo hi (smem s1) (smem s);
  cf_satp : csr satp (lget s1) = ld64 (smem s) (trapframe p + tf_kernel_satp);
  cf_len : length (gpr (lget s1)) = 31%nat;
  cf_console : Mem.console (lget s1) = Mem.console (lget s);
}.

(** The registers of the trap frame, the saved pc and what finds them are the
    same after a system call. *)
Definition frame_kept (i : nat) (p : process) (s1 s2 : kstate) : Prop :=
  current s2 = Some i /\
  (exists p2, procs s2 !! i = Some p2 /\ trapframe p2 = trapframe p /\ pagetable p2 = pagetable p) /\
  same_on (trapframe p) (trapframe p + 248) (smem s2) (smem s1) /\
  same_on (trapframe p + tf_epc) (trapframe p + tf_epc + 8) (smem s2) (smem s1) /\
  length (gpr (lget s2)) = 31%nat.

Definition reg (g : list Z) (r : nat) : Z := default 0 (g !! r).

(** What the user finds after a call that returned [r] in the state [s2]. *)
Record returned (i : nat) (p : process) (g : list Z) (pc r : Z) (s2 s' : kstate) : Prop := {
  rt_user : exists p2, procs s2 !! i = Some p2 /\
    user_mode s' i p2 (<[r_a0 := u64 r]> (<[r_t6 := trapframe p]> g));
  rt_kvars : kvars s' = kvars s2;
  rt_epc : csr sepc (lget s') = u64 (u64 pc + 4);
  rt_mem : forall lo hi, trapframe p + sizeof_trapframe <= lo \/ hi <= trapframe p ->
    same_on lo hi (smem s') (smem s2);
  rt_console : Mem.console (lget s') = Mem.console (lget s2);
  rt_machine : s' = lput (lget s' : machine) s2;
}.

Lemma saved_reg m tf g r : saved_regs m tf = g -> (r < 31)%nat -> ld64 m (tf + 8 * Z.of_nat r) = reg g r.
Proof. intros <- Hr. unfold reg. by rewrite saved_regs_lookup. Qed.

Lemma clear_spp x : Z.land (u64 (Z.land x (u64 (Z.lnot SSTATUS_SPP)))) SSTATUS_SPP = 0.
Proof.
  change (u64 ?z) with (z mod 2 ^ 64). rewrite <- (Z.land_ones (Z.land x _)) by lia.
  rewrite <- !Z.land_assoc. change (Z.land _ (Z.land (Z.ones 64) SSTATUS_SPP)) with 0. apply Z.land_0_r.
Qed.

(** What the processor and the trap vector do before the handler runs. *)
Lemma enter_kernel s i p g cause pc tval (c : Z -> M kstate unit) Q E :
  user_mode s i p g ->
  (forall s1, s1 = lput (lget s1 : machine) s ->
     saved_regs (smem s1) (trapframe p) = <[r_t6 := trapframe p]> g ->
     (forall lo hi, trapframe p + 248 <= lo \/ hi <= trapframe p -> same_on lo hi (smem s1) (smem s)) ->
     csr satp (lget s1) = ld64 (smem s) (trapframe p + tf_kernel_satp) ->
     csr sepc (lget s1) = u64 pc -> csr scause (lget s1) = u64 cause -> csr stval (lget s1) = u64 tval ->
     Z.land (csr sstatus (lget s1)) SSTATUS_SPP = 0 ->
     length (gpr (lget s1)) = 31%nat -> Mem.console (lget s1) = Mem.console (lget s) ->
     wp (c (u64 smode_trap_handler_addr)) Q E s1) ->
  wp (write_csr sepc pc ;;;
      write_csr scause cause ;;;
      write_csr stval tval ;;;
      x <- read_csr sstatus ;;
      write_csr sstatus (Z.land x (u64 (Z.lnot SSTATUS_SPP))) ;;;
      v <- read_csr stvec ;;
      (if v =? u64 smode_trap_vector then ret tt else halt Undefined) ;;;
      h <- smode_trap_vector_code ;; c h) Q E s.
Proof.
  intros [Hcur Hp Hg Hlen Hrange Hss Hst Hsatp Hfr Htrap] Hk.
  do 6 (eapply wp_bind_ok; [reflexivity|]; cbv beta).
  set (s0 := put_csr sstatus _ _).
  assert (csr stvec (lget s0) = u64 smode_trap_vector) as E0 by (unfold s0; csimp; exact Hst).
  assert (csr sscratch (lget s0) = trapframe p) as E1 by (unfold s0; csimp; exact Hss).
  assert (gpr (lget s0) = g) as E2 by (unfold s0; autorewrite with lens; exact Hg).
  assert (smem s0 = smem s) as E3 by (unfold s0; by autorewrite with lens).
  assert (csr sepc (lget s0) = u64 pc) as E4 by (unfold s0; by csimp).
  assert (csr scause (lget s0) = u64 cause) as E5 by (unfold s0; by csimp).
  assert (csr stval (lget s0) = u64 tval) as E9 by (unfold s0; by csimp).
  assert (Z.land (csr sstatus (lget s0)) SSTATUS_SPP = 0) as E6.
  { unfold s0. csimp. apply clear_spp. }
  assert (Mem.console (lget s0) = Mem.console (lget s)) as E8.
  { unfold s0, put_csr. by autorewrite with lens. }
  assert (s0 = lput (lget s0 : machine) s) as E7.
  { unfold s0, put_csr. autorewrite with lens. done. }
  clearbody s0. rewrite E0, Z.eqb_refl. eapply wp_bind_ok; [reflexivity|]. cbv beta.
  apply wp_bind. eapply wp_mono; [apply (smode_trap_vector_spec s0 g (trapframe p) E2 Hlen E1 Hfr)| |done].
  intros h s1 (-> & Hsv & Hm & Hsat & _ & Hl & Hput & Hcon & Hcsr).
  rewrite E3 in Hsat |- *. unfold tf_kernel_trap in Htrap. rewrite Htrap. apply Hk.
  - rewrite Hput, E7. by rewrite lput_lput.
  - by rewrite Hsv, u64_frame.
  - intros lo hi Ho. rewrite <- E3. by apply Hm.
  - exact Hsat.
  - rewrite <- E4. by apply Hcsr.
  - rewrite <- E5. by apply Hcsr.
  - rewrite <- E9. by apply Hcsr.
  - rewrite <- E6. by rewrite Hcsr.
  - exact Hl.
  - by rewrite Hcon.
Qed.

Lemma saved_regs_same m m' tf :
  same_on tf (tf + 248) m' m -> saved_regs m' tf = saved_regs m tf.
Proof.
  intros Hs. apply map_ext_in. intros r Hr. apply in_seq in Hr. apply loadn_same_on.
  eapply same_on_sub; [| |exact Hs]; lia.
Qed.

Lemma wp_load_reg tf r v (k : Z -> M kstate unit) Q E s :
  ram_page tf -> (r < 31)%nat -> ld64 (smem s) (tf + 8 * Z.of_nat r) = v ->
  wp (k v) Q E s -> wp (bind (load64 (tf + 8 * Z.of_nat r)) k) Q E s.
Proof. intros Hp Hr <- H. apply wp_bind, wp_load; [apply tf_slot; [done|lia]|done]. Qed.

(** The state after handle_syscall has moved the pc. *)
Lemma called_from_intro s i p g pc s1 :
  user_mode s i p g -> s1 = lput (lget s1 : machine) s ->
  saved_regs (smem s1) (trapframe p) = <[r_t6 := trapframe p]> g ->
  (forall lo hi, trapframe p + 248 <= lo \/ hi <= trapframe p -> same_on lo hi (smem s1) (smem s)) ->
  csr satp (lget s1) = ld64 (smem s) (trapframe p + tf_kernel_satp) ->
  length (gpr (lget s1)) = 31%nat -> Mem.console (lget s1) = Mem.console (lget s) ->
  let m := st64 (smem s1) (trapframe p + tf_epc) (u64 pc) in
  called_from s (put_mem (st64 m (trapframe p + tf_epc) (ld64 m (trapframe p + tf_epc) + 4)) s1) p g pc.
Proof.
  intros HU Hput Hsv Hm Hsat Hl Hcon m. subst m. set (tf := trapframe p) in *.
  rewrite ld64_st64, (u64_small (u64 pc)) by apply u64_range.
  split; fold tf; rewrite ?smem_put_mem, ?csr_put_mem, ?gpr_put_mem.
  - rewrite Hput. unfold put_mem. by rewrite !lget_lput, lput_lput.
  - rewrite <- Hsv. apply saved_regs_same. etransitivity; apply storen_same_on; unfold tf_epc; lia.
  - by rewrite ld64_st64.
  - intros lo hi Ho. unfold sizeof_trapframe in Ho.
    do 2 (etransitivity; [apply storen_same_on; unfold tf_epc; lia|]). apply Hm. lia.
  - exact Hsat.
  - exact Hl.
  - rewrite <- Hcon. unfold put_mem. by rewrite lget_lput.
Qed.

(** What switch_to leaves. *)
Lemma resumed_intro s4 i p3 g s5 :
  procs s4 !! i = Some p3 -> ram_page (trapframe p3) -> saved_regs (smem s4) (trapframe p3) = g ->
  Forall (fun v => 0 <= v < 2 ^ 64) g ->
  kvars s5 = kvars (set_current (Some i) s4) -> in_user i p3 (switched p3 s4) s5 ->
  user_mode s5 i p3 g /\ csr sepc (lget s5) = ld64 (smem s4) (trapframe p3 + tf_epc) /\
  forall lo hi, trapframe p3 + sizeof_trapframe <= lo \/ hi <= trapframe p3 ->
    same_on lo hi (smem s5) (smem s4).
Proof.
  intros Hp3 Hfr Hsv Hrange Hk (Hc5 & Hm5 & Hg5 & He5 & Hs5 & Hss5 & Hst5 & _).
  rewrite <- Hm5 in Hg5, He5. unfold switched in Hm5. set (tf := trapframe p3) in *.
  assert (saved_regs (smem s5) tf = g) as Hsv5.
  { rewrite <- Hsv, Hm5. apply saved_regs_same.
    do 3 (etransitivity; [apply storen_same_on; unfold tf_kernel_sp, tf_kernel_satp, tf_kernel_trap; lia|]).
    done. }
  split; [split; [exact Hc5| |by rewrite Hg5| |exact Hrange| |exact Hst5|exact Hs5|exact Hfr|]|split].
  - injection Hk as -> _ _ _ _. done.
  - rewrite <- Hsv. apply length_saved_regs.
  - rewrite Hss5. apply u64_small. destruct Hfr as (_ & ? & ?). consts. lia.
  - rewrite Hm5. unfold tf. by rewrite ld64_st64.
  - rewrite He5, Hm5. by rewrite !loadn_storen_ne by (unfold tf_epc, tf_kernel_sp, tf_kernel_satp, tf_kernel_trap; lia).
  - intros lo hi Ho. rewrite Hm5. unfold sizeof_trapframe in *.
    do 3 (etransitivity;
      [apply storen_same_on; unfold tf_kernel_sp, tf_kernel_satp, tf_kernel_trap; lia|]). done.
Qed.

(** After the result has been stored. *)
Lemma returned_intro s i p g pc s2 r s3 p3 s5 :
  user_mode s i p g -> called_from s s2 p g pc ->
  procs s3 !! i = Some p3 -> trapframe p3 = trapframe p ->
  same_on (trapframe p) (trapframe p + 248) (smem s3) (smem s2) ->
  same_on (trapframe p + tf_epc) (trapframe p + tf_epc + 8) (smem s3) (smem s2) ->
  current s3 = Some i ->
  let s4 := put_mem (st64 (smem s3) (trapframe p + tf_a0) r) s3 in
  kvars s5 = kvars (set_current (Some i) s4) -> Mem.console (lget s5) = Mem.console (lget s4) -> in_user i p3 (switched p3 s4) s5 ->
  s5 = lput (lget s5 : machine) (set_current (Some i) s4) ->
  returned i p g pc r s3 s5.
Proof.
  intros [_ _ _ Hlen Hrange _ _ _ Hfr _] [_ Hsv Hepc _ _ _ _] Hp3 Et Hregs Hepc3 Hc3 s4 Hk Hcon Hin Hput.
  assert (saved_regs (smem s4) (trapframe p) = <[r_a0 := u64 r]> (<[r_t6 := trapframe p]> g)) as Hsv4.
  { rewrite <- Hsv, <- (saved_regs_same _ _ _ Hregs), <- saved_regs_st64 by (unfold r_a0; lia).
    unfold s4. by rewrite smem_put_mem. }
  destruct (resumed_intro s4 i p3 (<[r_a0 := u64 r]> (<[r_t6 := trapframe p]> g)) s5) as (HU & He & Hm);
    [exact Hp3|by rewrite Et|by rewrite Et| |exact Hk|exact Hin|].
  { apply Forall_insert; [apply Forall_insert; [done|]|apply u64_range].
    destruct Hfr as (_ & ? & ?). consts. lia. }
  assert (kvars s5 = kvars s3) as Hk3 by (rewrite Hk; unfold kvars; cbn; by rewrite Hc3).
  rewrite Et in He, Hm. unfold s4 in He. rewrite smem_put_mem in He. split.
  - exists p3. split; [done|exact HU].
  - exact Hk3.
  - rewrite He, loadn_storen_ne by (unfold tf_epc, tf_a0; lia).
    rewrite <- Hepc. by apply loadn_same_on.
  - intros lo hi Ho. etransitivity; [by apply Hm|]. unfold s4, sizeof_trapframe in *. rewrite smem_put_mem.
    apply storen_same_on. unfold tf_a0. lia.
  - rewrite Hcon. unfold s4, put_mem. by rewrite lget_lput.
  - rewrite Hput at 1. unfold s4, put_mem. destruct s3. cbn in Hc3 |- *. by rewrite Hc3.
Qed.

(** handle_syscall, and the way back to user mode. *)
Lemma handle_syscall_returns s i p g pc R s1 :
  user_mode s i p g -> s1 = lput (lget s1 : machine) s ->
  saved_regs (smem s1) (trapframe p) = <[r_t6 := trapframe p]> g ->
  (forall lo hi, trapframe p + 248 <= lo \/ hi <= trapframe p -> same_on lo hi (smem s1) (smem s)) ->
  csr satp (lget s1) = ld64 (smem s) (trapframe p + tf_kernel_satp) ->
  length (gpr (lget s1)) = 31%nat -> Mem.console (lget s1) = Mem.console (lget s) ->
  (forall s2, called_from s s2 p g pc ->
     wp (do_syscall (reg g 9) (reg g 10) (reg g 11) (reg g 12) (reg g 13) (reg g 14) (reg g 15) (reg g 16))
        (fun r s3 => frame_kept i p s2 s3 /\ R r s3) never s2) ->
  wp (handle_syscall (trapframe p) ;;; c <- gets current ;; switch_to (A := unit) c)
     (fun _ _ => False)
     (fun e s' => e = SRet /\ exists r s3, R r s3 /\ returned i p g pc r s3 s')
     (put_mem (st64 (smem s1) (trapframe p + tf_epc) (u64 pc)) s1).
Proof.
  intros HU Hput Hsv Hm Hsat Hl Hcon Hcall. pose proof HU as [_ _ _ _ _ _ _ _ Hfr _].
  pose proof (called_from_intro _ _ _ _ pc _ HU Hput Hsv Hm Hsat Hl Hcon) as HC. cbv zeta in HC.
  unfold handle_syscall.
  apply wp_assoc. cstep. rewrite smem_put_mem. apply wp_assoc. cstep. rewrite smem_put_mem, put_mem_put_mem.
  set (s2 := put_mem _ s1) in *. clearbody s2.
  assert (forall r, (9 <= r < 17)%nat -> ld64 (smem s2) (trapframe p + 8 * Z.of_nat r) = reg g r) as Hr.
  { intros r Hr. rewrite (saved_reg (smem s2) (trapframe p) _ r (cf_regs _ _ _ _ _ HC)) by lia.
    unfold reg. by rewrite list_lookup_insert_ne by (unfold r_t6; lia). }
  apply wp_assoc, (wp_load_reg _ 9 _ _ _ _ _ Hfr ltac:(lia) (Hr 9%nat ltac:(lia))).
  apply wp_assoc, (wp_load_reg _ 10 _ _ _ _ _ Hfr ltac:(lia) (Hr 10%nat ltac:(lia))).
  apply wp_assoc, (wp_load_reg _ 11 _ _ _ _ _ Hfr ltac:(lia) (Hr 11%nat ltac:(lia))).
  apply wp_assoc, (wp_load_reg _ 12 _ _ _ _ _ Hfr ltac:(lia) (Hr 12%nat ltac:(lia))).
  apply wp_assoc, (wp_load_reg _ 13 _ _ _ _ _ Hfr ltac:(lia) (Hr 13%nat ltac:(lia))).
  apply wp_assoc, (wp_load_reg _ 14 _ _ _ _ _ Hfr ltac:(lia) (Hr 14%nat ltac:(lia))).
  apply wp_assoc, (wp_load_reg _ 15 _ _ _ _ _ Hfr ltac:(lia) (Hr 15%nat ltac:(lia))).
  apply wp_assoc, (wp_load_reg _ 16 _ _ _ _ _ Hfr ltac:(lia) (Hr 16%nat ltac:(lia))).
  apply wp_assoc, wp_bind. eapply wp_mono; [apply (Hcall s2 HC)| |done].
  intros r s3 [(Hc3 & (p3 & Hp3 & Et & Epg) & Hregs & Hepc & Hl3) HR].
  cstep. eapply wp_bind_ok; [reflexivity|]. cbv beta.
  set (s4 := put_mem _ s3). change (current s4) with (current s3). rewrite Hc3.
  assert (ram_page (trapframe p3) /\ length (gpr (lget s4)) = 31%nat) as [Hf3 Hl4].
  { split; [by rewrite Et|unfold s4; by rewrite gpr_put_mem]. }
  eapply wp_mono; [exact (wp_and _ _ _ _ _ _ (switch_to_spec i p3 s4 Hp3 Hf3 Hl4)
    (switch_to_machine i p3 s4 Hp3 Hf3 Hl4))|by intros ?? []|].
  intros e s5 [(-> & Hk5 & Hcon5 & H5) Hput5]. split; [done|]. exists r, s3. split; [exact HR|].
  by eapply returned_intro.
Qed.

Lemma trap_call_spec s i p g pc R :
  user_mode s i p g ->
  (forall s1, called_from s s1 p g pc ->
     wp (do_syscall (reg g 9) (reg g 10) (reg g 11) (reg g 12) (reg g 13) (reg g 14) (reg g 15) (reg g 16))
        (fun r s2 => frame_kept i p s1 s2 /\ R r s2) never s1) ->
  wp (trap CAUSE_USER_ECALL pc 0) (fun _ s' => exists r s2, R r s2 /\ returned i p g pc r s2 s') never s.
Proof.
  intros HU Hcall. pose proof HU as [Hcur Hp _ _ _ _ _ _ Hfr _].
  set (Q := fun e s' => e = SRet /\ exists r s2, R r s2 /\ returned i p g pc r s2 s').
  assert (wp (enter CAUSE_USER_ECALL pc 0) (fun _ _ => False) Q s) as H.
  { apply (enter_kernel s i p g _ pc _ _ _ _ HU). intros s1 Hput Hsv Hm Hsat He Hca _ Hsp Hl Hcon.
    rewrite Z.eqb_refl. cstep. unfold smode_trap_handler. cstep. rewrite Hsp. cstep. cstep.
    assert (current s1 = Some i) as Hc1 by (rewrite Hput; exact Hcur).
    assert (procs s1 !! i = Some p) as Hp1 by (rewrite Hput; exact Hp).
    rewrite Hc1. cstep. eapply wp_bind_ok; [by apply deref_ok|]. cbv beta.
    cstep. rewrite He. cstep. cstep. rewrite csr_put_mem, Hca. change (u64 CAUSE_USER_ECALL) with CAUSE_USER_ECALL. rewrite Z.eqb_refl.
    apply (handle_syscall_returns s); done. }
  unfold wp, trap in *. destruct (enter _ _ _ s) as [a s'|e s']; [done|].
  destruct H as [-> (r & s2 & HR & Hret)]. destruct (rt_user _ _ _ _ _ _ _ Hret) as (p2 & _ & HU').
  rewrite decide_True by (rewrite Hcur; apply HU'). by exists r, s2.
Qed.

(** The registers of the user when do_user_call traps. *)
Definition passed (g args : list Z) : list Z :=
  take r_a0 g ++ map u64 args ++ drop (r_a0 + length args) g.

Lemma reg_passed g args j :
  length g = 31%nat -> (r_a0 <= j < r_a0 + length args)%nat ->
  reg (passed g args) j = u64 (default 0 (args !! (j - r_a0)%nat)).
Proof.
  intros Hg Hj. destruct (lookup_lt_is_Some_2 args (j - r_a0)) as [v Hv]; [lia|].
  rewrite Hv. unfold reg, passed.
  assert (length (take r_a0 g) = r_a0) as Hl by (rewrite length_take, Hg; done).
  rewrite lookup_app_r by (rewrite Hl; lia). rewrite Hl.
  rewrite lookup_app_l by (rewrite length_map; lia).
  change (map u64 args) with (u64 <$> args). by rewrite list_lookup_fmap, Hv.
Qed.

Lemma user_mode_passed s i p g args :
  user_mode s i p g -> length args = 8%nat ->
  user_mode (put_gpr (passed g args) s) i p (passed g args).
Proof.
  intros [] Ha. split; try done; rewrite ?csr_put_gpr, ?smem_put_gpr, ?gpr_put_gpr; try done.
  - unfold passed. rewrite !length_app, length_take, length_drop, length_map, Ha, um_len0. done.
  - unfold passed. rewrite !Forall_app. split_and!; [by apply Forall_take| |by apply Forall_drop].
    apply Forall_fmap, Forall_true. intros v. apply u64_range.
Qed.

Lemma do_user_call_spec ecall_pc s i p g n a1 a2 a3 a4 a5 a6 a7 R :
  user_mode s i p g ->
  let g1 := passed g [n; a1; a2; a3; a4; a5; a6; a7] in
  (forall s1, called_from (put_gpr g1 s) s1 p g1 ecall_pc ->
     wp (do_syscall (u64 n) (u64 a1) (u64 a2) (u64 a3) (u64 a4) (u64 a5) (u64 a6) (u64 a7))
        (fun r s2 => frame_kept i p s1 s2 /\ R r s2) never s1) ->
  wp (do_user_call ecall_pc n a1 a2 a3 a4 a5 a6 a7) (fun v s' => exists r s2,
    v = u64 (s32 r) /\ R r s2 /\ returned i p g1 ecall_pc r s2 s') never s.
Proof.
  intros HU g1 Hcall. pose proof HU as [_ _ Hg Hlen _ _ _ _ _ _].
  pose proof (user_mode_passed s i p g [n; a1; a2; a3; a4; a5; a6; a7] HU eq_refl) as HU1. fold g1 in HU1.
  unfold do_user_call, pass. eapply wp_bind_ok; [reflexivity|]. cbv beta zeta. rewrite Hg.
  change (take r_a0 g ++ _) with g1. apply wp_bind.
  eapply wp_mono; [apply (trap_call_spec _ i p g1 ecall_pc R HU1)| |done].
  { intros s1 HC.
    unfold g1. rewrite !reg_passed by (done || (unfold r_a0; simpl; lia)). by apply Hcall. }
  intros _ s' (r & s2 & HR & Hret). eapply wp_bind_ok; [reflexivity|]. cbv beta.
  rewrite (rt_epc _ _ _ _ _ _ _ Hret), u64_add_u64, Z.eqb_refl. cstep.
  destruct (rt_user _ _ _ _ _ _ _ Hret) as (p2 & _ & HU2).
  eapply wp_bind_ok; [reflexivity|]. cbv beta. apply wp_ret. exists r, s2.
  split; [|by split]. rewrite (um_gpr _ _ _ _ HU2), list_lookup_insert_eq.
  - simpl. by rewrite s32_u64.
  - rewrite length_insert. rewrite (um_len _ _ _ _ HU1). unfold r_a0. lia.
Qed.
End Spec.

(** ** printu *)

Lemma cstr_stored m a t rest :
  Byte.x00 ∉ t -> cstr (store_bytes m a (t ++ Byte.x00 :: rest)) a t.
Proof.
  intros Ht. split; [done|]. change (Byte.x00 :: rest) with ([Byte.x00] ++ rest).
  rewrite app_assoc, store_bytes_app.
  replace (length t + 1)%nat with (length (t ++ [Byte.x00])) by (by rewrite length_app).
  apply load_store_bytes.
Qed.

Lemma entry_page m root va va' : va / PGSIZE = va' / PGSIZE -> entry m root va = entry m root va'.
Proof.
  intros E. unfold entry, va_path. by rewrite !(PX_page va va') by (done || lia).
Qed.

(** The user may write to the page of [va], which is the page [pa]. *)
Record writable (m : memory) (root va pa : Z) : Prop := {
  wr_tree : pt_wf m root;
  wr_entry : entry m root va = map_pte pa stack_perm;
  wr_ram : ram_page pa;
  wr_out : ~ in_tree m root pa;
}.

(** The part that the access of a user program needs. *)
Record accessible (perm : Z) (m : memory) (root va pa : Z) : Prop := {
  ac_tree : pt_wf m root;
  ac_perm : Z.land (entry m root va) perm = perm;
  ac_page : PTE2PA (entry m root va) = pa;
  ac_ram : ram_page pa;
  ac_out : ~ in_tree m root pa;
}.
Notation storable := (accessible PTE_UW).

Lemma accessible_frame perm m m' root va pa :
  accessible perm m root va pa -> (forall p, in_tree m root p -> same_page p m m') -> accessible perm m' root va pa.
Proof.
  intros [Hwf He Hp Hr Hn] Hs. destruct (pt_frame m m' root Hs Hwf) as (Hwf' & Ht & He').
  split; rewrite ?He', ?Ht; done.
Qed.

Lemma accessible_page perm m root va va' pa :
  accessible perm m root va pa -> va' / PGSIZE = va / PGSIZE -> accessible perm m root va' pa.
Proof. intros [Hwf He Hp Hr Hn] Hd. split; rewrite ?(entry_page _ _ _ va) by done; done. Qed.

Lemma next_byte va n :
  va mod PGSIZE + Z.of_nat (S (S n)) <= PGSIZE ->
  (va + 1) / PGSIZE = va / PGSIZE /\ (va + 1) mod PGSIZE = va mod PGSIZE + 1.
Proof.
  intros Hlen. pose proof (Z.mod_pos_bound va PGSIZE eq_refl) as Hmod.
  pose proof (Z.div_mod va PGSIZE ltac:(done)) as Hdm.
  assert (va + 1 = PGSIZE * (va / PGSIZE) + (va mod PGSIZE + 1)) as E by lia.
  split; symmetry; [apply (Z.div_unique_pos _ _ _ (va mod PGSIZE + 1))|apply (Z.mod_unique_pos _ _ (va / PGSIZE))]; lia.
Qed.

Lemma writable_frame m m' root va pa :
  writable m root va pa -> (forall p, in_tree m root p -> same_page p m m') -> writable m' root va pa.
Proof.
  intros [Hwf He Hr Hn] Hs. destruct (pt_frame m m' root Hs Hwf) as (Hwf' & Ht & He').
  split; [done|by rewrite He'|done|by rewrite Ht].
Qed.

(** Bytes stored in a page that is not a table. *)
Lemma tree_store m root q a bs :
  pt_wf m root -> page_aligned q -> ~ in_tree m root q -> q <= a -> a + Z.of_nat (length bs) <= q + PGSIZE ->
  forall p, in_tree m root p -> same_page p m (store_bytes m a bs).
Proof.
  intros Hwf Hq Hn Hlo Hhi p Hp. symmetry. apply store_bytes_same_on.
  pose proof (pt_ram _ _ Hwf p Hp) as [Hpa _].
  destruct (page_disjoint p q Hpa Hq); [by intros ->|lia..].
Qed.

Lemma satp_root root :
  ram_page root -> Z.land (u64 (MAKE_SATP root)) (2 ^ 44 - 1) * PGSIZE = root.
Proof.
  intros (Ha & Hlo & Hhi). change (2 ^ 44 - 1) with (Z.ones 44).
  change (u64 ?z) with (z mod 2 ^ 64). rewrite <- Z.land_ones, <- Z.land_assoc by lia.
  change (Z.land (Z.ones 64) (Z.ones 44)) with (Z.ones 44). unfold MAKE_SATP.
  rewrite Z.land_lor_distr_l. change (Z.land SATP_SV39 (Z.ones 44)) with 0. rewrite Z.lor_0_l.
  rewrite Z.land_ones, Z.shiftr_div_pow2 by lia. change (2 ^ 12) with PGSIZE.
  assert (0 <= root / PGSIZE < 2 ^ 44) as Hb.
  { consts. split; [apply Z.div_pos; lia|apply Z.div_lt_upper_bound; lia]. }
  rewrite Z.mod_small by exact Hb.
  unfold page_aligned in Ha. pose proof (Z.div_mod root PGSIZE). consts. lia.
Qed.

Lemma stack_pte pa :
  ram_page pa -> PTE2PA (map_pte pa stack_perm) = pa /\ Z.land (map_pte pa stack_perm) PTE_UW = PTE_UW.
Proof.
  intros (Ha & Hlo & Hhi). destruct (map_pte_decode pa stack_perm) as [Hp Hf]; [done|consts; lia|by vm_compute|].
  split; [done|]. unfold PTE_FLAGS in Hf.
  replace (Z.land (map_pte pa stack_perm) PTE_UW) with (Z.land (Z.land (map_pte pa stack_perm) 0x3FF) PTE_UW).
  - rewrite Hf. done.
  - by rewrite <- Z.land_assoc.
Qed.

Section Printu.
Context {K : Layout}.

Lemma user_access_ok {A} apc perm cause va (k : Z -> M kstate A) s a s' :
  Z.land (entry (smem s) (user_root s) va) perm = perm ->
  k (PTE2PA (entry (smem s) (user_root s) va) + va mod PGSIZE) s = Ok a s' ->
  user_access apc perm cause va k s = Ok a s'.
Proof.
  intros Hp Hk. unfold user_access, loop. apply (bind_ok (inr a) s'); [|reflexivity].
  cbn [iterate]. apply (bind_ok (inr a) s'); [|reflexivity]. eapply bind_ok; [reflexivity|].
  rewrite (proj2 (Z.eqb_eq _ _) Hp). eapply bind_ok; [exact Hk|reflexivity].
Qed.

Lemma accessible_root perm s root va pa :
  accessible perm (smem s) root va pa -> csr satp (lget s) = u64 (MAKE_SATP root) -> user_root s = root.
Proof.
  intros [Hwf _ _ _ _] Hs. unfold user_root. rewrite Hs. apply satp_root, (pt_ram _ _ Hwf), root_in_tree.
Qed.

Lemma accessible_byte perm m root va pa : accessible perm m root va pa -> ram_ok (pa + va mod PGSIZE) 1 = true.
Proof.
  intros [_ _ _ (_ & ? & ?) _]. pose proof (Z.mod_pos_bound va PGSIZE eq_refl). apply ram_ok_iff. consts. lia.
Qed.

Lemma writable_storable m root va pa : writable m root va pa -> storable m root va pa.
Proof. intros [Hwf He Hr Hn]. destruct (stack_pte pa Hr). split; rewrite ?He; done. Qed.

Lemma user_store_spec apc va c pa root s :
  storable (smem s) root va pa -> csr satp (lget s) = u64 (MAKE_SATP root) ->
  user_store apc va c s = Ok tt (put_mem (store_bytes (smem s) (pa + va mod PGSIZE) [c]) s).
Proof.
  intros HA Hs. pose proof HA as [_ He Hp _ _].
  apply user_access_ok; rewrite (accessible_root _ _ _ _ _ HA Hs); [done|]. rewrite Hp. unfold store.
  change (Z.of_nat 1) with 1. rewrite (accessible_byte _ _ _ _ _ HA).
  change (storen 1 (smem s) (pa + va mod PGSIZE) (byte.unsigned c)) with
    (store_bytes (smem s) (pa + va mod PGSIZE) [byte.of_Z (byte.unsigned c)]).
  by rewrite byte.of_Z_unsigned.
Qed.

Lemma user_fill_spec apc bs : forall va pa root s,
  storable (smem s) root va pa -> csr satp (lget s) = u64 (MAKE_SATP root) ->
  va mod PGSIZE + Z.of_nat (length bs) <= PGSIZE ->
  user_fill apc va bs s = Ok tt (put_mem (store_bytes (smem s) (pa + va mod PGSIZE) bs) s).
Proof.
  induction bs as [|c bs IH]; intros va pa root s HA Hs Hlen; cbn [user_fill].
  { cbn [store_bytes]. by rewrite put_mem_smem. }
  simpl length in Hlen. pose proof HA as [Hwf _ _ Hr Hn].
  pose proof (Z.mod_pos_bound va PGSIZE eq_refl) as Hmod.
  eapply bind_ok; [by apply (user_store_spec _ _ _ pa root)|].
  destruct bs as [|c' bs]; [reflexivity|]. simpl length in Hlen.
  destruct (next_byte va (length bs) Hlen) as [Hd Hm].
  rewrite (IH (va + 1) pa root).
  - rewrite smem_put_mem, put_mem_put_mem, Hm.
    rewrite store_bytes_snoc by (simpl; lia). done.
  - rewrite smem_put_mem. eapply accessible_frame; [by apply (accessible_page _ _ _ va)|].
    apply (tree_store _ _ pa); [done|apply Hr|done|lia|simpl; lia].
  - by rewrite csr_put_mem.
  - rewrite Hm. simpl length. lia.
Qed.

Lemma user_load_spec apc va pa root s :
  accessible PTE_UR (smem s) root va pa -> csr satp (lget s) = u64 (MAKE_SATP root) ->
  user_load apc va s = Ok (byte.unsigned (default Byte.x00 (smem s !! (pa + va mod PGSIZE)))) s.
Proof.
  intros HA Hs. pose proof HA as [_ He Hp _ _].
  apply user_access_ok; rewrite (accessible_root _ _ _ _ _ HA Hs); [done|]. rewrite Hp. unfold load.
  change (Z.of_nat 1) with 1. rewrite (accessible_byte _ _ _ _ _ HA).
  unfold loadn. cbn [load_bytes]. by rewrite le_combine_1.
Qed.

Lemma user_read_spec apc n : forall va pa root s,
  accessible PTE_UR (smem s) root va pa -> csr satp (lget s) = u64 (MAKE_SATP root) ->
  va mod PGSIZE + Z.of_nat n <= PGSIZE ->
  user_read apc va n s = Ok (load_bytes (smem s) (pa + va mod PGSIZE) n) s.
Proof.
  induction n as [|n IH]; intros va pa root s HA Hs Hlen; cbn [user_read load_bytes]; [done|].
  eapply bind_ok; [by apply (user_load_spec _ _ pa root)|]. rewrite byte.of_Z_unsigned.
  destruct n as [|n]; [reflexivity|]. destruct (next_byte va n Hlen) as [Hd Hm].
  eapply bind_ok; [apply (IH (va + 1) pa root); [by apply (accessible_page _ _ _ va)|done|lia]|].
  by rewrite Hm, Z.add_assoc.
Qed.

(** The user may be interrupted by a system call without losing the page. *)
Lemma user_mode_store s i p g q a bs :
  user_mode s i p g -> page_aligned q -> q <> trapframe p ->
  q <= a -> a + Z.of_nat (length bs) <= q + PGSIZE ->
  user_mode (put_mem (store_bytes (smem s) a bs) s) i p g.
Proof.
  intros [] Hq Hne Hlo Hhi. split; rewrite ?csr_put_mem, ?gpr_put_mem, ?smem_put_mem; try done.
  rewrite <- um_trap0. apply loadn_same_on, store_bytes_same_on.
  destruct (page_disjoint q (trapframe p) Hq (proj1 um_frame0) Hne); unfold tf_kernel_trap; consts; lia.
Qed.

Lemma sys_user_print_spec (s : kstate) i p n buf pa t :
  current s = Some i -> procs s !! i = Some p ->
  writable (smem s) (pagetable p) buf pa -> 0 <= buf < MAXVA ->
  cstr (smem s) (pa + buf mod PGSIZE) t -> buf mod PGSIZE + Z.of_nat (length t) + 1 <= PGSIZE ->
  Byte.x25 ∉ t -> (length t < 256)%nat ->
  sys_user_print buf n s = Ok 0 (write_stderr t s).
Proof.
  intros Hc Hp [Hwf He Hr Hn] Hbuf Hstr Hlen Hdir Ht. unfold sys_user_print.
  pose proof (Z.mod_pos_bound buf PGSIZE eq_refl) as Hmod.
  eapply bind_ok; [reflexivity|]. rewrite Hc. eapply bind_ok; [reflexivity|].
  eapply bind_ok; [by apply deref_ok|].
  assert (zoom (user_va_to_pa (pagetable p) buf) s = Ok (pa + buf mod PGSIZE) s) as E.
  { unfold zoom. cbn [lget lens_k_mm]. rewrite user_va_to_pa_spec by done.
    change (smem (kmm s)) with (smem s). destruct (stack_pte pa Hr) as [Hpa _].
    destruct (descend _ _ _) eqn:Hd; cycle 1.
    { unfold entry in He. rewrite Hd in He. exfalso. clear -He Hpa Hr. rewrite <- He in Hpa.
      destruct Hr as (_ & Hlo & _). change (PTE2PA 0) with 0 in Hpa. consts. lia. }
    rewrite He, Hpa, u64_small by (destruct Hr as (_ & ? & ?); consts; lia). by destruct s. }
  eapply bind_ok; [exact E|].
  eapply bind_ok; [apply (read_string_spec _ t); [exact Hstr|destruct Hr as (_ & ? & ?); split; lia]|].
  eapply bind_ok; [apply vprintk_text, text_plain; done|].
  rewrite clip_text by lia. by rewrite (proj2 (Nat.ltb_lt _ _) Ht).
Qed.

(** [t] has been printed for [p]; the machine apart nothing has changed, and of
    the memory the trap frame at most. *)
Record printed_only (s s' : kstate) (p : process) (t : list byte) : Prop := {
  po_machine : s' = lput (lget s' : machine) s;
  po_console : Mem.console (lget s') = Mem.console (lget s) ++ [t];
  po_mem : forall z, page_aligned z -> z <> trapframe p -> same_page z (smem s) (smem s');
}.

(** The system call, from the trap to the way back. *)
Lemma print_call pc s i p g out pa n t :
  user_mode s i p g -> writable (smem s) (pagetable p) out pa ->
  pa <> trapframe p -> ~ in_tree (smem s) (pagetable p) (trapframe p) -> 0 <= out < MAXVA ->
  cstr (smem s) (pa + out mod PGSIZE) t -> out mod PGSIZE + Z.of_nat (length t) + 1 <= PGSIZE ->
  Byte.x25 ∉ t -> (length t < 256)%nat ->
  let g1 := passed g [SYS_user_print; out; n; 0; 0; 0; 0; 0] in
  wp (do_user_call pc SYS_user_print out n 0 0 0 0 0) (fun v s' => v = 0 /\
    user_mode s' i p (<[r_a0 := 0]> (<[r_t6 := trapframe p]> g1)) /\
    csr sepc (lget s') = u64 (pc + 4) /\ printed_only s s' p t) never s.
Proof.
  intros HU HW Hne Hntf Hout Hstr Hlen Hdir Ht g1. pose proof HU as [Hcur Hp _ _ _ _ _ _ Hfr _].
  eapply wp_mono; [apply (do_user_call_spec pc s i p g SYS_user_print out n 0 0 0 0 0
    (fun r s2 => r = 0 /\ printed_only s s2 p t) HU)| |done].
  - fold g1. intros s1 [Hput _ _ Hm _ Hl Hcon].
    rewrite smem_put_gpr in Hm. assert (kvars s1 = kvars s) as Hk by (rewrite Hput; done).
    assert (Hc1 : current s1 = Some i /\ procs s1 !! i = Some p).
    { unfold kvars in Hk. injection Hk as -> -> _ _ _. done. }
    destruct Hc1 as [Hc1 Hp1].
    assert (forall q, page_aligned q -> q <> trapframe p -> same_page q (smem s) (smem s1)) as Hs.
    { intros q Hq Hqt. symmetry. apply Hm.
      destruct (page_disjoint q (trapframe p) Hq (proj1 Hfr) Hqt); unfold sizeof_trapframe; consts; lia. }
    pose proof HW as [Hwf _ Hr _]. pose proof (Z.mod_pos_bound out PGSIZE eq_refl) as Hmod.
    change (do_syscall (u64 SYS_user_print) (u64 out) (u64 n) (u64 0) (u64 0) (u64 0) (u64 0) (u64 0))
      with (sys_user_print (u64 out) (u64 n)).
    rewrite (u64_small out) by (change MAXVA with 0x4000000000 in Hout; lia).
    eapply wp_intro; [apply (sys_user_print_spec s1 i p (u64 n) out pa t); try done|].
    + apply (writable_frame _ _ _ _ _ HW). intros q Hq. apply Hs; [apply (pt_ram _ _ Hwf q Hq)|by intros ->].
    + destruct Hstr as [Hnul Hb]. split; [done|]. rewrite <- Hb. apply load_bytes_same_on.
      eapply same_on_sub; [| |symmetry; apply Hs; [apply Hr|exact Hne]]; lia.
    + split; [|split; [done|split]].
      * split; [exact Hc1|]. split; [by exists p|].
        rewrite smem_write_stderr. split; [done|]. split; [done|]. exact Hl.
      * rewrite Hput. unfold write_stderr, put_gpr. by rewrite !lget_lput, !lput_lput.
      * change (Mem.console (lget s1) ++ [t] = Mem.console (lget s) ++ [t]). by rewrite Hcon.
      * intros z Hz Hzt. rewrite smem_write_stderr. by apply Hs.
  - intros v s' (r & s2 & -> & (-> & HP) & [(p2 & Hp2 & HU2) _ Hepc Hm Hcon2 Hput2]).
    split; [done|]. fold g1 in HU2. destruct HP as [Hput Hcon Hs].
    assert (p2 = p) as -> by (rewrite Hput in Hp2; simpl in Hp2; congruence).
    split; [exact HU2|]. split; [by rewrite Hepc, u64_add_u64|]. split.
    + rewrite Hput2, Hput. by rewrite !lget_lput, !lput_lput.
    + by rewrite Hcon2.
    + intros z Hz Hzt. etransitivity; [by apply Hs|]. symmetry. apply Hm.
      destruct (page_disjoint z (trapframe p) Hz (proj1 Hfr) Hzt); unfold sizeof_trapframe; consts; lia.
Qed.
(** printu as a whole: the buffer, the trap frame and the console. *)
Lemma printu_spec pc apc out out0 fmt vl t s i p g pa :
  user_mode s i p g -> writable (smem s) (pagetable p) out pa ->
  pa <> trapframe p -> ~ in_tree (smem s) (pagetable p) (trapframe p) ->
  0 <= out < MAXVA -> out mod PGSIZE + 256 <= PGSIZE -> length out0 = 256%nat ->
  text false false fmt vl = Some t -> (length t < 256)%nat -> Byte.x00 ∉ t -> Byte.x25 ∉ t ->
  wp (printu pc apc out out0 fmt vl) (fun v s' => v = 0 /\
    user_mode s' i p (<[r_a0 := 0]> (<[r_t6 := trapframe p]>
      (passed g [SYS_user_print; out; Z.of_nat (length t); 0; 0; 0; 0; 0]))) /\
    csr sepc (lget s') = u64 (pc + 4) /\
    s' = lput (lget s' : machine) s /\ Mem.console (lget s') = Mem.console (lget s) ++ [t] /\
    (forall z, page_aligned z -> z <> trapframe p -> z <> pa -> same_page z (smem s) (smem s'))) never s.
Proof.
  intros HU HW Hne Hntf Hout Hmod Hl0 Ht Hlen Hnul Hdir.
  pose proof (vsnprintf_text out0 fmt vl) as Hv. rewrite Ht, Hl0 in Hv. change (Z.of_nat 256) with 256 in Hv.
  pose proof HW as [Hwf _ Hr Hn]. pose proof (Z.mod_pos_bound out PGSIZE eq_refl) as Hm.
  assert (final_buffer out0 t = t ++ Byte.x00 :: drop (S (length t)) out0) as Hf.
  { unfold final_buffer. rewrite Hl0. change (256 =? 0)%nat with false. cbv iota.
    replace (length t `min` (256 - 1))%nat with (length t) by lia. by rewrite firstn_all. }
  assert (length (final_buffer out0 t) = 256%nat) as Hlf by (by rewrite length_final_buffer).
  unfold printu. rewrite Hv. rewrite s32_small, u64_small by lia.
  rewrite (proj2 (Z.ltb_lt (Z.of_nat (length t)) 256)) by lia.
  eapply wp_bind_ok; [apply (user_fill_spec apc _ out pa _ s (writable_storable _ _ _ _ HW) (um_satp _ _ _ _ HU)); lia|].
  cbv beta zeta. set (s1 := put_mem _ s). apply wp_bind.
  assert (smem s1 = store_bytes (smem s) (pa + out mod PGSIZE) (t ++ Byte.x00 :: drop (S (length t)) out0)) as Em.
  { unfold s1. by rewrite smem_put_mem, Hf. }
  assert (forall q, in_tree (smem s) (pagetable p) q -> same_page q (smem s) (smem s1)) as Htree.
  { rewrite Em, <- Hf. apply (tree_store _ _ pa); [done|apply Hr|done|lia|lia]. }
  destruct (pt_frame _ _ _ Htree Hwf) as (_ & Ht1 & _).
  eapply wp_mono; [apply (print_call pc s1 i p g out pa (Z.of_nat (length t)) t); try done| |done].
  - apply (user_mode_store _ _ _ _ pa); [done|apply Hr|done|lia|lia].
  - by apply (writable_frame _ _ _ _ _ HW).
  - by rewrite Ht1.
  - rewrite Em. by apply cstr_stored.
  - lia.
  - intros v s' (-> & HU' & Hepc & [Hput Hcon Hs]). apply wp_ret. split; [done|]. split; [done|]. split; [done|].
    split; [rewrite Hput; unfold s1, put_mem; by rewrite !lget_lput, !lput_lput|].
    split; [rewrite Hcon; unfold s1, put_mem; by rewrite lget_lput|].
    intros z Hz Hzt Hzp. etransitivity; [|by apply Hs]. rewrite Em, <- Hf. symmetry.
    apply store_bytes_same_on. destruct (page_disjoint z pa Hz (proj1 Hr) Hzp); lia.
Qed.
End Printu.

(** * Properties *)

(** C13. printu prints.  A process whose buffer lies in a page of its own writes the
    text of its format there and makes a system call; the text appears on the
    console, and the process goes on behind the call with a0 = 0, which printu
    returns, and with its other registers, but t6, as they were.  The text must
    hold no directive of its own, since the kernel takes it for a format. *)
Theorem printu_prints {K : Layout} pc apc out out0 fmt vl t s i p g pa :
  user_mode s i p g -> writable (smem s) (pagetable p) out pa ->
  pa <> trapframe p -> ~ in_tree (smem s) (pagetable p) (trapframe p) ->
  0 <= out < MAXVA -> out mod PGSIZE + 256 <= PGSIZE -> length out0 = 256%nat ->
  text false false fmt vl = Some t -> (length t < 256)%nat -> Byte.x00 ∉ t -> Byte.x25 ∉ t ->
  exists s', printu pc apc out out0 fmt vl s = Ok 0 s' /\
    Mem.console (lget s') = Mem.console (lget s) ++ [t] /\
    kvars s' = kvars s /\ csr sepc (lget s') = u64 (pc + 4) /\
    user_mode s' i p (<[r_a0 := 0]> (<[r_t6 := trapframe p]>
      (passed g [SYS_user_print; out; Z.of_nat (length t); 0; 0; 0; 0; 0]))).
Proof.
  intros HU HW Hne Hntf Hout Hmod Hl0 Ht Hlen Hnul Hdir.
  pose proof (printu_spec pc apc out out0 fmt vl t s i p g pa HU HW Hne Hntf Hout Hmod Hl0 Ht Hlen Hnul Hdir) as H.
  apply wp_ok in H as (v & s' & E & -> & HU' & Hepc & Hput & Hcon & _). exists s'.
  split_and!; [exact E|exact Hcon|by rewrite Hput|exact Hepc|exact HU'].
Qed.
