(* ===== verification/UserFork.v ===== *)
(** fork of user/user_lib.c, from the user program to do_fork and back: it
    returns twice. *)
From S2P Require Import Prelude Mem Context CString Snprintf Console Pmm Sv39 Vmm Space Kstate Sched Process NewProc Fork Regs Syscall Strap User.

Section Fork.
Context {K : Layout} {KO : LayoutOk K}.

(** The parent's trap frame may be written without harm to the fork. *)
Lemma parent_ok_frame m m' F0 pp segs :
  parent_ok m F0 pp segs -> ~ in_tree m (pagetable pp) (trapframe pp) -> mapped_info pp <> trapframe pp ->
  (forall z, page_aligned z -> z <> trapframe pp -> same_page z m m') -> parent_ok m' F0 pp segs.
Proof.
  intros [H1 H2 Hwf Ht H5 H6 R0 R1 R2 Rs Hp Hs Hnd] Hntf Hni Hm.
  destruct (pt_frame m m' (pagetable pp)) as (Hwf' & Ht' & He); [|done|].
  { intros p Hin. apply Hm; [apply (pt_ram _ _ Hwf p Hin)|by intros ->]. }
  assert (forall k, 0 <= k < 256 -> region_at m' (mapped_info pp) k = region_at m (mapped_info pp) k) as Hr.
  { intros k Hk. apply region_at_same; [done|]. apply Hm; [apply H1|done]. }
  assert (forall va, parent_page m' pp va = parent_page m pp va) as Hpp by (intros va; unfold parent_page; by rewrite He).
  split; try done.
  - intros p Hin. apply Ht. by apply Ht'.
  - by rewrite Hr.
  - by rewrite Hr.
  - by rewrite Hr.
  - intros x g Hg. rewrite Hr; [by apply Rs|]. apply lookup_lt_Some in Hg. lia.
  - by rewrite Hpp.
  - eapply Forall_impl; [exact Hs|]. intros g Hg. by rewrite Hpp.
Qed.

Lemma fork_ok_frame s k c pp segs n pr q tf dir stack ustack info l :
  fork_ok s c pp segs n pr q tf dir stack ustack info l ->
  ~ in_tree (smem s) (pagetable pp) (trapframe pp) -> mapped_info pp <> trapframe pp ->
  (forall z, page_aligned z -> z <> trapframe pp -> same_page z (smem s) (mem k)) ->
  fork_ok (lput k s) c pp segs n pr q tf dir stack ustack info l.
Proof.
  intros [H1 H2 H3 H4 H5 H6 H7 H8 H9] Hntf Hni Hm. split; try done.
  - refine (pmm_free_frame (kmm s) _ (mem k) H6 _). intros p Hp.
    pose proof H6 as (_ & _ & Hman). rewrite Forall_forall in Hman. destruct (Hman p Hp) as [[Hpa _] _].
    apply Hm; [done|]. intros ->. pose proof (pk_frame _ _ _ _ H9) as [_ Hn]. by apply Hn.
  - by eapply parent_ok_frame.
Qed.

(** The child in the state [s]: its trap frame holds the registers [g] and the
    pc its user code goes on at. *)
Definition child_frame (s : kstate) (n : nat) (tf : Z) (g : list Z) (pc : Z) : Prop :=
  (exists cp, procs s !! n = Some cp /\ status cp = READY /\ trapframe cp = tf) /\
  saved_regs (smem s) tf = g /\ ld64 (smem s) (tf + tf_epc) = pc.

Lemma child_frame_frame s s' n tf g pc :
  child_frame s n tf g pc -> procs s' = procs s -> same_page tf (smem s') (smem s) ->
  child_frame s' n tf g pc.
Proof.
  intros (Hp & <- & <-) E Hs. split; [by rewrite E|]. split.
  - apply saved_regs_same. eapply same_on_sub; [| |exact Hs]; consts; lia.
  - apply loadn_same_on. eapply same_on_sub; [| |exact Hs]; unfold tf_epc; consts; lia.
Qed.

(** The child's frame from the words do_fork leaves. *)
Lemma child_frame_words s2 s3 n tf cp ptf g pc :
  procs s3 !! n = Some cp -> status cp = READY -> trapframe cp = tf -> length g = 31%nat ->
  saved_regs (smem s2) ptf = g -> ld64 (smem s2) (ptf + tf_epc) = pc ->
  (forall k, 0 <= k < 35 -> ld64 (smem s3) (tf + 8 * k) =
     if decide (8 * k = tf_a0) then 0 else ld64 (smem s2) (ptf + 8 * k)) ->
  child_frame s3 n tf (<[r_a0 := 0]> g) pc.
Proof.
  intros Hp Hst Ht Hlen Hg Hpc Hw. split; [by exists cp|]. split.
  - apply (list_eq_same_length _ _ 31%nat); [by rewrite length_insert|done|].
    intros r x y Hr Hx Hy. rewrite saved_regs_lookup in Hx by done. injection Hx as <-.
    rewrite Hw by lia. destruct (decide (r = r_a0)) as [->|Hne].
    + rewrite list_lookup_insert_eq in Hy by (rewrite Hlen; done). by injection Hy.
    + rewrite list_lookup_insert_ne in Hy by done. rewrite <- Hg, saved_regs_lookup in Hy by done.
      injection Hy as <-. rewrite decide_False by (unfold tf_a0, r_a0 in *; lia). done.
  - rewrite <- Hpc. change tf_epc with (8 * 33). rewrite Hw by lia. by rewrite decide_False.
Qed.

Lemma sys_user_fork_call s s1 c pp g segs n pr q tf dir stack ustack info l pc :
  user_mode s c pp g -> called_from s s1 pp g pc ->
  fork_ok s c pp segs n pr q tf dir stack ustack info l ->
  ~ in_tree (smem s) (pagetable pp) (trapframe pp) -> mapped_info pp <> trapframe pp ->
  wp sys_user_fork (fun r s3 => frame_kept c pp s1 s3 /\ r = s32 (pid pr) /\ ready s3 (q ++ [n]) /\
    child_frame s3 n tf (<[r_a0 := 0]> (<[r_t6 := trapframe pp]> g)) (u64 (u64 pc + 4))) never s1.
Proof.
  intros HU HC HF Hntf Hni. pose proof HU as [Hcur Hp _ Hlen _ _ _ _ Hfr _].
  destruct HC as [Hput Hregs Hepc Hm _ Hl _].
  unfold sys_user_fork. eapply wp_bind_ok; [by apply sprint_eq|]. cbv beta.
  set (s2 := write_stderr _ s1). eapply wp_bind_ok; [reflexivity|]. cbv beta.
  assert (current s2 = Some c) as -> by (unfold s2; rewrite Hput; exact Hcur).
  assert (smem s2 = smem s1) as E2 by apply smem_write_stderr.
  assert (fork_ok s2 c pp segs n pr q tf dir stack ustack info l) as HF2.
  { assert (s2 = lput (lget s2 : machine) s) as ->.
    { unfold s2, write_stderr. rewrite Hput. by rewrite !lget_lput, lput_lput. }
    apply fork_ok_frame; [exact HF|done|done|]. change (mem (lget s2)) with (smem s2). rewrite E2.
    intros z Hz Hne. symmetry. apply Hm.
    destruct (page_disjoint z (trapframe pp) Hz (proj1 Hfr) Hne); unfold sizeof_trapframe; consts; lia. }
  eapply wp_mono; [apply (wp_preserves same_gpr); [exact (do_fork_copies_spec _ _ _ _ _ _ _ _ _ _ _ _ _ HF2)|apply pres_do_fork]| |done].
  intros r s3 [(-> & Hq & (cp & Hcp & Hst & Hu) & Hw & _ & _ & _ & Hkept & Hcur3 & _ & Hoth) Hgpr].
  destruct HF2 as [_ [Hpp Hpf] _ [Hn Hnf] _ _ _ _ HP].
  assert (same_page (trapframe pp) (smem s2) (smem s3)) as Hsame.
  { apply Hkept; [apply Hfr|apply (pk_frame _ _ _ _ HP)]. }
  rewrite E2 in Hsame. split; [|split; [done|split; [exact Hq|]]].
  - split; [rewrite Hcur3; unfold s2; rewrite Hput; exact Hcur|]. split.
    { destruct (Hoth c pp) as (p' & Hp' & Hu' & _); [congruence|done|]. exists p'.
      split; [done|]. by injection Hu'. }
    split; [eapply same_on_sub; [| |symmetry; exact Hsame]; consts; lia|].
    split; [eapply same_on_sub; [| |symmetry; exact Hsame]; unfold tf_epc; consts; lia|].
    rewrite Hgpr. unfold s2, write_stderr. rewrite lget_lput. exact Hl.
  - eapply (child_frame_words s2); [exact Hcp|exact Hst| | | | |exact Hw].
    + by injection Hu.
    + by rewrite length_insert.
    + by rewrite E2.
    + by rewrite E2.
Qed.
End Fork.

(** * Properties *)

(** C14. fork returns twice.  A process that calls fork, when there is a free slot and
    memory enough, goes on behind the call with the number of the child as the
    result; the child waits at the end of the ready queue, and its trap frame
    holds the same pc and the same registers, but 0 in a0: when it is scheduled
    it finds that fork has returned 0. *)
Theorem fork_returns_twice {K : Layout} {KO : LayoutOk K} pc s c pp g segs n pr q tf dir stack ustack info l :
  user_mode s c pp g -> fork_ok s c pp segs n pr q tf dir stack ustack info l ->
  ~ in_tree (smem s) (pagetable pp) (trapframe pp) -> mapped_info pp <> trapframe pp ->
  let regs := <[r_t6 := trapframe pp]> (passed g [SYS_user_fork; 0; 0; 0; 0; 0; 0; 0]) in
  exists s' pp', fork pc s = Ok (s32 (pid pr)) s' /\
    user_mode s' c pp' (<[r_a0 := u64 (s32 (pid pr))]> regs) /\ csr sepc (lget s') = u64 (pc + 4) /\
    ready s' (q ++ [n]) /\ child_frame s' n tf (<[r_a0 := 0]> regs) (u64 (pc + 4)).
Proof.
  intros HU HF Hntf Hni regs.
  set (Q := fun v s' => v = s32 (pid pr) /\ exists pp',
    user_mode s' c pp' (<[r_a0 := u64 (s32 (pid pr))]> regs) /\ csr sepc (lget s') = u64 (pc + 4) /\
    ready s' (q ++ [n]) /\ child_frame s' n tf (<[r_a0 := 0]> regs) (u64 (pc + 4))).
  enough (wp (fork pc) Q never s) as H.
  { apply wp_ok in H as (v & s' & E & -> & pp' & H). by exists s', pp'. }
  unfold fork. apply wp_bind.
  set (g1 := passed g [SYS_user_fork; 0; 0; 0; 0; 0; 0; 0]) in *.
  eapply wp_mono; [apply (do_user_call_spec pc s c pp g SYS_user_fork 0 0 0 0 0 0 0
    (fun r s3 => r = s32 (pid pr) /\ ready s3 (q ++ [n]) /\
       child_frame s3 n tf (<[r_a0 := 0]> regs) (u64 (u64 pc + 4))) HU)| |done].
  - fold g1. intros s1 HC.
    change (do_syscall (u64 SYS_user_fork) (u64 0) (u64 0) (u64 0) (u64 0) (u64 0) (u64 0) (u64 0)) with sys_user_fork.
    apply (sys_user_fork_call (put_gpr g1 s) s1 c pp g1 segs n pr q tf dir stack ustack info l);
      [by apply user_mode_passed|exact HC| |by rewrite smem_put_gpr|exact Hni].
    by apply (fork_ok_frame s (set_gpr g1 (lget s))).
  - intros v s' (r & s3 & -> & (-> & Hq & Hch) & [(p2 & Hp2 & HU2) Hk Hepc Hm _]).
    apply wp_ret. split; [by rewrite s32_u64, !s32_s32|]. exists p2. fold g1 in HU2.
    rewrite u64_add_u64 in Hepc, Hch. split; [exact HU2|]. split; [exact Hepc|].
    unfold kvars in Hk. injection Hk as Hk1 Hk2 Hk3 _ _.
    split; [unfold ready; rewrite Hk1, Hk3; exact Hq|].
    apply (child_frame_frame s3); [exact Hch|exact Hk1|]. apply Hm.
    pose proof (fk_pages _ _ _ _ _ _ _ _ _ _ _ _ _ HF) as (_ & _ & Hman).
    apply Forall_cons in Hman as [[[Htf _] _] _].
    pose proof (pk_frame _ _ _ _ (fk_space _ _ _ _ _ _ _ _ _ _ _ _ _ HF)) as [[Hpf _] Hn].
    destruct (page_disjoint tf (trapframe pp) Htf Hpf); [intros ->; apply Hn; by left|..];
      unfold sizeof_trapframe; consts; lia.
Qed.
