(* ===== verification/Isolation.v ===== *)
(** Who owns which page of memory: the pages of the allocator, the pages that
    the kernel keeps for each process, and the pages that user programs reach;
    what the kernel does to this partition when a process asks for memory. *)
From S2P Require Import Prelude Mem Context CString Snprintf Console Pmm Sv39 Vmm Space Kstate Sched Process NewProc Fork Syscall Strap User.

(** ** Pages of a process *)

Definition PTE_UV : Z := Z.lor PTE_V PTE_U.

(** The entry [e] lets user programs reach the page [z]. *)
Definition grants (flags e z : Z) : Prop := Z.land e flags = flags /\ PTE2PA e = z.

Definition user_page (m : memory) (p : process) (va z : Z) : Prop :=
  0 <= va < 2 ^ 39 /\ grants PTE_UV (entry m (pagetable p) va) z.

Definition user_writable (m : memory) (p : process) (va z : Z) : Prop :=
  0 <= va < 2 ^ 39 /\ grants PTE_UW (entry m (pagetable p) va) z.

(** The trap frame, the table of regions and the kernel stack. *)
Definition space_pages (p : process) : list Z := [trapframe p; mapped_info p; kstack p - PGSIZE].

(** What the kernel keeps for a process. *)
Definition kernel_page (m : memory) (p : process) (z : Z) : Prop :=
  in_tree m (pagetable p) z \/ z ∈ space_pages p.

Definition used (s : kstate) (i : nat) (p : process) : Prop :=
  procs s !! i = Some p /\ status p <> FREE.

(** The kernel's pages are out of reach of user programs, belong to one process
    each, and are not free; a page that user programs reach is not free; and
    only one process may write to it. *)
Record isolated (s : kstate) (l : list Z) : Prop := {
  iso_free : pmm_free (kmm s) l;
  iso_wf : forall i p, used s i p -> pt_wf (smem s) (pagetable p);
  iso_kernel : forall i p z, used s i p -> kernel_page (smem s) p z -> ram_page z /\ z ∉ l;
  iso_inside : forall i p z, used s i p -> in_tree (smem s) (pagetable p) z -> z ∉ space_pages p;
  iso_apart : forall i j p q z, used s i p -> used s j q ->
    kernel_page (smem s) p z -> kernel_page (smem s) q z -> i = j;
  iso_user : forall i j p q va z, used s i p -> used s j q ->
    user_page (smem s) p va z -> ram_page z /\ z ∉ l /\ ~ kernel_page (smem s) q z;
  iso_writable : forall i j p q va va' z, used s i p -> used s j q ->
    user_writable (smem s) p va z -> user_writable (smem s) q va' z -> i = j;
}.

Lemma writable_user m p va z : user_writable m p va z -> user_page m p va z.
Proof.
  intros (Hva & Hf & Hz). split; [done|]. split; [|done].
  change PTE_UV with (Z.land PTE_UW PTE_UV). by rewrite Z.land_assoc, Hf.
Qed.

(** What the rest of the kernel does not change of a process. *)
Definition same_space (p q : process) : Prop :=
  pagetable p = pagetable q /\ space_pages p = space_pages q.

Lemma same_space_unlinked p q : unlinked p = unlinked q -> same_space p q.
Proof. unfold unlinked. intros [= ? ? ? ?]. split; [done|]. unfold space_pages. congruence. Qed.

(** The process [q] in the memory [m'] has the space that [p] had in [m]. *)
Record space_kept (m m' : memory) (p q : process) : Prop := {
  sk_space : same_space q p;
  sk_wf : pt_wf m' (pagetable q);
  sk_kernel : forall z, kernel_page m' q z <-> kernel_page m p z;
  sk_tree : forall z, in_tree m' (pagetable q) z <-> in_tree m (pagetable p) z;
  sk_user : forall va z, user_page m' q va z <-> user_page m p va z;
  sk_writable : forall va z, user_writable m' q va z <-> user_writable m p va z;
}.

Lemma space_same m m' p q :
  pt_wf m (pagetable p) -> (forall z, in_tree m (pagetable p) z -> same_page z m m') -> same_space q p ->
  space_kept m m' p q.
Proof.
  intros Hwf Hs [Hq Hq']. destruct (pt_frame m m' (pagetable p) Hs Hwf) as (Hwf' & Ht & He).
  split; [done|by rewrite Hq|..]; unfold kernel_page, user_page, user_writable; rewrite Hq, ?Hq'.
  - intros z. by rewrite Ht.
  - done.
  - intros va z. by rewrite He.
  - intros va z. by rewrite He.
Qed.

(** Every process keeps its space. *)
Lemma isolated_kept s s' l :
  isolated s l -> pmm_free (kmm s') l ->
  (forall j p', used s' j p' -> exists p, used s j p /\ space_kept (smem s) (smem s') p p') ->
  isolated s' l.
Proof.
  intros [Hf Hwf Hk Hin Ha Hu Hw] Hf' HP. split; [done|..].
  - intros i p' (p & _ & E)%HP. apply E.
  - intros i p' z (p & Hp & E)%HP Hz. apply (Hk i p); [done|by apply E].
  - intros i p' z (p & Hp & E)%HP Hz. rewrite (proj2 (sk_space _ _ _ _ E)). apply (Hin i p); [done|by apply E].
  - intros i j p' q' z (p & Hp & E)%HP (q & Hq & E')%HP Hz Hz'.
    apply (Ha i j p q z); [done|done|by apply E|by apply E'].
  - intros i j p' q' va z (p & Hp & E)%HP (q & Hq & E')%HP Hz. rewrite (sk_kernel _ _ _ _ E').
    apply (Hu i j p q va z); [done|done|by apply E].
  - intros i j p' q' va va' z (p & Hp & E)%HP (q & Hq & E')%HP Hz Hz'.
    apply (Hw i j p q va va' z); [done|done|by apply E|by apply E'].
Qed.

(** Memory that is neither a table nor free may change. *)
Lemma isolated_frame s s' l :
  isolated s l -> pmm_free (kmm s') l ->
  (forall j p', used s' j p' -> exists p, used s j p /\ same_space p' p) ->
  (forall j p z, used s j p -> in_tree (smem s) (pagetable p) z -> same_page z (smem s) (smem s')) ->
  isolated s' l.
Proof.
  intros HI Hf Hp Hs. apply (isolated_kept s); [done|done|]. intros j p' (p & Hj & Hsp)%Hp. exists p.
  split; [done|]. apply space_same; [by apply (iso_wf _ _ HI j)|intros z; by apply (Hs j)|done].
Qed.

(** What the process [n] may have become: its pages were free or its own, and
    nobody else has what the allocator gets back. *)
Record owner (s s' : kstate) (l l' : list Z) (n : nat) (cp : process) : Prop := {
  ow_used : used s' n cp;
  ow_wf : pt_wf (smem s') (pagetable cp);
  ow_kernel : forall z, kernel_page (smem s') cp z ->
    ram_page z /\ z ∉ l' /\ (z ∈ l \/ exists p, used s n p /\ kernel_page (smem s) p z);
  ow_inside : forall z, in_tree (smem s') (pagetable cp) z -> z ∉ space_pages cp;
  ow_user : forall va z, user_page (smem s') cp va z ->
    ram_page z /\ z ∉ l' /\ ~ kernel_page (smem s') cp z /\
    (z ∈ l \/ exists j p va', used s j p /\ user_page (smem s) p va' z);
  ow_writable : forall va z, user_writable (smem s') cp va z ->
    z ∈ l \/ exists p va', used s n p /\ user_writable (smem s) p va' z;
  ow_free : forall z, z ∈ l' -> z ∉ l -> forall j p, j <> n -> used s j p ->
    ~ kernel_page (smem s) p z /\ forall va, ~ user_page (smem s) p va z;
}.

(** The process [n] changes, the others keep their space. *)
Section Step.
Context (s s' : kstate) (l l' : list Z) (n : nat) (cp : process).
Hypotheses (HI : isolated s l) (Hf' : pmm_free (kmm s') l') (HO : owner s s' l l' n cp).
Hypothesis Hp : forall j p', j <> n -> used s' j p' -> exists p, used s j p /\ same_space p' p.
Hypothesis Hs : forall j p z, used s j p -> kernel_page (smem s) p z -> page_aligned z -> z ∉ l -> z ∉ l' ->
  (forall p, used s n p -> ~ kernel_page (smem s) p z) -> same_page z (smem s) (smem s').

Lemma step_cases j p' :
  used s' j p' -> j = n /\ p' = cp \/
  exists p, j <> n /\ used s j p /\ space_kept (smem s) (smem s') p p'.
Proof.
  intros Hj. destruct (decide (j = n)) as [->|Hne].
  { left. split; [done|]. destruct (ow_used _ _ _ _ _ _ HO) as [Hn _], Hj as [Hj _]. congruence. }
  right. destruct (Hp j p' Hne Hj) as (p & Hjp & Hsp). exists p. split; [done|]. split; [done|].
  apply space_same; [by apply (iso_wf _ _ HI j)| |done]. intros z Hz.
  assert (kernel_page (smem s) p z) as Hkz by (by left). destruct (iso_kernel _ _ HI j p z Hjp Hkz) as [[Hza _] Hzl].
  apply (Hs j p); [done..| |].
  - intros Hzl'. by destruct (ow_free _ _ _ _ _ _ HO z Hzl' Hzl j p Hne Hjp) as [? _].
  - intros q Hq Hkq. by apply Hne, (iso_apart _ _ HI j n p q z).
Qed.

Lemma step_kernel_apart j p z :
  j <> n -> used s j p -> kernel_page (smem s) p z -> ~ kernel_page (smem s') cp z.
Proof.
  intros Hne Hj Hz (_ & _ & [Hzl|(q & Hq & Hzq)])%(ow_kernel _ _ _ _ _ _ HO);
    [by apply (iso_kernel _ _ HI j p z Hj Hz)|]. by apply Hne, (iso_apart _ _ HI j n p q z).
Qed.

Lemma step_writable_apart j p va va' z :
  j <> n -> used s j p -> user_writable (smem s) p va z -> ~ user_writable (smem s') cp va' z.
Proof.
  intros Hne Hj Hz [Hzl|(q & va0 & Hq & Hzq)]%(ow_writable _ _ _ _ _ _ HO).
  - by apply writable_user, (iso_user _ _ HI j j p p va z Hj Hj) in Hz as (_ & ? & _).
  - by apply Hne, (iso_writable _ _ HI j n p q va va0 z).
Qed.

(** No page that another process reaches is given to the allocator. *)
Lemma step_user_kept j p va z : j <> n -> used s j p -> user_page (smem s) p va z -> ram_page z /\ z ∉ l'.
Proof.
  intros Hne Hj Hz. destruct (iso_user _ _ HI j j p p va z Hj Hj Hz) as (Hr & Hzl & _). split; [done|].
  intros Hzl'. by apply (ow_free _ _ _ _ _ _ HO z Hzl' Hzl j p Hne Hj) in Hz.
Qed.

Lemma isolated_step : isolated s' l'.
Proof.
  pose proof HI as [Hf Hwf Hk Hin Ha Hu Hw]. pose proof HO as [Hn Cwf Ck Cin Cu Cw Cf].
  split; [done|..].
  - intros j p' [[-> ->]|(p & _ & _ & E)]%step_cases; [done|apply E].
  - intros j p' z [[-> ->]|(p & Hne & Hj & E)]%step_cases Hz; [split; by apply Ck|].
    apply E in Hz. destruct (Hk j p z Hj Hz) as [Hr Hzl]. split; [done|]. intros Hzl'.
    by destruct (Cf z Hzl' Hzl j p Hne Hj) as [? _].
  - intros j p' z [[-> ->]|(p & Hne & Hj & E)]%step_cases Hz; [by apply Cin|].
    rewrite (proj2 (sk_space _ _ _ _ E)). apply (Hin j p); [done|by apply E].
  - intros i j p' q' z [[-> ->]|(p & Hni & Hi & E)]%step_cases [[-> ->]|(q & Hnj & Hj & E')]%step_cases Hz Hz'; [done|..].
    + apply E' in Hz'. by destruct (step_kernel_apart j q z Hnj Hj Hz').
    + apply E in Hz. by destruct (step_kernel_apart i p z Hni Hi Hz).
    + apply (Ha i j p q z); [done|done|by apply E|by apply E'].
  - intros i j p' q' va z [[-> ->]|(p & Hni & Hi & E)]%step_cases [[-> ->]|(q & Hnj & Hj & E')]%step_cases Hz.
    + apply Cu in Hz. tauto.
    + apply Cu in Hz as (Hr & Hzl & _ & Hz). split; [done|]. split; [done|].
      rewrite (sk_kernel _ _ _ _ E'). intros Hkz. destruct Hz as [Hz|(k & p & va' & Hk' & Hz)].
      * by apply (Hk j q z Hj Hkz).
      * by apply (Hu k j p q va' z).
    + apply E in Hz. destruct (step_user_kept i p va z Hni Hi Hz) as [Hr Hzl']. split; [done|]. split; [done|].
      intros (_ & _ & [Hz'|(q & Hq & Hz')])%Ck; [|by apply (Hu i n p q va z)].
      by destruct (Hu i i p p va z Hi Hi Hz) as (_ & ? & _).
    + apply E in Hz. destruct (step_user_kept i p va z Hni Hi Hz) as [Hr Hzl']. split; [done|]. split; [done|].
      rewrite (sk_kernel _ _ _ _ E'). by apply (Hu i j p q va z).
  - intros i j p' q' va va' z [[-> ->]|(p & Hni & Hi & E)]%step_cases [[-> ->]|(q & Hnj & Hj & E')]%step_cases Hz Hz'; [done|..].
    + apply E' in Hz'. by destruct (step_writable_apart j q va' va z Hnj Hj Hz').
    + apply E in Hz. by destruct (step_writable_apart i p va va' z Hni Hi Hz).
    + apply (Hw i j p q va va' z); [done|done|by apply E|by apply E'].
Qed.
End Step.

(** A system with one process, by the description of its address space. *)
Lemma isolated_one s i p m taken l f :
  aspace (kmm s) m (pagetable p) taken l f -> (forall j q, used s j q -> j = i /\ q = p) ->
  (forall z, z ∈ space_pages p -> private z (pagetable p) taken l) ->
  (forall va z, 0 <= va < 2 ^ 39 -> grants PTE_UV (f va) z ->
     private z (pagetable p) taken l /\ z ∉ space_pages p) ->
  isolated s l.
Proof.
  intros [(Hwf & Hf & Hd) Ht He _] Hone Hsp Hu. change (smem (kmm s)) with (smem s) in *.
  assert (forall z, private z (pagetable p) taken l -> ~ in_tree (smem s) (pagetable p) z) as Hnt.
  { intros z [_ H1 H2 _] [?|?]%Ht; done. }
  split; [done|..].
  - intros j q Hj. destruct (Hone j q Hj) as [-> ->]. done.
  - intros j q z Hj Hz. destruct (Hone j q Hj) as [-> ->]. destruct Hz as [Hz|[? _ _ ?]%Hsp]; [|done].
    split; [by apply (pt_ram _ _ Hwf)|]. intros Hzl. by apply (Hd z).
  - intros j q z Hj Hz Hz'. destruct (Hone j q Hj) as [-> ->]. by apply (Hnt z (Hsp z Hz')).
  - intros j k q q' z Hj Hk _ _. by destruct (Hone j q Hj) as [-> _], (Hone k q' Hk) as [-> _].
  - intros j k q q' va z Hj Hk [Hva Hz]. destruct (Hone j q Hj) as [-> ->], (Hone k q' Hk) as [-> ->].
    rewrite He in Hz by done. destruct (Hu va z Hva Hz) as [Hp Hn]. split; [apply Hp|].
    split; [apply Hp|]. intros [Hin|Hin]; [by apply (Hnt z)|done].
  - intros j k q q' va va' z Hj Hk _ _. by destruct (Hone j q Hj) as [-> _], (Hone k q' Hk) as [-> _].
Qed.

(** ** A fresh page for a process *)

Lemma grants_map_pte pa perm flags z :
  ram_page pa -> 0 <= perm < 1024 -> grants flags (map_pte pa perm) z -> z = pa.
Proof.
  intros (Ha & Hlo & Hhi) Hp [_ <-]. apply map_pte_decode; [done|consts; lia|done].
Qed.

Lemma mapped_entry t root va pa perm l taken l' t' va' :
  mapped t root va pa perm l 1 taken l' t' -> ram_page pa -> 0 <= va' < 2 ^ 39 ->
  entry (smem t') root va' =
    if decide (va' / PGSIZE = first_page va / PGSIZE) then map_pte pa perm else entry (smem t) root va'.
Proof.
  intros (_ & _ & He & _) Hr%ram_page_pos Hva. rewrite He by done. unfold map_result. cbv zeta.
  destruct (decide (va' / PGSIZE = first_page va / PGSIZE)) as [->|Hne].
  - rewrite decide_True by lia. by rewrite Z.sub_diag, Z.mul_0_r, Z.add_0_r, u64_small by lia.
  - by rewrite decide_False by lia.
Qed.

(** The page [pa] was the first one of the free list. *)
Lemma mapped_owner s s' t l l' taken pa va perm i p :
  isolated s (pa :: l) -> used s i p -> procs s' = procs s -> smem t = smem s -> 0 <= perm < 1024 ->
  mapped t (pagetable p) va pa perm l 1 taken l' (kmm s') -> owner s s' (pa :: l) l' i p.
Proof.
  intros [Hf Hwf Hk Hin Ha Hu Hw] Hi Hp Et Hperm HM. pose proof HM as (El & Hg & _ & _).
  destruct (pmm_free_page _ _ _ Hf) as (Hpa & _ & _).
  pose proof Hf as (_ & Hnd & Hman). apply NoDup_cons in Hnd as [Hnpa Hnd].
  rewrite El in Hnd. apply NoDup_app in Hnd as (_ & Hnd & _). rewrite Forall_forall in Hman.
  pose proof (vg_tree _ _ _ _ _ Hg) as Ht. rewrite Et in Ht. change (smem (kmm s')) with (smem s') in Ht.
  assert (forall z, z ∈ taken \/ z ∈ l' -> z ∈ l) as Hsub by (intros z; by rewrite El, elem_of_app).
  assert (forall va' z flags, 0 <= va' < 2 ^ 39 -> grants flags (entry (smem s') (pagetable p) va') z ->
    z = pa \/ grants flags (entry (smem s) (pagetable p) va') z) as He.
  { intros va' z flags Hva. change (smem s') with (smem (kmm s')). rewrite (mapped_entry _ _ _ _ _ _ _ _ _ _ HM Hpa Hva), Et.
    case_decide; [left; by eapply grants_map_pte|by right]. }
  assert (forall z, kernel_page (smem s') p z -> kernel_page (smem s) p z \/ z ∈ taken) as Hkp.
  { unfold kernel_page. intros z. rewrite Ht. tauto. }
  split.
  - split; [rewrite Hp|]; apply Hi.
  - apply Hg.
  - intros z [Hz|Hz]%Hkp.
    + destruct (Hk i p z Hi Hz) as [Hr Hn]. rewrite not_elem_of_cons in Hn. split; [done|].
      split; [intros H; by apply Hn, Hsub; right|]. right. by exists p.
    + split; [apply (Hman z); right; apply Hsub; by left|]. split; [by apply Hnd|]. left. right. apply Hsub. by left.
  - intros z [Hz|Hz]%Ht; [by apply (Hin i p)|]. intros Hsp.
    apply (Hk i p z Hi (or_intror Hsp)). right. apply Hsub. by left.
  - intros va' z [Hva [->|Hz]%He]; [| |done].
    + split; [done|]. split; [intros H; by apply Hnpa, Hsub; right|]. split; [|left; by left].
      intros [Hz|Hz]%Hkp; [apply (Hk i p pa Hi Hz); by left|apply Hnpa, Hsub; by left].
    + destruct (Hu i i p p va' z Hi Hi (conj Hva Hz)) as (Hr & Hn & Hnk). rewrite not_elem_of_cons in Hn.
      split; [done|]. split; [intros H; by apply Hn, Hsub; right|]. split; [|right; by exists i, p, va'].
      intros [H|H]%Hkp; [done|apply Hn, Hsub; by left].
  - intros va' z [Hva [->|Hz]%He]; [left; by left| |done]. right. by exists p, va'.
  - intros z Hz Hn. destruct Hn. right. apply Hsub. by right.
Qed.

Lemma isolated_mapped s s' t l l' taken pa va perm i p :
  isolated s (pa :: l) -> used s i p -> procs s' = procs s -> smem t = smem s -> 0 <= perm < 1024 ->
  mapped t (pagetable p) va pa perm l 1 taken l' (kmm s') -> isolated s' l'.
Proof.
  intros HI Hi Hp Et Hperm HM. pose proof HM as (El & Hg & _ & _).
  apply (isolated_step s s' (pa :: l) l' i p HI).
  - apply (vg_inv _ _ _ _ _ Hg).
  - by eapply mapped_owner.
  - intros j q _ [Hj Hst]. exists q. rewrite Hp in Hj. done.
  - intros _ _ z _ _ Hz Hn _ Hnk. change (smem s') with (smem (kmm s')). rewrite <- Et.
    eapply vm_grows_same_page; [exact Hg|exact Hz| |].
    + rewrite Et. intros Hin. by apply (Hnk p Hi); left.
    + intros Hin. apply Hn. right. rewrite El, elem_of_app. by left.
Qed.

(** The process [p] has got the page [pa] at [va], and nothing else of its
    address space, of the other processes and of memory in use has changed. *)
Record page_given (s s' : kstate) (p : process) (va pa : Z) (l : list Z) : Prop := {
  pg_isolated : exists taken l', l = taken ++ l' /\ (length taken <= 2)%nat /\ isolated s' l';
  pg_entry : forall va', 0 <= va' < 2 ^ 39 ->
    entry (smem s') (pagetable p) va' = map_entry (entry (smem s) (pagetable p)) va pa data_perm va';
  pg_pages : forall z, page_aligned z -> z ∉ l -> ~ in_tree (smem s) (pagetable p) z ->
    same_page z (smem s) (smem s');
  pg_procs : procs s' = procs s /\ current s' = current s /\ ready_queue_head s' = ready_queue_head s;
  pg_range : same_range (kmm s) (kmm s');
}.

Section Fresh.
Context (s : kstate) (pa : Z) (l : list Z) (i : nat) (p : process).
Hypotheses (HI : isolated s (pa :: l)) (Hi : used s i p).

Lemma fresh_vm_inv : vm_inv (alloc_state (kmm s)) (pagetable p) l.
Proof.
  destruct (alloc_page_cons _ _ _ (iso_free _ _ HI)) as (_ & Hf & Em).
  split; [rewrite Em; by apply (iso_wf _ _ HI i)|]. split; [done|]. rewrite Em. intros z Hz Hin.
  apply (iso_kernel _ _ HI i p z Hi (or_introl Hin)). by right.
Qed.

Lemma map_fresh va size :
  (2 < length l)%nat -> 0 <= va < 2 ^ 64 -> first_page va = last_page va size ->
  wp (map_pages (pagetable p) va size pa data_perm)
    (fun r t => r = 0 /\ exists taken l', (length taken <= 2)%nat /\
       mapped (alloc_state (kmm s)) (pagetable p) va pa data_perm l 1 taken l' t)
    (fun e _ => e = Shutdown (-1) /\
       (pte_valid (entry (smem s) (pagetable p) (first_page va)) = true \/ MAXVA <= first_page va))
    (alloc_state (kmm s)).
Proof.
  intros Hl Hva Hone. destruct (alloc_page_cons _ _ _ (iso_free _ _ HI)) as (_ & _ & Em).
  destruct (pmm_free_page _ _ _ (iso_free _ _ HI)) as (Hpa%ram_page_pos & _).
  assert (map_count va size = 1) as Hc by (unfold map_count; rewrite Hone, Z.sub_diag; done).
  assert (tables_bound (first_page va) 1 = 2) as Ht.
  { unfold tables_bound. rewrite !Z.sub_diag, Z.mul_0_r, Z.add_0_r, !Z.sub_diag. done. }
  eapply wp_mono; [apply (map_pages_spec _ _ va size pa data_perm l fresh_vm_inv Hva); lia| |].
  - unfold map_done. rewrite Hc, Ht. intros r t (n & taken & l' & HM & [(-> & -> & Hlen)|(_ & _ & _ & Hlen)]); [|lia].
    rewrite Ht in Hlen. split; [done|]. exists taken, l'. split; [lia|done].
  - unfold map_stopped. rewrite Hc, <- Hone, Em. intros e t [-> [(k & Hk & Hv)|Hm]]; (split; [done|]); [|by right].
    left. assert (k = 0) as -> by lia. by rewrite Z.mul_0_r, Z.add_0_r in Hv.
Qed.

Lemma page_given_intro s' va taken l' :
  mapped (alloc_state (kmm s)) (pagetable p) va pa data_perm l 1 taken l' (kmm s') ->
  (length taken <= 2)%nat -> kvars (set_g_ufree_page 0 s') = kvars (set_g_ufree_page 0 s) ->
  page_given s s' p va pa l.
Proof.
  intros HM Hlen [= Hp Hc Hq _]. pose proof HM as (El & Hg & _).
  destruct (alloc_page_cons _ _ _ (iso_free _ _ HI)) as (_ & _ & Em).
  destruct (pmm_free_page _ _ _ (iso_free _ _ HI)) as (Hpa & _). split.
  - exists taken, l'. split; [done|]. split; [done|].
    by apply (isolated_mapped s s' (alloc_state (kmm s)) l l' taken pa va data_perm i p).
  - intros va' Hva. change (smem s') with (smem (kmm s')).
    rewrite (mapped_entry _ _ _ _ _ _ _ _ _ _ HM Hpa Hva), Em. unfold map_entry.
    replace (first_page va / PGSIZE) with (va / PGSIZE); [done|].
    unfold first_page, ROUNDDOWN. consts. dlia.
  - intros z Hz Hn Hin. change (smem s) with (smem (kmm s)). change (smem s') with (smem (kmm s')).
    rewrite <- Em. eapply vm_grows_same_page; [exact Hg|exact Hz|by rewrite Em|].
    intros Ht. apply Hn. rewrite El, elem_of_app. by left.
  - done.
  - apply (vg_range _ _ _ _ _ Hg).
Qed.
End Fresh.

(** The console is no part of the partition. *)
Lemma isolated_write s l t : isolated s l -> isolated (write_stderr t s) l.
Proof.
  intros HI. apply (isolated_frame s); [done|apply (iso_free _ _ HI)| |by intros].
  intros j p Hj. by exists p.
Qed.

Lemma page_given_write s s' t p va pa l : page_given (write_stderr t s) s' p va pa l -> page_given s s' p va pa l.
Proof. by intros [H1 H2 H3 H4 H5]. Qed.

Lemma allocate_page_given s pa l i p va :
  isolated s (pa :: l) -> current s = Some i -> used s i p -> (2 < length l)%nat ->
  g_ufree_page s = va -> page_aligned va -> 0 <= va < MAXVA ->
  wp sys_user_allocate_page
    (fun r s' => r = va /\ g_ufree_page s' = va + PGSIZE /\ page_given s s' p va pa l)
    (fun e _ => e = Shutdown (-1) /\ pte_valid (entry (smem s) (pagetable p) va) = true) s.
Proof.
  intros HI Hc Hi Hl Hg Ha Hva. pose proof MAXVA_eq as HM.
  destruct (alloc_page_cons _ _ _ (iso_free _ _ HI)) as (Ea & _ & _).
  destruct (map_count_page va Ha ltac:(lia)) as (Hf & Hla & _). unfold sys_user_allocate_page.
  eapply wp_bind_ok; [unfold zoom; cbn [lget lens_k_mm]; by rewrite Ea|]. cbv beta.
  eapply wp_bind_ok; [done|]. cbv beta. eapply wp_bind_ok; [done|]. cbv beta.
  eapply wp_bind_ok; [done|]. cbv beta. simpl current. rewrite Hc.
  eapply wp_bind_ok; [apply deref_ok, Hi|]. cbv beta. apply wp_bind, wp_zoom.
  cbn [lget lens_k_mm]. simpl kmm. simpl g_ufree_page. rewrite Hg. unfold user_vm_map. apply wp_bind.
  eapply wp_mono; [apply (map_fresh s pa l i p HI Hi va PGSIZE Hl); [lia|by rewrite Hf, Hla]| |].
  - intros r t (-> & taken & l' & Hlen & HMp). apply wp_ret, wp_ret. split; [done|].
    split; [apply u64_small; consts; lia|].
    by apply (page_given_intro s pa l i p HI Hi _ va taken l').
  - rewrite Hf. intros e t [-> [Hv|Hm]]; [done|lia].
Qed.

Lemma page_fault_given s pa l i p sepc va :
  isolated s (pa :: l) -> current s = Some i -> used s i p -> (2 < length l)%nat -> 0 <= va < 2 ^ 64 ->
  wp (handle_user_page_fault CAUSE_STORE_PAGE_FAULT sepc va)
    (fun _ s' => g_ufree_page s' = g_ufree_page s /\ page_given s s' p va pa l)
    (fun e _ => e = Shutdown (-1) /\
       (pte_valid (entry (smem s) (pagetable p) (ROUNDDOWN va PGSIZE)) = true \/ MAXVA <= ROUNDDOWN va PGSIZE)) s.
Proof.
  intros HI Hc Hi Hl Hva. unfold handle_user_page_fault.
  eapply wp_bind_ok; [by apply sprint_eq|]. cbv beta. rewrite Z.eqb_refl.
  set (s1 := write_stderr _ s). assert (isolated s1 (pa :: l)) as H1 by (by apply isolated_write).
  destruct (alloc_page_cons _ _ _ (iso_free _ _ H1)) as (Ea & _ & _).
  eapply wp_bind_ok; [done|]. cbv beta. simpl current. rewrite Hc.
  eapply wp_bind_ok; [apply deref_ok; simpl; apply Hi|]. cbv beta.
  eapply wp_bind_ok; [unfold zoom; cbn [lget lens_k_mm]; by rewrite Ea|]. cbv beta. apply wp_bind, wp_zoom.
  assert (first_page va = last_page va 1) as Hone.
  { unfold first_page, last_page. by rewrite Z.add_simpl_r, u64_small by lia. }
  eapply wp_mono; [apply (map_fresh s1 pa l i p H1 Hi va 1 Hl); [done|exact Hone]| |].
  - intros r t (-> & taken & l' & Hlen & HMp). apply wp_ret. split; [done|].
    eapply page_given_write. by apply (page_given_intro s1 pa l i p H1 Hi _ va taken l').
  - intros e t He. exact He.
Qed.

(** ** Giving a page back *)

Lemma grants_valid e z : grants PTE_UV e z -> pte_valid e = true.
Proof.
  intros [Hf _]. rewrite pte_valid_testbit.
  assert (Z.testbit (Z.land e PTE_UV) 0 = true) as Ht by (by rewrite Hf). rewrite Z.land_spec in Ht.
  by apply andb_true_iff in Ht as [Ht _].
Qed.

Lemma flipped_invalid e : pte_valid e = true -> pte_valid (Z.lxor e PTE_V) = false.
Proof. rewrite !pte_valid_testbit, Z.lxor_spec. by intros ->. Qed.

Lemma user_descend m p va z : user_page m p va z -> is_Some (descend m (pagetable p) (va_path va)).
Proof.
  intros [_ Hv%grants_valid]. unfold entry in Hv. destruct (descend m (pagetable p) (va_path va)); [done|].
  by rewrite pte_valid_0 in Hv.
Qed.

(** The page [q] is reached at [va] by [p] alone. *)
Definition sole_user (s : kstate) (i : nat) (va q : Z) : Prop :=
  forall j p va', used s j p -> user_page (smem s) p va' q -> j = i /\ va' / PGSIZE = va / PGSIZE.

Lemma unmapped_isolated s l i p va q slot :
  isolated s l -> used s i p -> 0 <= va < MAXVA -> user_page (smem s) p va q -> managed (kmm s) q ->
  sole_user s i va q -> descend (smem s) (pagetable p) (va_path va) = Some slot ->
  let s' := lput (unmap_state (kmm s) (slot + 8 * PX 0 va) q) s in
  isolated s' (q :: l) /\
  forall va', 0 <= va' < 2 ^ 39 -> entry (smem s') (pagetable p) va' =
    if decide (va' / PGSIZE = va / PGSIZE) then Z.lxor (entry (smem s) (pagetable p) va) PTE_V
    else entry (smem s) (pagetable p) va'.
Proof.
  intros HI Hi Hva Hq Hm Hsole Hd s'. pose proof (iso_wf _ _ HI i p Hi) as Hwf.
  destruct (iso_user _ _ HI i i p p va q Hi Hi Hq) as (Hqr & Hql & Hqk).
  assert (~ in_tree (smem s) (pagetable p) q) as Hqt by (intros H; apply Hqk; by left).
  destruct (unmap_state_table (kmm s) (pagetable p) va slot q) as (Hwf' & Ht & _ & He); try done.
  change (smem (unmap_state (kmm s) (slot + 8 * PX 0 va) q)) with (smem s') in *.
  change (smem (kmm s)) with (smem s) in *. split; [|exact He].
  assert (forall z, kernel_page (smem s') p z <-> kernel_page (smem s) p z) as Hk.
  { intros z. unfold kernel_page. by rewrite Ht. }
  assert (forall flags va' z, 0 <= va' < 2 ^ 39 -> grants flags (entry (smem s') (pagetable p) va') z ->
    Z.land flags PTE_UV = PTE_UV ->
    va' / PGSIZE <> va / PGSIZE /\ grants flags (entry (smem s) (pagetable p) va') z) as Hg.
  { intros flags va' z Hva' Hg Hfl. rewrite He in Hg by done. case_decide as Hpage; [|done].
    destruct Hg as [Hf _]. destruct Hq as [_ Hv%grants_valid%flipped_invalid].
    rewrite (grants_valid _ (PTE2PA (Z.lxor (entry (smem s) (pagetable p) va) PTE_V))) in Hv; [done|].
    split; [|done]. by rewrite <- Hfl, Z.land_assoc, Hf. }
  assert (forall va' z, user_page (smem s') p va' z -> z <> q /\ user_page (smem s) p va' z) as Hu.
  { intros va' z [Hva' [Hne Hz]%Hg]; [|done|done]. split; [|done]. intros ->.
    by apply Hne, (Hsole i p va' Hi). }
  apply (isolated_step s s' l (q :: l) i p HI).
  - pose proof (iso_free _ _ HI) as Hf. destruct (free_state_inv (kmm s) (pagetable p) l q) as (HI1 & _ & _ & Hd1); try done.
    { split; [exact Hwf|]. split; [exact Hf|]. intros z Hz Hin.
      apply (iso_kernel _ _ HI i p z Hi); [by left|done]. }
    destruct (Hd1 va slot Hd) as [Hd1' _].
    eapply (leaf_step (free_state q (kmm s)) (pagetable p) va slot); done.
  - split; [done|exact Hwf'|..].
    + intros z Hz%Hk. destruct (iso_kernel _ _ HI i p z Hi Hz) as [Hr Hn]. split; [done|].
      split; [|right; by exists p]. intros [->|H]%elem_of_cons; [by apply Hqk|done].
    + intros z Hz%Ht. by apply (iso_inside _ _ HI i).
    + intros va' z [Hne Hz]%Hu. destruct (iso_user _ _ HI i i p p va' z Hi Hi Hz) as (Hr & Hn & Hnk).
      rewrite not_elem_of_cons, Hk. split_and!; try done. right. by exists i, p, va'.
    + intros va' z [Hva' [_ Hz]%Hg]; [|done|done]. right. by exists p, va'.
    + intros z Hz Hn j p' Hji Hj. apply elem_of_cons in Hz as [->|Hz]; [|done]. split.
      * by apply (iso_user _ _ HI i j p p' va q).
      * intros va' Hu'. by apply Hji, (Hsole j p' va').
  - intros j p' _ Hj. by exists p'.
  - intros _ _ z _ _ Hz Hzl Hzq Hzk. rewrite not_elem_of_cons in Hzq. pose proof (va_path_ram _ _ _ _ Hwf Hd) as [Hsa _].
    pose proof (PX_range 0 va ltac:(lia)). transitivity (smem (free_state q (kmm s))).
    + apply (free_state_same_page (kmm s)); [apply Hm|done|apply Hzq].
    + change (smem s') with (smem (unmap_state (kmm s) (slot + 8 * PX 0 va) q)). unfold unmap_state.
      rewrite smem_put_mem. symmetry. apply storen_same_on.
      assert (z <> slot) as Hne.
      { intros ->. apply (Hzk p Hi). left. exists (va_path va). split; [apply va_path_ok|done]. }
      destruct (page_disjoint z slot Hz Hsa Hne); consts; lia.
Qed.

Lemma free_page_taken s l i p va q :
  isolated s l -> current s = Some i -> used s i p -> page_aligned va -> 0 <= va < MAXVA ->
  user_page (smem s) p va q -> managed (kmm s) q -> sole_user s i va q ->
  exists s', sys_user_free_page va s = Ok 0 s' /\ isolated s' (q :: l) /\ kvars s' = kvars s /\
    forall va', 0 <= va' < 2 ^ 39 -> entry (smem s') (pagetable p) va' =
      if decide (va' / PGSIZE = va / PGSIZE) then Z.lxor (entry (smem s) (pagetable p) va) PTE_V
      else entry (smem s) (pagetable p) va'.
Proof.
  intros HI Hc Hi Ha Hva Hq Hm Hsole. destruct (user_descend _ _ _ _ Hq) as [slot Hd].
  destruct (unmapped_isolated s l i p va q slot) as [HI' He]; try done.
  exists (lput (unmap_state (kmm s) (slot + 8 * PX 0 va) q) s).
  split; [|split; [exact HI'|split; [done|exact He]]]. unfold sys_user_free_page.
  eapply bind_ok; [reflexivity|]. rewrite Hc. eapply bind_ok; [apply deref_ok, Hi|].
  eapply bind_ok; [|reflexivity]. unfold zoom. cbn [lget lens_k_mm].
  rewrite (user_vm_unmap_run (kmm s) (pagetable p) va PGSIZE 1 slot q); try done.
  - by apply (iso_wf _ _ HI i).
  - apply Hq.
  - intros ->. apply (iso_user _ _ HI i i p p va q Hi Hi Hq). left. exists (va_path va).
    split; [apply va_path_ok|done].
Qed.

(** A page that has just been given has no other user. *)
Lemma given_sole s s' pa l i p va :
  isolated s (pa :: l) -> used s i p -> page_given s s' p va pa l -> sole_user s' i va pa.
Proof.
  intros HI Hi [_ He Hs (Hp & _) _] j q va' [Hj Hst] [Hva' Hg]. rewrite Hp in Hj.
  assert (used s j q) as Hjq by done.
  assert (forall va0, 0 <= va0 < 2 ^ 39 -> ~ grants PTE_UV (entry (smem s) (pagetable q) va0) pa) as Hno.
  { intros va0 Hva0 H. destruct (iso_user _ _ HI j j q q va0 pa Hjq Hjq (conj Hva0 H)) as (_ & Hn & _).
    apply Hn. by left. }
  destruct (decide (j = i)) as [->|Hne].
  - split; [done|]. destruct Hi as [Hi _]. assert (q = p) as -> by congruence.
    rewrite He in Hg by done. unfold map_entry in Hg. case_decide; [done|]. by destruct (Hno va' Hva').
  - destruct (Hno va' Hva'). destruct (pt_frame (smem s) (smem s') (pagetable q)) as (_ & _ & E).
    + intros z Hz. destruct (iso_kernel _ _ HI j q z Hjq (or_introl Hz)) as [[Hza _] Hzl].
      rewrite not_elem_of_cons in Hzl. apply Hs; [done|apply Hzl|]. intros Hz'.
      by apply Hne, (iso_apart _ _ HI j i q p z Hjq Hi); left.
    + by apply (iso_wf _ _ HI j).
    + by rewrite <- E.
Qed.

Lemma given_page s s' pa l p va :
  page_given s s' p va pa l -> ram_page pa -> 0 <= va < MAXVA ->
  user_writable (smem s') p va pa.
Proof.
  intros [_ He _ _ _] Hr Hva. pose proof MAXVA_eq as HM. split; [lia|]. rewrite He by lia.
  unfold map_entry. rewrite decide_True by done. destruct (stack_pte pa Hr). by split.
Qed.

(** ** Stores of user programs *)

(** The machine may change what is neither a table nor free. *)
Lemma isolated_machine s s' l :
  isolated s l -> s' = lput (lget s' : machine) s ->
  (forall z, z ∈ l \/ (exists j p, used s j p /\ in_tree (smem s) (pagetable p) z) ->
     same_page z (smem s) (smem s')) -> isolated s' l.
Proof.
  intros HI Hs Hm. apply (isolated_frame s); [done| | |].
  - destruct (iso_free _ _ HI) as (Hl & Hnd & Hman). rewrite Hs. split; [|split; [exact Hnd|exact Hman]].
    change (linked (smem (lput (lget s' : machine) s)) (g_free_mem_list (kmm s)) l). rewrite <- Hs.
    apply (linked_same (smem s)); [|exact Hl]. intros z Hz. apply Hm. by left.
  - intros j p Hj. exists p. rewrite Hs in Hj. done.
  - intros j p z Hj Hz. apply Hm. right. by exists j, p.
Qed.

(** A page that user programs reach. *)
Lemma user_page_ne s l i j p q va z w :
  isolated s l -> used s i p -> user_page (smem s) p va z -> used s j q ->
  w ∈ l \/ kernel_page (smem s) q w -> page_aligned w /\ w <> z.
Proof.
  intros HI Hi Hz Hj Hw. destruct (iso_user _ _ HI i j p q va z Hi Hj Hz) as (_ & Hl & Hk). split.
  - destruct Hw as [Hw|Hw].
    + destruct (iso_free _ _ HI) as (_ & _ & Hman). rewrite Forall_forall in Hman. apply (Hman w Hw).
    + apply (iso_kernel _ _ HI j q w Hj Hw).
  - intros ->. tauto.
Qed.

Lemma isolated_user_write s l i p va z a bs :
  isolated s l -> used s i p -> user_page (smem s) p va z -> z <= a -> a + Z.of_nat (length bs) <= z + PGSIZE ->
  isolated (put_mem (store_bytes (smem s) a bs) s) l.
Proof.
  intros HI Hi Hz Hlo Hhi. destruct (iso_user _ _ HI i i p p va z Hi Hi Hz) as ([Hza _] & _ & _).
  apply (isolated_machine s); [done|unfold put_mem; by autorewrite with lens|]. rewrite smem_put_mem.
  assert (forall w, page_aligned w /\ w <> z -> same_page w (smem s) (store_bytes (smem s) a bs)) as Hs.
  { intros w [Hw Hne]. symmetry. apply store_bytes_same_on. destruct (page_disjoint w z Hw Hza Hne); lia. }
  intros w [Hw|(j & q & Hj & Hw)]; apply Hs.
  - apply (user_page_ne s l i i p p va z w HI Hi Hz Hi). by left.
  - apply (user_page_ne s l i j p q va z w HI Hi Hz Hj). right. by left.
Qed.

(** The processor's side of a store. *)
Lemma writable_step {K : Layout} s i p g l va z c :
  isolated s l -> user_mode s i p g -> used s i p -> user_writable (smem s) p va z ->
  Z.land (entry (smem s) (user_root s) va) PTE_UW = PTE_UW /\
  store 1 (PTE2PA (entry (smem s) (user_root s) va) + va mod PGSIZE) (byte.unsigned c) s =
    Ok tt (put_mem (store_bytes (smem s) (z + va mod PGSIZE) [c]) s).
Proof.
  intros HI HU Hi Hw. pose proof (writable_user _ _ _ _ Hw) as Hz. destruct Hw as [Hva [Hf Hpa]].
  destruct (iso_user _ _ HI i i p p va z Hi Hi Hz) as ((Hza & Hlo & Hhi) & _ & _).
  pose proof (Z.mod_pos_bound va PGSIZE eq_refl) as Hmod. pose proof (iso_wf _ _ HI i p Hi) as Hwf.
  assert (user_root s = pagetable p) as ->.
  { unfold user_root. rewrite (um_satp _ _ _ _ HU). apply satp_root, (pt_ram _ _ Hwf), root_in_tree. }
  split; [done|]. rewrite Hpa. unfold store. rewrite (proj2 (ram_ok_iff _ _)) by (simpl; consts; lia).
  change (storen 1 (smem s) (z + va mod PGSIZE) (byte.unsigned c)) with
    (store_bytes (smem s) (z + va mod PGSIZE) [byte.of_Z (byte.unsigned c)]).
  by rewrite byte.of_Z_unsigned.
Qed.

(** Its effect. *)
Definition confined {K : Layout} (s s' : kstate) (l : list Z) (i : nat) (p : process) (g : list Z) : Prop :=
  isolated s' l /\ user_mode s' i p g /\ kvars s' = kvars s /\
  (forall w, w ∈ l -> same_page w (smem s) (smem s')) /\
  (forall j q w, used s j q -> kernel_page (smem s) q w -> same_page w (smem s) (smem s')) /\
  (forall j q va' w, j <> i -> used s j q -> user_writable (smem s) q va' w -> same_page w (smem s) (smem s')).

Lemma write_confined {K : Layout} s i p g l va z c :
  isolated s l -> user_mode s i p g -> used s i p -> user_writable (smem s) p va z ->
  confined s (put_mem (store_bytes (smem s) (z + va mod PGSIZE) [c]) s) l i p g.
Proof.
  intros HI HU Hi Hw. pose proof (writable_user _ _ _ _ Hw) as Hz.
  destruct (iso_user _ _ HI i i p p va z Hi Hi Hz) as ([Hza Hzr] & _ & Hzk).
  pose proof (Z.mod_pos_bound va PGSIZE eq_refl) as Hmod. set (s' := put_mem _ s).
  assert (forall w, page_aligned w /\ w <> z -> same_page w (smem s) (smem s')) as Hs.
  { intros w [Hwa Hne]. unfold s'. rewrite smem_put_mem. symmetry. apply store_bytes_same_on.
    simpl length. destruct (page_disjoint w z Hwa Hza Hne); lia. }
  split; [|split; [|split; [done|split; [|split]]]].
  - apply (isolated_user_write s l i p va z); [done|done|done|lia|simpl; lia].
  - apply (user_mode_store s i p g z); [done|done| |lia|simpl; lia].
    intros ->. apply Hzk. right. by left.
  - intros w Hwl. apply Hs, (user_page_ne s l i i p p va z w HI Hi Hz Hi). by left.
  - intros j q w Hj Hk. apply Hs, (user_page_ne s l i j p q va z w HI Hi Hz Hj). by right.
  - intros j q va' w Hji Hj Hwr. apply Hs. split.
    + by apply (iso_user _ _ HI j j q q va' w Hj Hj (writable_user _ _ _ _ Hwr)).
    + intros ->. by apply Hji, (iso_writable _ _ HI j i q p va' va z Hj Hi).
Qed.

(** * Properties *)

(** User programs are confined.  When memory is partitioned as [isolated]
    says, a store of the running process to a page that it may write succeeds,
    keeps the partition, and leaves alone what the kernel keeps for any process
    (tables, trap frames, tables of regions, kernel stacks), the free pages, and
    every page that another process may write. *)
Theorem user_stores_confined {K : Layout} apc va c s i p g l z :
  isolated s l -> user_mode s i p g -> status p <> FREE -> user_writable (smem s) p va z ->
  exists s', user_store apc va c s = Ok tt s' /\ isolated s' l /\ user_mode s' i p g /\ kvars s' = kvars s /\
    smem s' = store_bytes (smem s) (z + va mod PGSIZE) [c] /\
    (forall w, w ∈ l -> same_page w (smem s) (smem s')) /\
    (forall j q w, used s j q -> kernel_page (smem s) q w -> same_page w (smem s) (smem s')) /\
    (forall j q va' w, j <> i -> used s j q -> user_writable (smem s) q va' w -> same_page w (smem s) (smem s')).
Proof.
  intros HI HU Hst Hw. assert (used s i p) as Hi by (split; [apply HU|done]).
  destruct (writable_step s i p g l va z c HI HU Hi Hw) as [Hf Hs].
  destruct (write_confined s i p g l va z c HI HU Hi Hw) as (H1 & H2 & H3 & H4 & H5 & H6).
  eexists. split; [by apply user_access_ok|]. split_and!; first [assumption|apply smem_put_mem].
Qed.

(** C8. A page that is allocated and freed again.  For a process in an isolated
    system, sys_user_allocate_page returns the next address of the heap, and
    sys_user_free_page of this address gives the same page back: the allocator
    has it again, in front, having lost two tables at most; the address is
    unmapped and all others are as before; the next allocation gets the next
    address; and the partition is kept. *)
Theorem malloc_free_roundtrip s pa l i p va :
  isolated s (pa :: l) -> current s = Some i -> used s i p -> (2 < length l)%nat ->
  g_ufree_page s = va -> page_aligned va -> 0 <= va < MAXVA ->
  pte_valid (entry (smem s) (pagetable p) va) = false ->
  wp (va <- sys_user_allocate_page ;; sys_user_free_page va)
    (fun r s' => r = 0 /\ g_ufree_page s' = va + PGSIZE /\ procs s' = procs s /\
       (exists taken l', l = taken ++ l' /\ (length taken <= 2)%nat /\ isolated s' (pa :: l')) /\
       forall va', 0 <= va' < 2 ^ 39 ->
         if decide (va' / PGSIZE = va / PGSIZE) then pte_valid (entry (smem s') (pagetable p) va') = false
         else entry (smem s') (pagetable p) va' = entry (smem s) (pagetable p) va') never s.
Proof.
  intros HI Hc Hi Hl Hg Ha Hva Hv. pose proof MAXVA_eq as HM.
  destruct (iso_free _ _ HI) as (_ & _ & [Hm _]%Forall_cons).
  apply wp_bind. eapply wp_mono; [by apply (allocate_page_given s pa l i p va)| |intros e s' [_ Hv']; congruence].
  intros r s1 (-> & Hg1 & HG). pose proof HG as [(taken & l' & El & Hlen & HI1) He _ (Hp & Hc1 & _) (R1 & R2 & _)].
  assert (used s1 i p) as Hi1 by (unfold used; by rewrite Hp).
  pose proof (given_page s s1 pa l p va HG (proj1 Hm) Hva) as Hw.
  destruct (free_page_taken s1 l' i p va pa) as (s2 & E & HI2 & Hk & He2); try done.
  { congruence. } { by apply writable_user. } { unfold managed. rewrite R1, R2. exact Hm. }
  { by apply (given_sole s s1 pa l i p va). }
  unfold wp. rewrite E. injection Hk as Hp2 _ _ Hg2 _. split; [done|].
  split; [congruence|]. split; [congruence|]. split; [by exists taken, l'|]. intros va' Hva'.
  rewrite He2 by done. case_decide as Hpage.
  - destruct (writable_user _ _ _ _ Hw) as [_ Hgr]. by apply flipped_invalid, (grants_valid _ pa).
  - rewrite He by done. unfold map_entry. by rewrite decide_False.
Qed.
