(* ===== verification/IsolationFork.v ===== *)
(** fork keeps processes apart: the child gets pages of its own, but for the
    code of its parent, which it may only read and execute. *)
From S2P Require Import Prelude Mem Context CString Snprintf Console Pmm Sv39 Vmm Space Kstate Sched Process NewProc Fork Syscall Strap User Isolation.

(** The flags of an entry that map_pages has written. *)
Lemma grants_perm pa perm flags z :
  page_aligned pa -> 0 <= pa < 2 ^ 56 -> 0 <= perm < 1024 -> Z.land 0x3FF flags = flags ->
  grants flags (map_pte pa perm) z -> z = pa /\ Z.land (Z.lor perm PTE_V) flags = flags.
Proof.
  intros Ha Hr Hp Hfl [Hg <-]. destruct (map_pte_decode pa perm) as [-> Hf]; [done..|].
  split; [done|]. by rewrite land_flags, Hf in Hg.
Qed.

(** The entries that every process has let it reach its user stack. *)
Lemma new_grants {K : Layout} {KO : LayoutOk K} tf ustack va z flags :
  ram_page tf -> ram_page ustack -> Z.land 0x3FF flags = flags -> Z.land flags PTE_UV = PTE_UV ->
  grants flags (new_entries tf ustack va) z -> z = ustack.
Proof.
  intros (Hta & Ht1 & Ht2) (Hua & Hu1 & Hu2) Hfl Huv.
  pose proof KO as [_ _ Htr [Htr1 Htr2] Hee Het].
  assert (forall perm, Z.land (Z.lor perm PTE_V) PTE_U = 0 -> Z.land (Z.lor perm PTE_V) flags = flags -> False) as Hno.
  { intros perm H0 Hg. assert (Z.land (Z.lor perm PTE_V) PTE_UV = PTE_UV) as H'.
    { by rewrite <- Huv, Z.land_assoc, Hg. }
    change PTE_U with (Z.land PTE_UV PTE_U) in H0. rewrite Z.land_assoc, H' in H0. discriminate H0. }
  unfold new_entries, map_entry. repeat case_decide; intros Hg.
  - apply grants_perm in Hg as [_ Hg]; [|exact Htr|consts; lia|by vm_compute|exact Hfl].
    destruct (Hno trap_perm); [by vm_compute|exact Hg].
  - apply grants_perm in Hg as [_ Hg]; [|exact Hta|consts; lia|by vm_compute|exact Hfl].
    destruct (Hno frame_perm); [by vm_compute|exact Hg].
  - by apply grants_perm in Hg as [-> _]; [|exact Hua|consts; lia|by vm_compute|exact Hfl].
  - destruct Hg as [Hg _]. rewrite Z.land_0_l in Hg. by rewrite <- Hg in Huv.
Qed.

(** The kernel pages of a process that alloc_process has built. *)
Lemma new_space_pages tf dir stack info p :
  ram_page stack -> space_pages (new_process tf dir stack info p) = [tf; info; stack].
Proof.
  intros (_ & ? & ?). unfold space_pages. simpl. rewrite u64_small, Z.add_simpl_r; [done|consts; lia].
Qed.

(** ** A new process *)
Section New.
Context {K : Layout} {KO : LayoutOk K}.
Context (s s' : kstate) (F0 : list Z) (n : nat) (cp : process) (m : memory) (taken l' : list Z) (f : Z -> Z).
Hypotheses (HI : isolated s F0) (HA : around (smem s) F0 (pagetable cp) s' m taken l' f).
Hypotheses (Hn : used s' n cp) (Hsp : forall z, z ∈ space_pages cp -> own F0 (pagetable cp) taken l' z).

(** A page that only the new process reaches. *)
Definition fresh_page (z : Z) : Prop := own F0 (pagetable cp) taken l' z /\ z ∉ space_pages cp.

Hypothesis Hreach : forall va z, 0 <= va < 2 ^ 39 -> grants PTE_UV (f va) z ->
  fresh_page z \/ exists j p va', used s j p /\ user_page (smem s) p va' z.
Hypothesis Hwrite : forall va z, 0 <= va < 2 ^ 39 -> grants PTE_UW (f va) z -> fresh_page z.

Lemma new_owner : owner s s' F0 l' n cp.
Proof.
  destruct HA as [[(Hwf & Hf & Hdis) Ht He _] _ Hd Hpg]. change (smem (kmm s')) with (smem s') in *.
  pose proof (iso_free _ _ HI) as (_ & _ & Hman). rewrite Forall_forall in Hman.
  assert (forall z, kernel_page (smem s') cp z -> z ∈ F0 /\ z ∉ l' /\ (z = pagetable cp \/ z ∈ taken \/ z ∈ space_pages cp)) as Hk.
  { intros z [Hz|Hz].
    - pose proof Hz as [->|Hz']%Ht.
      + split; [done|]. split; [intros Hzl; by apply (Hdis (pagetable cp))|by left].
      + split; [apply Hpg, elem_of_app; by left|]. split; [intros Hzl; by apply (Hdis z)|by right; left].
    - destruct (Hsp z Hz) as [[_ _ _ ?] ?]. tauto. }
  split.
  - exact Hn.
  - exact Hwf.
  - intros z (Hz & Hzl & _)%Hk. split; [by apply (Hman z)|]. tauto.
  - intros z Hz Hz'. destruct (Hsp z Hz') as [[_ H1 H2 _] _]. apply Ht in Hz. tauto.
  - intros va z [Hva Hg]. rewrite He in Hg by done.
    destruct (Hreach va z Hva Hg) as [[[[Hr H1 H2 H3] H4] H5]|(j & p & va' & Hj & Hz)].
    + split; [done|]. split; [done|]. split; [|by left]. intros (_ & _ & Hz)%Hk. tauto.
    + destruct (iso_user _ _ HI j j p p va' z Hj Hj Hz) as (Hr & Hz' & _). split; [done|].
      split; [intros H; apply Hz', Hpg, elem_of_app; by right|]. split; [by intros (? & _)%Hk|].
      right. by exists j, p, va'.
  - intros va z [Hva Hg]. rewrite He in Hg by done. left. by destruct (Hwrite va z Hva Hg) as [[_ ?] _].
  - intros z Hz Hz'. destruct Hz'. apply Hpg, elem_of_app. by right.
Qed.

(** The system with it. *)
Lemma new_isolated :
  (forall j p', j <> n -> used s' j p' -> exists p, used s j p /\ same_space p' p) -> isolated s' l'.
Proof.
  intros Hoth. apply (isolated_step s s' F0 l' n cp HI); [|exact new_owner|exact Hoth|].
  - apply (as_inv _ _ _ _ _ _ (ar_space _ _ _ _ _ _ _ _ HA)).
  - intros _ _ z _ _ Hz Hn' _ _. change (smem s') with (smem (kmm s')). by eapply around_kept.
Qed.
End New.

Section Child.
Context {K : Layout} {KO : LayoutOk K}.
Context (s : kstate) (c : nat) (pp : process) (segs : list seg) (n : nat) (pr : process) (q : list nat)
  (tf dir stack ustack info : Z) (l : list Z).
Let F0 : list Z := tf :: dir :: stack :: ustack :: info :: l.
Hypotheses (HI : isolated s F0) (HF : fork_ok s c pp segs n pr q tf dir stack ustack info l).

(** The code that the parent has recorded is code that it may reach. *)
Hypothesis Hcode : forall g, g ∈ segs -> snd g = CODE_SEGMENT ->
  user_page (smem s) pp (fst g) (lookup_val (entry (smem s) (pagetable pp) (fst g))).

Section Space.
Context (s1 : kstate) (m : memory) (taken l' : list Z) (ps : list Z) (l0 : list Z).
Hypotheses (HFk : forked (smem s) F0 dir pp segs tf stack ustack info n s l0 (length segs) s1 m taken l' ps)
  (Hps : length ps = length segs).

Lemma child_grants va z flags :
  Z.land 0x3FF flags = flags -> Z.land flags PTE_UV = PTE_UV ->
  grants flags (child_entries segs tf ustack (length segs) ps va) z ->
  (own F0 dir taken l' z /\ z ∉ [tf; info; stack]) \/
  (Z.land (Z.lor code_perm PTE_V) flags = flags /\ exists va', user_page (smem s) pp va' z).
Proof.
  intros Hfl Huv Hg. pose proof HFk as [_ _ (Ot & Ou & _) _ _ Hpg _ _].
  unfold child_entries in Hg.
  destruct (map_all_cases (new_entries tf ustack) (zip_with child_page (take (length segs) segs) ps) va)
    as [E|(va0 & pa & perm & Hin & _ & E)]; rewrite E in Hg; clear E.
  { left. apply new_grants in Hg as ->; [|apply Ot|apply Ou|done..]. split; [exact Ou|].
    pose proof (fk_pages _ _ _ _ _ _ _ _ _ _ _ _ _ HF) as (_ & Hnd & _).
    rewrite !NoDup_cons, !not_elem_of_cons in Hnd. rewrite !not_elem_of_cons.
    destruct Hnd as ((_ & _ & ? & _) & _ & (? & _) & (? & _) & _). split_and!; [congruence..|apply not_elem_of_nil]. }
  apply elem_of_lookup_zip_with in Hin as (x & g & p & E & Hg1 & Hp). rewrite take_ge in Hg1, Hpg by done.
  pose proof (Forall2_lookup_lr _ _ _ _ _ _ Hpg Hg1 Hp) as Hin. unfold inherits in Hin. injection E as -> -> ->.
  destruct (seg_range _ _ _ _ (fk_space _ _ _ _ _ _ _ _ _ _ _ _ _ HF) _ _ Hg1) as [(_ & [(Hka & Hk1 & Hk2) _] & _) _].
  case_decide as Hc.
  - right. rewrite Hin in Hg. apply grants_perm in Hg as [-> Hg];
      [|exact Hka|consts; lia|by vm_compute|exact Hfl]. split; [exact Hg|]. exists (fst g).
    apply Hcode; [by eapply list_elem_of_lookup_2|exact Hc].
  - left. destruct Hin as (Op & H1 & H2 & H3 & H4 & _). pose proof Op as [[(Hpa & Hp1 & Hp2) _ _ _] _].
    apply grants_perm in Hg as [-> _]; [|exact Hpa|consts; lia|by vm_compute|exact Hfl].
    split; [exact Op|]. rewrite !not_elem_of_cons. split_and!; [done..|apply not_elem_of_nil].
Qed.

End Space.

Lemma fork_kept_isolated :
  wp (do_fork (Some c)) (fun r s' => r = s32 (pid pr) /\ exists l', isolated s' l') never s.
Proof.
  eapply wp_mono; [exact (do_fork_space _ _ _ _ _ _ _ _ _ _ _ _ _ HF)| |done]. fold F0.
  intros r s' (-> & _ & (cp & Hcp & Hst & Hu) & (_ & Hlen & Hoth) & s1 & m & taken & l' & ps & l0 & Hps & HFk & HA).
  split; [done|]. exists l'. pose proof (fo_own _ _ _ _ _ _ _ _ _ _ _ _ _ _ _ _ _ _ HFk) as (Ot & _ & Oi & Os).
  destruct (same_space_unlinked _ _ Hu) as [Hpt Hsp].
  assert (space_pages cp = [tf; info; stack]) as Es.
  { rewrite Hsp. apply (new_space_pages tf dir stack info pr), Os. }
  change (pagetable (forked_process c tf dir stack info segs pr)) with dir in Hpt. rewrite <- Hpt in HA, Ot, Oi, Os.
  assert (used s c pp) as Hc by exact (fk_parent _ _ _ _ _ _ _ _ _ _ _ _ _ HF).
  assert (forall va z flags, Z.land 0x3FF flags = flags -> Z.land flags PTE_UV = PTE_UV ->
    grants flags (child_entries segs tf ustack (length segs) ps va) z ->
    fresh_page F0 cp taken l' z \/
    (Z.land (Z.lor code_perm PTE_V) flags = flags /\ exists va', user_page (smem s) pp va' z)) as Hg.
  { intros va z flags Hfl Huv Hg. unfold fresh_page. rewrite Es, Hpt. by eapply child_grants. }
  apply (new_isolated s s' F0 n cp _ taken l' _ HI HA).
  - split; [exact Hcp|by rewrite Hst].
  - intros z. rewrite Es, !elem_of_cons, elem_of_nil. intros [->|[->|[->|[]]]]; done.
  - intros va z Hva [Hz|(_ & va' & Hz)]%Hg; [by left| |done|done]. right. by exists c, pp, va'.
  - intros va z Hva [Hz|(Hbad & _)]%Hg; [done|discriminate Hbad|done|done].
  - intros j p' Hne [Hj Hst'].
    assert (is_Some (procs s !! j)) as [p Hp].
    { apply lookup_lt_is_Some_2. rewrite <- Hlen. by apply lookup_lt_Some in Hj. }
    destruct (Hoth j p Hne Hp) as (p2 & Hp2 & Hu2 & Hs2). assert (p2 = p') as -> by congruence.
    exists p. split; [split; [done|congruence]|by apply same_space_unlinked].
Qed.
End Child.

(** alloc_process, and the status that makes the process count. *)
Lemma alloc_process_isolated {K : Layout} {KO : LayoutOk K} s i pr tf dir stack ustack info l st :
  isolated s (tf :: dir :: stack :: ustack :: info :: l) -> length (procs s) = NPROC ->
  (forall j p, (j < i)%nat -> procs s !! j = Some p -> status p <> FREE) ->
  procs s !! i = Some pr -> status pr = FREE -> (6 < length l)%nat ->
  _etext <= free_mem_start_addr (kmm s) -> st <> FREE ->
  wp (p <- alloc_process ;; assign p (set_status st) ;;; ret p)
    (fun r s' => r = Some i /\ exists l', isolated s' l') never s.
Proof.
  intros HI Hlen Hfirst Hi Hpr Hl He Hst. set (F0 := _ :: _) in HI. pose proof (iso_free _ _ HI) as Hf.
  apply wp_bind. eapply wp_mono; [by apply (alloc_process_spec s i pr tf dir stack ustack info l)| |done].
  intros r s1 (-> & Hk & taken & l' & El & _ & HS).
  destruct (alloc_around s s1 tf dir stack ustack info l taken l' Hf El HS) as [HA Hown].
  rewrite !Forall_cons in Hown. destruct Hown as (Ot & Ou & Oi & Os & _). injection Hk as Hp _ _ _ _.
  assert (procs s1 !! i = Some (new_process tf dir stack info pr)) as Hi1.
  { rewrite Hp. simpl. by rewrite list_lookup_alter_eq, Hi. }
  eapply wp_bind_ok; [by eapply assign_ok|]. apply wp_ret. split; [done|]. exists l'.
  set (cp := set_status st (new_process tf dir stack info pr)).
  assert (space_pages cp = [tf; info; stack]) as Es by (apply (new_space_pages tf dir stack info pr), Os).
  destruct Hf as (_ & Hnd & _). unfold F0 in Hnd. rewrite !NoDup_cons, !not_elem_of_cons in Hnd.
  assert (forall va z flags, Z.land 0x3FF flags = flags -> Z.land flags PTE_UV = PTE_UV ->
    grants flags (new_entries tf ustack va) z -> fresh_page F0 cp taken l' z) as Hg.
  { intros va z flags Hfl Huv ->%new_grants; [|apply Ot|apply Ou|done..]. split; [exact Ou|].
    rewrite Es, !not_elem_of_cons. destruct Hnd as ((_ & _ & ? & _) & _ & (? & _) & (? & _) & _).
    split_and!; [congruence..|apply not_elem_of_nil]. }
  apply (new_isolated s _ F0 i cp (new_mem (smem s) tf dir info) taken l' (new_entries tf ustack) HI).
  - destruct HA as [? ? ? ?]. by split.
  - split; [|done]. by apply (procs_upd i (set_status st) s1).
  - intros z. rewrite Es, !elem_of_cons, elem_of_nil. intros [->|[->|[->|[]]]]; done.
  - intros va z _ Hz. left. by apply (Hg va z PTE_UV).
  - intros va z _ Hz. by apply (Hg va z PTE_UW).
  - intros j p' Hne [Hj Hs']. rewrite procs_upd_ne in Hj by congruence. rewrite Hp in Hj. simpl in Hj.
    rewrite list_lookup_alter_ne in Hj by congruence. by exists p'.
Qed.

(** * Properties *)

(** C6. fork keeps the processes apart.  When memory is partitioned as [isolated]
    says, and the recorded segments of code of the parent are pages that it may
    reach, do_fork leaves memory partitioned: the tables, the trap frame, the
    kernel stack and the table of regions of the child belong to it alone and are
    out of reach of user programs, and no page is writable for two processes. *)
Theorem fork_keeps_isolation {K : Layout} {KO : LayoutOk K} s c pp segs n pr q tf dir stack ustack info l :
  isolated s (tf :: dir :: stack :: ustack :: info :: l) ->
  fork_ok s c pp segs n pr q tf dir stack ustack info l ->
  (forall g, g ∈ segs -> snd g = CODE_SEGMENT ->
     user_page (smem s) pp (fst g) (lookup_val (entry (smem s) (pagetable pp) (fst g)))) ->
  wp (do_fork (Some c)) (fun r s' => r = s32 (pid pr) /\ exists l', isolated s' l') never s.
Proof. intros HI HF Hcode. exact (fork_kept_isolated s c pp segs n pr q tf dir stack ustack info l HI HF Hcode). Qed.
