(* ===== verification/Paging.v ===== *)
(** Pages on demand: the store of a user program to an address without a page,
    from the fault through the trap vector, smode_trap_handler and
    handle_user_page_fault to the store itself, executed again. *)
From S2P Require Import Prelude Mem Context CString Snprintf Console Pmm Sv39 Vmm Space Kstate Sched Process NewProc Fork Regs Syscall Strap User Isolation.

Section Fault.
Context {K : Layout}.

(** A page fault that the handler deals with: the process goes on at the same
    pc, with all its registers but t6. *)
Record resumed (i : nat) (p : process) (g : list Z) (pc : Z) (s2 s' : kstate) : Prop := {
  rs_user : user_mode s' i p (<[r_t6 := trapframe p]> g);
  rs_machine : s' = lput (lget s' : machine) s2;
  rs_epc : csr sepc (lget s') = u64 pc;
  rs_mem : forall lo hi, trapframe p + sizeof_trapframe <= lo \/ hi <= trapframe p ->
    same_on lo hi (smem s') (smem s2);
}.

(** The state in which handle_user_page_fault begins. *)
Record faulted (s s1 : kstate) (p : process) (g : list Z) (pc : Z) : Prop := {
  fl_machine : s1 = lput (lget s1 : machine) s;
  fl_regs : saved_regs (smem s1) (trapframe p) = <[r_t6 := trapframe p]> g;
  fl_epc : ld64 (smem s1) (trapframe p + tf_epc) = u64 pc;
  fl_mem : forall lo hi, trapframe p + sizeof_trapframe <= lo \/ hi <= trapframe p ->
    same_on lo hi (smem s1) (smem s);
  fl_len : length (gpr (lget s1)) = 31%nat;
}.

Lemma resumed_switch s i p g pc s1 s2 :
  user_mode s i p g -> faulted s s1 p g pc ->
  procs s2 !! i = Some p -> current s2 = Some i -> same_page (trapframe p) (smem s1) (smem s2) ->
  length (gpr (lget s2)) = 31%nat ->
  wp (switch_to (A := unit) (current s2)) (fun _ _ => False)
    (fun e s' => e = SRet /\ resumed i p g pc s2 s') s2.
Proof.
  intros [_ _ _ _ Hrange _ _ _ Hfr _] [_ Hsv Hepc _ _] Hp Hc Hs Hl. rewrite Hc.
  assert (saved_regs (smem s2) (trapframe p) = <[r_t6 := trapframe p]> g) as Hsv2.
  { rewrite <- Hsv. symmetry. apply saved_regs_same. eapply same_on_sub; [| |exact Hs]; consts; lia. }
  assert (ld64 (smem s2) (trapframe p + tf_epc) = u64 pc) as Hepc2.
  { rewrite <- Hepc. symmetry. apply loadn_same_on. eapply same_on_sub; [| |exact Hs]; unfold tf_epc; consts; lia. }
  eapply wp_mono; [apply wp_and; [exact (switch_to_spec i p s2 Hp Hfr Hl)|exact (switch_to_machine i p s2 Hp Hfr Hl)]|by intros ?? []|].
  intros e s5 [(-> & Hk & _ & Hin) Hput]. split; [done|].
  destruct (resumed_intro s2 i p _ s5 Hp Hfr Hsv2) as (HU & He & Hm); [|exact Hk|exact Hin|].
  { apply Forall_insert; [exact Hrange|]. destruct Hfr as (_ & ? & ?). consts. lia. }
  split; [exact HU| |by rewrite He|exact Hm]. rewrite Hput at 1. destruct s2. cbn in Hc |- *. by rewrite Hc.
Qed.

(** A trap with a store page fault. *)
Lemma fault_trap_spec s i p g pc va R :
  user_mode s i p g -> 0 <= va < 2 ^ 64 ->
  (forall s1, faulted s s1 p g pc ->
     wp (handle_user_page_fault CAUSE_STORE_PAGE_FAULT (u64 pc) va)
        (fun _ s2 => R s2 /\ procs s2 !! i = Some p /\ current s2 = Some i /\
           same_page (trapframe p) (smem s1) (smem s2) /\ length (gpr (lget s2)) = 31%nat) never s1) ->
  wp (trap CAUSE_STORE_PAGE_FAULT pc va) (fun _ s' => exists s2, R s2 /\ resumed i p g pc s2 s') never s.
Proof.
  intros HU Hva Hcall. pose proof HU as [Hcur Hp _ _ _ _ _ _ Hfr _].
  remember (handle_user_page_fault CAUSE_STORE_PAGE_FAULT (u64 pc) va) as h eqn:Eh.
  set (Q := fun e s' => e = SRet /\ exists s2, R s2 /\ resumed i p g pc s2 s').
  assert (wp (enter CAUSE_STORE_PAGE_FAULT pc va) (fun _ _ => False) Q s) as H.
  { apply (enter_kernel s i p g _ pc _ _ _ _ HU). intros s1 Hput Hsv Hm Hsat He Hca Htv Hsp Hl Hcon.
    rewrite Z.eqb_refl. cstep. unfold smode_trap_handler. cstep. rewrite Hsp. cstep. cstep.
    assert (current s1 = Some i) as Hc1 by (rewrite Hput; exact Hcur).
    assert (procs s1 !! i = Some p) as Hp1 by (rewrite Hput; exact Hp).
    rewrite Hc1. cstep. eapply wp_bind_ok; [by apply deref_ok|]. cbv beta.
    cstep. rewrite He.
    cstep. cstep. rewrite csr_put_mem, Hca.
    change (u64 CAUSE_STORE_PAGE_FAULT) with CAUSE_STORE_PAGE_FAULT.
    change (CAUSE_STORE_PAGE_FAULT =? CAUSE_USER_ECALL) with false.
    change (CAUSE_STORE_PAGE_FAULT =? CAUSE_MTIMER_S_TRAP) with false. rewrite Z.eqb_refl. cbn [orb]. cbv iota.
    apply wp_assoc. cstep. apply wp_assoc. cstep. rewrite !csr_put_mem, He, Htv, (u64_small va) by done.
    set (s1' := put_mem _ s1).
    assert (faulted s s1' p g pc) as HF.
    { unfold s1'. split; rewrite ?smem_put_mem, ?gpr_put_mem.
      - rewrite Hput at 2. unfold put_mem. by rewrite !lget_lput, lput_lput.
      - rewrite <- Hsv. apply saved_regs_same, storen_same_on. unfold tf_epc; lia.
      - rewrite ld64_st64. apply u64_small, u64_range.
      - intros lo hi Ho. unfold sizeof_trapframe in Ho.
        etransitivity; [apply storen_same_on; unfold tf_epc; lia|]. apply Hm. lia.
      - exact Hl. }
    rewrite <- Eh. apply wp_bind. eapply wp_mono; [exact (Hcall s1' HF)| |done].
    intros _ s2 (HR & Hp2 & Hc2 & Hs2 & Hl2). eapply wp_bind_ok; [reflexivity|]. cbv beta.
    eapply wp_mono; [exact (resumed_switch s i p g pc s1' s2 HU HF Hp2 Hc2 Hs2 Hl2)|by intros ?? []|].
    intros e s5 [-> HR5]. split; [reflexivity|]. exists s2. exact (conj HR HR5). }
  unfold wp, trap in *. destruct (enter _ _ _ s) as [a s'|e s']; [done|].
  destruct H as [-> (s2 & HR & Hret)]. pose proof (rs_user _ _ _ _ _ _ Hret) as HU'.
  rewrite decide_True by (rewrite Hcur; apply HU'). by exists s2.
Qed.
End Fault.

Section Demand.
Context {K : Layout}.

#[local] Hint Resolve pres_map_pages : regs.

Lemma pres_page_fault cause epc va : preserves same_gpr (handle_user_page_fault cause epc va).
Proof. unfold handle_user_page_fault. pres. Qed.

(** Of the pages that [isolated] is about the trap frame alone has changed. *)
Lemma isolated_frame_only s s' l i p :
  isolated s l -> used s i p -> s' = lput (lget s' : machine) s ->
  (forall lo hi, trapframe p + sizeof_trapframe <= lo \/ hi <= trapframe p -> same_on lo hi (smem s') (smem s)) ->
  isolated s' l /\ forall z, page_aligned z -> z <> trapframe p -> same_page z (smem s) (smem s').
Proof.
  intros HI Hi Hs Hm. assert (trapframe p ∈ space_pages p) as Ht by left.
  destruct (iso_kernel _ _ HI i p (trapframe p) Hi (or_intror Ht)) as [[Hta _] Htl].
  assert (forall z, page_aligned z -> z <> trapframe p -> same_page z (smem s) (smem s')) as Hsame.
  { intros z Hz Hne. symmetry. apply Hm.
    destruct (page_disjoint z (trapframe p) Hz Hta Hne); unfold sizeof_trapframe; consts; lia. }
  split; [|done]. apply (isolated_machine s); [done|done|].
  destruct (iso_free _ _ HI) as (_ & _ & Hman). rewrite Forall_forall in Hman.
  intros z [Hz|(j & q & Hj & Hz)].
  - apply Hsame; [apply (Hman z Hz)|]. by intros ->.
  - apply Hsame; [apply (pt_ram _ _ (iso_wf _ _ HI j q Hj) z Hz)|]. intros ->.
    assert (j = i) as ->.
    { apply (iso_apart _ _ HI j i q p (trapframe p) Hj Hi); [by left|by right]. }
    assert (q = p) as -> by (destruct Hj as [Hj _], Hi as [Hi _]; congruence).
    by apply (iso_inside _ _ HI i p (trapframe p) Hi).
Qed.

(** What a page fault at [va] gives the process. *)
Definition paged_in (s s2 : kstate) (p : process) (g : list Z) (pc va pa : Z) (l : list Z) : Prop :=
  exists s1, faulted s s1 p g pc /\ page_given s1 s2 p va pa l.

Lemma fault_pages_in s i p g pc va pa l :
  isolated s (pa :: l) -> user_mode s i p g -> status p <> FREE -> (2 < length l)%nat -> 0 <= va < MAXVA ->
  pte_valid (entry (smem s) (pagetable p) va) = false ->
  wp (trap CAUSE_STORE_PAGE_FAULT pc va)
    (fun _ s' => exists s2, paged_in s s2 p g pc va pa l /\ resumed i p g pc s2 s') never s.
Proof.
  intros HI HU Hst Hl Hva Hv. pose proof MAXVA_eq as HM. pose proof HU as [Hcur Hp _ _ _ _ _ _ Hfr _].
  assert (used s i p) as Hi by done.
  apply (fault_trap_spec s i p g pc va); [done|lia|]. intros s1 HF. pose proof HF as [Hput _ _ Hm Hlen].
  destruct (isolated_frame_only s s1 (pa :: l) i p HI Hi Hput Hm) as [HI1 Hs1].
  assert (used s1 i p /\ current s1 = Some i) as [Hi1 Hc1] by (rewrite Hput; done).
  pose proof (iso_wf _ _ HI i p Hi) as Hwf.
  assert (trapframe p ∈ space_pages p) as Ht by left.
  destruct (pt_frame (smem s) (smem s1) (pagetable p)) as (_ & Htree & He); [|done|].
  { intros z Hz. apply Hs1; [apply (pt_ram _ _ Hwf z Hz)|]. intros ->. by apply (iso_inside _ _ HI i p _ Hi Hz). }
  eapply wp_mono; [apply wp_preserves; [exact (page_fault_given s1 pa l i p (u64 pc) va HI1 Hc1 Hi1 Hl ltac:(lia))|apply pres_page_fault]| |].
  - intros [] s2 [[_ HG] Hgpr]. pose proof HG as [_ _ Hpg (Hp2 & Hc2 & _) _]. split; [by exists s1|].
    split; [rewrite Hp2; apply Hi1|]. split; [by rewrite Hc2|]. split.
    + destruct (iso_kernel _ _ HI i p _ Hi (or_intror Ht)) as [_ Hn]. rewrite not_elem_of_cons in Hn.
      apply Hpg; [apply Hfr|apply Hn|]. rewrite Htree. intros Hin. by apply (iso_inside _ _ HI i p _ Hi Hin).
    + by rewrite Hgpr.
  - intros e s2 [_ [Hv'|Hm']].
    + rewrite He in Hv'. rewrite (entry_page _ _ (ROUNDDOWN va PGSIZE) va) in Hv' by
        (unfold ROUNDDOWN; consts; dlia). congruence.
    + unfold ROUNDDOWN in Hm'. change MAXVA with 0x4000000000 in *. consts. exfalso. dlia.
Qed.

(** The instruction is executed again. *)
Lemma user_access_retry {A} apc perm cause va (k : Z -> M kstate A) s s1 a s' :
  Z.land (entry (smem s) (user_root s) va) perm <> perm -> trap cause apc va s = Ok tt s1 ->
  Z.land (entry (smem s1) (user_root s1) va) perm = perm ->
  k (PTE2PA (entry (smem s1) (user_root s1) va) + va mod PGSIZE) s1 = Ok a s' ->
  user_access apc perm cause va k s = Ok a s'.
Proof.
  intros Hno Ht Hp Hk. unfold user_access, loop. apply (bind_ok (inr a) s'); [|reflexivity].
  cbn [iterate]. apply (bind_ok (inl tt) s1).
  - eapply bind_ok; [reflexivity|]. rewrite (proj2 (Z.eqb_neq _ _) Hno). by eapply bind_ok.
  - eapply bind_ok; [reflexivity|]. rewrite (proj2 (Z.eqb_eq _ _) Hp). by eapply bind_ok.
Qed.

(** Back in user mode. *)
Lemma resumed_given s s2 s3 i p g pc va pa l :
  isolated s (pa :: l) -> used s i p -> 0 <= va < MAXVA ->
  paged_in s s2 p g pc va pa l -> resumed i p g pc s2 s3 ->
  (exists taken l', l = taken ++ l' /\ (length taken <= 2)%nat /\ isolated s3 l') /\
  used s3 i p /\ user_writable (smem s3) p va pa /\
  procs s3 = procs s /\ ready_queue_head s3 = ready_queue_head s /\
  forall va', 0 <= va' < 2 ^ 39 ->
    entry (smem s3) (pagetable p) va' = map_entry (entry (smem s) (pagetable p)) va pa data_perm va'.
Proof.
  intros HI Hi Hva (s1 & [Hput _ _ Hm _] & HG) [HU Hput3 _ Hm3].
  destruct (iso_free _ _ HI) as (_ & _ & [[Hpa _] _]%Forall_cons).
  pose proof HG as [(taken & l' & El & Hlen & HI2) He _ (Hp & _ & Hq) _].
  assert (procs s1 = procs s /\ ready_queue_head s1 = ready_queue_head s) as [Hp1 Hq1] by (rewrite Hput; done).
  assert (used s2 i p) as Hi2 by (unfold used; by rewrite Hp, Hp1).
  destruct (isolated_frame_only s2 s3 l' i p HI2 Hi2 Hput3 Hm3) as [HI3 Hs3].
  destruct (isolated_frame_only s s1 (pa :: l) i p HI Hi Hput Hm) as [_ Hs1].
  assert (forall (t t' : kstate) lt, isolated t lt -> used t i p ->
    (forall z, page_aligned z -> z <> trapframe p -> same_page z (smem t) (smem t')) ->
    forall x, entry (smem t') (pagetable p) x = entry (smem t) (pagetable p) x) as Hent.
  { intros t t' lt HIt Hit Hst. apply pt_frame; [|by apply (iso_wf _ _ HIt i)].
    intros z Hz. apply Hst; [apply (pt_ram _ _ (iso_wf _ _ HIt i p Hit) z Hz)|]. intros ->.
    apply (iso_inside _ _ HIt i p _ Hit Hz). by left. }
  assert (procs s3 = procs s2 /\ ready_queue_head s3 = ready_queue_head s2) as [Hp3 Hq3] by (rewrite Hput3; done).
  split; [by exists taken, l'|]. split; [unfold used; by rewrite Hp3|]. split; [|split; [congruence|split; [congruence|]]].
  - destruct (given_page s1 s2 pa l p va HG Hpa Hva) as [Hva' Hg]. split; [done|].
    by rewrite (Hent s2 s3 l' HI2 Hi2 Hs3).
  - intros va' Hva'. rewrite (Hent s2 s3 l' HI2 Hi2 Hs3), He by done. unfold map_entry.
    by rewrite (Hent s s1 (pa :: l) HI Hi Hs1).
Qed.
End Demand.

(** * Properties *)

(** C7. Pages on demand.  The store of a user program to an address below MAXVA
    that is not mapped succeeds as long as there is memory: the processor traps,
    the kernel maps a free page, and the instruction is executed again.  The
    byte is in the new page, the process goes on with its registers, but t6,
    and the partition of memory is kept, with one page and at most two tables
    less for the allocator. *)
Theorem store_pages_in {K : Layout} apc va c s i p g pa l :
  isolated s (pa :: l) -> user_mode s i p g -> status p <> FREE -> (2 < length l)%nat -> 0 <= va < MAXVA ->
  pte_valid (entry (smem s) (pagetable p) va) = false ->
  exists s' taken l', user_store apc va c s = Ok tt s' /\ l = taken ++ l' /\ (length taken <= 2)%nat /\
    isolated s' l' /\ user_mode s' i p (<[r_t6 := trapframe p]> g) /\
    procs s' = procs s /\ ready_queue_head s' = ready_queue_head s /\ csr sepc (lget s') = u64 apc /\
    entry (smem s') (pagetable p) va = map_pte pa data_perm /\ load_bytes (smem s') (pa + va mod PGSIZE) 1 = [c] /\
    forall va', 0 <= va' < 2 ^ 39 -> va' / PGSIZE <> va / PGSIZE ->
      entry (smem s') (pagetable p) va' = entry (smem s) (pagetable p) va'.
Proof.
  intros HI HU Hst Hl Hva Hv. pose proof MAXVA_eq as HM. assert (used s i p) as Hi by (split; [apply HU|done]).
  pose proof (iso_wf _ _ HI i p Hi) as Hwf.
  assert (user_root s = pagetable p) as Hroot.
  { unfold user_root. rewrite (um_satp _ _ _ _ HU). apply satp_root, (pt_ram _ _ Hwf), root_in_tree. }
  destruct (wp_ok _ _ _ (fault_pages_in s i p g apc va pa l HI HU Hst Hl Hva Hv)) as ([] & s3 & Et & s2 & HP & HR).
  destruct (resumed_given s s2 s3 i p g apc va pa l HI Hi Hva HP HR)
    as ((taken & l' & El & Hlen & HI3) & Hi3 & Hw & Hp & Hq & He).
  pose proof HR as [HU3 _ Hepc _].
  destruct (writable_step s3 i p _ l' va pa c HI3 HU3 Hi3 Hw) as [Hf Hs].
  destruct (write_confined s3 i p _ l' va pa c HI3 HU3 Hi3 Hw) as (HI4 & HU4 & _ & _ & Hk4 & _).
  set (s4 := put_mem _ s3) in *. exists s4, taken, l'.
  assert (forall x, entry (smem s4) (pagetable p) x = entry (smem s3) (pagetable p) x) as He4.
  { apply pt_frame; [|by apply (iso_wf _ _ HI3 i)]. intros z Hz. apply (Hk4 i p z Hi3). by left. }
  split; [|split; [done|split; [done|split; [done|split; [done|split; [exact Hp|split; [exact Hq|split; [|split; [|split]]]]]]]]].
  - eapply user_access_retry; [|exact Et|exact Hf|exact Hs]. rewrite Hroot. intros H.
    assert (pte_valid (entry (smem s) (pagetable p) va) = true) as Hv'; [|congruence].
    destruct (writable_user (smem s) p va (PTE2PA (entry (smem s) (pagetable p) va))) as [_ Hg]; [|by apply grants_valid in Hg].
    split; [lia|by split].
  - unfold s4. by rewrite csr_put_mem.
  - rewrite He4, He by lia. unfold map_entry. by rewrite decide_True.
  - unfold s4. rewrite smem_put_mem. apply (load_store_bytes _ _ [c]).
  - intros va' Hva' Hne. rewrite He4, He by done. unfold map_entry. by rewrite decide_False.
Qed.
