(* ===== verification/IsolationTrap.v ===== *)
(** Traps that ask for no memory keep processes apart: print, exit, wait, yield,
    the timer, and the exceptions that the kernel does not handle.  What they
    store is in the trap frame of a process, whatever its user program has left
    in its registers and in memory. *)
From S2P Require Import Prelude Mem Context CString Snprintf Console Pmm Sv39 Vmm Space Kstate Robust Sched Process NewProc Fork Regs Syscall Strap User Isolation Paging.

(** ** Operations that read memory only *)

Definition quiet {S} `{Lens S machine} : relation S := fun s s' =>
  s' = lput (lget s' : machine) s /\ smem s' = smem s.

#[export] Instance quiet_io {S} `{L : !Lens S machine} : IgnoresIo (S := S) quiet.
Proof.
  split; [split|].
  - intros s. split; [by rewrite lput_lget|done].
  - intros s1 s2 s3 [E1 M1] [E2 M2]. split; [|congruence]. rewrite E2 at 1. rewrite E1. by rewrite lput_lput.
  - intros k s Hk. unfold quiet, smem. by rewrite lget_lput.
Qed.

Lemma quiet_csr {S} `{L : !Lens S machine} c v (s : S) : quiet s (put_csr c v s).
Proof. unfold put_csr. by apply ignores_io. Qed.

Lemma quiet_zoom (s : kstate) (t : mm) : quiet (kmm s) t -> quiet s (lput t s).
Proof. intros [E M]. split; [|exact M]. cbn. rewrite E at 1. by destruct s. Qed.

Lemma keeps_zoom_quiet {A} (c : M mm A) : keeps quiet c -> keeps (quiet (S := kstate)) (zoom c).
Proof.
  intros Hc s. apply wp_zoom. eapply wp_mono; [apply Hc| |done]. intros a t. apply quiet_zoom.
Qed.

Lemma quiet_walk level : forall pt va, keeps (quiet (S := mm)) (walk_levels level pt va 0).
Proof.
  induction level as [|l IH]; intros pt va; cbn [walk_levels]; change (truthy 0) with false; keeps_tac; apply IH.
Qed.

Lemma quiet_user_va_to_pa root va : keeps (quiet (S := mm)) (user_va_to_pa root va).
Proof.
  unfold user_va_to_pa, page_walk. keeps_tac; apply quiet_walk.
Qed.

Lemma quiet_restore : keeps (quiet (S := kstate)) restore_all_registers.
Proof. unfold restore_all_registers, get_reg, set_reg. keeps_tac. apply keeps_modify. intros s. by apply ignores_io. Qed.

Lemma quiet_scan n : forall i b, keeps (quiet (S := kstate)) (scan_procs n i b).
Proof. induction n as [|n IH]; intros i b; cbn [scan_procs]; keeps_tac; apply IH. Qed.

(** ** Loops whose bound does not matter *)

Lemma wp_iterate_any {S X R} (body : X -> M S (X + R)) (I : X -> S -> Prop) (Q : R -> S -> Prop) E fuel x s :
  I x s ->
  (forall x s, I x s -> wp (body x) (fun r s' => match r with inl x' => I x' s' | inr v => Q v s' end) E s) ->
  wp (iterate fuel body x) (fun r s' => match r with inl x' => I x' s' | inr v => Q v s' end) E s.
Proof.
  intros HI Hb. revert x s HI. induction fuel as [p IH|p IH|]; intros x s HI; simpl; [| |by apply Hb].
  - apply wp_bind, wp_bind. eapply wp_mono; [by apply Hb| |done]. intros [x1|v] s1 H; [|done].
    eapply wp_mono; [by apply IH| |done]. intros [x2|v] s2 H2; [by apply IH|done].
  - apply wp_bind. eapply wp_mono; [by apply IH| |done]. intros [x1|v] s1 H; [by apply IH|done].
Qed.

Lemma wp_loop_any {S X R} (body : X -> M S (X + R)) (I : X -> S -> Prop) (Q : R -> S -> Prop)
    (E : stop -> S -> Prop) fuel x s :
  I x s -> (forall s, E OutOfFuel s) ->
  (forall x s, I x s -> wp (body x) (fun r s' => match r with inl x' => I x' s' | inr v => Q v s' end) E s) ->
  wp (loop fuel body x) Q E s.
Proof.
  intros HI HE Hb. apply wp_bind. eapply wp_mono; [by eapply wp_iterate_any| |done].
  intros [x'|v] s' H; [apply HE|exact H].
Qed.

(** ** States in which a process runs *)
Section Light.
Context {K : Layout} (l : list Z).

(** Only a return to user mode counts. *)
Definition back (e : stop) (s : kstate) : Prop := e = SRet -> isolated s l.

Lemma back_error e s : is_error e -> back e s.
Proof. intros He ->. destruct He. Qed.

Definition runs (i : nat) (p : process) (s : kstate) : Prop :=
  isolated s l /\ used s i p /\ current s = Some i.

Lemma isolated_quiet s s' : quiet s s' -> isolated s l -> isolated s' l.
Proof. intros [E M] HI. apply (isolated_machine s); [done|exact E|]. intros z _. by rewrite M. Qed.

Lemma runs_quiet i p s s' : quiet s s' -> runs i p s -> runs i p s'.
Proof.
  intros Hq (HI & Hu & Hc). split; [by apply (isolated_quiet s)|]. destruct Hq as [E _]. rewrite E. by split.
Qed.

Lemma isolated_vars s s' : isolated s l -> kmm s' = kmm s ->
  (forall j p', used s' j p' -> exists p, used s j p /\ same_space p' p) -> isolated s' l.
Proof.
  intros HI Hk Hp. apply (isolated_frame s); [done| |done|].
  - rewrite Hk. apply HI.
  - intros j p z _ _. change (same_page z (smem (kmm s)) (smem (kmm s'))). by rewrite Hk.
Qed.

Lemma isolated_upd i f s :
  isolated s l -> (forall p, procs s !! i = Some p -> same_space (f p) p /\ (status (f p) <> FREE -> status p <> FREE)) ->
  isolated (upd_proc i f s) l.
Proof.
  intros HI Hf. apply (isolated_vars s); [done|done|]. intros j p' [Hj Hs]. simpl in Hj.
  rewrite list_lookup_alter in Hj. case_decide as Hij; [subst j|by exists p'].
  destruct (procs s !! i) as [p|] eqn:Hp; [|done]. injection Hj as <-. destruct (Hf p eq_refl) as [Hsp Hst].
  exists p. split; [split; [exact Hp|by apply Hst]|exact Hsp].
Qed.

(** A store to the trap frame. *)
Lemma isolated_store i p s n k v :
  isolated s l -> used s i p -> 0 <= k -> k + Z.of_nat n <= sizeof_trapframe ->
  isolated (put_mem (storen n (smem s) (trapframe p + k) v) s) l.
Proof.
  intros HI Hi Hk Hn. apply (isolated_frame_only s _ l i p HI Hi).
  - unfold put_mem. by rewrite lget_lput.
  - intros lo hi Ho. rewrite smem_put_mem. apply storen_same_on. lia.
Qed.

(** ** Steps of a run *)

Lemma wp_quiet {A B} (P : kstate -> Prop) (c : M kstate A) (f : A -> M kstate B) Q s :
  (forall s s', quiet s s' -> P s -> P s') -> P s -> keeps quiet c ->
  (forall a s', P s' -> wp (f a) Q back s') -> wp (bind c f) Q back s.
Proof.
  intros HP Hs Hc Hf. apply (wp_bind_keeps quiet s); [reflexivity|exact Hc|intros ? ? ?; by apply back_error|].
  intros a s' Hq. apply Hf. by apply (HP s).
Qed.

Lemma wp_frame {B} i p n k v (f : unit -> M kstate B) Q s :
  runs i p s -> 0 <= k -> k + Z.of_nat n <= sizeof_trapframe ->
  (forall s', runs i p s' -> wp (f tt) Q back s') -> wp (bind (store n (trapframe p + k) v) f) Q back s.
Proof.
  intros (HI & Hi & Hc) Hk Hn Hf. apply wp_bind, wp_store_err; [intros; by apply back_error|].
  apply Hf. split; [by apply (isolated_store i)|by split].
Qed.

Lemma switch_to_back {A : Type} i p s (Q : A -> kstate -> Prop) :
  isolated s l -> used s i p -> wp (switch_to (A := A) (Some i)) Q back s.
Proof.
  intros HI Hi. unfold switch_to. change (bool_decide (is_Some (Some i))) with true.
  eapply wp_bind_ok; [done|]. cbv beta. eapply wp_bind_ok; [done|]. cbv beta.
  set (s1 := set_current _ s). assert (runs i p s1) as Hr.
  { split; [apply (isolated_vars s); [exact HI|done|]; intros j p' Hj; by exists p'|done]. }
  clearbody s1. clear s HI Hi. pose proof (runs_quiet i p) as HQ.
  apply (wp_quiet (runs i p)); [done|done|keeps_tac|]. clear s1 Hr. intros _ s Hr.
  eapply wp_bind_ok; [by apply deref_ok, Hr|]. cbv beta.
  apply (wp_frame i p); [done|unfold tf_kernel_sp, sizeof_trapframe; lia..|]. clear s Hr. intros s Hr.
  apply (wp_quiet (runs i p)); [done|done|keeps_tac|]. clear s Hr. intros k s Hr.
  apply (wp_frame i p); [done|unfold tf_kernel_satp, sizeof_trapframe; lia..|]. clear s Hr. intros s Hr.
  apply (wp_frame i p); [done|unfold tf_kernel_trap, sizeof_trapframe; lia..|]. clear s Hr. intros s Hr.
  do 4 (apply (wp_quiet (runs i p)); [done|done|keeps_tac|]; clear s Hr; intros ? s Hr).
  unfold return_to_user. unfold set_reg.
  do 3 (apply (wp_quiet (runs i p)); [done|done|first [solve [keeps_tac]|apply keeps_modify; intros ?; by apply ignores_io]|];
    clear s Hr; intros ? s Hr).
  apply (wp_quiet (runs i p)); [done|done|apply quiet_restore|]. clear s Hr. intros _ s Hr.
  apply wp_halt. intros _. apply Hr.
Qed.

(** ** The scheduler *)

Lemma panic_back (A : Type) fmt (Q : A -> kstate -> Prop) s : wp (panic (A := A) fmt) Q back s.
Proof. apply wp_panic. intros s' _. exact (back_error (Shutdown (-1)) s' eq_refl). Qed.

Lemma deref_back c (Q : process -> kstate -> Prop) s :
  (forall i p, c = Some i -> procs s !! i = Some p -> Q p s) -> wp (deref c) Q back s.
Proof.
  intros HQ. destruct c as [i|]; unfold wp, deref; [|by apply back_error].
  destruct (procs s !! i) as [p|] eqn:Hp; [by apply (HQ i)|by apply back_error].
Qed.

Lemma die_back (A : Type) file line x (Q : A -> kstate -> Prop) s : wp (die (A := A) file line x) Q back s.
Proof.
  unfold die, poweroff. do 2 (apply (wp_quiet (fun _ => True)); [done|exact Logic.I|apply keeps_sprint; apply _|]; intros _ ? _).
  apply wp_halt. intros E. discriminate E.
Qed.

(** The process [i] is in use. *)
Definition alive (i : nat) (s : kstate) : Prop := isolated s l /\ exists p, used s i p.

Lemma alive_quiet i s s' : quiet s s' -> alive i s -> alive i s'.
Proof. intros Hq [HI Hp]. split; [by apply (isolated_quiet s)|]. destruct Hq as [E _]. by rewrite E. Qed.

Lemma alive_upd i j f s :
  alive i s -> (forall p, procs s !! j = Some p ->
    same_space (f p) p /\ (status (f p) <> FREE -> status p <> FREE) /\ (j = i -> status (f p) <> FREE)) ->
  alive i (upd_proc j f s).
Proof.
  intros [HI (p & Hp & Hst)] Hf. split.
  - apply isolated_upd; [exact HI|]. intros q Hq. destruct (Hf q Hq) as (H1 & H2 & _). by split.
  - destruct (decide (j = i)) as [->|Hne].
    + exists (f p). split; [by apply (procs_upd i f s)|]. by apply (Hf p Hp).
    + exists p. split; [by rewrite procs_upd_ne|exact Hst].
Qed.

(** Updates that leave the space and the status alone. *)
Lemma assign_back i c f (Q : unit -> kstate -> Prop) s :
  alive i s -> (forall p, same_space (f p) p /\ status (f p) = status p) ->
  (forall s', alive i s' -> Q tt s') -> wp (assign c f) Q back s.
Proof.
  intros Hs Hf HQ. unfold assign. apply wp_bind, deref_back. intros j p -> Hp. apply wp_modify, HQ.
  apply alive_upd; [exact Hs|]. intros q Hq. destruct (Hf q) as [H1 ->]. split_and!; [exact H1|done|intros ->].
  destruct Hs as [_ (r & Hr & Hst)]. congruence.
Qed.

Lemma set_status_back i st (Q : unit -> kstate -> Prop) s :
  alive i s -> st <> FREE -> (forall s', alive i s' -> Q tt s') -> wp (assign (Some i) (set_status st)) Q back s.
Proof.
  intros Hs Hst HQ. unfold assign. apply wp_bind, deref_back. intros j p [= <-] Hp. apply wp_modify, HQ.
  apply alive_upd; [exact Hs|]. intros q Hq. split_and!; [done| |done]. intros _.
  destruct Hs as [_ (r & Hr & Hr')]. congruence.
Qed.

Lemma no_ready_back s :
  wp (should_shutdown <- scan_procs NPROC 0 true ;;
      if (should_shutdown : bool) then
        sprint "no more ready processes, system shutdown now.
" [] ;;;
        shutdown 0
      else panic "Not handled: we should let system wait for unfinished processes.
") (fun (_ : unit) _ => False) back s.
Proof.
  apply (wp_quiet (fun _ => True)); [done|exact Logic.I|apply quiet_scan|]. intros [] s1 _; [|apply panic_back].
  eapply wp_bind_ok; [by apply sprint_eq|]. apply wp_shutdown. intros s' _ E. discriminate E.
Qed.

Lemma schedule_back (A : Type) s (Q : A -> kstate -> Prop) : isolated s l -> wp (schedule (A := A)) Q back s.
Proof.
  intros HI. unfold schedule. eapply wp_bind_ok; [done|]. cbv beta.
  destruct (ready_queue_head s) as [h|] eqn:Hh.
  2: { apply wp_bind. eapply wp_mono; [exact (no_ready_back s)|intros ? ? []|intros ? ? H; exact H]. }
  eapply wp_bind_ok; [done|]. cbv beta. eapply wp_bind_ok; [done|]. cbv beta.
  eapply wp_bind_ok; [done|]. cbv beta. set (s1 := set_current _ s).
  assert (isolated s1 l) as HI1 by (apply (isolated_vars s); [exact HI|done|]; intros j p' Hj; by exists p').
  change (current s1) with (ready_queue_head s). rewrite Hh.
  apply wp_bind, deref_back. intros ? p [= <-] Hp. unfold assert_. case_bool_decide as Hst.
  2: { apply wp_bind. apply die_back. }
  eapply wp_bind_ok; [done|]. cbv beta. eapply wp_bind_ok; [done|]. cbv beta. set (s2 := set_ready_queue_head _ s1).
  assert (isolated s2 l) as HI2 by (apply (isolated_vars s1); [exact HI1|done|]; intros j p' Hj; by exists p').
  assert (used s2 h p) as Hu by (split; [exact Hp|by rewrite Hst]).
  apply (wp_quiet (fun s => isolated s l /\ used s h p)); [|by split|apply keeps_sprint; apply _|].
  - intros t t' Hq [Ht Hut]. split; [by apply (isolated_quiet t)|]. destruct Hq as [E _]. by rewrite E.
  - intros _ s3 [HI3 Hu3]. by apply (switch_to_back h p).
Qed.

(** insert_to_ready_queue of a process in use. *)
Lemma browse_back i proc head s (Q : option (option nat) -> kstate -> Prop) :
  alive i s -> (forall r s', alive i s' -> Q r s') -> wp (browse_queue proc head) Q back s.
Proof.
  intros Hs HQ. unfold browse_queue. apply (wp_loop_any _ (fun _ s => alive i s)); [exact Hs|intros t E; discriminate E|].
  clear s Hs. intros x s Hs. apply wp_bind, deref_back. intros j p -> Hp. destruct (queue_next p).
  - case_decide; apply wp_ret; [by apply HQ|exact Hs].
  - apply wp_ret. by apply HQ.
Qed.

Lemma insert_back i s (Q : unit -> kstate -> Prop) :
  alive i s -> (forall s', alive i s' -> Q tt s') -> wp (insert_to_ready_queue (Some i)) Q back s.
Proof.
  intros Hs HQ. unfold insert_to_ready_queue. apply wp_bind, deref_back. intros ? p [= <-] Hp.
  apply (wp_quiet (alive i)); [apply alive_quiet|exact Hs|apply keeps_sprint; apply _|].
  clear s Hs Hp. intros _ s Hs. eapply wp_bind_ok; [done|]. cbv beta.
  assert (forall h s, alive i s -> alive i (set_ready_queue_head h s)) as Hq.
  { intros h t [HI Hu]. split; [|exact Hu]. apply (isolated_vars t); [exact HI|done|]. intros j p' Hj. by exists p'. }
  destruct (ready_queue_head s) as [h|].
  - apply wp_bind. eapply browse_back; [exact Hs|]. clear s Hs. intros [q|] s Hs; [|apply wp_ret; by apply HQ].
    case_decide; [apply wp_ret; by apply HQ|].
    apply wp_bind. eapply assign_back; [exact Hs|by split|]. clear s Hs. intros s Hs.
    apply wp_bind. apply set_status_back; [exact Hs|done|]. clear s Hs. intros s Hs.
    eapply assign_back; [exact Hs|by split|]. exact HQ.
  - apply wp_bind. apply set_status_back; [exact Hs|done|]. clear s Hs. intros s Hs.
    apply wp_bind. eapply assign_back; [exact Hs|by split|]. clear s Hs. intros s Hs.
    apply wp_modify. by apply HQ, Hq.
Qed.

(** [insert_to_ready_queue(current); schedule();] *)
Lemma give_up_back (A B : Type) i s (k : A -> M kstate B) (Q : B -> kstate -> Prop) :
  alive i s ->
  wp (bind (assign (Some i) (set_status READY)) (fun _ =>
      bind (insert_to_ready_queue (Some i)) (fun _ => bind (schedule (A := A)) k))) Q back s.
Proof.
  intros Hs. apply wp_bind. apply set_status_back; [exact Hs|done|]. clear s Hs. intros s Hs.
  apply wp_bind. apply (insert_back i); [exact Hs|]. clear s Hs. intros s [HI _].
  apply wp_bind. by apply schedule_back.
Qed.

(** ** System calls *)

Lemma print_back i p buf n s (Q : Z -> kstate -> Prop) :
  runs i p s -> (forall r s', runs i p s' -> Q r s') -> wp (sys_user_print buf n) Q back s.
Proof.
  intros Hs HQ. pose proof (runs_quiet i p) as HR. unfold sys_user_print.
  eapply wp_bind_ok; [done|]. cbv beta. destruct Hs as (HI & Hi & Hc). rewrite Hc.
  eapply wp_bind_ok; [done|]. cbv beta. eapply wp_bind_ok; [by apply deref_ok, Hi|]. cbv beta.
  assert (runs i p s) as Hs by done. clear HI Hi Hc.
  apply (wp_quiet (runs i p)); [exact HR|exact Hs|apply keeps_zoom_quiet, quiet_user_va_to_pa|]. clear s Hs. intros pa s Hs.
  apply (wp_quiet (runs i p)); [exact HR|exact Hs|apply keeps_read_string; apply _|]. clear s Hs. intros bs s Hs.
  apply (wp_quiet (runs i p)); [exact HR|exact Hs|apply keeps_vprintk; apply _|]. clear s Hs. intros _ s Hs.
  apply wp_ret. by apply HQ.
Qed.

Lemma runs_alive i p s : runs i p s -> alive i s.
Proof. intros (HI & Hi & _). split; [exact HI|by exists p]. Qed.

Lemma exit_back i p code s (Q : Z -> kstate -> Prop) :
  runs i p s -> wp (sys_user_exit code) Q back s.
Proof.
  intros Hs. unfold sys_user_exit.
  apply (wp_quiet (runs i p)); [apply runs_quiet|exact Hs|apply keeps_sprint; apply _|]. clear s Hs. intros _ s Hs.
  eapply wp_bind_ok; [done|]. cbv beta. rewrite (proj2 (proj2 Hs)). apply wp_bind. unfold free_process.
  apply wp_bind. apply set_status_back; [by eapply runs_alive|done|]. clear s Hs. intros s [HI _].
  apply wp_ret. apply wp_bind. by apply schedule_back.
Qed.

Lemma yield_back i p s (Q : Z -> kstate -> Prop) : runs i p s -> wp sys_user_yield Q back s.
Proof.
  intros Hs. unfold sys_user_yield. eapply wp_bind_ok; [done|]. cbv beta. rewrite (proj2 (proj2 Hs)).
  apply give_up_back. by eapply runs_alive.
Qed.

Lemma wait_back i p pid_arg s (Q : Z -> kstate -> Prop) :
  runs i p s -> (forall r s', runs i p s' -> Q r s') -> wp (wait pid_arg) Q back s.
Proof.
  intros Hs HQ. unfold wait. eapply wp_bind_ok; [done|]. cbv beta zeta. rewrite (proj2 (proj2 Hs)).
  destruct (_ =? -1); [apply wp_ret; by apply HQ|]. apply give_up_back. by eapply runs_alive.
Qed.

(** The system calls that ask for no memory. *)
Definition light_call (a0 : Z) : Prop :=
  a0 <> SYS_user_allocate_page /\ a0 <> SYS_user_free_page /\ a0 <> SYS_user_fork.

Lemma do_syscall_back i p a0 a1 a2 a3 a4 a5 a6 a7 s (Q : Z -> kstate -> Prop) :
  runs i p s -> light_call a0 -> (forall r s', runs i p s' -> Q r s') ->
  wp (do_syscall a0 a1 a2 a3 a4 a5 a6 a7) Q back s.
Proof.
  intros Hs (H1 & H2 & H3) HQ. unfold do_syscall.
  destruct (Z.eqb_spec a0 SYS_user_print); [exact (print_back i p _ _ _ _ Hs HQ)|].
  destruct (Z.eqb_spec a0 SYS_user_exit); [exact (exit_back i p _ _ _ Hs)|].
  rewrite (proj2 (Z.eqb_neq _ _) H1), (proj2 (Z.eqb_neq _ _) H2), (proj2 (Z.eqb_neq _ _) H3).
  destruct (Z.eqb_spec a0 SYS_user_yield); [exact (yield_back i p _ _ Hs)|].
  destruct (Z.eqb_spec a0 SYS_user_wait); [exact (wait_back i p _ _ _ Hs HQ)|exact (panic_back _ _ _ _)].
Qed.

Lemma handle_syscall_back i p s (Q : unit -> kstate -> Prop) :
  runs i p s -> light_call (ld64 (smem s) (trapframe p + tf_a0)) -> (forall s', runs i p s' -> Q tt s') ->
  wp (handle_syscall (trapframe p)) Q back s.
Proof.
  intros Hs Hl HQ. unfold handle_syscall. pose proof (runs_quiet i p) as HR.
  apply wp_bind, wp_load_err; [intros; by apply back_error|].
  apply wp_bind, wp_store_err; [intros; by apply back_error|].
  set (s1 := put_mem _ s). assert (runs i p s1) as Hs1.
  { destruct Hs as (HI & Hi & Hc). split; [|by split].
    apply (isolated_store i); [exact HI|exact Hi|unfold tf_epc, sizeof_trapframe; lia..]. }
  assert (ld64 (smem s1) (trapframe p + tf_a0) = ld64 (smem s) (trapframe p + tf_a0)) as E.
  { unfold s1. rewrite smem_put_mem. apply loadn_same_on. unfold tf_a0, tf_epc. apply storen_same_on. lia. }
  clearbody s1. rewrite <- E in Hl. clear E Hs s.
  apply wp_bind, wp_load_err; [intros; by apply back_error|]. cbv beta.
  revert Hl. generalize (loadn 8 (smem s1) (trapframe p + tf_a0)). intros a0 Hl.
  do 7 (apply (wp_quiet (runs i p)); [exact HR|exact Hs1|apply keeps_load; apply _|]; clear s1 Hs1; intros ? s1 Hs1).
  apply wp_bind. apply (do_syscall_back i p); [exact Hs1|exact Hl|]. clear s1 Hs1. intros r s1 (HI & Hi & Hc).
  apply wp_store_err; [intros; by apply back_error|]. apply HQ. split; [|by split].
  apply (isolated_store i); [exact HI|exact Hi|unfold tf_a0, sizeof_trapframe; lia..].
Qed.

(** ** The handler *)

Lemma current_back (A : Type) i s (Q : A -> kstate -> Prop) :
  alive i s -> current s = Some i -> wp (bind (gets current) switch_to) Q back s.
Proof.
  intros [HI (p & Hi)] Hc. eapply wp_bind_ok; [done|]. cbv beta. rewrite Hc. exact (switch_to_back i p s Q HI Hi).
Qed.

Definition going (i : nat) (s : kstate) : Prop := alive i s /\ current s = Some i.

Lemma rrsched_back i p s (Q : unit -> kstate -> Prop) :
  runs i p s -> (forall s', going i s' -> Q tt s') -> wp rrsched Q back s.
Proof.
  intros (HI & Hi & Hc) HQ. unfold rrsched. eapply wp_bind_ok; [done|]. cbv beta. rewrite Hc.
  eapply wp_bind_ok; [by apply deref_ok, Hi|]. cbv beta zeta.
  assert (forall t s, going i s -> going i (upd_proc i (set_tick_count t) s)) as Ht.
  { intros t s1 [Ha Hc1]. split; [|exact Hc1]. apply alive_upd; [exact Ha|]. intros q Hq. split_and!; [done|done|].
    intros _. destruct Ha as [_ (r & Hr & Hst)]. cbn. congruence. }
  eapply wp_bind_ok; [eapply assign_ok, Hi|]. cbv beta. set (s1 := upd_proc i _ s).
  assert (going i s1) as Hs1 by (apply Ht; split; [split; [exact HI|by exists p]|exact Hc]). clearbody s1.
  destruct (_ <? _); [|apply wp_ret; by apply HQ]. destruct Hs1 as [Hs1 _].
  apply wp_bind. eapply assign_back; [exact Hs1|by split|]. clear s1 Hs1. intros s1 Hs1.
  apply wp_bind. apply set_status_back; [exact Hs1|done|]. clear s1 Hs1. intros s1 Hs1.
  apply wp_bind. apply (insert_back i); [exact Hs1|]. clear s1 Hs1. intros s1 [HI1 _]. by apply schedule_back.
Qed.

(** A trap that asks for no memory, of the process with the trap frame [tf]. *)
Definition light_trap (s : kstate) (tf : Z) : Prop :=
  csr scause (lget s) <> CAUSE_STORE_PAGE_FAULT /\
  (csr scause (lget s) = CAUSE_USER_ECALL -> light_call (ld64 (smem s) (tf + tf_a0))).

Lemma handle_trap_back i p s cause (Q : unit -> kstate -> Prop) :
  runs i p s -> cause <> CAUSE_STORE_PAGE_FAULT ->
  (cause = CAUSE_USER_ECALL -> light_call (ld64 (smem s) (trapframe p + tf_a0))) ->
  (forall s', going i s' -> Q tt s') ->
  wp (if cause =? CAUSE_USER_ECALL then handle_syscall (trapframe p)
      else if cause =? CAUSE_MTIMER_S_TRAP then handle_mtimer_trap ;;; rrsched
      else if (cause =? CAUSE_STORE_PAGE_FAULT) || (cause =? CAUSE_LOAD_PAGE_FAULT) then
        epc <- read_csr sepc ;;
        va <- read_csr stval ;;
        handle_user_page_fault cause epc va
      else
        sprint "smode_trap_handler(): unexpected scause %p
" [VInt cause] ;;;
        epc <- read_csr sepc ;;
        va <- read_csr stval ;;
        sprint "            sepc=%p stval=%p
" [VInt epc; VInt va] ;;;
        panic "unexpected exception happened.
") Q back s.
Proof.
  intros Hs Hne Hl HQ. pose proof (runs_quiet i p) as HR.
  assert (forall s, runs i p s -> Q tt s) as HQ'.
  { intros t Ht. apply HQ. split; [by eapply runs_alive|apply Ht]. }
  destruct (Z.eqb_spec cause CAUSE_USER_ECALL) as [He|_].
  { exact (handle_syscall_back i p s Q Hs (Hl He) HQ'). }
  clear Hl. destruct (cause =? CAUSE_MTIMER_S_TRAP).
  - unfold handle_mtimer_trap. apply wp_assoc. eapply wp_bind_ok; [done|]. cbv beta.
    generalize (g_ticks s). intros t. apply wp_assoc.
    apply (wp_quiet (runs i p)); [exact HR|exact Hs|apply keeps_sprint; apply _|]. clear s Hs. intros _ s (HI & Hi & Hc).
    apply wp_assoc. eapply wp_bind_ok; [done|]. cbv beta. set (s1 := set_g_ticks _ s).
    assert (runs i p s1) as Hs.
    { split; [|done]. apply (isolated_vars s); [exact HI|done|]. intros j p' Hj. by exists p'. }
    clearbody s1. clear s HI Hi Hc.
    apply (wp_quiet (runs i p)); [exact HR|exact Hs|apply keeps_write_csr; apply _|]. clear s1 Hs. intros _ s Hs.
    exact (rrsched_back i p s Q Hs HQ).
  - rewrite (proj2 (Z.eqb_neq _ _) Hne). cbn [orb]. destruct (cause =? CAUSE_LOAD_PAGE_FAULT).
    + eapply wp_bind_ok; [done|]. cbv beta. eapply wp_bind_ok; [done|]. cbv beta. unfold handle_user_page_fault.
      rewrite (proj2 (Z.eqb_neq _ _) Hne).
      apply (wp_quiet (runs i p)); [exact HR|exact Hs|apply keeps_sprint; apply _|]. clear s Hs. intros _ s Hs.
      eapply wp_mono; [apply (keeps_sprint quiet)| |intros; by apply back_error].
      intros [] s' Hq. apply HQ'. by apply (HR s).
    + apply (wp_quiet (runs i p)); [exact HR|exact Hs|apply keeps_sprint; apply _|]. clear s Hs. intros _ s Hs.
      eapply wp_bind_ok; [done|]. cbv beta. eapply wp_bind_ok; [done|]. cbv beta.
      apply (wp_quiet (runs i p)); [exact HR|exact Hs|apply keeps_sprint; apply _|]. intros _ s' _. apply panic_back.
Qed.

Lemma handler_back (A : Type) i p s (Q : A -> kstate -> Prop) :
  runs i p s -> light_trap s (trapframe p) -> wp smode_trap_handler Q back s.
Proof.
  intros Hs [Hne Hl]. unfold smode_trap_handler. eapply wp_bind_ok; [done|]. cbv beta.
  destruct (negb _); [apply wp_bind, panic_back|].
  do 2 (eapply wp_bind_ok; [done|]; cbv beta). destruct Hs as (HI & Hi & Hc). rewrite Hc.
  eapply wp_bind_ok; [done|]. cbv beta. eapply wp_bind_ok; [by apply deref_ok, Hi|]. cbv beta.
  eapply wp_bind_ok; [done|]. cbv beta. apply wp_bind, wp_store_err; [intros; by apply back_error|].
  set (s1 := put_mem _ s). assert (runs i p s1) as Hs1.
  { split; [|by split]. apply (isolated_store i); [exact HI|exact Hi|unfold tf_epc, sizeof_trapframe; lia..]. }
  assert (csr scause (lget s1) = csr scause (lget s)) as E1 by apply csr_put_mem.
  assert (ld64 (smem s1) (trapframe p + tf_a0) = ld64 (smem s) (trapframe p + tf_a0)) as E2.
  { unfold s1. rewrite smem_put_mem. apply loadn_same_on. unfold tf_a0, tf_epc. apply storen_same_on. lia. }
  rewrite <- E1 in Hne, Hl. rewrite <- E2 in Hl. clearbody s1. clear HI Hi Hc E1 E2 s.
  eapply wp_bind_ok; [done|]. cbv beta. apply wp_bind.
  apply (handle_trap_back i p); [exact Hs1|exact Hne|exact Hl|]. intros s' [Ha Hc]. exact (current_back A i s' Q Ha Hc).
Qed.
End Light.

(** * Properties *)

(** C4. Traps keep the processes apart.  When memory is partitioned as [isolated]
    says, a trap of the running process that asks for no memory (print, exit,
    wait, yield, numbers of no system call, the timer, page faults of loads and
    the exceptions that the kernel does not handle) leaves memory partitioned,
    and the same pages free, whenever the handler gets back to user mode,
    whatever the user program has left in its registers and in its memory; and
    the handler does not return otherwise. *)
Theorem light_traps_keep_isolation {K : Layout} s i p l :
  isolated s l -> current s = Some i -> used s i p -> light_trap s (trapframe p) ->
  wp (smode_trap_handler (A := unit)) (fun _ _ => False) (fun e s' => e = SRet -> isolated s' l) s.
Proof. intros HI Hc Hi Hl. exact (handler_back l unit i p s _ (conj HI (conj Hi Hc)) Hl). Qed.
