(* ===== verification/App.v ===== *)
(** user/app_wait.c: the application, on top of the library of user programs,
    and the execution of a program by all its processes: the hardware goes on
    with the code at the pc that the kernel returns to. *)
From S2P Require Import Prelude Mem Context CString Snprintf Console Pmm Sv39 Vmm Space Kstate Sched Process NewProc Fork Syscall Strap User Isolation.

(** ** A program run by several processes *)
Section Run.

(** The code of the program from a pc, with the value of a0 there. *)
Context (code : Z -> Z -> M kstate Z).

(** The code of the running process goes on from where the kernel has returned
    to.  It is left when the kernel returns to another process. *)
Definition resume : M kstate Z :=
  pc <- read_csr sepc ;; a0 <- get_reg r_a0 ;; code pc a0.

Fixpoint run_program (n : nat) (s : kstate) : outcome kstate Z :=
  match n with
  | O => Stop OutOfFuel s
  | S n' => match resume s with
            | Stop SRet s' => run_program n' s'
            | r => r
            end
  end.
End Run.

(** ** The application *)

(** Where the linker and the compiler put it: the entry, [flag], the buffer of
    printu on the stack, the loads and stores, and the system calls of main. *)
Class AppImage := {
  app_entry : Z; flag_addr : Z; out_addr : Z; access_pc : Z;
  fork_pc : Z; fork_pc' : Z; grandchild_printu_pc : Z; child_wait_pc : Z; child_printu_pc : Z;
  parent_wait_pc : Z; parent_printu_pc : Z; exit_pc : Z }.

Section App.
Context `{Layout} `{AppImage}.

Definition store_flag (v : Z) : M kstate unit := user_fill access_pc flag_addr (le_split 4 v).

Definition load_flag : M kstate Z :=
  bs <- user_read access_pc flag_addr 4 ;; ret (s32 (le_combine bs)).

(** printu with the flag, on what the stack holds. *)
Definition print_flag (pc : Z) (fmt : string) : M kstate Z :=
  f <- load_flag ;;
  out0 <- user_read access_pc out_addr 256 ;;
  printu pc access_pc out_addr out0 (String.list_byte_of_string fmt) [VInt f].

(** main, cut where a process may have to wait for the processor. *)
Definition main_end : M kstate Z := exit exit_pc 0 ;;; ret 0.

Definition grandchild_end : M kstate Z :=
  print_flag grandchild_printu_pc "Grandchild process end, flag = %d.
" ;;; main_end.

Definition child_end : M kstate Z :=
  print_flag child_printu_pc "Child process end, flag = %d.
" ;;; main_end.

Definition parent_end : M kstate Z :=
  print_flag parent_printu_pc "Parent process end, flag = %d.
" ;;; main_end.

Definition main_fork' (pid : Z) : M kstate Z :=
  if pid =? 0 then store_flag 2 ;;; grandchild_end
  else user_wait child_wait_pc pid ;;; child_end.

Definition main_fork (pid : Z) : M kstate Z :=
  if pid =? 0 then
    store_flag 1 ;;;
    pid <- fork fork_pc' ;;
    main_fork' pid
  else user_wait parent_wait_pc (-1) ;;; parent_end.

Definition main : M kstate Z :=
  store_flag 0 ;;;
  pid <- fork fork_pc ;;
  main_fork pid.

(** The code of main behind its system calls.  The value of a call is a0, cut
    to an [int]; those of printu, wait and exit are not used. *)
Definition app_code (pc a0 : Z) : M kstate Z :=
  if pc =? app_entry then main
  else if pc =? u64 (fork_pc + 4) then main_fork (s32 a0)
  else if pc =? u64 (fork_pc' + 4) then main_fork' (s32 a0)
  else if pc =? u64 (child_wait_pc + 4) then child_end
  else if pc =? u64 (parent_wait_pc + 4) then parent_end
  else if (pc =? u64 (grandchild_printu_pc + 4)) || (pc =? u64 (child_printu_pc + 4)) ||
          (pc =? u64 (parent_printu_pc + 4)) then main_end
  else if pc =? u64 (exit_pc + 4) then ret 0
  else halt Undefined.

End App.

(** ** A variable of the program *)

Definition user_readable (m : memory) (p : process) (va z : Z) : Prop :=
  0 <= va < 2 ^ 39 /\ grants PTE_UR (entry m (pagetable p) va) z.

Section Flag.
Context {K : Layout} {AI : AppImage}.
Context (s : kstate) (i : nat) (p : process) (g : list Z) (l : list Z).
Hypotheses (HI : isolated s l) (HU : user_mode s i p g) (Hst : status p <> FREE).

Lemma user_used : used s i p.
Proof. split; [apply HU|exact Hst]. Qed.

(** A page that user programs reach is apart from what the kernel keeps. *)
Lemma user_page_apart va z :
  user_page (smem s) p va z -> ram_page z /\ z <> trapframe p /\ ~ in_tree (smem s) (pagetable p) z.
Proof.
  intros Hz. destruct (iso_user _ _ HI i i p p va z user_used user_used Hz) as (Hr & _ & Hk).
  split; [exact Hr|]. split; [intros ->; apply Hk; right; by left|intros H; apply Hk; by left].
Qed.

Lemma user_accessible perm va z :
  user_page (smem s) p va z -> grants perm (entry (smem s) (pagetable p) va) z ->
  accessible perm (smem s) (pagetable p) va z.
Proof.
  intros Hz [Hp Hpa]. destruct (user_page_apart va z Hz) as (Hr & _ & Hn).
  split; [by apply (iso_wf _ _ HI i), user_used|done..].
Qed.

(** Stores to a page that the process may write. *)
Lemma user_fill_isolated apc va z bs :
  user_writable (smem s) p va z -> va mod PGSIZE + Z.of_nat (length bs) <= PGSIZE ->
  let s1 := put_mem (store_bytes (smem s) (z + va mod PGSIZE) bs) s in
  user_fill apc va bs s = Ok tt s1 /\ isolated s1 l /\ user_mode s1 i p g /\
  (forall perm w x, accessible perm (smem s) (pagetable p) w x -> accessible perm (smem s1) (pagetable p) w x) /\
  (forall w, page_aligned w -> w <> z -> same_page w (smem s) (smem s1)).
Proof.
  intros Hw Hlen s1. pose proof (writable_user _ _ _ _ Hw) as Hz.
  destruct (user_page_apart va z Hz) as ((Hza & Hzr) & Hzt & Hzn).
  pose proof (user_accessible PTE_UW va z Hz (proj2 Hw)) as HA.
  pose proof (Z.mod_pos_bound va PGSIZE eq_refl) as Hm.
  assert (smem s1 = store_bytes (smem s) (z + va mod PGSIZE) bs) as Em by apply smem_put_mem.
  split; [apply (user_fill_spec apc bs va z _ s HA (um_satp _ _ _ _ HU) Hlen)|].
  split; [apply (isolated_user_write s l i p va z); [done|exact user_used|done|lia|lia]|].
  split; [apply (user_mode_store s i p g z); [done|done|done|lia|lia]|]. split.
  - intros perm w x Hx. apply (accessible_frame _ _ _ _ _ _ Hx). rewrite Em.
    apply (tree_store _ _ z); [apply HA|done|done|lia|lia].
  - intros w Hwa Hne. rewrite Em. symmetry. apply store_bytes_same_on.
    destruct (page_disjoint w z Hwa Hza Hne); lia.
Qed.
End Flag.

(** Free pages and tables are neither the trap frame of a process nor pages that it reaches. *)
Lemma kernel_apart s i p l :
  isolated s l -> used s i p -> forall va z, user_page (smem s) p va z ->
  forall w, w ∈ l \/ (exists j q, used s j q /\ in_tree (smem s) (pagetable q) w) ->
  page_aligned w /\ w <> trapframe p /\ w <> z.
Proof.
  intros HI Hi va z Hz w Hw. assert (trapframe p ∈ space_pages p) as Ht by left.
  destruct (iso_kernel _ _ HI i p _ Hi (or_intror Ht)) as [_ Htl].
  destruct Hw as [Hw|(j & q & Hj & Hw)].
  - destruct (user_page_ne s l i i p p va z w HI Hi Hz Hi (or_introl Hw)) as [Ha Hne].
    split; [done|]. split; [by intros ->|done].
  - destruct (user_page_ne s l i j p q va z w HI Hi Hz Hj (or_intror (or_introl Hw))) as [Ha Hne].
    split; [done|]. split; [|done]. intros ->.
    assert (j = i) as -> by (apply (iso_apart _ _ HI j i q p (trapframe p) Hj Hi); [by left|by right]).
    assert (q = p) as -> by (destruct Hj as [Hj _], Hi as [Hi _]; congruence).
    by apply (iso_inside _ _ HI i p (trapframe p) Hi).
Qed.

Lemma stack_readable pa : ram_page pa -> grants PTE_UR (map_pte pa stack_perm) pa.
Proof.
  intros (Ha & Hlo & Hhi). destruct (map_pte_decode pa stack_perm) as [Hp Hf]; [done|consts; lia|by vm_compute|].
  split; [|done]. unfold PTE_FLAGS in Hf. change PTE_UR with (Z.land 0x3FF PTE_UR).
  by rewrite Z.land_assoc, Hf.
Qed.

Lemma s32_u32 z : s32 (u32 z) = s32 z.
Proof. unfold s32, swrap, u32, wrap. by rewrite Zplus_mod_idemp_l. Qed.

Lemma flag_bytes m a v :
  - 2 ^ 31 <= v < 2 ^ 31 -> s32 (le_combine (load_bytes (store_bytes m a (le_split 4 v)) a 4)) = v.
Proof.
  intros Hv. change (s32 (loadn 4 (storen 4 m a v) a) = v). rewrite loadn_storen.
  change (v mod 2 ^ (8 * Z.of_nat 4)) with (u32 v). by rewrite s32_u32, s32_small.
Qed.

(** The buffer of printu. *)
Lemma out_writable {K : Layout} {AI : AppImage} (m : memory) p pa :
  0 <= out_addr < MAXVA -> entry m (pagetable p) out_addr = map_pte pa stack_perm -> ram_page pa ->
  user_writable m p out_addr pa.
Proof.
  intros Hout He Hr. destruct (stack_pte pa Hr) as [Hpa Huw].
  split; [change MAXVA with 0x4000000000 in Hout; lia|]. rewrite He. by split.
Qed.

Lemma load_flag_spec {K : Layout} {AI : AppImage} v (s : kstate) i p g m fpa :
  user_mode s i p g -> accessible PTE_UR (smem s) (pagetable p) flag_addr fpa ->
  flag_addr mod PGSIZE + 4 <= PGSIZE -> - 2 ^ 31 <= v < 2 ^ 31 ->
  same_page fpa (store_bytes m (fpa + flag_addr mod PGSIZE) (le_split 4 v)) (smem s) ->
  load_flag s = Ok v s.
Proof.
  intros HU HA Hfa Hv Hs. unfold load_flag.
  eapply bind_ok; [exact (user_read_spec _ 4 _ _ _ _ HA (um_satp _ _ _ _ HU) Hfa)|].
  pose proof (Z.mod_pos_bound flag_addr PGSIZE eq_refl) as Hm.
  rewrite <- (load_bytes_same_on (store_bytes m (fpa + flag_addr mod PGSIZE) (le_split 4 v)));
    [|eapply same_on_sub; [| |exact Hs]; lia].
  by rewrite flag_bytes.
Qed.

(** The store and the print, with what they change. *)
Lemma print_step {K : Layout} {AI : AppImage} v pc fmt t s i p g l fpa pa :
  isolated s l -> user_mode s i p g -> status p <> FREE ->
  user_writable (smem s) p flag_addr fpa -> user_readable (smem s) p flag_addr fpa ->
  flag_addr mod PGSIZE + 4 <= PGSIZE -> - 2 ^ 31 <= v < 2 ^ 31 ->
  0 <= out_addr < MAXVA -> out_addr mod PGSIZE + 256 <= PGSIZE ->
  entry (smem s) (pagetable p) out_addr = map_pte pa stack_perm -> ram_page pa -> pa <> fpa ->
  text false false (String.list_byte_of_string fmt) [VInt v] = Some t ->
  (length t < 256)%nat -> Byte.x00 ∉ t -> Byte.x25 ∉ t ->
  exists s' g', (store_flag v ;;; print_flag pc fmt) s = Ok 0 s' /\
    Mem.console (lget s') = Mem.console (lget s) ++ [t] /\ user_mode s' i p g' /\
    csr sepc (lget s') = u64 (pc + 4) /\ s' = lput (lget s' : machine) s /\ isolated s' l /\
    load_flag s' = Ok v s' /\
    (forall z, page_aligned z -> z <> trapframe p -> z <> pa -> z <> fpa -> same_page z (smem s) (smem s')).
Proof.
  intros HI HU Hst Hfw Hfr Hfa Hv Hout Hoa Hoe Hpa Hne Ht Hlen Hnul Hdir.
  pose proof (out_writable (smem s) p pa Hout Hoe Hpa) as Hop. pose proof (writable_user _ _ _ _ Hop) as Hou.
  pose proof (writable_user _ _ _ _ Hfw) as Hfu.
  destruct (user_fill_isolated s i p g l HI HU Hst access_pc flag_addr fpa (le_split 4 v) Hfw) as (E1 & HI1 & HU1 & HA1 & Hs1).
  { by rewrite length_le_split. }
  set (s1 := put_mem _ s) in *.
  pose proof (HA1 _ _ _ (user_accessible s i p g l HI HU Hst PTE_UR flag_addr fpa Hfu (proj2 Hfr))) as Hf1.
  destruct (user_page_apart s i p g l HI HU Hst out_addr pa Hou) as (_ & Hpt & Hpn).
  destruct (user_page_apart s i p g l HI HU Hst flag_addr fpa Hfu) as (Hfp & Hft & Hfn).
  assert (load_flag s1 = Ok v s1) as El1.
  { apply (load_flag_spec v s1 i p g (smem s) fpa); try done. }
  assert (accessible PTE_UR (smem s1) (pagetable p) out_addr pa) as Ho1.
  { apply HA1. apply (user_accessible s i p g l HI HU Hst); [done|]. rewrite Hoe. by apply stack_readable. }
  assert (writable (smem s1) (pagetable p) out_addr pa) as HW1.
  { apply (writable_frame (smem s)); [split; [by apply (iso_wf _ _ HI i), (user_used s i p g HU Hst)|done..]|].
    intros q Hq. apply Hs1; [|by intros ->].
    apply (iso_kernel _ _ HI i p q (user_used s i p g HU Hst)). by left. }
  assert (~ in_tree (smem s1) (pagetable p) (trapframe p)) as Htf.
  { intros H. apply (iso_inside _ _ HI1 i p (trapframe p)); [by apply (user_used s1 i p g)|exact H|by left]. }
  assert (used s1 i p) as Hi1 by (by apply (user_used s1 i p g)).
  assert (user_page (smem s1) p out_addr pa) as Hou1.
  { apply writable_user, out_writable; [done|apply HW1|done]. }
  assert (length (load_bytes (smem s1) (pa + out_addr mod PGSIZE) 256) = 256%nat) as Hl0 by apply length_load_bytes.
  pose proof (printu_spec pc access_pc out_addr _ _ [VInt v] t s1 i p g pa HU1 HW1 Hpt Htf Hout Hoa Hl0 Ht Hlen Hnul Hdir) as H.
  apply wp_ok in H as (r & s' & E & -> & HU' & Hepc & Hput & Hcon & Hs).
  assert (forall z, page_aligned z -> z <> trapframe p -> z <> pa -> z <> fpa -> same_page z (smem s) (smem s')) as Hs'.
  { intros z Hz H1 H2 H3. etransitivity; [by apply Hs1|by apply Hs]. }
  assert (s' = lput (lget s' : machine) s) as Hput'.
  { rewrite Hput. unfold s1, put_mem. by rewrite !lget_lput, !lput_lput. }
  assert (isolated s' l) as HI'.
  { apply (isolated_machine s1); [done|exact Hput|]. intros z Hz.
    by apply Hs; destruct (kernel_apart s1 i p l HI1 Hi1 out_addr pa Hou1 z Hz) as (? & ? & ?). }
  assert (accessible PTE_UR (smem s') (pagetable p) flag_addr fpa) as Hf'.
  { apply (accessible_frame _ _ _ _ _ _ Hf1). intros z Hz.
    assert (z ∈ l \/ exists j q, used s1 j q /\ in_tree (smem s1) (pagetable q) z) as Hz' by (right; eauto).
    by apply Hs; destruct (kernel_apart s1 i p l HI1 Hi1 out_addr pa Hou1 z Hz') as (? & ? & ?). }
  eexists s', _. split; [|split; [|split; [exact HU'|split; [exact Hepc|split; [exact Hput'|split; [exact HI'|split; [|exact Hs']]]]]]].
  - eapply bind_ok; [exact E1|]. eapply bind_ok; [exact El1|].
    eapply bind_ok; [|exact E]. by apply (user_read_spec _ 256 _ pa (pagetable p)); [|apply HU1|].
  - rewrite Hcon. unfold s1, put_mem. by rewrite lget_lput.
  - apply (load_flag_spec v s' i p _ (smem s) fpa HU' Hf' Hfa Hv).
    exact (Hs fpa (proj1 Hfp) Hft (not_eq_sym Hne)).
Qed.

(** * Properties *)

(** C15. Every process has a [flag] of its own.  A process of app_wait.c that
    stores a value in flag and prints it puts its line with this value on the
    console, in any partitioned system in which it may write flag and the buffer
    of printu; afterwards flag still reads as this value, the process goes on
    behind the system call, the partition holds, and no page that another
    process may write, its own flag among them, has changed. *)
Theorem flag_is_private {K : Layout} {AI : AppImage} v pc fmt t s i p g l fpa pa :
  isolated s l -> user_mode s i p g -> status p <> FREE ->
  user_writable (smem s) p flag_addr fpa -> user_readable (smem s) p flag_addr fpa ->
  flag_addr mod PGSIZE + 4 <= PGSIZE -> - 2 ^ 31 <= v < 2 ^ 31 ->
  0 <= out_addr < MAXVA -> out_addr mod PGSIZE + 256 <= PGSIZE ->
  entry (smem s) (pagetable p) out_addr = map_pte pa stack_perm -> ram_page pa -> pa <> fpa ->
  text false false (String.list_byte_of_string fmt) [VInt v] = Some t ->
  (length t < 256)%nat -> Byte.x00 ∉ t -> Byte.x25 ∉ t ->
  exists s', (store_flag v ;;; print_flag pc fmt) s = Ok 0 s' /\
    Mem.console (lget s') = Mem.console (lget s) ++ [t] /\ load_flag s' = Ok v s' /\
    csr sepc (lget s') = u64 (pc + 4) /\ (exists g', user_mode s' i p g') /\ kvars s' = kvars s /\ isolated s' l /\
    (forall j q va z, j <> i -> used s j q -> user_writable (smem s) q va z -> same_page z (smem s) (smem s')).
Proof.
  intros HI HU Hst Hfw Hfr Hfa Hv Hout Hoa Hoe Hpa Hne Ht Hlen Hnul Hdir.
  destruct (print_step v pc fmt t s i p g l fpa pa) as (s' & g' & E & Hcon & HU' & Hepc & Hput & HI' & Hf & Hs);
    [assumption..|].
  exists s'. split; [exact E|]. split; [exact Hcon|]. split; [exact Hf|]. split; [exact Hepc|].
  split; [by exists g'|]. split; [by rewrite Hput|]. split; [exact HI'|].
  intros j q va z Hji Hj Hw. pose proof (user_used s i p g HU Hst) as Hi.
  destruct (iso_user _ _ HI j i q p va z Hj Hi (writable_user _ _ _ _ Hw)) as ((Hza & _) & _ & Hk).
  apply Hs; [exact Hza|by intros ->; apply Hk; right; left|..]; intros ->.
  - by apply Hji, (iso_writable _ _ HI j i q p va out_addr pa Hj Hi Hw), out_writable.
  - by apply Hji, (iso_writable _ _ HI j i q p va flag_addr fpa Hj Hi Hw).
Qed.
