(* ===== verification/Elf.v ===== *)
(** kernel/elf.c and elf.h: the program is read from a file of the host into
    the memory of a process.  The variables of these functions that the host
    writes to are in memory, at addresses on the kernel stack that the
    compiler chooses. *)
From S2P Require Import Prelude Mem Context CString Snprintf Console Pmm Sv39 Vmm Kstate Sched Process Spike Mmode.

(** ** kernel/elf.h *)
Definition MAX_CMDLINE_ARGS : Z := 64.

(** Offsets in struct elf_header_t. *)
Definition eh_magic : Z := 0.
Definition eh_entry : Z := 24.
Definition eh_phoff : Z := 32.
Definition eh_phnum : Z := 56.
Definition sizeof_elf_header : Z := 64.

Definition SEGMENT_READABLE : Z := 0x4.
Definition SEGMENT_EXECUTABLE : Z := 0x1.
Definition SEGMENT_WRITABLE : Z := 0x2.

(** Offsets in struct elf_prog_header_t. *)
Definition ph_type : Z := 0.
Definition ph_flags : Z := 4.
Definition ph_off : Z := 8.
Definition ph_vaddr : Z := 16.
Definition ph_filesz : Z := 32.
Definition ph_memsz : Z := 40.
Definition sizeof_elf_prog_header : Z := 56.

Definition ELF_MAGIC : Z := 0x464C457F.
Definition ELF_PROG_LOAD : Z := 1.

Inductive elf_status : Type := EL_OK | EL_EIO | EL_ENOMEM | EL_NOTELF | EL_ERR.

#[export] Instance elf_status_eq_dec : EqDecision elf_status.
Proof. solve_decision. Defined.

(** Offset of [ehdr] in struct elf_ctx_t. *)
Definition ctx_ehdr : Z := 8.

(** struct elf_info_t *)
Record elf_info := ElfInfo { ei_f : file_ptr; ei_p : option nat }.

(** Where the variables are: [arg_bug_msg] and [elfloader] of
    load_bincode_from_host_elf, [ph_addr] of elf_load. *)
Class ElfStack := { arg_bug_msg : Z; elfloader : Z; ph_addr : Z }.

Section Code.
Context `{Layout} `{Host} `{ElfStack}.
Notation M := (M image).

Definition elf_alloc_mb (msg : elf_info) (elf_pa elf_va size : Z) : M Z :=
  kassert (size <? PGSIZE) ;;;
  pa <- zoom alloc_page ;;
  (if pa =? 0 then panic "uvmalloc mem alloc falied
" else ret tt) ;;;
  memset pa 0 PGSIZE ;;;
  p <- zoom (deref (ei_p msg)) ;;
  zoom (user_vm_map (pagetable p) elf_va PGSIZE pa
          (prot_to_type (Z.lor (Z.lor PROT_WRITE PROT_READ) PROT_EXEC) 1)) ;;;
  ret pa.

Definition elf_fpread (msg : elf_info) (dest nb offset : Z) : M Z :=
  r <- spike_file_pread (ei_f msg) dest nb offset ;;
  ret (u64 r).

Definition elf_init (ctx : Z) (info : elf_info) : M elf_status :=
  r <- elf_fpread info (ctx + ctx_ehdr) sizeof_elf_header 0 ;;
  if negb (r =? sizeof_elf_header) then ret EL_EIO
  else
    magic <- load32 (ctx + ctx_ehdr + eh_magic) ;;
    if negb (magic =? ELF_MAGIC) then ret EL_NOTELF else ret EL_OK.

(** The first place of mapped_info with a null address, at most
    PGSIZE / sizeof(mapped_region) = 256. *)
Fixpoint free_region (n : nat) (info j : Z) : M Z :=
  match n with
  | O => ret j
  | S n' =>
      va <- load64 (region info j + mr_va) ;;
      if va =? 0 then ret j else free_region n' info (j + 1)
  end.

(** Recording a segment in mapped_info. *)
Definition record_region (p : option nat) (vaddr : Z) : M unit :=
  pr <- zoom (deref p) ;;
  j <- free_region 256 (mapped_info pr) 0 ;;
  store64 (region (mapped_info pr) j + mr_va) vaddr ;;;
  store32 (region (mapped_info pr) j + mr_npages) 1 ;;;
  flags <- load32 (ph_addr + ph_flags) ;;
  (if flags =? Z.lor SEGMENT_READABLE SEGMENT_EXECUTABLE then
     store32 (region (mapped_info pr) j + mr_seg_type) CODE_SEGMENT ;;;
     sprint "CODE_SEGMENT added at mapped info offset:%d
" [VInt j]
   else if flags =? Z.lor SEGMENT_READABLE SEGMENT_WRITABLE then
     store32 (region (mapped_info pr) j + mr_seg_type) DATA_SEGMENT ;;;
     sprint "DATA_SEGMENT added at mapped info offset:%d
" [VInt j]
   else panic "unknown program segment encountered, segment flag:%d.
") ;;;
  zoom (assign p (set_total_mapped_region (total_mapped_region pr + 1))).

(** A program header that has been read: [Some st] when elf_load returns. *)
Definition load_segment (msg : elf_info) : M (option elf_status) :=
  type <- load32 (ph_addr + ph_type) ;;
  if negb (type =? ELF_PROG_LOAD) then ret None
  else
    memsz <- load64 (ph_addr + ph_memsz) ;;
    filesz <- load64 (ph_addr + ph_filesz) ;;
    if memsz <? filesz then ret (Some EL_ERR)
    else
      vaddr <- load64 (ph_addr + ph_vaddr) ;;
      if u64 (vaddr + memsz) <? vaddr then ret (Some EL_ERR)
      else
        dest <- elf_alloc_mb msg vaddr vaddr memsz ;;
        off <- load64 (ph_addr + ph_off) ;;
        r <- elf_fpread msg dest memsz off ;;
        if negb (r =? memsz) then ret (Some EL_EIO)
        else
          vaddr <- load64 (ph_addr + ph_vaddr) ;;
          record_region (ei_p msg) vaddr ;;;
          ret None.

(** The loop of elf_load.  [i] and [off] are of type int; since [phnum] has 16
    bits, [i] stays below 2^16 whatever the host writes. *)
Definition load_step (ctx : Z) (msg : elf_info) (x : Z * Z) : M (Z * Z + elf_status) :=
  let '(i, off) := x in
  phnum <- load 2 (ctx + ctx_ehdr + eh_phnum) ;;
  if i <? phnum then
    r <- elf_fpread msg ph_addr sizeof_elf_prog_header (u64 off) ;;
    if negb (r =? sizeof_elf_prog_header) then ret (inr EL_EIO)
    else
      st <- load_segment msg ;;
      match st with
      | Some st => ret (inr st)
      | None => ret (inl (i + 1, s32 (u64 (off + sizeof_elf_prog_header))))
      end
  else ret (inr EL_OK).

Definition elf_load (ctx : Z) (msg : elf_info) : M elf_status :=
  phoff <- load64 (ctx + ctx_ehdr + eh_phoff) ;;
  loop (2 ^ 16 + 1) (load_step ctx msg) (0, s32 phoff).

(** The union of [buf] and [argv] is one array of words. *)
Definition parse_args : M Z :=
  r <- frontend_syscall HTIFSYS_getmainvars arg_bug_msg (8 * MAX_CMDLINE_ARGS) 0 0 0 0 0 ;;
  kassert (r =? 0) ;;;
  pk_argc <- load64 arg_bug_msg ;;
  loop (2 ^ 64) (fun i =>
    if 1 + i <? pk_argc then
      v <- load64 (arg_bug_msg + 8 + 8 * (1 + i)) ;;
      store64 (arg_bug_msg + 8 * i) v ;;;
      ret (inl (i + 1))
    else ret (inr tt)) 0 ;;;
  ret (u64 (pk_argc - 1)).

Definition load_bincode_from_host_elf (p : option nat) : M unit :=
  argc <- parse_args ;;
  (if argc =? 0 then panic "You need to specify the application program!
" else ret tt) ;;;
  argv0 <- load64 arg_bug_msg ;;
  name <- read_string argv0 ;;
  sprint "Application: %s
" [VStr name] ;;;
  argv0 <- load64 arg_bug_msg ;;
  f <- spike_file_open argv0 O_RDONLY 0 ;;
  let info := ElfInfo f p in
  (if IS_ERR_VALUE f then panic "Fail on openning the input application program.
" else ret tt) ;;;
  st <- elf_init elfloader info ;;
  (if decide (st = EL_OK) then ret tt else panic "fail to init elfloader.
") ;;;
  st <- elf_load elfloader info ;;
  (if decide (st = EL_OK) then ret tt else panic "Fail on loading elf.
") ;;;
  entry <- load64 (elfloader + ctx_ehdr + eh_entry) ;;
  pr <- zoom (deref p) ;;
  store64 (trapframe pr + tf_epc) entry ;;;
  spike_file_close f ;;;
  epc <- load64 (trapframe pr + tf_epc) ;;
  sprint "Application program entry point (virtual address): 0x%lx
" [VInt epc].
End Code.
