(* ===== verification/ElfLoad.v ===== *)
(** What the ELF loader of kernel/elf.c does with a sound program file: the
    segments are mapped, hold the bytes of the file, and are recorded in the
    table of regions. *)
From S2P Require Import Prelude Mem Context CString Snprintf Console Pmm Sv39 Vmm Space Kstate Spike Mmode Sched Process NewProc Elf.

(** ** Files *)

(** [nb] bytes of the file [F] at [off]. *)
Definition file_bytes (F : list byte) (off nb : Z) : list byte :=
  take (Z.to_nat nb) (drop (Z.to_nat off) F).

Lemma length_file_bytes F off nb :
  0 <= off -> 0 <= nb -> off + nb <= Z.of_nat (length F) -> Z.of_nat (length (file_bytes F off nb)) = nb.
Proof. intros. unfold file_bytes. rewrite length_take, length_drop. lia. Qed.

(** A little-endian field. *)
Definition field (F : list byte) (n : nat) (off : Z) : Z :=
  le_combine (take n (drop (Z.to_nat off) F)).

Lemma loadn_file F n m a off nb o :
  0 <= off -> 0 <= o -> o + Z.of_nat n <= nb -> off + nb <= Z.of_nat (length F) ->
  loadn n (store_bytes m a (file_bytes F off nb)) (a + o) = field F n (off + o).
Proof.
  intros Hoff Ho Hn Hlen. unfold loadn, field. f_equal. apply list_eq. intros i.
  pose proof (length_file_bytes F off nb) as Hfl.
  destruct (decide (i < n)%nat) as [Hi|Hi].
  - rewrite lookup_load_bytes, lookup_store_bytes, decide_True by lia.
    rewrite lookup_take_lt, lookup_drop by done. unfold file_bytes.
    rewrite lookup_take_lt, lookup_drop by lia.
    replace (Z.to_nat off + Z.to_nat (a + o + Z.of_nat i - a))%nat
      with (Z.to_nat (off + o) + i)%nat by lia.
    destruct (lookup_lt_is_Some_2 F (Z.to_nat (off + o) + i)) as [b Hb]; [lia|]. by rewrite Hb.
  - rewrite !lookup_ge_None_2; [done| |]; rewrite ?length_load_bytes, ?length_take; lia.
Qed.

(** ** The host

    pread(2) on the descriptor [fd] of a file that holds [F]: a range that is
    in the file is read as a whole. *)
Definition host_file `{Host} (fd : Z) (F : list byte) : Prop :=
  forall k dest nb off, 0 <= dest < 2 ^ 64 -> 0 <= nb -> 0 <= off -> off + nb <= Z.of_nat (length F) ->
    let r := host_call (map u64 [HTIFSYS_pread; fd; dest; nb; off; 0; 0; 0]) k in
    List.hd 0 (fst r) = nb /\ snd r = set_mem (store_bytes (mem k) dest (file_bytes F off nb)) k.

(** What host calls and operations on memory leave alone. *)
Record only_io (s s' : image) : Prop := {
  io_kvars : kvars (ik s') = kvars (ik s);
  io_files : spike_files (ispike s') = spike_files (ispike s);
  io_fds : spike_fds (ispike s') = spike_fds (ispike s);
  io_lock : lock (ispike s') = lock (ispike s);
}.

#[export] Instance only_io_preorder : PreOrder only_io.
Proof.
  split; [by intros s|]. intros s1 s2 s3 [? ? ? ?] [? ? ? ?]. split; congruence.
Qed.

Lemma only_mm_io (s s' : image) : only_mm s s' -> only_io s s'.
Proof. intros H. by rewrite H. Qed.

(** A process and an open file, and nobody in frontend_syscall. *)
Record loading (s : image) (n : nat) (fd : Z) (i : nat) (pr : process) : Prop := {
  ld_lock : lock (ispike s) = 0;
  ld_file : exists c, spike_files (ispike s) !! n = Some (SpikeFile fd c);
  ld_proc : procs (ik s) !! i = Some pr;
}.

Lemma loading_io s s' n fd i pr : only_io s s' -> loading s n fd i pr -> loading s' n fd i pr.
Proof.
  intros [Hk Hf _ Hl] [? [c Hc] ?]. injection Hk as Hp _ _ _ _.
  split; [congruence|exists c; congruence|congruence].
Qed.

Section Rules.
Context `{K : Layout} `{HH : Host} `{ES : ElfStack}.
Implicit Types s : image.

Lemma sp_pread {A} n fd i pr F dest nb off p Q E s m root taken l f (k : Z -> M image A) :
  loading s n fd i pr -> host_file fd F ->
  aspace (kmm (ik s)) m root taken l f -> private p root taken l ->
  p <= dest -> dest + nb <= p + PGSIZE -> 0 <= nb < 2 ^ 63 -> 0 <= off ->
  off + nb <= Z.of_nat (length F) ->
  (forall s', only_io s s' -> aspace (kmm (ik s')) (store_bytes m dest (file_bytes F off nb)) root taken l f ->
     wp (k nb) Q E s') ->
  wp (bind (elf_fpread (ElfInfo (FFile n) (Some i)) dest nb off) k) Q E s.
Proof.
  intros [Hl [c Hc] _] HF HS Hp Hlo Hhi Hnb Hoff Hlen Hk.
  pose proof (pv_ram _ _ _ _ Hp) as (_ & Hp1 & Hp2).
  destruct (HF (lget s) dest nb off) as [Hr1 Hr2]; [consts; lia|lia..|].
  unfold elf_fpread, spike_file_pread, wp. rewrite !bind_assoc.
  erewrite bind_step by (by apply deref_file_ok). cbn [snd kfd].
  erewrite bind_step by (by apply frontend_syscall_spec). cbv zeta.
  set (args := [HTIFSYS_pread; fd; dest; nb; off; 0; 0; 0]).
  assert (answer_value args s = nb) as ->.
  { unfold answer_value, answer, args. rewrite Hr1. apply s64_small. lia. }
  rewrite (bind_step nb (called args s)) by (unfold ret; rewrite u64_small; [done|lia]).
  assert (called args s = lput (set_lock 0 (set_magic_mem (fst (answer args s)) (ispike s) : spike))
    (put_mem (store_bytes (smem s) dest (file_bytes F off nb)) s)) as ->.
  { unfold called, answer, args. by rewrite Hr2. }
  destruct (sp_bytes (L := lens_image_mm) s m root taken l f HS p dest (file_bytes F off nb)) as [_ Ha];
    [exact Hp|done|rewrite length_file_bytes; lia|].
  apply Hk; [|exact Ha]. by split.
Qed.

(** [p->field = v] in the kernel image. *)
Lemma sp_assign {A} i pr g Q E s (k : unit -> M image A) :
  procs (ik s) !! i = Some pr ->
  wp (k tt) Q E (lput (upd_proc i g (ik s)) s) ->
  wp (bind (zoom (assign (Some i) g)) k) Q E s.
Proof.
  intros Hi Hk. eapply wp_bind_ok; [|exact Hk]. unfold zoom. cbn [lget lens_image_kstate].
  by rewrite (assign_ok i pr).
Qed.

Lemma sp_deref {A} i pr Q E s (k : process -> M image A) :
  procs (ik s) !! i = Some pr -> wp (k pr) Q E s -> wp (bind (zoom (deref (Some i))) k) Q E s.
Proof.
  intros Hi Hk. eapply wp_bind_ok; [|exact Hk]. unfold zoom. cbn [lget lens_image_kstate].
  rewrite (deref_ok i pr) by done. by destruct s.
Qed.

Definition elf_perm : Z := prot_to_type (Z.lor (Z.lor PROT_WRITE PROT_READ) PROT_EXEC) 1.

Definition zero_page (m : memory) (p : Z) : memory :=
  store_bytes m p (replicate (Z.to_nat PGSIZE) Byte.x00).

(** elf_alloc_mb: a page of zeros, mapped at [va]. *)
Lemma sp_elf_alloc {A} n i pr va size q Q E s m root taken l f (k : Z -> M image A) :
  procs (ik s) !! i = Some pr -> pagetable pr = root ->
  aspace (kmm (ik s)) m root taken (q :: l) f -> size < PGSIZE ->
  page_aligned va -> 0 <= va < MAXVA -> pte_valid (f va) = false -> (2 < length l)%nat ->
  (forall s' t' l', only_io s s' -> l = t' ++ l' -> (length t' <= 2)%nat ->
     private q root taken l ->
     aspace (kmm (ik s')) (zero_page m q) root (taken ++ t') l' (map_entry f va q elf_perm) ->
     wp (k q) Q E s') ->
  wp (bind (elf_alloc_mb (ElfInfo (FFile n) (Some i)) va va size) k) Q E s.
Proof.
  intros Hi Hroot HS Hsz Ha Hva Hv Hl Hk. unfold elf_alloc_mb.
  rewrite (proj2 (Z.ltb_lt _ _) Hsz). apply wp_assoc. eapply wp_bind_ok; [reflexivity|]. cbv beta.
  apply wp_assoc, (sp_alloc (L := lens_image_mm) q _ _ s _ _ _ _ _ _ HS). intros s1 Ho1 H1 Pq Hq.
  apply wp_assoc. rewrite (proj2 (Z.eqb_neq _ _) Hq). eapply wp_bind_ok; [reflexivity|]. cbv beta.
  apply wp_assoc, (sp_memset (L := lens_image_mm) _ _ s1 _ _ _ _ _ H1 q _ Pq). intros s2 Ho2 H2.
  pose proof (only_mm_io _ _ (transitivity Ho1 Ho2)) as Hio.
  assert (procs (ik s2) !! i = Some pr) as Hi2.
  { pose proof (io_kvars _ _ Hio) as Hkv. injection Hkv as -> _ _ _ _. done. }
  apply wp_assoc, (sp_deref i pr); [done|]. rewrite Hroot. pose proof (pv_ram _ _ _ _ Pq) as (Hqa & Hq1 & Hq2).
  apply wp_assoc, (sp_map (L := lens_image_mm) _ _ _ _ _ s2 _ _ _ _ _ _ H2); [done..|consts; lia|done|done|].
  intros s3 t' l' Ho3 El Ht H3. eapply wp_bind_ok; [done|]. cbv beta.
  apply (Hk s3 t' l'); [|done..]. transitivity s2; [exact Hio|by apply only_mm_io].
Qed.

(** The search for a free region. *)
Lemma sp_free_region {A} n info j j0 Q E s m root taken l f (k : Z -> M image A) :
  aspace (kmm (ik s)) m root taken l f -> private info root taken l ->
  0 <= j0 <= j -> j < j0 + Z.of_nat n -> j < 256 ->
  (forall j', j0 <= j' < j -> ld64 m (region info j' + mr_va) <> 0) ->
  ld64 m (region info j + mr_va) = 0 ->
  wp (k j) Q E s -> wp (bind (free_region n info j0) k) Q E s.
Proof.
  intros HS [Hr Hn1 Hn2 _] Hj0 Hj Hj256 Hnz Hz Hk. revert j0 Hj0 Hj Hnz.
  induction n as [|n IH]; intros j0 Hj0 Hj Hnz; [lia|]. cbn [free_region].
  apply wp_assoc, (sp_load (L := lens_image_mm) _ _ s _ _ _ _ _ HS 8 _ info); try done;
    [unfold region, mr_va; consts; lia..|].
  destruct (decide (j0 = j)) as [->|Hne]; [rewrite Hz; exact Hk|].
  destruct (Z.eqb_spec (loadn 8 m (region info j0 + mr_va)) 0) as [E0|_];
    [by apply (Hnz j0) in E0; [|lia]|].
  apply IH; [lia|lia|]. intros j' Hj'. apply Hnz. lia.
Qed.

(** The type recorded for the flags of a segment. *)
Definition seg_type (flags : Z) : option Z :=
  if flags =? Z.lor SEGMENT_READABLE SEGMENT_EXECUTABLE then Some CODE_SEGMENT
  else if flags =? Z.lor SEGMENT_READABLE SEGMENT_WRITABLE then Some DATA_SEGMENT
  else None.

Definition count_region (pr : process) : process -> process :=
  set_total_mapped_region (total_mapped_region pr + 1).

(** Region [j] is the first free one. *)
Definition first_free (m : memory) (info j : Z) : Prop :=
  0 <= j < 256 /\ (forall j', 0 <= j' < j -> ld64 m (region info j' + mr_va) <> 0) /\
  ld64 m (region info j + mr_va) = 0.

(** The header being loaded is on a page of its own. *)
Definition header_page (hp root : Z) (taken l : list Z) : Prop :=
  private hp root taken l /\ hp <= ph_addr /\ ph_addr + sizeof_elf_prog_header <= hp + PGSIZE.

Lemma sp_header {A} n o hp Q E s m m0 root taken l f (k : Z -> M image A) :
  aspace (kmm (ik s)) m root taken l f -> header_page hp root taken l ->
  same_page hp m m0 -> 0 <= o -> o + Z.of_nat n <= sizeof_elf_prog_header ->
  wp (k (loadn n m0 (ph_addr + o))) Q E s -> wp (bind (load n (ph_addr + o)) k) Q E s.
Proof.
  intros HS ([Hr Hn1 Hn2 _] & Hlo & Hhi) Hs Ho Hn Hk. unfold sizeof_elf_prog_header in *.
  apply (sp_load (L := lens_image_mm) _ _ s _ _ _ _ _ HS n _ hp); try done; [lia..|].
  rewrite (loadn_same_on n m m0); [done|]. eapply same_on_sub; [| |exact Hs]; lia.
Qed.

Lemma sp_record {A} i pr va j flags t hp info Q E s m m0 root taken l f (k : unit -> M image A) :
  procs (ik s) !! i = Some pr -> mapped_info pr = info ->
  aspace (kmm (ik s)) m root taken l f -> private info root taken l ->
  header_page hp root taken l -> hp <> info -> same_page hp m m0 ->
  first_free m info j -> ld32 m0 (ph_addr + ph_flags) = flags -> seg_type flags = Some t ->
  (forall s', only_io (lput (upd_proc i (count_region pr) (ik s)) s) s' ->
     aspace (kmm (ik s')) (region_mem m info j va 1 t) root taken l f -> wp (k tt) Q E s') ->
  wp (bind (record_region (Some i) va) k) Q E s.
Proof.
  intros Hi Hinfo HS Pin Hh Hne Hs (Hj & Hnz & Hz) Hfl Ht Hk. unfold record_region.
  apply wp_assoc, (sp_deref i pr); [done|]. rewrite Hinfo.
  apply wp_assoc. eapply (sp_free_region 256 info j 0); [exact HS|exact Pin|lia|lia|lia|exact Hnz|exact Hz|].
  pose proof Hh as ([Hhp _ _ _] & _ & _). pose proof Pin as [Hip _ _ _].
  assert (forall v n, (n <= 8)%nat -> forall o m1, 0 <= o -> o + Z.of_nat n <= 16 ->
    same_page hp m1 m0 -> same_page hp (storen n m1 (region info j + o) v) m0) as Hst.
  { intros v n Hn o m1 Ho1 Ho2 Hm1. etransitivity; [|exact Hm1]. apply storen_same_on.
    unfold region. destruct (page_disjoint hp info (proj1 Hhp) (proj1 Hip) Hne); consts; lia. }
  unfold mr_va, mr_npages, mr_seg_type.
  apply wp_assoc, (sp_store (L := lens_image_mm) _ _ s _ _ _ _ _ HS 8 _ _ info); [exact Pin|unfold region; consts; lia..|].
  intros s1 Ho1 H1. apply wp_assoc,
    (sp_store (L := lens_image_mm) _ _ s1 _ _ _ _ _ H1 4 _ _ info); [exact Pin|unfold region; consts; lia..|].
  intros s2 Ho2 H2. clear HS H1.
  apply wp_assoc, (sp_header 4 ph_flags hp _ _ s2 _ m0 _ _ _ _ _ H2 Hh);
    [apply Hst; [lia..|]; apply Hst; [lia..|exact Hs]|done|done|]. rewrite Hfl.
  assert (forall s3, only_mm s2 s3 ->
    aspace (kmm (ik s3)) (region_mem m info j va 1 t) root taken l f ->
    wp (bind (zoom (assign (Some i) (count_region pr))) k) Q E s3) as Hend.
  { intros s3 Ho3 H3.
    pose proof (only_mm_io _ _ (transitivity Ho1 (transitivity Ho2 Ho3))) as [Hkv Hf Hfd Hlk].
    apply (sp_assign i pr); [injection Hkv as -> _ _ _ _; done|]. apply Hk; [|exact H3].
    split; try done. unfold kvars in *. simpl in *.
    injection Hkv as E1 E2 E3 E4 E5. by rewrite E1, E2, E3, E4, E5. }
  unfold seg_type in Ht. destruct (flags =? Z.lor SEGMENT_READABLE SEGMENT_EXECUTABLE);
    [|destruct (flags =? Z.lor SEGMENT_READABLE SEGMENT_WRITABLE); [|discriminate Ht]]; injection Ht as <-.
  all: apply wp_assoc, wp_assoc,
    (sp_store (L := lens_image_mm) _ _ s2 _ _ _ _ _ H2 4 _ _ info); [exact Pin|unfold region; consts; lia..|].
  all: intros s3 Ho3 H3; apply (sp_print (L := lens_image_mm) _ _ s3 _ _ _ _ _ H3); [reflexivity|].
  all: intros s4 Ho4 H4; apply Hend; [etransitivity; [exact Ho3|exact Ho4]|exact H4].
Qed.

(** A program header as a record, and where it is in memory. *)
Record segment := Seg {
  sg_type : Z; sg_flags : Z; sg_off : Z; sg_vaddr : Z; sg_filesz : Z; sg_memsz : Z
}.

Definition header_at (m : memory) : segment :=
  Seg (ld32 m (ph_addr + ph_type)) (ld32 m (ph_addr + ph_flags)) (ld64 m (ph_addr + ph_off))
      (ld64 m (ph_addr + ph_vaddr)) (ld64 m (ph_addr + ph_filesz)) (ld64 m (ph_addr + ph_memsz)).

(** A segment that the loader accepts: it fits a page that is not mapped, and
    its bytes are in the file. *)
Record seg_ok (F : list byte) (f : Z -> Z) (g : segment) : Prop := {
  so_type : sg_type g = ELF_PROG_LOAD;
  so_size : sg_filesz g <= sg_memsz g < PGSIZE;
  so_page : page_aligned (sg_vaddr g);
  so_va : 0 <= sg_vaddr g < MAXVA;
  so_new : pte_valid (f (sg_vaddr g)) = false;
  so_file : sg_off g + sg_memsz g <= Z.of_nat (length F);
  so_flags : is_Some (seg_type (sg_flags g));
}.

(** The memory after the segment [g] has been loaded into the page [q] and
    recorded in region [j]. *)
Definition seg_mem (F : list byte) (g : segment) (q info j : Z) (m : memory) : memory :=
  region_mem (store_bytes (zero_page m q) q (file_bytes F (sg_off g) (sg_memsz g))) info j
    (sg_vaddr g) 1 (default 0 (seg_type (sg_flags g))).

(** The pages that loading into [q] leaves alone. *)
Lemma load_other_page m q z bs :
  page_aligned q -> page_aligned z -> z <> q -> Z.of_nat (length bs) <= PGSIZE ->
  same_page z (zero_page m q) m /\ same_page z (store_bytes (zero_page m q) q bs) m.
Proof.
  intros Hq Hz Hne Hlen. assert (same_page z (zero_page m q) m) as Hs.
  { apply store_bytes_same_on. rewrite length_replicate.
    destruct (page_disjoint z q Hz Hq Hne); consts; lia. }
  split; [exact Hs|]. etransitivity; [|exact Hs]. apply store_bytes_same_on.
  destruct (page_disjoint z q Hz Hq Hne); lia.
Qed.

Lemma first_free_same m m' info j :
  same_page info m' m -> first_free m info j -> first_free m' info j.
Proof.
  intros Hs (Hj & Hnz & Hz).
  assert (forall k, 0 <= k <= j -> ld64 m' (region info k + mr_va) = ld64 m (region info k + mr_va)) as Hl.
  { intros k Hk. apply loadn_same_on. eapply same_on_sub; [| |exact Hs];
      unfold region, mr_va; consts; lia. }
  split; [done|]. split; [|by rewrite Hl by lia]. intros j' Hj'. rewrite Hl by lia. by apply Hnz.
Qed.

Lemma header_page_grow hp root taken q l t' l' :
  l = t' ++ l' -> header_page hp root taken (q :: l) -> header_page hp root (taken ++ t') l'.
Proof.
  intros El (Hp & Hlo & Hhi). split; [|done]. eapply private_grow; [exact El|].
  by eapply private_tail.
Qed.

Lemma sp_load_segment {A} n fd i pr F hp info j q Q E s m root taken l f g
    (k : option elf_status -> M image A) :
  loading s n fd i pr -> host_file fd F -> pagetable pr = root -> mapped_info pr = info ->
  aspace (kmm (ik s)) m root taken (q :: l) f -> (2 < length l)%nat ->
  header_page hp root taken (q :: l) -> private info root taken (q :: l) -> hp <> info ->
  first_free m info j -> header_at m = g -> seg_ok F f g ->
  (forall s' t' l', only_io (lput (upd_proc i (count_region pr) (ik s)) s) s' ->
     l = t' ++ l' -> (length t' <= 2)%nat -> private q root (taken ++ t') l' ->
     aspace (kmm (ik s')) (seg_mem F g q info j m) root (taken ++ t') l'
       (map_entry f (sg_vaddr g) q elf_perm) -> wp (k None) Q E s') ->
  wp (bind (load_segment (ElfInfo (FFile n) (Some i))) k) Q E s.
Proof.
  intros Hld HF Hroot Hinfo HS Hl Hh Pin Hne Hfree Hg Hok Hk.
  pose proof Hok as [Ht [Hsz1 Hsz2] Hpage Hva Hnew Hfile [t Hseg]]. unfold load_segment.
  assert (forall o n', 0 <= loadn n' m (ph_addr + o)) as Hpos by (intros; apply loadn_range).
  assert (0 <= sg_off g /\ 0 <= sg_memsz g) as [Hoff Hmsz] by (rewrite <- Hg; split; apply Hpos).
  assert (forall B o n' (k' : Z -> M image B) Q' E', 0 <= o -> o + Z.of_nat n' <= sizeof_elf_prog_header ->
    wp (k' (loadn n' m (ph_addr + o))) Q' E' s -> wp (bind (load n' (ph_addr + o)) k') Q' E' s) as Hhdr.
  { intros B o n' k' Q' E' Ho Hn. by apply (sp_header n' o hp _ _ s m m _ _ _ _ k' HS Hh). }
  apply wp_assoc, Hhdr; [done|done|].
  replace (loadn 4 m (ph_addr + ph_type)) with (sg_type g) by (by rewrite <- Hg). rewrite Ht.
  apply wp_assoc, Hhdr; [done|done|]. apply wp_assoc, Hhdr; [done|done|].
  replace (loadn 8 m (ph_addr + ph_memsz)) with (sg_memsz g) by (by rewrite <- Hg).
  replace (loadn 8 m (ph_addr + ph_filesz)) with (sg_filesz g) by (by rewrite <- Hg).
  rewrite (proj2 (Z.ltb_ge _ _) Hsz1). apply wp_assoc, Hhdr; [done|done|].
  replace (loadn 8 m (ph_addr + ph_vaddr)) with (sg_vaddr g) by (by rewrite <- Hg).
  rewrite u64_small by (change MAXVA with 0x4000000000 in *; consts; lia).
  rewrite (proj2 (Z.ltb_ge (sg_vaddr g + sg_memsz g) (sg_vaddr g))) by lia.
  apply wp_assoc, (sp_elf_alloc n i pr _ _ q _ _ s m root taken l f); try done; [apply Hld|].
  intros s1 t' l' Ho1 El Hlt Pq H1. apply (private_grow _ _ _ _ _ _ El) in Pq.
  pose proof Hh as ([[Hha _] _ _ Hhn] & _ & _). pose proof Pin as [[Hia _] _ _ Hin].
  apply not_elem_of_cons in Hhn as [Hhq _]. apply not_elem_of_cons in Hin as [Hiq _].
  apply (header_page_grow _ _ _ _ _ _ _ El) in Hh.
  apply private_tail, (private_grow _ _ _ _ _ _ El) in Pin.
  pose proof (pv_ram _ _ _ _ Pq) as [Hqa _].
  set (bs := file_bytes F (sg_off g) (sg_memsz g)).
  assert (Z.of_nat (length bs) = sg_memsz g) as Hlen by (apply length_file_bytes; lia).
  destruct (load_other_page m q hp bs) as [Hs1 Hs2]; [done..|lia|].
  destruct (load_other_page m q info bs) as [_ Hs3]; [done..|lia|].
  apply wp_assoc, (sp_header 8 ph_off hp _ _ s1 _ m _ _ _ _ _ H1 Hh Hs1); [done|done|].
  replace (loadn 8 m (ph_addr + ph_off)) with (sg_off g) by (by rewrite <- Hg).
  apply wp_assoc, (sp_pread n fd i pr F q (sg_memsz g) (sg_off g) q _ _ s1 _ _ _ _ _ _
    (loading_io _ _ _ _ _ _ Ho1 Hld) HF H1 Pq); [lia|lia|consts; lia|lia|lia|].
  intros s2 Ho2 H2. fold bs in H2. rewrite Z.eqb_refl. cbv [negb].
  apply wp_assoc, (sp_header 8 ph_vaddr hp _ _ s2 _ m _ _ _ _ _ H2 Hh Hs2); [done|done|].
  replace (loadn 8 m (ph_addr + ph_vaddr)) with (sg_vaddr g) by (by rewrite <- Hg).
  pose proof (transitivity Ho1 Ho2) as Ho. pose proof (loading_io _ _ _ _ _ _ Ho Hld) as [_ _ Hp2].
  apply wp_assoc, (sp_record i pr (sg_vaddr g) j (sg_flags g) t hp info _ _ s2 _ m _ _ _ _ _ Hp2 Hinfo H2 Pin
    Hh Hne Hs2 (first_free_same _ _ _ _ Hs3 Hfree)); [by rewrite <- Hg|exact Hseg|].
  intros s3 Ho3 H3. eapply wp_bind_ok; [reflexivity|]. cbv beta.
  apply (Hk s3 t' l'); [|exact El|exact Hlt|exact Pq|unfold seg_mem; by rewrite Hseg].
  etransitivity; [|exact Ho3]. destruct Ho as [Hkv Hf Hfd Hlk]. split; try done.
  unfold kvars in *. simpl in *. injection Hkv as E1 E2 E3 E4 E5. by rewrite E1, E2, E3, E4, E5.
Qed.

(** A header of another type is skipped. *)
Lemma sp_skip_segment {A} msg hp Q E s m root taken l f g (k : option elf_status -> M image A) :
  aspace (kmm (ik s)) m root taken l f -> header_page hp root taken l -> header_at m = g ->
  sg_type g <> ELF_PROG_LOAD -> wp (k None) Q E s -> wp (bind (load_segment msg) k) Q E s.
Proof.
  intros HS Hh Hg Ht Hk. unfold load_segment.
  apply wp_assoc, (sp_header 4 ph_type hp _ _ s m m _ _ _ _ _ HS Hh); [done|done|done|].
  replace (loadn 4 m (ph_addr + ph_type)) with (sg_type g) by (by rewrite <- Hg).
  rewrite (proj2 (Z.eqb_neq _ _) Ht). exact Hk.
Qed.
End Rules.

(** ** The program headers of a file *)

Definition phdr (F : list byte) (h : Z) : segment :=
  Seg (field F 4 (h + ph_type)) (field F 4 (h + ph_flags)) (field F 8 (h + ph_off))
      (field F 8 (h + ph_vaddr)) (field F 8 (h + ph_filesz)) (field F 8 (h + ph_memsz)).

Definition phdr_off (phoff : Z) (k : nat) : Z := phoff + sizeof_elf_prog_header * Z.of_nat k.

Lemma header_at_phdr `{ElfStack} F m h :
  0 <= h -> h + sizeof_elf_prog_header <= Z.of_nat (length F) ->
  header_at (store_bytes m ph_addr (file_bytes F h sizeof_elf_prog_header)) = phdr F h.
Proof.
  intros Hh Hl. unfold header_at, phdr.
  by rewrite !(loadn_file F) by (unfold ph_type, ph_flags, ph_off, ph_vaddr, ph_filesz, ph_memsz,
    sizeof_elf_prog_header in *; lia).
Qed.

(** The segments to load among the first [k] headers. *)
Definition loadable (F : list byte) (phoff : Z) (k : nat) : list segment :=
  filter (fun g => sg_type g = ELF_PROG_LOAD) (map (fun j => phdr F (phdr_off phoff j)) (seq 0 k)).

Lemma loadable_S F phoff k :
  loadable F phoff (S k) =
  loadable F phoff k ++
    (if decide (sg_type (phdr F (phdr_off phoff k)) = ELF_PROG_LOAD)
     then [phdr F (phdr_off phoff k)] else []).
Proof.
  unfold loadable. by rewrite seq_S, map_app, filter_app.
Qed.

(** The entries after the segments [gqs] have been mapped. *)
Definition map_segs (f : Z -> Z) (gqs : list (segment * Z)) : Z -> Z :=
  map_all f (map (fun gq => (sg_vaddr (fst gq), snd gq, elf_perm)) gqs).

Lemma map_segs_other f gqs va :
  Forall (fun gq => va / PGSIZE <> sg_vaddr (fst gq) / PGSIZE) gqs -> map_segs f gqs va = f va.
Proof. intros Hf. apply map_all_other. by rewrite Forall_map. Qed.

Lemma map_segs_in f gqs g q :
  NoDup (map (fun gq => sg_vaddr (fst gq) / PGSIZE) gqs) -> (g, q) ∈ gqs ->
  map_segs f gqs (sg_vaddr g) = map_pte q elf_perm.
Proof.
  intros Hnd Hin. apply (map_all_in _ _ (sg_vaddr g)); [by rewrite map_map| |done].
  apply list_elem_of_fmap. by exists (g, q).
Qed.

(** A page that holds [bs], and zeros after them. *)
Definition page_holds (m : memory) (q : Z) (bs : list byte) : Prop :=
  load_bytes m q (Z.to_nat PGSIZE) = bs ++ replicate (Z.to_nat PGSIZE - length bs) Byte.x00.

Lemma page_holds_same m m' q bs : same_page q m' m -> page_holds m q bs -> page_holds m' q bs.
Proof.
  intros Hs Hp. unfold page_holds. rewrite <- Hp. apply load_bytes_same_on.
  rewrite Z2Nat.id by done. exact Hs.
Qed.

Lemma page_holds_load m q bs :
  Z.of_nat (length bs) <= PGSIZE -> page_holds (store_bytes (zero_page m q) q bs) q bs.
Proof.
  intros Hl. unfold page_holds, zero_page. apply list_eq. intros i.
  destruct (decide (i < Z.to_nat PGSIZE)%nat) as [Hi|Hi].
  - rewrite lookup_load_bytes, !lookup_store_bytes, length_replicate by done.
    destruct (decide (i < length bs)%nat) as [Hb|Hb].
    + rewrite decide_True, lookup_app_l by lia.
      replace (Z.to_nat (q + Z.of_nat i - q)) with i by lia.
      destruct (lookup_lt_is_Some_2 bs i Hb) as [b Eb]. by rewrite Eb.
    + rewrite decide_False, decide_True, lookup_app_r by lia.
      replace (Z.to_nat (q + Z.of_nat i - q)) with i by lia.
      by rewrite !lookup_replicate_2 by lia.
  - rewrite !lookup_ge_None_2; [done| |]; rewrite ?length_load_bytes, ?length_app, ?length_replicate; lia.
Qed.

(** ** The loop over the headers *)

Section Load.
Context `{K : Layout} `{HH : Host} `{ES : ElfStack}.
Context (F : list byte) (n : nat) (fd : Z) (i : nat) (pr : process) (info root hp ep : Z).
Context (phoff : Z) (phnum : nat) (j0 : Z) (s0 : image) (m0 : memory) (f0 : Z -> Z) (taken0 l0 : list Z).

Notation segs k := (loadable F phoff k).
Notation same_ehdr := (same_on (elfloader + ctx_ehdr) (elfloader + ctx_ehdr + sizeof_elf_header)).
Definition seg_bytes (g : segment) : list byte := file_bytes F (sg_off g) (sg_memsz g).
Definition counted (k : nat) (p : process) : process :=
  set_total_mapped_region (total_mapped_region pr + Z.of_nat (length (segs k))) p.

(** Tables and pages of segments come from the free pages; of the others, memory
    has changed in the page of the header and in the table of regions at most. *)
Record from_free (qs : list Z) (m : memory) (taken l : list Z) : Prop := {
  fr_pages : forall z, z ∈ qs ++ l -> z ∈ l0;
  fr_taken : forall z, z ∈ taken -> z ∈ taken0 \/ z ∈ l0;
  fr_same : forall z, page_aligned z -> z ∉ l0 -> z <> hp -> z <> info -> same_page z m m0;
}.

(** After the first [k] headers. *)
Record loaded (k : nat) (s : image) (qs : list Z) (m : memory) (taken l : list Z) : Prop := {
  lo_len : length qs = length (segs k);
  lo_kvars : kvars (ik s) = kvars (upd_proc i (counted k) (ik s0));
  lo_files : spike_files (ispike s) = spike_files (ispike s0);
  lo_fds : spike_fds (ispike s) = spike_fds (ispike s0);
  lo_lock : lock (ispike s) = lock (ispike s0);
  lo_space : aspace (kmm (ik s)) m root taken l (map_segs f0 (zip (segs k) qs));
  lo_header : header_page hp root taken l;
  lo_info : private info root taken l;
  lo_ehdr : private ep root taken l /\ same_ehdr m m0;
  lo_free : (length l0 <= length l + 3 * length qs)%nat;
  lo_apart : Forall (fun q => q <> hp /\ q <> info /\ q <> ep /\ private q root taken l) qs;
  lo_pages : Forall2 (fun g q => page_holds m q (seg_bytes g)) (segs k) qs;
  lo_regions : forall x g, segs k !! x = Some g ->
    region_at m info (j0 + Z.of_nat x) = (sg_vaddr g, 1, default 0 (seg_type (sg_flags g)));
  lo_others : forall j, 0 <= j < 256 -> j < j0 \/ j0 + Z.of_nat (length qs) <= j ->
    region_at m info j = region_at m0 info j;
  lo_nodup : NoDup qs;
  lo_from : from_free qs m taken l;
}.

(** What the loader needs. *)
Record loader_ok : Prop := {
  ok_host : host_file fd F;
  ok_loading : loading s0 n fd i pr;
  ok_root : pagetable pr = root;
  ok_info : mapped_info pr = info;
  ok_apart : hp <> info /\ info <> ep /\
    (elfloader + ctx_ehdr + sizeof_elf_header <= ph_addr \/
     ph_addr + sizeof_elf_prog_header <= elfloader + ctx_ehdr);
  ok_ep : ep <= elfloader + ctx_ehdr /\ elfloader + ctx_ehdr + sizeof_elf_header <= ep + PGSIZE;
  ok_phoff : ld64 m0 (elfloader + ctx_ehdr + eh_phoff) = phoff;
  ok_phnum : loadn 2 m0 (elfloader + ctx_ehdr + eh_phnum) = Z.of_nat phnum;
  ok_range : 0 <= phoff /\ phdr_off phoff phnum <= Z.of_nat (length F) < 2 ^ 31;
  ok_segs : Forall (fun g => seg_ok F f0 g /\ sg_vaddr g <> 0) (segs phnum);
  ok_nodup : NoDup (map (fun g => sg_vaddr g / PGSIZE) (segs phnum));
  ok_free : (3 * length (segs phnum) < length l0)%nat;
  ok_regions : 0 <= j0 /\ j0 + Z.of_nat (length (segs phnum)) <= 256 /\
    (forall j, 0 <= j < j0 -> ld64 m0 (region info j + mr_va) <> 0) /\
    (forall j, j0 <= j < 256 -> ld64 m0 (region info j + mr_va) = 0);
}.

Context (OK : loader_ok).

Lemma segs_prefix k : (k <= phnum)%nat -> exists rest, segs phnum = segs k ++ rest.
Proof.
  intros Hk. unfold loadable. replace phnum with (k + (phnum - k))%nat by lia.
  rewrite seq_app, map_app, filter_app. eauto.
Qed.

(** The first free region after [k] headers. *)
Lemma loaded_first_free k s qs m taken l :
  loaded k s qs m taken l -> (length (segs k) < length (segs phnum))%nat -> (k <= phnum)%nat ->
  first_free m info (j0 + Z.of_nat (length qs)).
Proof.
  intros HL Hlt Hk. destruct OK as [_ _ _ _ _ _ _ _ _ Hok _ _ (Hj0 & Hj1 & Hj2 & Hj3)].
  pose proof (lo_len _ _ _ _ _ _ HL) as Hlen. split; [lia|]. split.
  - intros j Hj. destruct (Z.lt_ge_cases j j0) as [Hjj|Hjj].
    + pose proof (lo_others _ _ _ _ _ _ HL j ltac:(lia) ltac:(lia)) as E. injection E as -> _ _.
      apply Hj2. lia.
    + destruct (lookup_lt_is_Some_2 (segs k) (Z.to_nat (j - j0))) as [g Hg]; [lia|].
      pose proof (lo_regions _ _ _ _ _ _ HL _ _ Hg) as E.
      replace (j0 + Z.of_nat (Z.to_nat (j - j0))) with j in E by lia. injection E as -> _ _.
      destruct (segs_prefix k Hk) as [rest Hr]. rewrite Hr in Hok. apply Forall_app in Hok as [Hok _].
      rewrite Forall_lookup in Hok. by apply (Hok _ _ Hg).
  - pose proof (lo_others _ _ _ _ _ _ HL (j0 + Z.of_nat (length qs)) ltac:(lia) ltac:(lia)) as E.
    injection E as -> _ _. apply Hj3. lia.
Qed.

(** The process and the file are still there. *)
Lemma loaded_loading k s qs m taken l :
  loaded k s qs m taken l -> loading s n fd i (counted k pr).
Proof.
  intros HL. destruct OK as [_ [Hl [c Hc] Hp] _ _ _ _ _ _ _ _ _ _ _].
  split; [by rewrite (lo_lock _ _ _ _ _ _ HL)|exists c; by rewrite (lo_files _ _ _ _ _ _ HL)|].
  pose proof (lo_kvars _ _ _ _ _ _ HL) as E. injection E as -> _ _ _ _.
  simpl. by rewrite list_lookup_alter_eq, Hp.
Qed.

Lemma loaded_0 :
  aspace (kmm (ik s0)) m0 root taken0 l0 f0 -> header_page hp root taken0 l0 ->
  private info root taken0 l0 -> private ep root taken0 l0 -> loaded 0 s0 [] m0 taken0 l0.
Proof.
  intros HS Hh Hi He. destruct OK as [_ [_ _ Hp] _ _ _ _ _ _ _ _ _ _ _].
  assert (alter (counted 0) i (procs (ik s0)) = procs (ik s0)) as Ha.
  { rewrite (list_alter_ext _ id _ (procs (ik s0)) i); [by apply list_alter_id| |done].
    intros p E. rewrite Hp in E. injection E as <-. unfold counted. simpl. rewrite Z.add_0_r. by destruct pr. }
  split; try done; [|simpl; lia|by constructor|split; [done|by left|done]].
  unfold kvars, upd_proc. simpl. by rewrite Ha.
Qed.

(** Memory may change as long as the pages of the loader do not. *)
Lemma loaded_same k s s' qs m m' taken l :
  (k <= phnum)%nat -> loaded k s qs m taken l -> only_io s s' ->
  aspace (kmm (ik s')) m' root taken l (map_segs f0 (zip (segs k) qs)) ->
  (forall z, page_aligned z -> z <> hp -> same_page z m' m) -> same_ehdr m' m ->
  loaded k s' qs m' taken l.
Proof.
  intros Hkn [H1 H2 H3 H4 H5 H6 H7 H8 [H9 Hep] H10 H11 H12 H13 H14 H15 H16] [Hk Hf Hfd Hl] HS Hs Hse.
  destruct OK as [_ _ _ _ (Ha1 & _) _ _ _ _ _ _ _ (Hj0 & Hj & _)].
  assert (forall j, 0 <= j < 256 -> region_at m' info j = region_at m info j) as Hr.
  { intros j Hj'. apply region_at_same; [done|]. symmetry. apply Hs; [apply H8|congruence]. }
  split; [done|congruence..|done|done|done| |done|done| | | |done|].
  - split; [done|]. by etransitivity.
  - apply Forall2_same_length_lookup. split; [by symmetry|]. intros x g q Hg Hq.
    rewrite Forall_lookup in H11. destruct (H11 _ _ Hq) as (Hq1 & _ & _ & Hq2).
    apply (page_holds_same m); [by apply Hs; [apply Hq2|]|]. eapply (Forall2_lookup_lr _ _ _ _ _ _ H12 Hg Hq).
  - intros x g Hx. pose proof (lookup_lt_Some _ _ _ Hx). rewrite Hr; [by apply H13|].
    destruct (segs_prefix k Hkn) as [rest E]. rewrite E, length_app in Hj. lia.
  - intros j Hj1 Hj2. rewrite Hr by done. by apply H14.
  - split; [apply H16..|]. intros z Hz H1' H2' H3'. etransitivity; [by apply Hs|by apply H16].
Qed.

Lemma segs_load k :
  (k < phnum)%nat -> sg_type (phdr F (phdr_off phoff k)) = ELF_PROG_LOAD ->
  segs (S k) = segs k ++ [phdr F (phdr_off phoff k)] /\
  exists rest, segs phnum = segs k ++ phdr F (phdr_off phoff k) :: rest.
Proof.
  intros Hk Ht. assert (segs (S k) = segs k ++ [phdr F (phdr_off phoff k)]) as E.
  { by rewrite loadable_S, decide_True. }
  split; [exact E|]. destruct (segs_prefix (S k) Hk) as [rest Hr]. exists rest.
  by rewrite Hr, E, <- app_assoc.
Qed.

Lemma seg_mem_same g q j m z :
  page_aligned q -> page_aligned info -> page_aligned z -> z <> q -> z <> info ->
  0 <= sg_off g -> 0 <= sg_memsz g < PGSIZE -> sg_off g + sg_memsz g <= Z.of_nat (length F) ->
  0 <= j < 256 -> same_page z (seg_mem F g q info j m) m.
Proof.
  intros Hq Hi Hz Hn1 Hn2 Ho Hs Hf Hj. unfold seg_mem.
  etransitivity; [apply region_mem_same_on|].
  - unfold region. destruct (page_disjoint z info Hz Hi Hn2); consts; lia.
  - apply load_other_page; [done..|]. rewrite length_file_bytes; lia.
Qed.

Lemma seg_mem_region g q j m j' :
  page_aligned q -> page_aligned info -> info <> q -> 0 <= sg_vaddr g < 2 ^ 64 ->
  0 <= sg_off g -> 0 <= sg_memsz g < PGSIZE -> sg_off g + sg_memsz g <= Z.of_nat (length F) ->
  0 <= j' < 256 ->
  region_at (seg_mem F g q info j m) info j' =
  if decide (j' = j) then (sg_vaddr g, 1, default 0 (seg_type (sg_flags g))) else region_at m info j'.
Proof.
  intros Hq Hi Hn Hva Ho Hs Hf Hj. unfold seg_mem. rewrite region_mem_at; [|done|lia|].
  - case_decide; [done|]. apply region_at_same; [done|]. symmetry.
    apply load_other_page; [done..|]. rewrite length_file_bytes; lia.
  - unfold seg_type. do 2 (destruct (_ =? _); [done|]). done.
Qed.

(** One more segment, in the page [q]. *)
Section Load1.
Context (qs : list Z) (q : Z) (m : memory) (taken l t' l' : list Z) (g : segment).
Notation j := (j0 + Z.of_nat (length qs)).
Notation m' := (seg_mem F g q info j m).
Hypotheses (El : l = t' ++ l') (Hi : private info root taken (q :: l)) (Hq : page_aligned q).
Hypotheses (Hva : 0 <= sg_vaddr g < 2 ^ 64) (Hoff : 0 <= sg_off g) (Hsz : 0 <= sg_memsz g < PGSIZE)
  (Hfile : sg_off g + sg_memsz g <= Z.of_nat (length F)) (Hj : 0 <= j < 256).

Lemma load_other z : private z root taken (q :: l) -> z <> q.
Proof. intros [_ _ _ Hz] ->. apply Hz, list_elem_of_here. Qed.

Lemma load_same z : page_aligned z -> z <> q -> z <> info -> same_page z m' m.
Proof. intros. apply seg_mem_same; try done. apply Hi. Qed.

Lemma load_region k : 0 <= k < 256 ->
  region_at m' info k =
  if decide (k = j) then (sg_vaddr g, 1, default 0 (seg_type (sg_flags g))) else region_at m info k.
Proof. intros Hk. apply seg_mem_region; try done; [apply Hi|by apply load_other]. Qed.

Lemma load_pages gs :
  Forall2 (fun g p => page_holds m p (seg_bytes g)) gs qs ->
  Forall (fun p => p <> hp /\ p <> info /\ p <> ep /\ private p root taken (q :: l)) qs ->
  Forall2 (fun g p => page_holds m' p (seg_bytes g)) (gs ++ [g]) (qs ++ [q]).
Proof.
  intros HP Ha. apply Forall2_app; [|constructor; [|done]].
  - apply Forall2_same_length_lookup. split; [by eapply Forall2_length|]. intros x g' p Hg Hp.
    rewrite Forall_lookup in Ha. destruct (Ha _ _ Hp) as (_ & Hpi & _ & Pp).
    apply (page_holds_same m); [|eapply (Forall2_lookup_lr _ _ _ _ _ _ HP Hg Hp)].
    apply load_same; [apply Pp|by apply load_other|done].
  - eapply page_holds_same; [|apply page_holds_load].
    + apply region_mem_same_on. unfold region. pose proof (pv_ram _ _ _ _ Hi) as [Hia _].
      destruct (page_disjoint q info Hq Hia); [|consts; lia..]. by apply not_eq_sym, load_other.
    + unfold seg_bytes; rewrite length_file_bytes; lia.
Qed.

Lemma load_from : from_free qs m taken (q :: l) -> from_free (qs ++ [q]) m' (taken ++ t') l'.
Proof.
  intros [Hp Ht Hs]. rewrite El in Hp. split.
  - intros z. rewrite !elem_of_app, list_elem_of_singleton. intros H. apply Hp.
    rewrite elem_of_app, elem_of_cons, elem_of_app. tauto.
  - intros z [Hz|Hz]%elem_of_app; [by apply Ht|]. right. apply Hp.
    rewrite elem_of_app, elem_of_cons, elem_of_app. tauto.
  - intros z Hz Hn Hh Hzi. etransitivity; [apply load_same; [exact Hz| |exact Hzi]|by apply Hs].
    intros ->. apply Hn, Hp, elem_of_app. right. left.
Qed.
End Load1.

(** After the header [k], with its segment in the page [q]. *)
Lemma loaded_load k s s' qs q m taken l t' l' g :
  (k < phnum)%nat -> g = phdr F (phdr_off phoff k) -> sg_type g = ELF_PROG_LOAD ->
  0 <= sg_off g -> 0 <= sg_memsz g ->
  loaded k s qs m taken (q :: l) ->
  only_io (lput (upd_proc i (count_region (counted k pr)) (ik s)) s) s' ->
  l = t' ++ l' -> (length t' <= 2)%nat -> private q root (taken ++ t') l' ->
  aspace (kmm (ik s')) (seg_mem F g q info (j0 + Z.of_nat (length qs)) m) root (taken ++ t') l'
    (map_entry (map_segs f0 (zip (segs k) qs)) (sg_vaddr g) q elf_perm) ->
  loaded (S k) s' (qs ++ [q]) (seg_mem F g q info (j0 + Z.of_nat (length qs)) m) (taken ++ t') l'.
Proof.
  intros Hkn Hg Ht Hoff Hmsz HL [Hk Hf Hfd Hlk] El Hlt Pq HS. subst g.
  destruct (segs_load k Hkn Ht) as [ES1 [rest Er]].
  pose proof OK as [_ _ _ _ (Ha1 & Ha3 & _) [He1 He2] _ _ _ Hok _ _ (Hj0 & Hj1 & _)].
  rewrite Er in Hok, Hj1. rewrite length_app in Hj1. cbn [length] in Hj1.
  apply Forall_app in Hok as [_ Hok]. apply Forall_cons in Hok as [[[_ [_ Hsz] _ Hva _ Hfile _] _] _].
  set (g := phdr F (phdr_off phoff k)) in *.
  destruct HL as [H1 H2 H3 H4 H5 H6 H7 H8 [H9 Hep] H10 H11 H12 H13 H14 H15 H16].
  assert (0 <= sg_vaddr g < 2 ^ 64) as Hva' by (change MAXVA with 0x4000000000 in Hva; lia).
  assert (0 <= j0 + Z.of_nat (length qs) < 256) as Hj by lia.
  pose proof (pv_ram _ _ _ _ Pq) as [Hqa _]. pose proof (load_other q taken l) as Hnq.
  pose proof (load_region qs q m taken l g H8 Hqa Hva' Hoff ltac:(lia) Hfile) as Hr.
  assert (forall z, private z root taken (q :: l) -> private z root (taken ++ t') l') as Hgrow.
  { intros z Hz. apply (private_grow _ _ _ _ _ _ El). by eapply private_tail. }
  split.
  - rewrite ES1, !length_app. simpl. lia.
  - rewrite Hk. unfold kvars in *. simpl in *. injection H2 as E1 E2 E3 E4 E5.
    rewrite E1, E2, E3, E4, E5, list_alter_alter_eq. clear E1 E2 E3 E4 E5. do 4 f_equal.
    apply list_alter_ext; [|done]. intros p _. unfold counted. rewrite ES1, length_app.
    cbn [length]. rewrite Nat2Z.inj_add, Z.add_assoc. reflexivity.
  - by rewrite Hf.
  - by rewrite Hfd.
  - by rewrite Hlk.
  - rewrite ES1, zip_with_app by done. unfold map_segs. rewrite map_app. cbn [map zip_with].
    by rewrite map_all_snoc.
  - exact (header_page_grow hp root taken q l t' l' El H7).
  - by apply Hgrow.
  - split; [by apply Hgrow|]. etransitivity; [|exact Hep].
    eapply same_on_sub; [exact He1|exact He2|].
    eapply load_same; [exact H8|done..|lia|done|done|apply H9|by apply Hnq|congruence].
  - rewrite El in H10. rewrite length_app. simpl in *. rewrite length_app in H10. simpl. lia.
  - apply Forall_app. split; [|constructor; [|done]].
    + eapply Forall_impl; [exact H11|]. intros q' (?&?&?&?). auto.
    + split_and!; [apply not_eq_sym, Hnq, H7|apply not_eq_sym, Hnq, H8|apply not_eq_sym, Hnq, H9|exact Pq].
  - rewrite ES1. eapply load_pages; [exact H8|done..|lia|done|done|exact H12|exact H11].
  - intros x g' Hx. rewrite ES1 in Hx. apply lookup_app_Some in Hx as [Hx|[Hx1 Hx2]].
    + pose proof (lookup_lt_Some _ _ _ Hx). rewrite Hr, decide_False by lia. by apply H13.
    + apply list_lookup_singleton_Some in Hx2 as [Hx2 <-]. rewrite Hr, decide_True by lia. done.
  - intros j Hj1' Hj2. rewrite length_app in Hj2. cbn [length] in Hj2.
    rewrite Hr, decide_False by lia. apply H14; [done|lia].
  - apply NoDup_app. split; [exact H15|]. split; [|apply NoDup_singleton].
    intros q' Hq' E%list_elem_of_singleton. rewrite Forall_forall in H11.
    destruct (H11 _ Hq') as (_ & _ & _ & Hp). by apply (Hnq q').
  - eapply load_from; [exact El|exact H8|done..|lia|done|done|exact H16].
Qed.

(** A header of another type. *)
Lemma loaded_skip k s qs m taken l :
  sg_type (phdr F (phdr_off phoff k)) <> ELF_PROG_LOAD ->
  loaded k s qs m taken l -> loaded (S k) s qs m taken l.
Proof.
  intros Ht [H1 H2 H3 H4 H5 H6 H7 H8 H9 H10 H11 H12 H13 H14 H15 H16].
  assert (segs (S k) = segs k) as E by (by rewrite loadable_S, decide_False, app_nil_r).
  split; rewrite ?E; try done. unfold counted. by rewrite E.
Qed.

Lemma loaded_seg_ok k s qs m taken l :
  (k < phnum)%nat -> sg_type (phdr F (phdr_off phoff k)) = ELF_PROG_LOAD ->
  loaded k s qs m taken l ->
  seg_ok F (map_segs f0 (zip (segs k) qs)) (phdr F (phdr_off phoff k)) /\ (3 < length l)%nat /\
  (length (segs k) < length (segs phnum))%nat.
Proof.
  intros Hk Ht HL. destruct (segs_load k Hk Ht) as [_ [rest Er]].
  pose proof OK as [_ _ _ _ _ _ _ _ _ Hok Hnd Hfree _].
  pose proof (lo_free _ _ _ _ _ _ HL) as Hl. pose proof (lo_len _ _ _ _ _ _ HL) as Hlen.
  rewrite Er in Hok, Hnd, Hfree |- *. rewrite length_app in Hfree |- *. cbn [length] in Hfree |- *.
  split; [|lia]. apply Forall_app in Hok as [_ Hok]. apply Forall_cons in Hok as [[[? ? ? ? Hnew ? ?] _] _].
  split; try done. rewrite map_segs_other; [done|]. apply Forall_forall. intros [g q] Hgq E.
  apply elem_of_zip_l in Hgq. rewrite map_app in Hnd. cbn [map] in Hnd.
  apply NoDup_app in Hnd as (_ & Hnd & _). apply (Hnd (sg_vaddr g / PGSIZE)).
  - apply list_elem_of_fmap. by exists g.
  - cbn [fst] in E. rewrite E. apply list_elem_of_here.
Qed.

(** Reading e_phnum. *)
Lemma loaded_phnum {A} k s qs m taken l Q E (kk : Z -> M image A) :
  loaded k s qs m taken l -> wp (kk (Z.of_nat phnum)) Q E s ->
  wp (bind (load 2 (elfloader + ctx_ehdr + eh_phnum)) kk) Q E s.
Proof.
  intros HL Hk. pose proof OK as [_ _ _ _ _ [Hep1 Hep2] _ Hph _ _ _ _ _].
  destruct (lo_ehdr _ _ _ _ _ _ HL) as [[Hr Hn1 Hn2 _] Hs].
  apply (sp_load (L := lens_image_mm) _ _ s _ _ _ _ _ (lo_space _ _ _ _ _ _ HL) 2 _ ep); try done;
    [unfold sizeof_elf_header, eh_phnum in *; lia..|].
  rewrite (loadn_same_on 2 m m0); [by rewrite Hph|].
  eapply same_on_sub; [| |exact Hs]; unfold sizeof_elf_header, eh_phnum in *; lia.
Qed.

Lemma load_step_loaded k s qs m taken l E (R : Z * Z + elf_status -> image -> Prop) :
  loaded k s qs m taken l -> (k < phnum)%nat ->
  (forall s' qs' m' taken' l', loaded (S k) s' qs' m' taken' l' ->
     R (inl (Z.of_nat (S k), phdr_off phoff (S k))) s') ->
  wp (load_step elfloader (ElfInfo (FFile n) (Some i)) (Z.of_nat k, phdr_off phoff k)) R E s.
Proof.
  intros HL Hk HR. unfold load_step. eapply loaded_phnum; [exact HL|].
  rewrite (proj2 (Z.ltb_lt _ _)) by lia.
  pose proof OK as [HF _ Hroot Hinfo (Ha & _ & Had) _ _ _ [Hph0 Hph1] _ _ _ _].
  assert (phdr_off phoff (S k) <= phdr_off phoff phnum) as Hoff by (unfold phdr_off, sizeof_elf_prog_header; lia).
  assert (phdr_off phoff (S k) = phdr_off phoff k + sizeof_elf_prog_header) as HoffS
    by (unfold phdr_off, sizeof_elf_prog_header; lia).
  assert (0 <= phdr_off phoff k) as Hoff0 by (unfold phdr_off, sizeof_elf_prog_header; lia).
  pose proof (lo_header _ _ _ _ _ _ HL) as (Hhp & Hh1 & Hh2).
  assert (sizeof_elf_prog_header = 56) as Hsz by done.
  rewrite u64_small by lia.
  apply (sp_pread n fd i (counted k pr) F ph_addr sizeof_elf_prog_header (phdr_off phoff k) hp _ _ s _ _ _ _ _ _
    (loaded_loading _ _ _ _ _ _ HL) HF (lo_space _ _ _ _ _ _ HL) Hhp);
    [exact Hh1|exact Hh2|done|exact Hoff0|lia|].
  intros s1 Ho1 H1. rewrite Z.eqb_refl. cbv [negb].
  apply (loaded_same k s s1 qs m (store_bytes m ph_addr (file_bytes F (phdr_off phoff k) sizeof_elf_prog_header)) taken l
    (Nat.lt_le_incl _ _ Hk)) in HL; [|exact Ho1|exact H1| |].
  2: { intros z Hza Hz. apply store_bytes_same_on. rewrite length_file_bytes by (done || lia).
       destruct (page_disjoint z hp Hza (proj1 (pv_ram _ _ _ _ Hhp)) Hz); lia. }
  2: { apply store_bytes_same_on. rewrite length_file_bytes by (done || lia). lia. }
  pose proof (header_at_phdr F m (phdr_off phoff k) Hoff0 ltac:(lia)) as Hg. clear H1.
  set (m1 := store_bytes m _ _) in *.
  replace (Z.of_nat k + 1) with (Z.of_nat (S k)) by lia.
  replace (s32 (u64 (phdr_off phoff k + sizeof_elf_prog_header))) with (phdr_off phoff (S k)).
  2: { rewrite HoffS, u64_small by lia. rewrite s32_small; lia. }
  destruct (decide (sg_type (phdr F (phdr_off phoff k)) = ELF_PROG_LOAD)) as [Ht|Ht].
  - destruct (loaded_seg_ok _ _ _ _ _ _ Hk Ht HL) as (Hok & Hlen & Hlt).
    destruct l as [|q l]; [simpl in Hlen; lia|].
    apply (sp_load_segment n fd i (counted k pr) F hp info _ q _ _ s1 m1 root taken l _ _ _
      (loaded_loading _ _ _ _ _ _ HL) HF Hroot Hinfo (lo_space _ _ _ _ _ _ HL) ltac:(simpl in Hlen; lia)
      (lo_header _ _ _ _ _ _ HL) (lo_info _ _ _ _ _ _ HL) Ha
      (loaded_first_free _ _ _ _ _ _ HL Hlt ltac:(lia)) Hg Hok).
    intros s2 t' l' Ho2 El Hlt' Pq H2. apply wp_ret.
    eapply HR, (loaded_load _ _ _ _ _ _ _ _ _ _ _ Hk eq_refl Ht); [| |exact HL|exact Ho2|exact El|done|exact Pq|exact H2].
  all: rewrite <- Hg; apply loadn_range.
  - apply (sp_skip_segment _ hp _ _ s1 m1 root taken l _ _ _ (lo_space _ _ _ _ _ _ HL)
      (lo_header _ _ _ _ _ _ HL) Hg Ht). apply wp_ret. eapply HR, loaded_skip; [exact Ht|exact HL].
Qed.

Lemma elf_load_loaded :
  aspace (kmm (ik s0)) m0 root taken0 l0 f0 -> header_page hp root taken0 l0 ->
  private info root taken0 l0 -> private ep root taken0 l0 ->
  wp (elf_load elfloader (ElfInfo (FFile n) (Some i)))
    (fun r s' => r = EL_OK /\ exists qs m' taken' l', loaded phnum s' qs m' taken' l')
    (fun _ _ => False) s0.
Proof.
  intros HS Hh Hi He. pose proof (loaded_0 HS Hh Hi He) as HL. unfold elf_load.
  pose proof OK as [_ _ _ _ _ [Hep1 Hep2] Hpo Hpn [Hph0 Hph1] _ _ _ _].
  assert (phoff <= phdr_off phoff phnum) as Hle by (unfold phdr_off, sizeof_elf_prog_header; lia).
  assert (0 <= Z.of_nat phnum < 2 ^ 16) as Hpb by (rewrite <- Hpn; apply (loadn_range 2)).
  destruct He as [Hr Hn1 Hn2 _].
  apply (sp_load (L := lens_image_mm) _ _ s0 _ _ _ _ _ HS 8 _ ep); try done;
    [unfold sizeof_elf_header, eh_phoff in *; lia..|].
  rewrite Hpo, s32_small by lia.
  apply (wp_loop _ (fun x s => exists k qs m taken l, x = (Z.of_nat k, phdr_off phoff k) /\ (k <= phnum)%nat /\
    loaded k s qs m taken l) (fun x _ => Z.of_nat phnum - fst x)).
  - exists 0%nat, [], m0, taken0, l0. split; [unfold phdr_off; f_equal; lia|]. split; [lia|exact HL].
  - cbn [fst]. lia.
  - intros x s (k & qs & m & tk & l & -> & Hk & _). cbn [fst]. lia.
  - intros x s (k & qs & m & tk & l & -> & Hk & Hlk). destruct (decide (k = phnum)) as [->|Hne].
    + unfold load_step. eapply loaded_phnum; [exact Hlk|]. rewrite Z.ltb_irrefl. apply wp_ret. eauto 6.
    + eapply load_step_loaded; [exact Hlk|lia|]. intros s' qs' m' tk' l' HL'. split; [|cbn [fst]; lia].
      exists (S k), qs', m', tk', l'. split; [done|]. split; [lia|exact HL'].
Qed.

(** The page of one segment at the end. *)
Lemma loaded_segment s qs m taken l x g q :
  loaded phnum s qs m taken l -> segs phnum !! x = Some g -> qs !! x = Some q ->
  entry (smem s) root (sg_vaddr g) = map_pte q elf_perm /\
  page_holds (smem s) q (seg_bytes g) /\
  region_at (smem s) info (j0 + Z.of_nat x) = (sg_vaddr g, 1, default 0 (seg_type (sg_flags g))).
Proof.
  intros [H1 _ _ _ _ H6 _ H8 _ _ H11 H12 H13 _ _ _] Hg Hq.
  destruct OK as [_ _ _ _ _ _ _ _ _ Hok Hnd _ (Hj0 & Hj1 & _)].
  rewrite Forall_lookup in Hok. rewrite Forall_lookup in H11.
  destruct (Hok _ _ Hg) as [[_ _ _ Hva _ _ _] _]. destruct (H11 _ _ Hq) as (_ & _ & _ & Pq).
  split; [|split].
  - rewrite (as_entry _ _ _ _ _ _ H6) by (change MAXVA with 0x4000000000 in Hva; lia).
    apply map_segs_in; [|apply list_elem_of_lookup; exists x; by rewrite lookup_zip_with, Hg, Hq].
    rewrite <- (map_map fst (fun g => sg_vaddr g / PGSIZE)). by rewrite fst_zip by lia.
  - eapply page_holds_same; [symmetry; by apply (as_mem _ _ _ _ _ _ H6); apply Pq|].
    eapply (Forall2_lookup_lr _ _ _ _ _ _ H12 Hg Hq).
  - rewrite <- (H13 _ _ Hg). apply region_at_same; [|by apply (as_mem _ _ _ _ _ _ H6); apply H8].
    pose proof (lookup_lt_Some _ _ _ Hg). lia.
Qed.
End Load.

(** C39. Loading a program file: when the segments of the file are sound (each
    fits a page of its own that is not mapped yet, and lies in the file) and the
    allocator has three pages for each, elf_load returns EL_OK, and then the
    page of each segment is mapped, readable, writable and executable, to a page
    of its own that holds the bytes of the file followed by zeros; the segment
    is recorded in the table of regions, after the regions that were there and
    in the order of the headers; nothing else is mapped; every page in use keeps
    its contents but the table of regions and the page of the kernel stack
    that headers are read into; and of the variables of
    the kernel only the count of regions of the process changes. *)
Theorem elf_load_loads `{K : Layout} `{HH : Host} `{ES : ElfStack} (F : list byte) (n : nat) (fd : Z)
    (i : nat) (pr : process) (info root hp ep phoff : Z) (phnum : nat) (j0 : Z) (s : image)
    (m : memory) (f : Z -> Z) (taken l : list Z) :
  loader_ok F n fd i pr info root hp ep phoff phnum j0 s m f l ->
  aspace (kmm (ik s)) m root taken l f -> header_page hp root taken l ->
  private info root taken l -> private ep root taken l ->
  let segs := loadable F phoff phnum in
  wp (elf_load elfloader (ElfInfo (FFile n) (Some i)))
    (fun r s' => r = EL_OK /\ exists qs, NoDup qs /\ length qs = length segs /\
       (forall x g q, segs !! x = Some g -> qs !! x = Some q ->
          entry (smem s') root (sg_vaddr g) = map_pte q elf_perm /\
          page_holds (smem s') q (file_bytes F (sg_off g) (sg_memsz g)) /\
          region_at (smem s') info (j0 + Z.of_nat x) =
            (sg_vaddr g, 1, default 0 (seg_type (sg_flags g)))) /\
       (forall va, 0 <= va < 2 ^ 39 -> Forall (fun g => va / PGSIZE <> sg_vaddr g / PGSIZE) segs ->
          entry (smem s') root va = f va) /\
       (forall z, page_aligned z -> z ∉ root :: taken ++ l -> z <> hp -> z <> info -> same_page z (smem s') m) /\
       kvars (ik s') = kvars (upd_proc i
         (set_total_mapped_region (total_mapped_region pr + Z.of_nat (length segs))) (ik s)))
    (fun _ _ => False) s.
Proof.
  intros OK HS Hh Hi He segs. subst segs.
  eapply wp_mono; [by eapply elf_load_loaded|intros r s' (-> & qs & m' & tk & l' & HL)|done].
  split; [done|]. exists qs. pose proof HL as [H1 H2 _ _ _ H6 _ _ _ _ _ _ _ _ H15 HF].
  split; [done|]. split; [done|]. split; [|split; [|split; [|exact H2]]].
  - intros x g q Hg Hq. by eapply loaded_segment.
  - intros va Hva Hne. rewrite (as_entry _ _ _ _ _ _ H6) by done. apply map_segs_other.
    apply Forall_forall. intros [g q] Hgq. rewrite Forall_forall in Hne.
    by apply Hne, (elem_of_zip_l _ _ _ _ Hgq).
  - intros z Hz. rewrite not_elem_of_cons, not_elem_of_app. intros (Hr & Ht & Hl) Hh' Hi'.
    etransitivity; [symmetry; apply (as_mem _ _ _ _ _ _ H6); [done..|]|by apply HF].
    intros [?|?]%(fr_taken _ _ _ _ _ _ _ _ _ HF); done.
Qed.
