(* ===== verification/IsolationLoad.v ===== *)
(** The loader keeps processes apart: the pages that it gives to a process come
    from the allocator, and it writes to no page that the kernel keeps for
    another process. *)
From S2P Require Import Prelude Mem Context CString Snprintf Console Pmm Spike Sv39 Vmm Space Kstate Mmode Sched Process NewProc Fork Syscall Strap User Isolation Elf ElfLoad.

(** ** Where the pages of the process are from *)
Section Load.
Context {K : Layout} {HH : Host} {ES : ElfStack}.
Context (F : list byte) (n : nat) (fd : Z) (i : nat) (pr : process) (st : proc_status) (hp ep phoff : Z) (phnum : nat) (j0 : Z).
Context (s s' : image) (qs : list Z) (m' : memory) (taken l taken' l' : list Z).
Notation root := (pagetable pr).
Notation info := (mapped_info pr).
Notation f := (entry (smem s) root).

(** The process counts as used when the loader is called with its status still FREE. *)
Definition ready (s : image) : kstate := upd_proc i (set_status st) (ik s).
Definition loaded_process : process := set_status st (counted F pr phoff phnum pr).

Hypotheses (Hst : st <> FREE) (HI : isolated (ready s) l) (Hpr : procs (ik s) !! i = Some pr).
Hypothesis HL : loaded F i pr info root hp ep phoff j0 s (smem s) f taken l phnum s' qs m' taken' l'.
Hypothesis Ht : forall z, in_tree (smem s) root z <-> z = root \/ z ∈ taken.
Hypothesis Hhp : forall j p, used (ready s) j p -> ~ kernel_page (smem s) p hp.

Lemma ready_used : used (ready s) i (set_status st pr).
Proof. split; [by apply (procs_upd i (set_status st) (ik s))|done]. Qed.

Lemma loaded_procs : procs (ready s') = alter (set_status st) i (alter (counted F pr phoff phnum) i (procs (ik s))).
Proof. pose proof (lo_kvars _ _ _ _ _ _ _ _ _ _ _ _ _ _ _ _ _ _ _ _ HL) as E. injection E as E _ _ _ _. simpl. by rewrite E. Qed.

Lemma loaded_used : used (ready s') i loaded_process.
Proof. split; [|done]. by rewrite loaded_procs, !list_lookup_alter_eq, Hpr. Qed.

Lemma loaded_sub z : z ∈ l' -> z ∈ l.
Proof. intros H. apply (fr_pages _ _ _ _ _ _ _ _ _ (lo_from _ _ _ _ _ _ _ _ _ _ _ _ _ _ _ _ _ _ _ _ HL)), elem_of_app. by right. Qed.

(** What the kernel keeps for the process: what it kept, and free pages. *)
Lemma loaded_tree z : in_tree (smem s') root z -> in_tree (smem s) root z \/ z ∈ l.
Proof.
  pose proof (lo_from _ _ _ _ _ _ _ _ _ _ _ _ _ _ _ _ _ _ _ _ HL) as HF.
  pose proof (lo_space _ _ _ _ _ _ _ _ _ _ _ _ _ _ _ _ _ _ _ _ HL) as HS. rewrite Ht.
  intros [Hz|Hz]%(as_tree _ _ _ _ _ _ HS); [by left; left|].
  destruct (fr_taken _ _ _ _ _ _ _ _ _ HF z Hz) as [Hz'|Hz']; [by left; right|by right].
Qed.

Lemma loaded_kernel z :
  kernel_page (smem s') loaded_process z -> kernel_page (smem s) (set_status st pr) z \/ z ∈ l.
Proof. intros [[Hz|Hz]%loaded_tree|Hz]; [by left; left|by right|by left; right]. Qed.

Lemma loaded_not_free z : kernel_page (smem s') loaded_process z -> z ∉ l'.
Proof.
  pose proof (lo_space _ _ _ _ _ _ _ _ _ _ _ _ _ _ _ _ _ _ _ _ HL) as [(_ & _ & Hd) _ _ _].
  intros [Hz|Hz] Hl; [by apply (Hd z)|].
  apply (iso_kernel _ _ HI i _ z ready_used (or_intror Hz)). by apply loaded_sub.
Qed.

(** What user programs reach: what they reached, and the pages of the segments. *)
Lemma loaded_grants va z flags :
  0 <= va < 2 ^ 39 -> grants flags (entry (smem s') root va) z ->
  grants flags (f va) z \/
  (ram_page z /\ z ∈ l /\ z ∉ l' /\ ~ kernel_page (smem s') loaded_process z).
Proof.
  pose proof (lo_space _ _ _ _ _ _ _ _ _ _ _ _ _ _ _ _ _ _ _ _ HL) as HS.
  pose proof (lo_from _ _ _ _ _ _ _ _ _ _ _ _ _ _ _ _ _ _ _ _ HL) as HF.
  pose proof (lo_apart _ _ _ _ _ _ _ _ _ _ _ _ _ _ _ _ _ _ _ _ HL) as Ha. rewrite Forall_forall in Ha.
  intros Hva Hg. change (smem s') with (smem (kmm (ik s'))) in Hg. rewrite (as_entry _ _ _ _ _ _ HS va Hva) in Hg.
  unfold map_segs in Hg. edestruct map_all_cases as [E|(va0 & pa & perm & Hin & _ & E)]; rewrite E in Hg; [by left|].
  right. apply list_elem_of_fmap in Hin as ([g q] & [= -> -> ->] & Hin). apply elem_of_zip_r in Hin. cbn [snd] in Hg.
  destruct (Ha q Hin) as (_ & _ & _ & [Hr H1 H2 H3]).
  apply grants_map_pte in Hg as ->; [|exact Hr|by vm_compute].
  assert (q ∈ l) as Hl by (apply (fr_pages _ _ _ _ _ _ _ _ _ HF), elem_of_app; by left).
  split_and!; [done..|]. intros [[?|?]%(as_tree _ _ _ _ _ _ HS)|Hz]; [done..|].
  by apply (iso_kernel _ _ HI i _ q ready_used (or_intror Hz)).
Qed.

Lemma loaded_owner : owner (ready s) (ready s') l l' i loaded_process.
Proof.
  pose proof (lo_space _ _ _ _ _ _ _ _ _ _ _ _ _ _ _ _ _ _ _ _ HL) as [(Hwf & Hf & _) _ _ _].
  destruct Hf as (_ & _ & Hman). pose proof (iso_free _ _ HI) as (_ & _ & Hm). rewrite Forall_forall in Hm.
  split.
  - exact loaded_used.
  - exact Hwf.
  - intros z Hz. pose proof (loaded_not_free z Hz) as Hn. apply loaded_kernel in Hz as [Hz|Hz].
    + split; [by apply (iso_kernel _ _ HI i _ z ready_used)|]. split; [done|]. right. eexists. split; [exact ready_used|exact Hz].
    + split; [by apply (Hm z)|]. split; [done|]. by left.
  - intros z [Hz|Hz]%loaded_tree Hsp; [by apply (iso_inside _ _ HI i _ z ready_used)|].
    by apply (iso_kernel _ _ HI i _ z ready_used (or_intror Hsp)).
  - intros va z [Hva Hg]. destruct (loaded_grants va z _ Hva Hg) as [Hg'|(Hr & Hl & Hl' & Hk)]; [|by auto].
    destruct (iso_user _ _ HI i i _ _ va z ready_used ready_used (conj Hva Hg')) as (Hr & Hn & Hk).
    split; [done|]. split; [intros H; by apply Hn, loaded_sub|]. split; [by intros [?|?]%loaded_kernel|].
    right. exists i, (set_status st pr), va. split; [exact ready_used|by split].
  - intros va z [Hva Hg]. destruct (loaded_grants va z _ Hva Hg) as [Hg'|(_ & Hl & _)]; [|by left].
    right. exists (set_status st pr), va. split; [exact ready_used|by split].
  - intros z Hz Hn. destruct Hn. by apply loaded_sub.
Qed.

(** The other processes are there as before, and so is what the kernel keeps for them. *)
Lemma loaded_kept_procs j p' :
  j <> i -> used (ready s') j p' -> exists p, used (ready s) j p /\ same_space p' p.
Proof.
  intros Hne [Hj Hs]. rewrite loaded_procs, !list_lookup_alter_ne in Hj by congruence. exists p'. split; [|done].
  split; [|exact Hs]. unfold ready. by rewrite procs_upd_ne by congruence.
Qed.

Lemma loaded_kept j p z :
  used (ready s) j p -> kernel_page (smem s) p z -> page_aligned z -> z ∉ l -> z ∉ l' ->
  (forall q, used (ready s) i q -> ~ kernel_page (smem s) q z) -> same_page z (smem s) (smem s').
Proof.
  pose proof (lo_space _ _ _ _ _ _ _ _ _ _ _ _ _ _ _ _ _ _ _ _ HL) as HS.
  pose proof (lo_from _ _ _ _ _ _ _ _ _ _ _ _ _ _ _ _ _ _ _ _ HL) as HF.
  intros Hj Hz Hza Hzl _ Hk. specialize (Hk _ ready_used).
  assert (z <> root /\ z ∉ taken) as [H1 H2].
  { split; [intros ->|intros H]; apply Hk; left; apply Ht; by auto. }
  transitivity m'.
  - symmetry. apply (fr_same _ _ _ _ _ _ _ _ _ HF z Hza Hzl).
    + intros ->. by apply (Hhp j p).
    + intros ->. apply Hk. right. right. left.
  - apply (as_mem _ _ _ _ _ _ HS z Hza H1). by intros [?|?]%(fr_taken _ _ _ _ _ _ _ _ _ HF).
Qed.

Lemma loaded_free : pmm_free (kmm (ready s')) l'.
Proof. apply (lo_space _ _ _ _ _ _ _ _ _ _ _ _ _ _ _ _ _ _ _ _ HL). Qed.

Lemma loaded_isolated : isolated (ready s') l'.
Proof.
  exact (isolated_step (ready s) (ready s') l l' i loaded_process HI loaded_free loaded_owner
           loaded_kept_procs loaded_kept).
Qed.

(** What another process reaches was not free. *)
Lemma loaded_unreached j p va z :
  used (ready s') j p -> user_page (smem s') p va z -> z ∈ l -> j = i.
Proof.
  intros Hj Hz Hl. destruct (step_cases (ready s) (ready s') l l' i loaded_process HI loaded_owner
    loaded_kept_procs loaded_kept j p Hj) as [[-> _]|(q & _ & Hq & E)]; [done|].
  apply E in Hz. by destruct (iso_user _ _ HI j j q q va z Hq Hq Hz) as (_ & ? & _).
Qed.

Lemma loaded_private q : q ∈ qs -> q ∈ l /\ q ∉ l'.
Proof.
  intros Hq. pose proof (lo_apart _ _ _ _ _ _ _ _ _ _ _ _ _ _ _ _ _ _ _ _ HL) as Ha.
  rewrite Forall_forall in Ha. destruct (Ha q Hq) as (_ & _ & _ & [_ _ _ Hn]). split; [|exact Hn].
  apply (fr_pages _ _ _ _ _ _ _ _ _ (lo_from _ _ _ _ _ _ _ _ _ _ _ _ _ _ _ _ _ _ _ _ HL)), elem_of_app. by left.
Qed.

Lemma loaded_others j p z :
  j <> i -> used (ready s) j p -> kernel_page (smem s) p z -> same_page z (smem s) (smem s').
Proof.
  intros Hne Hj Hz. destruct (iso_kernel _ _ HI j p z Hj Hz) as [[Hza _] Hzl].
  apply (loaded_kept j p); [done..|by intros H%loaded_sub|].
  intros q Hq Hkq. by apply Hne, (iso_apart _ _ HI j i p q z).
Qed.
End Load.

(** * Properties *)

(** C5. Loading keeps the processes apart.  When the segments of the program are
    sound, and memory is partitioned as [isolated] says, the process counted
    with the status that it gets behind the loader, then elf_load returns EL_OK
    and memory is partitioned afterwards.  Each segment of the file is mapped,
    writable and executable, to a page that was free, is free no longer, holds
    the bytes of the file, and is in the address space of no other process; no
    page has become free; and no page that the kernel keeps for another process
    has changed, although headers are read to the stack of the kernel. *)
Theorem elf_load_keeps_isolation {K : Layout} {HH : Host} {ES : ElfStack} F n fd i pr st hp ep phoff phnum j0 s taken l :
  st <> FREE -> isolated (upd_proc i (set_status st) (ik s)) l ->
  loader_ok F n fd i pr (mapped_info pr) (pagetable pr) hp ep phoff phnum j0 s (smem s)
    (entry (smem s) (pagetable pr)) l ->
  (forall z, in_tree (smem s) (pagetable pr) z <-> z = pagetable pr \/ z ∈ taken) ->
  header_page hp (pagetable pr) taken l -> private ep (pagetable pr) taken l ->
  (forall j p, used (upd_proc i (set_status st) (ik s)) j p -> ~ kernel_page (smem s) p hp) ->
  let segs := loadable F phoff phnum in
  wp (elf_load elfloader (ElfInfo (FFile n) (Some i)))
    (fun r s' => r = EL_OK /\ exists l' qs,
       isolated (upd_proc i (set_status st) (ik s')) l' /\ (forall z, z ∈ l' -> z ∈ l) /\
       length qs = length segs /\
       (forall x g q, segs !! x = Some g -> qs !! x = Some q ->
          q ∈ l /\ q ∉ l' /\
          entry (smem s') (pagetable pr) (sg_vaddr g) = map_pte q elf_perm /\
          page_holds (smem s') q (file_bytes F (sg_off g) (sg_memsz g)) /\
          (forall j p va, used (upd_proc i (set_status st) (ik s')) j p ->
             user_page (smem s') p va q -> j = i)) /\
       (forall j p z, j <> i -> used (upd_proc i (set_status st) (ik s)) j p ->
          kernel_page (smem s) p z -> same_page z (smem s) (smem s'))) never s.
Proof.
  intros Hst HI OK Ht Hh He Hhp segs. subst segs. pose proof (ld_proc _ _ _ _ _ (ok_loading _ _ _ _ _ _ _ _ _ _ _ _ _ _ _ _ OK)) as Hpr.
  pose proof (ready_used i pr st s Hst Hpr) as Hi.
  assert (private (mapped_info pr) (pagetable pr) taken l) as Hinfo.
  { assert (mapped_info pr ∈ space_pages (set_status st pr)) as Hin by (right; left).
    destruct (iso_kernel _ _ HI i _ _ Hi (or_intror Hin)) as [Hr Hn].
    split; [exact Hr|..|exact Hn]; intros H; apply (iso_inside _ _ HI i _ (mapped_info pr) Hi); try exact Hin;
      apply Ht; by auto. }
  assert (aspace (kmm (ik s)) (smem s) (pagetable pr) taken l (entry (smem s) (pagetable pr))) as HS.
  { split; [|exact Ht|done|done]. split; [by apply (iso_wf _ _ HI i _ Hi)|]. split; [apply HI|].
    intros z Hz Hin. by apply (iso_kernel _ _ HI i _ z Hi (or_introl Hin)). }
  eapply wp_mono; [by eapply (elf_load_loaded F n fd i pr)|intros r s' (-> & qs & m' & tk & l' & HL)|done].
  split; [done|]. exists l', qs. split; [by eapply loaded_isolated|].
  split; [by eapply loaded_sub|]. split; [apply HL|]. split; [|by eapply loaded_others].
  intros x g q Hg Hq. pose proof (list_elem_of_lookup_2 _ _ _ Hq) as Hin.
  edestruct loaded_segment as (E & P & _); [exact OK|exact HL|exact Hg|exact Hq|].
  edestruct loaded_private as [Hl Hl']; [exact HL|exact Hin|].
  split_and!; [exact Hl|exact Hl'|exact E|exact P|].
  intros j p va Hj Hz. by eapply loaded_unreached.
Qed.
