(* ===== verification/Boot.v ===== *)
(** kernel/kernel.c: supervisor start-up, from s_start to the first process;
    that it always ends, in the first process or in an error, whatever the
    host answers and whatever memory holds; and the whole machine, from reset
    to any number of traps. *)
From S2P Require Import Prelude Mem Context CString Snprintf Console Pmm Fdt Devices Spike Sv39 Vmm Kstate Mmode Robust Sched Process Strap System Elf.

Section Code.
Context `{Layout} `{Host} `{ElfStack}.
Notation M := (M image).

(** The TLB is not modelled. *)
Definition enable_paging : M unit :=
  k <- gets (fun s => g_kernel_pagetable (kmm (ik s))) ;;
  write_csr satp (MAKE_SATP k).

Definition load_user_program : M (option nat) :=
  proc <- zoom alloc_process ;;
  sprint "User application is loading.
" [] ;;;
  load_bincode_from_host_elf proc ;;;
  ret proc.

Definition s_start : M Z :=
  sprint "Enter supervisor mode...
" [] ;;;
  write_csr satp 0 ;;;
  zoom pmm_init ;;;
  zoom kern_vm_init ;;;
  enable_paging ;;;
  sprint "kernel page table is on 
" [] ;;;
  zoom init_proc_pool ;;;
  sprint "Switch to user mode...
" [] ;;;
  proc <- load_user_program ;;
  zoom (insert_to_ready_queue proc) ;;;
  (zoom schedule : M unit) ;;;
  ret 0.
End Code.

(** ** Robustness with a host

    [safe c]: from any state in which the lock of frontend_syscall is free,
    [c] returns with the lock free and nothing changed that scheduling looks
    at, or stops on an error. *)
Definition calm (s : image) : Prop := lock (ispike s) = 0.

Definition host_only : relation image := fun s s' =>
  (calm s -> calm s') /\ same_core (ik s) (ik s').

#[export] Instance host_only_ignores : Ignores host_only.
Proof.
  split.
  - split; [by intros s|]. intros s1 s2 s3 [H1 E1] [H2 E2]. split; [tauto|]. by rewrite E1.
  - intros k s. split; [done|]. apply (ignores_mm (R := same_core)).
Qed.

Definition safe {A} (c : M image A) : Prop :=
  forall s, calm s -> wp c (fun _ s' => host_only s s') (fun e _ => is_error e) s.

Lemma safe_keeps {A} (c : M image A) : keeps host_only c -> safe c.
Proof. intros Hc s _. apply Hc. Qed.

Lemma safe_bind {A B} (c : M image A) (f : A -> M image B) :
  safe c -> (forall a, safe (f a)) -> safe (bind c f).
Proof.
  intros Hc Hf s Hs. apply wp_bind. eapply wp_mono; [by apply Hc| |done].
  intros a s1 H1. eapply wp_mono; [by apply Hf; apply H1| |done]. intros b s2 H2. etransitivity; [apply H1|apply H2].
Qed.

Lemma safe_loop {X B} (body : X -> M image (X + B)) (I : X -> Prop) (measure : X -> Z) fuel x :
  I x -> measure x < Zpos fuel -> (forall x, I x -> 0 <= measure x) ->
  (forall x s, I x -> calm s ->
     wp (body x) (fun r s' => host_only s s' /\ match r with
                              | inl x' => I x' /\ measure x' < measure x
                              | inr _ => True
                              end) (fun e _ => is_error e) s) ->
  safe (loop fuel body x).
Proof.
  intros HI Hm Hpos Hb s Hs.
  apply (wp_loop _ (fun y s' => I y /\ host_only s s') (fun y _ => measure y)); [done|done| |].
  - intros y t [Hy _]. by apply Hpos.
  - intros y t (Hy & Hr). eapply wp_mono; [apply Hb; [done|by apply Hr]| |done].
    assert (forall t', host_only t t' -> host_only s t') as Ht
      by (intros t' Hr'; etransitivity; [apply Hr|apply Hr']).
    intros [y'|v] t' [Hr' H]; [|by apply Ht].
    destruct H as [HI' Hlt]. split; [split; [done|by apply Ht]|done].
Qed.

(** Sequencing in the body of such a loop. *)
Lemma wp_bind_safe {A B} (c : M image A) (f : A -> M image B) (Q : B -> Prop) s :
  safe c -> calm s ->
  (forall a s', calm s' ->
     wp (f a) (fun b t => host_only s' t /\ Q b) (fun e _ => is_error e) s') ->
  wp (bind c f) (fun b t => host_only s t /\ Q b) (fun e _ => is_error e) s.
Proof.
  intros Hc Hs Hf. apply wp_bind. eapply wp_mono; [by apply Hc| |done].
  intros a s1 H1. eapply wp_mono; [by apply Hf; apply H1| |done].
  intros b s2 [H2 HQ]. split; [etransitivity; [apply H1|apply H2]|done].
Qed.

Lemma safe_zoom_kstate {A} (c : M kstate A) : keeps same_core c -> safe (zoom c).
Proof.
  intros Hc s Hs. apply wp_zoom. eapply wp_mono; [apply Hc| |done]. intros a t Ht. by split.
Qed.

Lemma safe_zoom_mm {A} (c : M mm A) : keeps anything c -> safe (zoom c).
Proof.
  intros Hc. apply safe_keeps. intros s. apply wp_zoom. eapply wp_mono; [apply Hc| |done].
  intros a t _. split; [done|]. apply (ignores_mm (R := same_core)).
Qed.

#[export] Hint Resolve safe_keeps safe_zoom_kstate safe_zoom_mm keeps_read_string keeps_strlen : pke.

Ltac safe_tac :=
  repeat match goal with
  | |- forall _, _ => intro
  | |- safe (bind _ _) => apply safe_bind
  | |- safe (match ?b with _ => _ end) => destruct b
  | |- safe (halt _) => apply safe_keeps, keeps_halt; exact Logic.I
  | |- _ => solve [eauto 4 with pke typeclass_instances]
  end.

(** ** The host *)

Section Host.
Context `{HH : Host}.

Lemma safe_frontend_syscall n a0 a1 a2 a3 a4 a5 a6 :
  safe (frontend_syscall n a0 a1 a2 a3 a4 a5 a6).
Proof.
  intros s Hs. unfold wp. rewrite frontend_syscall_spec by done. cbv zeta.
  split; [done|]. apply (ignores_mm (R := same_core)).
Qed.

Lemma safe_upd_spike f : (forall t, lock (f t) = lock t) -> safe (upd_spike (S := image) f).
Proof. intros Hf s Hs. split; [|done]. unfold calm. simpl. by rewrite Hf. Qed.

Lemma safe_deref_file f : safe (deref_file (S := image) f).
Proof. unfold deref_file. safe_tac. Qed.

Lemma safe_upd_file i f : safe (upd_file (S := image) i f).
Proof. by apply safe_upd_spike. Qed.

Hint Resolve safe_frontend_syscall safe_deref_file safe_upd_file : pke.

Lemma safe_decref f : safe (spike_file_decref (S := image) f).
Proof. unfold spike_file_decref, refcnt_add. safe_tac. Qed.

Lemma safe_cas_fd i cmp swp : safe (cas_fd (S := image) i cmp swp).
Proof. unfold cas_fd. safe_tac. by apply safe_upd_spike. Qed.

Lemma safe_get_free n i : safe (get_free (S := image) n i).
Proof. revert i. induction n as [|n IH]; intros i; cbn [get_free]; safe_tac. Qed.

Hint Resolve safe_decref safe_cas_fd safe_get_free : pke.

Lemma safe_open fn flags mode : safe (spike_file_open (S := image) fn flags mode).
Proof. unfold spike_file_open, spike_file_openat, spike_file_get_free. safe_tac. Qed.

Lemma safe_close f : safe (spike_file_close (S := image) f).
Proof. unfold spike_file_close. safe_tac. Qed.

Lemma safe_pread f buf size offset : safe (spike_file_pread (S := image) f buf size offset).
Proof. unfold spike_file_pread. safe_tac. Qed.
End Host.

#[export] Hint Resolve safe_frontend_syscall safe_open safe_close safe_pread : pke.

(** ** elf.c *)

Section Elf.
Context `{K : Layout} `{HH : Host} `{ES : ElfStack}.

Lemma keeps_kassert b : keeps host_only (kassert b).
Proof.
  unfold kassert, kassert_fail, do_panic, shutdown. keeps_tac; [|by apply keeps_halt].
  apply keeps_write_stderr, _.
Qed.

Lemma keeps_assign_core p f :
  (forall q, core (f q) = core q) -> keeps same_core (assign p f).
Proof. intros Hf. destruct p; [by apply keeps_core_assign|by intros s]. Qed.

Hint Resolve keeps_kassert keeps_assign_core : pke.
Hint Extern 1 (keeps _ (memset _ _ _)) => apply keeps_memset; [apply _|done] : pke.

Lemma safe_elf_fpread msg dest nb off : safe (elf_fpread msg dest nb off).
Proof. unfold elf_fpread. safe_tac. Qed.

Lemma safe_elf_alloc_mb msg pa va size : safe (elf_alloc_mb msg pa va size).
Proof. unfold elf_alloc_mb. safe_tac. Qed.

Lemma safe_free_region n info j : safe (free_region n info j).
Proof. revert j. induction n as [|n IH]; intros j; cbn [free_region]; safe_tac. Qed.

Hint Resolve safe_elf_fpread safe_elf_alloc_mb safe_free_region : pke.

Lemma safe_record_region p va : safe (record_region p va).
Proof. unfold record_region. safe_tac. Qed.

Hint Resolve safe_record_region : pke.

Lemma safe_load_segment msg : safe (load_segment msg).
Proof. unfold load_segment. safe_tac. Qed.

Lemma safe_elf_init ctx info : safe (elf_init ctx info).
Proof. unfold elf_init. safe_tac. Qed.

(** The headers are at most 2^16. *)
Lemma safe_elf_load ctx msg : safe (elf_load ctx msg).
Proof.
  unfold elf_load. apply safe_bind; [safe_tac|]. intros phoff.
  apply (safe_loop _ (fun _ => True) (fun x => Z.max 0 (2 ^ 16 - fst x))); [done|done|lia|].
  intros [i off] s _ Hs. unfold load_step. apply wp_bind. unfold wp at 1, load.
  destruct (ram_ok _ _); [|done].
  destruct (Z.ltb_spec i (loadn 2 (smem s) (ctx + ctx_ehdr + eh_phnum))) as [Hlt|];
    [|by apply wp_ret].
  pose proof (loadn_range 2 (smem s) (ctx + ctx_ehdr + eh_phnum)) as Hr.
  apply wp_bind_safe; [auto with pke|done|]. intros r s1 Hs1. cbv beta.
  destruct (negb _); [by apply wp_ret|].
  apply wp_bind_safe; [apply safe_load_segment|done|]. intros st s2 Hs2.
  destruct st; apply wp_ret; (split; [reflexivity|]); [done|].
  split; [done|]. cbn [fst]. lia.
Qed.

Lemma safe_load_bind {A} n a (f : Z -> M image A) :
  (forall v, 0 <= v < 2 ^ (8 * Z.of_nat n) -> safe (f v)) -> safe (bind (load n a) f).
Proof.
  intros Hf s Hs. apply wp_bind. unfold wp at 1, load. destruct (ram_ok _ _); [|done].
  by apply Hf; [apply loadn_range|].
Qed.

(** The loop ends at the number of arguments that the host gives, unless it
    leaves memory before. *)
Lemma safe_parse_args : safe parse_args.
Proof.
  unfold parse_args. do 2 (apply safe_bind; [safe_tac|]; intros ?).
  apply safe_load_bind. intros argc Hargc. apply safe_bind; [|safe_tac].
  apply (safe_loop _ (fun i => 0 <= i) (fun i => Z.max 0 (argc - i))); [done|simpl in *; lia|lia|].
  intros i s Hi Hs. destruct (Z.ltb_spec (1 + i) argc); [|by apply wp_ret].
  apply wp_bind_safe; [safe_tac|done|]. intros v s1 Hs1.
  apply wp_bind_safe; [safe_tac|done|]. intros [] s2 Hs2.
  apply wp_ret. split; [reflexivity|]. lia.
Qed.

Hint Resolve safe_elf_init safe_elf_load safe_parse_args : pke.

Lemma safe_load_bincode p : safe (load_bincode_from_host_elf p).
Proof. unfold load_bincode_from_host_elf. safe_tac. Qed.
End Elf.

(** ** s_start *)

(** The processes after init_proc_pool. *)
Definition free_pool : list process :=
  map (fun i => set_pid (Z.of_nat i) zero_process) (seq 0 NPROC).

Lemma init_proc_pool_spec s : init_proc_pool s = Ok tt (set_procs free_pool s).
Proof. reflexivity. Qed.

Lemma free_pool_inv s :
  procs s = free_pool -> ready_queue_head s = None -> sched_inv s [] [].
Proof.
  intros Hp Hh.
  assert (forall i p, procs s !! i = Some p -> status p = FREE /\ pid p = Z.of_nat i) as Hf.
  { intros i p. rewrite Hp. unfold free_pool. rewrite list_lookup_fmap.
    destruct (seq 0 NPROC !! i) as [j|] eqn:Hj; [|done]. apply lookup_seq in Hj as [-> _].
    intros [= <-]. done. }
  split; [by rewrite Hp|by split; [|constructor]| | | |].
  - intros i p Hi. by apply elem_of_nil in Hi.
  - intros i p Hi Hs. destruct (Hf i p Hi). congruence.
  - intros i p Hi. left. by apply (Hf i p).
  - intros i p Hi. by apply (Hf i p).
Qed.

Section Start.
Context {K : Layout} {KO : LayoutOk K} `{HH : Host} `{ES : ElfStack}.

Lemma safe_step {A B} (c : M image A) (f : A -> M image B) Q E s0 s :
  safe c -> calm s0 -> host_only s0 s -> (forall e s', is_error e -> E e s') ->
  (forall a s', host_only s0 s' -> wp (f a) Q E s') -> wp (bind c f) Q E s.
Proof.
  intros Hc H0 Hs HE Hf. apply wp_bind. eapply wp_mono; [apply Hc; by apply Hs| |exact HE].
  intros a s' H. apply Hf. etransitivity; [apply Hs|apply H].
Qed.

(** How s_start ends. *)
Definition started (e : stop) (s : image) : Prop :=
  is_error e \/ (e = SRet /\ exists c, running (ik s) c []).

Lemma load_user_program_spec s :
  calm s -> sched_inv (ik s) [] [] ->
  wp load_user_program (fun r s' => exists i p, r = Some i /\ sched_inv (ik s') [] [i] /\
        procs (ik s') !! i = Some p) (fun e _ => is_error e) s.
Proof.
  intros Hs HI. unfold load_user_program. apply wp_bind, wp_zoom.
  eapply wp_mono; [apply alloc_process_core| |done].
  intros r t (Hc & i & p & -> & Hp & Hst). set (s1 := lput t s).
  assert (host_only s1 s1) as Hr by reflexivity.
  eapply (safe_step _ _ _ _ s1); [eauto with pke typeclass_instances|done|done|done|].
  clear Hr. intros [] s2 Hr.
  eapply (safe_step _ _ _ _ s1); [apply safe_load_bincode|done|done|done|].
  clear Hr s2. intros [] s2 [_ Hr]. apply wp_ret. exists i.
  assert (same_core (ik s) (ik s2)) as Hc2 by (etransitivity; [exact Hc|exact Hr]).
  destruct (same_core_lookup _ _ i p (same_core_sym _ _ Hc2) Hp) as (q & Hq & _).
  exists q. split; [done|]. split; [|done].
  pose proof (sched_inv_core _ _ _ _ Hc2 HI) as [? ? ? H4 ? ?]. split; try done.
  intros j r Hj Hs'. left. by destruct (H4 j r Hj Hs').
Qed.

Lemma s_start_spec s :
  calm s -> ready_queue_head (ik s) = None -> 0 <= g_mem_size (kmm (ik s)) < 2 ^ 64 ->
  wp s_start (fun _ _ => False) started s.
Proof.
  intros Hs Hh Hg. unfold s_start.
  assert (forall e s', is_error e -> started e s') as HE by (intros e s' He; by left).
  eapply wp_bind_ok; [by apply sprint_eq|]. eapply wp_bind_ok; [done|]. cbv beta.
  apply wp_bind, wp_zoom. eapply wp_mono; [by apply (pmm_init_spec (K := K))| |].
  2: { intros e t [_ ->]. by apply HE. }
  intros [] t _. set (s1 := lput t _).
  assert (calm s1 /\ ready_queue_head (ik s1) = None) as [Hs1 Hh1] by done. clearbody s1.
  assert (host_only s1 s1) as Hr by reflexivity.
  eapply (safe_step _ _ _ _ s1); [apply safe_zoom_mm, keeps_kern_vm_init|done..|].
  clear Hr. intros [] s2 Hr.
  eapply (safe_step _ _ _ _ s1); [unfold enable_paging; safe_tac|done..|].
  clear Hr s2. intros [] s2 Hr.
  eapply (safe_step _ _ _ _ s1); [safe_tac|done..|]. clear Hr s2. intros [] s2 [Hs2 (_ & Hh2 & _)].
  apply wp_bind, wp_zoom. unfold wp at 1. rewrite init_proc_pool_spec. set (s3 := lput _ s2).
  assert (calm s3) as Hs3 by (by apply Hs2).
  assert (sched_inv (ik s3) [] []) as HI3.
  { apply free_pool_inv; [done|]. change (ready_queue_head (ik s2) = None). congruence. }
  clearbody s3. eapply wp_bind_ok; [by apply sprint_eq|]. cbv beta. set (s4 := write_stderr _ s3).
  assert (sched_inv (ik s4) [] []) as HI4.
  { apply (sched_inv_core (ik s3)); [by apply kvars_core|done]. }
  assert (calm s4) as Hs4 by done. clearbody s4.
  apply wp_bind. eapply wp_mono; [by apply load_user_program_spec| |exact HE].
  intros r s5 (i & p & -> & HI5 & Hp5). apply wp_bind, wp_zoom.
  eapply wp_mono; [eapply (insert_inv i [] []); [exact HI5|by apply not_elem_of_nil|exact Hp5]| |done].
  intros [] t6 (HI6 & _). apply wp_bind, wp_zoom.
  change (lget (lput t6 s5)) with t6.
  eapply wp_mono; [by apply (schedule_inv (A := unit) t6)|done|].
  intros e t7 [He|[[-> (c & l' & [= <- <-] & Hr7)]|[_ [=]]]]; [by left|]. right. eauto.
Qed.
End Start.

(** * Properties *)

Section Properties.
Context {K : Layout} {KO : LayoutOk K} `{HH : Host} `{ES : ElfStack}.

(** C38. Supervisor start-up always ends, whatever the host answers, whatever the
    program file holds and whatever memory holds: s_start enters user mode
    with one process running, an empty ready queue and the invariant of the
    process table, or it stops on an error; it never returns, no loop of the
    loader runs for ever and no assert fails. *)
Theorem s_start_enters_user s :
  lock (ispike s) = 0 -> ready_queue_head (ik s) = None ->
  0 <= g_mem_size (kmm (ik s)) < 2 ^ 64 ->
  exists e s', s_start s = Stop e s' /\
    (is_error e \/ (e = SRet /\ exists c, running (ik s') c [])).
Proof.
  intros Hl Hh Hg. apply (wp_stop s_start started s). by apply s_start_spec.
Qed.

(** C37. The whole machine: from reset with a well-formed device tree, machine
    mode reaches s_start, which enters user mode or stops on an error; and in
    the first case every run from there, whatever user code does between
    traps, is a run of the abstract round-robin scheduler that starts with one
    process and an empty queue. *)
Theorem machine_refines_scheduler `{P : Platform} `{HT : Hart} fuel dtb roots size s :
  ispike s = spike_start -> ready_queue_head (ik s) = None ->
  good_dtb (smem s) fuel dtb roots size -> plain_csrs ->
  Z.testbit (csr misa (lget s)) 18 = true -> 0 <= csr mstatus (lget s) < 2 ^ 64 ->
  csr mhartid (lget s) = 0 -> gpr (lget s) !! r_a0 = Some 0 ->
  gpr (lget s) !! (r_a0 + 1)%nat = Some dtb ->
  exists e s1, (_mentry fuel ;;; s_start) s = Stop e s1 /\
    (is_error e \/
     (e = SRet /\ exists c, forall evs k, turns (ik s1) evs k ->
        exists c' l', sched_steps evs (c, []) (c', l') /\ running k c' l')).
Proof.
  intros Hsp Hh Hd Hp Hs Hv Hhart Ha Hb.
  destruct (mentry_spec fuel dtb roots size s Hsp Hd Hp Hs Hv Hhart Ha Hb)
    as (s0 & E & _ & _ & _ & Hz & Hk & _ & Hkv).
  rewrite (bind_step _ _ _ _ _ E).
  assert (0 <= g_mem_size (kmm (ik s0)) < 2 ^ 64) as Hg.
  { rewrite Hz. destruct Hd as (? & ? & ? & _ & _ & _ & _ & _ & _ & _ & ?). lia. }
  assert (ready_queue_head (ik s0) = None) as Hh0 by (unfold kvars in Hkv; congruence).
  assert (calm s0) as Hc0 by (unfold calm; by rewrite Hk).
  destruct (wp_stop s_start started s0) as (e & s1 & -> & He); [by apply s_start_spec|].
  exists e, s1. split; [reflexivity|]. destruct He as [He|[-> [c Hc]]]; [by left|right].
  split; [reflexivity|]. exists c. intros evs k Ht. exact (turns_refine _ _ _ _ _ Hc Ht).
Qed.
End Properties.
