(* ===== verification/Examples.v ===== *)
(** Concrete states of the model, and the theorems of the library applied to
    them: a kernel image with its layout, an allocator with pages, an address
    space with a mapped page, and a system with two processes. *)
From S2P Require Import Prelude Mem Context CString Snprintf Console Pmm Sv39 Vmm KernVm Kstate Robust Sched Space Process NewProc Syscall Strap System.

(** ** A layout *)

#[export] Instance sample_layout : Layout := {|
  _end := 0x80010000; _etext := 0x80008000; trap_sec_start := 0x80006000;
  smode_trap_vector := 0x80006004; smode_trap_handler_addr := 0x80001234 |}.

#[export] Instance sample_layout_ok : LayoutOk sample_layout.
Proof. by split. Qed.

(** ** A machine with two strings *)

Definition str_hello : list byte := String.list_byte_of_string "hello".
Definition str_42 : list byte := String.list_byte_of_string "-42".

Definition sample_machine : machine :=
  Machine (store_bytes (store_bytes ∅ 0x80020000 (str_hello ++ [Byte.x00]))
             0x80020100 (str_42 ++ [Byte.x00]))
          (replicate 31 7) ∅ 0 0 [].

Lemma sample_hello : cstr (smem sample_machine) 0x80020000 str_hello.
Proof. split; [apply (bool_decide_unpack _); vm_compute; exact I|by vm_compute]. Qed.

Lemma sample_42 : cstr (smem sample_machine) 0x80020100 str_42.
Proof. split; [apply (bool_decide_unpack _); vm_compute; exact I|by vm_compute]. Qed.

(** ** An allocator *)

(** Memory in which the pages [ps] are linked. *)
Fixpoint link_mem (ps : list Z) : memory :=
  match ps with
  | [] => ∅
  | p :: ps' => st64 (link_mem ps') p (List.hd 0 ps')
  end.

Lemma link_mem_linked ps :
  NoDup ps -> Forall ram_page ps -> linked (link_mem ps) (List.hd 0 ps) ps.
Proof.
  induction ps as [|p ps IH]; intros Hnd Hr; [done|].
  apply NoDup_cons in Hnd as [Hp Hnd]. apply Forall_cons in Hr as [Hrp Hr].
  split; [done|]. cbn [link_mem]. rewrite ld64_st64, u64_small.
  - eapply (linked_same (link_mem ps)); [|by apply IH]. intros q Hq. symmetry.
    rewrite Forall_forall in Hr. destruct (Hr q Hq) as (Hqa & _). destruct Hrp as (Hpa & _).
    apply storen_same_on. destruct (page_disjoint p q Hpa Hqa) as [?|?]; [by intros ->|..];
      consts; lia.
  - destruct ps as [|q ps]; [done|]. apply Forall_cons in Hr as [Hrq _].
    apply ram_page_pos in Hrq. simpl. lia.
Qed.

Lemma link_mem_below ps lo hi :
  Forall (fun p => hi <= p) ps -> same_on lo hi (link_mem ps) ∅.
Proof.
  induction ps as [|p ps IH]; intros Hp; [done|]. apply Forall_cons in Hp as [Hp Hps].
  cbn [link_mem]. etransitivity; [apply storen_same_on; by left|by apply IH].
Qed.

(** [n] free pages from 0x80002000 on. *)
Definition sample_pages (n : Z) : list Z := page_seq 0x80002000 n.

Definition sample_mm (n : Z) : mm :=
  Mm (Machine (link_mem (sample_pages n)) (replicate 31 0) ∅ 0 0 [])
     0x80001000 PHYS_TOP (List.hd 0 (sample_pages n)) PKE_MAX_ALLOWABLE_RAM 0.

Lemma sample_pages_ram n : n <= 200 -> Forall ram_page (sample_pages n).
Proof.
  intros Hn. apply Forall_forall. intros p Hp. apply elem_of_page_seq in Hp as (i & Hi & ->).
  unfold ram_page, page_aligned. consts. split_and!; [dlia|lia|lia].
Qed.

Lemma sample_pmm_free n : n <= 200 -> pmm_free (sample_mm n) (sample_pages n).
Proof.
  intros Hn. pose proof (sample_pages_ram n Hn) as Hr.
  assert (NoDup (sample_pages n)) as Hnd.
  { apply NoDup_fmap_2; [intros i j E; consts; lia|apply NoDup_seqZ]. }
  split_and!; [by apply link_mem_linked|done|]. rewrite Forall_forall in *. intros p Hp.
  split; [by apply Hr|]. apply elem_of_page_seq in Hp as (i & Hi & ->).
  simpl. consts. lia.
Qed.

(** ** An address space: an empty root table *)

Definition sample_root : Z := 0x80001000.

Lemma sample_root_ram : ram_page sample_root.
Proof. by split_and!. Qed.

Lemma sample_root_fresh n : sample_root ∉ sample_pages n.
Proof.
  intros Hi. apply elem_of_page_seq in Hi as (i & Hi & E). unfold sample_root in E. consts. lia.
Qed.

Lemma sample_vm_inv n :
  n <= 200 ->
  vm_inv (sample_mm n) sample_root (sample_pages n) /\
  (forall va, entry (smem (sample_mm n)) sample_root va = 0) /\
  (forall q, in_tree (smem (sample_mm n)) sample_root q <-> q = sample_root).
Proof.
  intros Hn. destruct (pt_wf_empty (smem (sample_mm n)) sample_root) as (Hwf & Ht & He).
  - apply sample_root_ram.
  - intros i Hi. change (smem (sample_mm n)) with (link_mem (sample_pages n)).
    rewrite (loadn_same_on 8 _ ∅); [done|]. apply link_mem_below.
    apply Forall_forall. intros p Hp. apply elem_of_page_seq in Hp as (j & Hj & ->).
    unfold index_ok, sample_root in *. consts. lia.
  - split_and!; [|done|done]. split_and!; [done|by apply sample_pmm_free|].
    intros p Hp Hin. apply Ht in Hin as ->. by apply sample_root_fresh in Hp.
Qed.

(** ** The address space with one mapped page *)

Definition final {S A} (o : outcome S A) : S := match o with Ok _ s => s | Stop _ s => s end.

Definition is_ok {S A} (o : outcome S A) : bool := match o with Ok _ _ => true | Stop _ _ => false end.

Lemma ok_final {S} (o : outcome S unit) : is_ok o = true -> o = Ok tt (final o).
Proof. by destruct o as [[] s|e s]. Qed.

Definition is_sret {S A} (o : outcome S A) : bool :=
  match o with Stop SRet _ => true | _ => false end.

Lemma sret_final {S A} (o : outcome S A) : is_sret o = true -> o = Stop SRet (final o).
Proof. by destruct o as [a s|[] s]. Qed.

Definition sample_va : Z := 0x400000.
Definition sample_pa : Z := 0x80007000.
Definition sample_perm : Z := prot_to_type (Z.lor PROT_WRITE PROT_READ) 1.

Definition mapped_mm : mm :=
  final (user_vm_map sample_root sample_va PGSIZE sample_pa sample_perm (sample_mm 5)).

Lemma mapped_mm_run :
  user_vm_map sample_root sample_va PGSIZE sample_pa sample_perm (sample_mm 5) = Ok tt mapped_mm.
Proof. unfold mapped_mm. apply ok_final. vm_compute. reflexivity. Qed.

Lemma mapped_mm_inv : exists l,
  vm_inv mapped_mm sample_root l /\ sample_pa ∉ l /\
  ~ in_tree (smem mapped_mm) sample_root sample_pa.
Proof.
  destruct (sample_vm_inv 5) as (HI & _ & Ht); [lia|].
  assert (sample_pa ∉ sample_pages 5) as Hn.
  { apply (bool_decide_unpack _). vm_compute. exact I. }
  pose proof (user_vm_map_spec (sample_mm 5) sample_root sample_va sample_pa sample_perm
    (sample_pages 5) HI) as H. unfold wp in H. rewrite mapped_mm_run in H.
  assert (page_aligned sample_va /\ 0 <= sample_va < MAXVA /\ page_aligned sample_pa /\
          0 <= sample_pa < 2 ^ 56) as (H1 & H2 & H3 & H4) by (vm_compute; split_and!; congruence).
  destruct (H H1 H2 H3 H4) as (taken & l & El & _ & Hg & _). clear H.
  exists l. rewrite El in Hn. apply not_elem_of_app in Hn as [Hn1 Hn2].
  split; [exact (vg_inv _ _ _ _ _ Hg)|]. split; [exact Hn2|].
  rewrite (vg_tree _ _ _ _ _ Hg), Ht. intros [E|Hi]; [discriminate E|exact (Hn1 Hi)].
Qed.

Lemma mapped_mm_managed : managed mapped_mm sample_pa.
Proof. vm_compute. split_and!; congruence. Qed.

Lemma mapped_mm_slot : exists p, descend (smem mapped_mm) sample_root (va_path sample_va) = Some p.
Proof. eexists. vm_compute. reflexivity. Qed.

Lemma mapped_mm_entry : PTE2PA (entry (smem mapped_mm) sample_root sample_va) = sample_pa.
Proof. vm_compute. reflexivity. Qed.

(** ** A system with two processes: 0 runs and 1 waits *)

Definition sample_proc (i : Z) (tf : Z) : process :=
  Process (tf + 0x1000) sample_root tf 0x80030000 3 i READY None None 0.

Definition sample_procs : list process :=
  sample_proc 0 0x80040000 :: sample_proc 1 0x80041000 ::
  ((fun i => set_pid i zero_process) <$> seqZ 2 30).

Definition sample_system : kstate :=
  KState (sample_mm 5) sample_procs (Some 0%nat) (Some 1%nat) USER_FREE_ADDRESS_START 0.

Lemma sample_procs_lookup i p :
  sample_procs !! i = Some p ->
  pid p = Z.of_nat i /\ ((i <= 1)%nat /\ status p = READY \/ status p = FREE).
Proof.
  destruct i as [|[|i]]; [by intros [= <-]; simpl; auto..|].
  change (sample_procs !! S (S i)) with (((fun i => set_pid i zero_process) <$> seqZ 2 30) !! i).
  rewrite list_lookup_fmap. intros (j & Hj & ->)%fmap_Some.
  apply lookup_seqZ in Hj as [-> Hj]. simpl. split; [lia|by right].
Qed.

Lemma sample_running : running sample_system 0 [1%nat].
Proof.
  split; [split|].
  - done.
  - split; [|apply NoDup_singleton]. split; [done|]. by exists (sample_proc 1 0x80041000).
  - intros i p Hi Hp. apply list_elem_of_singleton in Hi as ->. by injection Hp as <-.
  - intros i p Hp Hs. destruct (sample_procs_lookup i p Hp) as [_ [[Hi _]|Hf]]; [|congruence].
    assert (i = 0 \/ i = 1)%nat as [->| ->] by lia; [right|left]; by apply list_elem_of_singleton.
  - intros i p Hp. destruct (sample_procs_lookup i p Hp) as [_ [[_ H]|H]]; auto.
  - intros i p Hp. by apply sample_procs_lookup.
  - split_and!; [done| |by exists (sample_proc 0 0x80040000)].
    intros H. by apply list_elem_of_singleton in H.
Qed.

(** The machine when process 0 calls yield. *)
Definition yield_machine : machine :=
  Machine (st64 (link_mem (sample_pages 5)) (0x80040000 + tf_a0) SYS_user_yield)
          (replicate 31 0) (<[scause := CAUSE_USER_ECALL]> ∅) 0 0 [].

Definition yield_system : kstate := lput yield_machine sample_system.

Definition yielded : kstate := final (smode_trap_handler (A := unit) yield_system).

Lemma yield_turn : turn sample_system Rotate yielded.
Proof.
  apply (turn_trap sample_system yield_machine yielded (sample_proc 0 0x80040000)); [done|].
  unfold yielded, yield_system. apply sret_final. vm_compute. reflexivity.
Qed.

(** ** The theorems at these states *)


Lemma memset_fills_witness :
  memset 0x80020000 7 13 sample_machine =
  Ok 0x80020000 (put_mem (store_bytes (smem sample_machine) 0x80020000
                            (replicate (Z.to_nat 13) (byte.of_Z 7))) sample_machine).
Proof. apply (memset_fills 0x80020000 7 13 sample_machine); [lia|by split]. Defined.

Lemma memmove_copies_witness :
  memmove 0x80020002 0x80020000 5 sample_machine =
  Ok 0x80020002 (put_mem (store_bytes (smem sample_machine) 0x80020002
     (load_bytes (smem sample_machine) 0x80020000 (Z.to_nat 5))) sample_machine).
Proof. apply (memmove_copies 0x80020002 0x80020000 5 sample_machine); [lia|by split|by split]. Defined.

Lemma memcpy_is_memmove_witness :
  memcpy 0x80030000 0x80020000 16 sample_machine = memmove 0x80030000 0x80020000 16 sample_machine.
Proof.
  apply (memcpy_is_memmove 0x80030000 0x80020000 16 sample_machine); [lia|by split|by split|lia].
Defined.

Lemma strcmp_equal_witness :
  exists r, strcmp 0x80020000 0x80020100 sample_machine = Ok r sample_machine /\
            (r = 0 <-> str_hello = str_42).
Proof.
  apply (strcmp_equal 0x80020000 0x80020100 str_hello str_42 sample_machine);
    [apply sample_hello|apply sample_42|by split|by split].
Defined.

Lemma atol_reads_printed_witness :
  exists r out,
    vsnprintf 64 (replicate 64 Byte.x00) (String.list_byte_of_string "%ld") [VInt (-42)] = Some (r, out) /\
    atol 0x80020200 (put_mem (store_bytes (smem sample_machine) 0x80020200 out) sample_machine) =
      Ok (-42) (put_mem (store_bytes (smem sample_machine) 0x80020200 out) sample_machine).
Proof.
  exact (atol_reads_printed 0x80020200 (-42) (replicate 64 Byte.x00) sample_machine ltac:(lia)
    ltac:(vm_compute; lia) ltac:(split; vm_compute; discriminate)).
Defined.

Lemma sprint_writes_witness :
  sprint "Ticks %d" [VInt 3] sample_machine =
  Ok tt (write_stderr (String.list_byte_of_string "Ticks 3") sample_machine).
Proof.
  apply (sprint_writes "Ticks %d" [VInt 3] (String.list_byte_of_string "Ticks 3") sample_machine);
    [reflexivity|vm_compute; reflexivity|vm_compute; reflexivity].
Defined.

Lemma trap_preserves_registers_witness :
  wp (smode_trap_vector_code (S := machine)) (fun r s' => forall s'' : machine,
    same_on 0x80001000 (0x80001000 + 248) (smem s') (smem s'') -> length (gpr (lget s'')) = 31%nat ->
    exists u, return_to_user (A := unit) 0x80001000 0 s'' = Stop SRet u /\
      gpr (lget u) = <[r_t6 := 0x80001000]> (replicate 31 7)) never
    (Machine ∅ (replicate 31 7) (<[sscratch := 0x80001000]> ∅) 0 0 []).
Proof.
  apply (trap_preserves_registers (S := machine) (A := unit)
           (Machine ∅ (replicate 31 7) (<[sscratch := 0x80001000]> ∅) 0 0 [])
           (replicate 31 7) 0x80001000 0);
    [reflexivity|reflexivity|by apply Forall_replicate|reflexivity|by split_and!].
Defined.

Lemma pmm_init_owns_witness :
  wp pmm_init
     (fun _ s' => _end - KERN_BASE <= ram_size (sample_mm 0) /\
        free_mem_start_addr s' = _end /\
        free_mem_end_addr s' = DRAM_BASE + ram_size (sample_mm 0) /\
        pmm_free s' (reverse (page_seq _end (npages_free _end (DRAM_BASE + ram_size (sample_mm 0))))))
     (fun e _ => ram_size (sample_mm 0) < _end - KERN_BASE /\ e = Shutdown (-1)) (sample_mm 0).
Proof. apply (pmm_init_owns (sample_mm 0)). by split. Defined.

Lemma alloc_pages_distinct_witness :
  exists s', alloc_many 4 (sample_mm 3) =
      Ok (take 4 (sample_pages 3) ++ replicate (4 - length (sample_pages 3)) 0) s' /\
    NoDup (take 4 (sample_pages 3)) /\ Forall (managed (sample_mm 3)) (take 4 (sample_pages 3)) /\
    pmm_free s' (drop 4 (sample_pages 3)) /\ smem s' = smem (sample_mm 3).
Proof. apply (alloc_pages_distinct 4 (sample_mm 3)). apply sample_pmm_free. lia. Defined.

Lemma sample_root_managed n : managed (sample_mm n) sample_root.
Proof. split; [apply sample_root_ram|]. simpl. unfold sample_root. consts. lia. Qed.

Lemma free_page_behaviour_witness :
  exists s', free_page sample_root (sample_mm 3) = Ok tt s' /\
    pmm_free s' (sample_root :: sample_pages 3).
Proof.
  destruct (free_page_behaviour (sample_mm 3) (sample_pages 3) sample_root) as [H _];
    [apply sample_pmm_free; lia|].
  destruct H as (s' & H1 & H2 & _); [apply sample_root_managed|apply sample_root_fresh|].
  exists s'. split; [exact H1|exact H2].
Defined.

Lemma double_free_circular_witness :
  exists s', (bind (free_page sample_root) (fun _ => free_page sample_root)) (sample_mm 3) = Ok tt s' /\
             alloc_many 5 s' = Ok (replicate 5 sample_root) s'.
Proof.
  apply (double_free_circular (sample_mm 3) (sample_pages 3) sample_root 5);
    [apply sample_pmm_free; lia|apply sample_root_managed|apply sample_root_fresh].
Defined.

Lemma page_walk_keeps_mappings_witness :
  page_walk sample_root sample_va 0 (sample_mm 5) = Ok 0 (sample_mm 5) /\
  exists r s', page_walk sample_root sample_va 1 (sample_mm 5) = Ok r s' /\ pt_wf (smem s') sample_root /\
    forall va', entry (smem s') sample_root va' = entry (smem (sample_mm 5)) sample_root va'.
Proof.
  destruct (sample_vm_inv 5) as (HI & _ & _); [lia|].
  destruct (page_walk_keeps_mappings (sample_mm 5) sample_root sample_va (sample_pages 5) HI ltac:(by vm_compute))
    as [E H].
  split; [rewrite E; vm_compute; reflexivity|].
  apply wp_ok in H as (r & s' & Ew & taken & l' & _ & _ & [Hwf _] & _ & He & _). exists r, s'. by split_and!.
Defined.

Lemma map_pages_outcomes_witness :
  wp (map_pages sample_root sample_va (2 * PGSIZE) sample_pa sample_perm)
     (fun r s' => exists n taken l',
        mapped (sample_mm 5) sample_root sample_va sample_pa sample_perm (sample_pages 5) n taken l' s' /\
        ((r = 0 /\ n = map_count sample_va (2 * PGSIZE) /\
          Z.of_nat (length taken) <= tables_bound (first_page sample_va) n) \/
         (r = -1 /\ 0 <= n < map_count sample_va (2 * PGSIZE) /\ l' = [] /\
          Z.of_nat (length (sample_pages 5)) <=
            tables_bound (first_page sample_va) (map_count sample_va (2 * PGSIZE)))))
     (fun e s' => e = Shutdown (-1) /\
        ((exists k, 0 <= k < map_count sample_va (2 * PGSIZE) /\
            pte_valid (entry (smem (sample_mm 5)) sample_root
                         (first_page sample_va + PGSIZE * k)) = true) \/
         MAXVA <= last_page sample_va (2 * PGSIZE))) (sample_mm 5).
Proof.
  apply (map_pages_outcomes (sample_mm 5) sample_root sample_va (2 * PGSIZE) sample_pa sample_perm);
    [apply sample_vm_inv; lia|by split|by split].
Defined.

Lemma sample_perm_ok : perm_ok sample_perm.
Proof. by split. Qed.

Lemma user_vm_map_lookup_witness :
  wp (user_vm_map sample_root sample_va PGSIZE sample_pa sample_perm)
     (fun _ s' => forall va', 0 <= va' < MAXVA ->
        exists r, lookup_pa sample_root va' s' = Ok r s' /\
          if decide (va' / PGSIZE = sample_va / PGSIZE) then r = sample_pa
          else lookup_pa sample_root va' (sample_mm 5) = Ok r (sample_mm 5))
     never (sample_mm 5).
Proof.
  destruct (sample_vm_inv 5) as (HI & He & _); [lia|].
  apply (user_vm_map_lookup (sample_mm 5) sample_root sample_va sample_pa sample_perm
           (sample_pages 5) HI); [done|by split|done|by split|apply sample_perm_ok| |].
  - by rewrite He.
  - vm_compute. lia.
Defined.

Lemma mapped_mm_wf : pt_wf (smem mapped_mm) sample_root.
Proof. destruct mapped_mm_inv as (l & HI & _). exact (proj1 HI). Qed.

Lemma lookup_pa_reads_entry_witness :
  lookup_pa sample_root sample_va mapped_mm =
    Ok (if MAXVA <=? sample_va then 0
        else lookup_val (entry (smem mapped_mm) sample_root sample_va)) mapped_mm.
Proof. exact (lookup_pa_reads_entry mapped_mm sample_root sample_va mapped_mm_wf). Defined.

Lemma user_va_to_pa_ignores_valid_witness :
  user_va_to_pa sample_root (sample_va + 0x1234) mapped_mm = Ok 0x234 mapped_mm.
Proof.
  refine (proj2 (user_va_to_pa_ignores_valid mapped_mm sample_root (sample_va + 0x1234)
                   mapped_mm_wf _ _) _).
  - by split.
  - eexists. vm_compute. reflexivity.
  - vm_compute. reflexivity.
Defined.

Lemma user_vm_unmap_frees_witness :
  exists l s', user_vm_unmap sample_root sample_va PGSIZE 1 mapped_mm = Ok tt s' /\
    vm_inv s' sample_root (sample_pa :: l) /\
    (forall va', 0 <= va' < 2 ^ 39 -> entry (smem s') sample_root va' =
       if decide (va' / PGSIZE = sample_va / PGSIZE)
       then Z.lxor (entry (smem mapped_mm) sample_root sample_va) PTE_V
       else entry (smem mapped_mm) sample_root va').
Proof.
  destruct mapped_mm_inv as (l & HI & Hn & Ht). destruct mapped_mm_slot as [p Hp].
  exists l.
  refine (user_vm_unmap_frees mapped_mm sample_root sample_va PGSIZE 1 l p sample_pa
            HI eq_refl _ Hp mapped_mm_entry mapped_mm_managed Hn Ht).
  by split.
Defined.

Lemma user_vm_unmap_twice_remaps_witness :
  exists s', (bind (user_vm_unmap sample_root sample_va PGSIZE 1)
                   (fun _ => user_vm_unmap sample_root sample_va PGSIZE 1)) mapped_mm = Ok tt s' /\
    entry (smem s') sample_root sample_va = entry (smem mapped_mm) sample_root sample_va /\
    alloc_many 3 s' = Ok (replicate 3 sample_pa) s'.
Proof.
  destruct mapped_mm_inv as (l & HI & Hn & Ht). destruct mapped_mm_slot as [p Hp].
  refine (user_vm_unmap_twice_remaps mapped_mm sample_root sample_va PGSIZE 1 p sample_pa 3
            (proj1 HI) eq_refl _ Hp mapped_mm_entry mapped_mm_managed Ht).
  by split.
Defined.

Lemma kern_vm_init_identity_witness :
  exists root l, sample_pages 150 = root :: l /\
  wp kern_vm_init (fun _ s' => exists taken l', l = taken ++ l' /\
       Z.of_nat (length taken) <= 130 /\ vm_inv s' root l' /\
       g_kernel_pagetable s' = root /\
       forall va, 0 <= va < 2 ^ 39 -> entry (smem s') root va = kern_entry va) never (sample_mm 150).
Proof.
  exists 0x80002000, (tail (sample_pages 150)). split; [vm_compute; reflexivity|].
  apply (kern_vm_init_identity (sample_mm 150)); [|vm_compute; reflexivity].
  apply (sample_pmm_free 150). lia.
Defined.

Lemma insert_to_ready_queue_appends_witness :
  exists s', insert_to_ready_queue (Some 0%nat) sample_system = Ok tt s' /\ ready s' [1; 0]%nat.
Proof.
  destruct (insert_to_ready_queue_appends 0 [1%nat] sample_system (sample_proc 0 0x80040000))
    as (s' & H1 & H2 & _);
    [apply sample_running|vm_compute; lia|reflexivity|].
  exists s'. split; [exact H1|exact H2].
Defined.

Lemma schedule_runs_head_witness :
  wp (schedule (A := unit)) (fun _ _ => False) (fun e s' => e = SRet /\ ready s' [] /\
    kvars s' = kvars (set_ready_queue_head None (set_current (Some 1%nat) sample_system)) /\
    in_user 1 (sample_proc 1 0x80041000)
      (switched (sample_proc 1 0x80041000) sample_system) s') sample_system.
Proof.
  apply (schedule_runs_head 1 [] (sample_proc 1 0x80041000) sample_system);
    [apply sample_running|reflexivity|reflexivity|by split_and!|reflexivity].
Defined.

Lemma schedule_stops_machine_witness :
  let s := set_ready_queue_head None sample_system in
  wp (schedule (A := unit)) (fun _ _ => False)
     (fun e _ => e = Shutdown (if bool_decide (Forall finished (procs s)) then 0 else -1)) s.
Proof. apply (schedule_stops_machine (set_ready_queue_head None sample_system)); reflexivity. Defined.

Lemma kernel_refines_scheduler_witness :
  exists c' l', sched_steps [Rotate] (0%nat, [1%nat]) (c', l') /\ running yielded c' l'.
Proof.
  apply (kernel_refines_scheduler sample_system 0 [1%nat] [Rotate] yielded sample_running).
  econstructor; [apply yield_turn|constructor].
Defined.

Lemma trap_handled_witness :
  wp (smode_trap_handler (A := unit)) (fun _ _ => False) (fun e s' =>
    e <> OutOfFuel /\ e <> PowerOff /\
    stops (trap_event sample_system (sample_proc 0 0x80040000)) 0 [1%nat] e s') sample_system.
Proof.
  exact (trap_handled sample_system 0 [1%nat] (sample_proc 0 0x80040000) sample_running eq_refl).
Defined.

Lemma no_starvation_witness :
  exists evs1 evs2 s1, [Rotate] = evs1 ++ evs2 /\ turns sample_system evs1 s1 /\
    current s1 = Some 1%nat /\ turns s1 evs2 yielded.
Proof.
  apply (no_starvation sample_system 0 [] 1 [] [Rotate] yielded sample_running).
  - econstructor; [apply yield_turn|constructor].
  - vm_compute. lia.
Defined.

(** Process 0 alone. *)
Definition lone_system : kstate :=
  set_ready_queue_head None (upd_proc 1 (set_status ZOMBIE) sample_system).

Lemma lone_running : running lone_system 0 [].
Proof.
  destruct sample_running as (HI & Hcur & _ & p & Hp & Hs).
  split; [|split_and!; [done|by intros H%elem_of_nil|by exists p]].
  assert (forall i q, procs lone_system !! i = Some q ->
            pid q = Z.of_nat i /\ (i = 0%nat /\ status q = READY \/ status q = FREE \/ status q = ZOMBIE))
    as Hl.
  { intros i q.
    change (procs lone_system) with (alter (set_status ZOMBIE) 1%nat sample_procs).
    rewrite list_lookup_alter. destruct (decide (1%nat = i)) as [<-|Hne].
    - intros [= <-]. simpl. auto.
    - intros Hq. destruct (sample_procs_lookup i q Hq) as [Hpid [[Hi Hr]|Hf]]; [|auto].
      split; [done|]. left. split; [lia|done]. }
  split; [done|split; [done|apply NoDup_nil_2]| | | |].
  - by intros i q Hi%elem_of_nil.
  - intros i q Hq Hr. destruct (Hl i q Hq) as [_ [[-> _]|[?|?]]]; [|congruence..].
    right. by apply list_elem_of_singleton.
  - intros i q Hq. destruct (Hl i q Hq) as [_ [[_ ?]|[?|?]]]; auto.
  - intros i q Hq. by apply Hl.
Qed.

Lemma last_exit_shuts_down_witness :
  wp (sys_user_exit 0) (fun _ _ => False) (fun e _ => e = Shutdown 0) lone_system.
Proof. exact (last_exit_shuts_down lone_system 0 0 lone_running). Defined.

(** Process 1 is a child of process 0. *)
Definition family : kstate := upd_proc 1 (set_parent (Some 0%nat)) sample_system.

Lemma family_running : running family 0 [1%nat].
Proof.
  destruct sample_running as (HI & Hc & Hn & Hp).
  split; [apply (sched_inv_core sample_system); [by apply same_core_upd|exact HI]|].
  split; [exact Hc|]. split; [exact Hn|]. exact Hp.
Qed.

Lemma wp_outcome {S A} (c : M S A) Q E s :
  wp c Q E s -> (exists a s', c s = Ok a s' /\ Q a s') \/ (exists e s', c s = Stop e s' /\ E e s').
Proof. unfold wp. destruct (c s); eauto. Qed.

Lemma lone_childless : ~ has_child lone_system 0.
Proof.
  intros (j & p & Hj & Hp). assert (Forall (fun p => parent p = None) (procs lone_system)) as Hall
    by (apply (bool_decide_unpack _); vm_compute; exact I).
  rewrite Forall_lookup in Hall. specialize (Hall j p Hj). congruence.
Qed.

Lemma family_child : has_child family 0.
Proof. exists 1%nat. eexists. split; reflexivity. Qed.

Lemma wait_never_polls_witness :
  wait (-1) lone_system = Ok (-1) lone_system /\
  exists e s', wait (-1) family = Stop e s' /\ stops Rotate 0 [1%nat] e s'.
Proof.
  split.
  - destruct (wp_outcome _ _ _ _ (wait_never_polls lone_system 0 [] (-1) lone_running))
      as [(r & s' & Ew & _ & Hr & Hs)|(e & s' & _ & H & _)]; [|destruct (lone_childless H)].
    rewrite Hr, Hs in Ew. exact Ew.
  - destruct (wp_outcome _ _ _ _ (wait_never_polls family 0 [1%nat] (-1) family_running))
      as [(r & s' & _ & H & _)|(e & s' & Ew & _ & H)]; [destruct (H family_child)|].
    exists e, s'. exact (conj Ew H).
Defined.

Lemma fork_enqueues_child_witness :
  wp (do_fork (Some 0%nat)) (fun r s' => exists n q, r = Z.of_nat n /\ n <> 0%nat /\
        n ∉ [1%nat] /\ running s' 0 ([1%nat] ++ [n]) /\ procs s' !! n = Some q /\
        parent q = Some 0%nat /\ exists p, procs sample_system !! n = Some p /\ status p = FREE)
     (fun e _ => is_error e) sample_system.
Proof. exact (fork_enqueues_child sample_system 0 [1%nat] sample_running). Defined.

(** ** A new process *)

Definition proc_pages : list Z := page_seq 0x80010000 12.

Definition proc_mm : mm :=
  Mm (Machine (link_mem proc_pages) (replicate 31 0) ∅ 0 0 [])
     0x80010000 PHYS_TOP 0x80010000 PKE_MAX_ALLOWABLE_RAM 0.

Definition proc_state : kstate := KState proc_mm (replicate NPROC zero_process) None None 0 0.

Lemma proc_pages_free : pmm_free proc_mm proc_pages.
Proof.
  assert (Forall (managed proc_mm) proc_pages) as Hm.
  { change proc_pages with
      (0x80010000 :: 0x80011000 :: 0x80012000 :: 0x80013000 :: 0x80014000 :: page_seq 0x80015000 7).
    repeat constructor; vm_compute; congruence. }
  assert (NoDup proc_pages) as Hnd by (apply (bool_decide_unpack _); vm_compute; exact I).
  split_and!; [|done|done]. change (linked (link_mem proc_pages) (List.hd 0 proc_pages) proc_pages).
  apply link_mem_linked; [done|]. eapply Forall_impl; [exact Hm|]. by intros p [Hp _].
Qed.

Lemma alloc_process_builds_witness :
  exists s', alloc_process proc_state = Ok (Some 0%nat) s' /\
    region_at (smem s') 0x80014000 0 = (0x7fffe000, 1, STACK_SEGMENT) /\
    ld64 (smem s') (0x80010000 + 8) = 0x7ffff000 /\
    entry (smem s') 0x80011000 0x7fffe000 = map_pte 0x80013000 stack_perm.
Proof.
  destruct (wp_ok _ _ _ (alloc_process_builds proc_state 0 zero_process 0x80010000 0x80011000
              0x80012000 0x80013000 0x80014000 (page_seq 0x80015000 7) eq_refl
              ltac:(intros j p Hj; lia) eq_refl eq_refl proc_pages_free
              ltac:(vm_compute; lia) ltac:(vm_compute; discriminate)))
    as (r & s' & E & -> & _ & _ & He & Hr & Hf).
  exists s'. split; [exact E|]. split; [rewrite (Hr 0) by lia; reflexivity|].
  split; [exact (Hf 1 ltac:(lia))|].
  rewrite He by lia. vm_compute. reflexivity.
Defined.
