(* ===== verification/BootExamples.v ===== *)
(** Concrete states of the machine before the kernel proper runs, and the
    theorems on them. *)
From S2P Require Import Prelude Mem Context CString Snprintf Console Pmm Fdt Devices Spike Sv39 Vmm Space Kstate Mmode Sched Process NewProc Strap System Elf ElfLoad Boot Examples.

(** ** A device tree *)

Definition be32 (v : Z) : list byte := rev (le_split 4 v).
Definition text_ (t : string) : list byte := String.list_byte_of_string t ++ [Byte.x00].

(** Padding to a multiple of four bytes. *)
Definition padded (bs : list byte) : list byte :=
  bs ++ replicate (Z.to_nat (- Z.of_nat (length bs) mod 4)) Byte.x00.

Definition begin_ (name : string) : list byte := be32 FDT_BEGIN_NODE ++ padded (text_ name).
Definition prop_ (off : Z) (v : list byte) : list byte :=
  be32 FDT_PROP ++ be32 (Z.of_nat (length v)) ++ be32 off ++ padded v.

Definition sample_strings : list byte :=
  text_ "#address-cells" ++ text_ "#size-cells" ++ text_ "device_type" ++ text_ "reg" ++
  text_ "compatible".

Definition sample_struct : list byte :=
  begin_ "" ++ prop_ 0 (be32 2) ++ be32 FDT_NOP ++ prop_ 15 (be32 2) ++
    begin_ "memory@80000000" ++
      prop_ 27 (text_ "memory") ++
      prop_ 39 (be32 0 ++ be32 0x80000000 ++ be32 0 ++ be32 0x400000) ++
    be32 FDT_END_NODE ++
    begin_ "htif" ++ prop_ 43 (text_ "ucb,htif0") ++ be32 FDT_END_NODE ++
  be32 FDT_END_NODE ++ be32 FDT_END.

Definition sample_blob : list byte :=
  concat (map be32 [FDT_MAGIC; 0; 40; 40 + Z.of_nat (length sample_struct); 0; 17; 16; 0; 0; 0]) ++
  sample_struct ++ sample_strings.

Definition sample_fdt : Z := 0x1020.
Definition sample_path : list byte := String.list_byte_of_string "./obj/app".

(** The device tree in ROM, and a string in RAM. *)
Definition sample_rom : memory :=
  store_bytes (store_bytes ∅ 0x80003000 (sample_path ++ [Byte.x00])) sample_fdt sample_blob.

#[local] Instance sample_platform : Platform :=
  {| phys_ok a n := (0x1000 <=? a) && (a + n <=? 0x2000) |}.

Lemma sample_readable : readable 0x1000 0x2000.
Proof.
  split_and!; [done|done|]. intros a n H1 H2. simpl.
  by rewrite !(proj2 (Z.leb_le _ _)) by lia.
Qed.

Definition sample_sp : Z := sample_fdt + 40 + Z.of_nat (length sample_struct).

Definition sample_tree : dtree :=
  DNode (sample_fdt + 44)
    [DProp sample_sp (sample_fdt + 60) 4; DProp (sample_sp + 15) (sample_fdt + 80) 4]
    [DNode (sample_fdt + 88)
       [DProp (sample_sp + 27) (sample_fdt + 116) 7; DProp (sample_sp + 39) (sample_fdt + 136) 16] [];
     DNode (sample_fdt + 160) [DProp (sample_sp + 43) (sample_fdt + 180) 10] []].

Ltac tok := unfold token, room; split_and!; vm_compute; (reflexivity || discriminate).

(** The rules of the format with their addresses as equations. *)
Lemma fdt_props_cons_eq m lo hi strings a len off ps b name value next :
  token m lo hi a FDT_PROP /\ token m lo hi (a + 4) len /\ token m lo hi (a + 8) off ->
  len + 3 < 2 ^ 31 /\ room lo hi (a + 12) /\ room lo hi (strings + off) ->
  name = strings + off -> value = a + 12 -> next = a + 12 + 4 * ((len + 3) / 4) ->
  fdt_props m lo hi strings next ps b ->
  fdt_props m lo hi strings a (DProp name value len :: ps) b.
Proof. intros (? & ? & ?) (? & ? & ?) -> -> -> Hp. by apply (fdt_props_cons _ _ _ _ _ _ off). Qed.

Lemma fdt_node_eq m lo hi strings a bs ps b kids c name next e :
  token m lo hi a FDT_BEGIN_NODE /\ a + 4 + Z.of_nat (length bs) + 1 <= hi ->
  cstr m (a + 4) bs -> name = a + 4 -> next = a + 4 * (2 + Z.of_nat (length bs) / 4) ->
  fdt_props m lo hi strings next ps b -> fdt_nodes m lo hi strings b kids c ->
  token m lo hi c FDT_END_NODE -> e = c + 4 ->
  fdt_node m lo hi strings a (DNode name ps kids) e.
Proof. intros [? ?] ? -> -> ??? ->. by eapply fdt_node_intro. Qed.

Ltac eqn := vm_compute; reflexivity.
Ltac name_ok t :=
  eapply (fdt_node_eq _ _ _ _ _ (String.list_byte_of_string t));
  [tok|split; [no_nul|eqn]|eqn|eqn| | | |].
Ltac prop_ok n o :=
  eapply (fdt_props_cons_eq _ _ _ _ _ n o); [tok|tok|eqn|eqn|eqn|].
Ltac nop_ok := eapply fdt_props_nop; [tok|].

Lemma sample_fdt_blob : fdt_blob sample_rom 0x1000 0x2000 sample_sp sample_fdt [sample_tree].
Proof.
  split; [tok|]. split; [exists 16; split; [tok|vm_compute; discriminate]|].
  split; [exists (40 + Z.of_nat (length sample_struct)); split; [tok|done]|].
  exists 40. eexists. split; [tok|]. split.
  - eapply fdt_nodes_cons; [|apply fdt_nodes_nil].
    name_ok ""%string.
    + prop_ok 4 0. nop_ok. prop_ok 4 15. apply fdt_props_nil.
    + eapply fdt_nodes_cons; [|eapply fdt_nodes_cons; [|apply fdt_nodes_nil]].
      * name_ok "memory@80000000"%string;
          [prop_ok 7 27; prop_ok 16 39; apply fdt_props_nil|apply fdt_nodes_nil|tok|eqn].
      * name_ok "htif"%string; [prop_ok 10 43; apply fdt_props_nil|apply fdt_nodes_nil|tok|eqn].
    + tok.
    + eqn.
  - tok.
Qed.

Lemma sample_tree_room : tree_room 0x1000 0x2000 sample_tree.
Proof. repeat (constructor; try (split; tok)). Qed.

Lemma sample_sizes : list_sizes sample_rom 0x80001000 None (2, 1) [sample_tree] = [0x400000].
Proof. vm_compute. reflexivity. Qed.

Definition sample_boot_machine : machine := Machine sample_rom (replicate 31 0) ∅ 5 0 [].
Definition sample_boot_mm : mm := Mm sample_boot_machine 0 0 0 0 0.

Lemma query_mem_finds_witness :
  query_mem 1016 0x80001000 sample_fdt sample_boot_mm =
  Ok tt (put_size 0x400000 sample_boot_mm).
Proof.
  assert (H := query_mem_finds 0x80001000 0x1000 0x2000 sample_sp 1016 sample_fdt [sample_tree]
                 sample_boot_mm sample_readable ltac:(done) ltac:(vm_compute; discriminate)
                 sample_fdt_blob (Forall_cons_2 _ _ _ sample_tree_room (Forall_nil_2 _))
                 ltac:(vm_compute; reflexivity)).
  change (mem (mach (lget sample_boot_mm))) with sample_rom in H.
  rewrite sample_sizes in H. exact H.
Defined.

(** ** A kernel image at reset *)

Definition sample_image : image :=
  Image (KState (Mm (Machine sample_rom (<[10%nat := sample_fdt]> (replicate 31 0))
                       (<[misa := Z.shiftl 1 18]> ∅) 5 0 []) 0 0 0 0 0) [] None None 0 0)
        spike_start (HtifVar 0).

#[local] Instance sample_hart : Hart :=
  {| warl := fun _ v => v; stack0 := 0x8000c000; g_itrframe := 0x8000f000;
     s_start_addr := 0x80002000; mtrapvec_addr := 0x80005000; mem_done_addr := 0x80001000 |}.

Lemma sample_roots_room : Forall (tree_room 0x1000 0x2000) [sample_tree].
Proof. constructor; [apply sample_tree_room|constructor]. Qed.

Lemma fdt_scan_walks_witness :
  fdt_scan 1016 sample_fdt htif_cb (0, sample_image) =
  Ok tt (1, lput (HtifVar 1) sample_image).
Proof.
  etransitivity.
  - apply (fdt_scan_walks htif_cb 0x1000 0x2000 sample_sp 1016 sample_fdt [sample_tree]
             (0, sample_image) sample_readable (quiet_htif_cb _)
             ltac:(done) ltac:(vm_compute; discriminate) sample_fdt_blob).
  - vm_compute. reflexivity.
Defined.

Lemma query_htif_finds_witness :
  query_htif 1016 sample_fdt sample_image = Ok tt (lput (HtifVar 1) sample_image).
Proof.
  rewrite (query_htif_finds 0x1000 0x2000 sample_sp 1016 sample_fdt [sample_tree] sample_image
             sample_readable ltac:(done) ltac:(vm_compute; discriminate) sample_fdt_blob
             sample_roots_room).
  vm_compute. reflexivity.
Defined.

Lemma sample_good_dtb :
  good_dtb (smem sample_image) 1016 sample_fdt [sample_tree] 0x400000.
Proof.
  exists 0x1000, 0x2000, sample_sp.
  split; [exact sample_readable|]. split; [done|]. split; [vm_compute; discriminate|].
  split; [exact sample_fdt_blob|]. split; [exact sample_roots_room|].
  split; [vm_compute; reflexivity|]. split; [vm_compute; reflexivity|done].
Qed.

Lemma mentry_reaches_s_start_witness :
  exists s', _mentry 1016 sample_image = Ok (1, 0x80002000) s' /\
    g_mem_size (kmm (ik s')) = 0x400000 /\ htif (ihtif s') = 1.
Proof.
  destruct (mentry_reaches_s_start 1016 sample_fdt [sample_tree] 0x400000 sample_image
              eq_refl sample_good_dtb ltac:(done) ltac:(vm_compute; reflexivity)
              ltac:(vm_compute; split; [discriminate|reflexivity]) ltac:(vm_compute; reflexivity)
              ltac:(vm_compute; reflexivity) ltac:(vm_compute; reflexivity))
    as (s' & E & _ & _ & _ & Hm & _ & Hh & _).
  exists s'. split; [exact E|]. split; [exact Hm|]. rewrite Hh. vm_compute. reflexivity.
Defined.

(** A timer interrupt. *)
Definition sample_ticking : image :=
  lput (set_csrs (<[mscratch := 0x8000f000]> (<[mcause := CAUSE_MTIMER]> ∅))
          (lget (Lens := lens_image_machine) sample_image)) sample_image.

Lemma timer_trap_transparent_witness :
  exists s', mtrapvec sample_ticking = Ok (0, 0) s' /\
    gpr (lget s') !! 10%nat = Some sample_fdt /\ gpr (lget s') !! 30%nat = Some 0x8000f000 /\
    mtimecmp (lget s') = TIMER_INTERVAL.
Proof.
  destruct (wp_ok _ _ _ (timer_trap_transparent sample_ticking _ eq_refl
              ltac:(vm_compute; reflexivity) ltac:(vm_compute; reflexivity)
              ltac:(split; vm_compute; discriminate) ltac:(vm_compute; reflexivity) ltac:(done)))
    as (r & s' & E & Hr & Hg & _ & _ & Ht & _).
  exists s'. split; [rewrite E, Hr; vm_compute; reflexivity|]. rewrite Hg, Ht. vm_compute. by split_and!.
Defined.

(** ** Host files *)

(** A host that answers every request with 5. *)
#[local] Instance sample_host : Host := { host_call w k := (5 :: tl w, k) }.

Definition sample_files : image := lput (std_files 3) sample_image.

Lemma sample_path_cstr : cstr (smem sample_files) 0x80003000 sample_path.
Proof. split; [apply (bool_decide_unpack _); vm_compute; exact I|by vm_compute]. Qed.

Lemma openat_takes_slot_witness :
  exists i s', spike_file_openat AT_FDCWD 0x80003000 O_RDONLY 0 sample_files = Ok (FFile i) s' /\
    spike_files (lget s') !! i = Some (SpikeFile 5 3) /\ free_slots (lget s') = 124%nat.
Proof.
  assert (H := openat_takes_slot AT_FDCWD 0x80003000 sample_path O_RDONLY 0 sample_files
                 eq_refl ltac:(vm_compute; reflexivity) sample_path_cstr
                 ltac:(split; vm_compute; discriminate)).
  rewrite decide_False in H by (vm_compute; discriminate). cbv zeta in H.
  destruct H as (p & s' & E & Hf & _ & _ & _ & i & -> & Hi).
  exists i, s'. split; [exact E|]. split; [exact Hi|].
  change (free_slots (lget sample_files)) with 125%nat in Hf. lia.
Defined.

Definition sample_opened : image :=
  lput (set_spike_files (<[3%nat := SpikeFile 5 3]> (spike_files (std_files 3))) (std_files 3))
       sample_image.

Lemma close_after_open_leaks_witness :
  exists s', spike_file_close (FFile 3) sample_opened = Ok (-1) s' /\
    spike_files (lget s') !! 3%nat = Some (SpikeFile 5 2).
Proof.
  destruct (close_after_open_leaks 3 5 sample_opened ltac:(done) eq_refl
              ltac:(exists None; split; [reflexivity|discriminate])) as (s' & E & _ & Hf & _).
  exists s'. split; [exact E|]. rewrite Hf. vm_compute. reflexivity.
Defined.

Lemma spike_file_init_std_witness :
  exists s', spike_file_init sample_image = Ok tt s' /\
    spike_files (lget s') !! 2%nat = Some (SpikeFile 2 4).
Proof. eexists. split; [exact (spike_file_init_std sample_image eq_refl)|reflexivity]. Defined.

(** ** A program *)

Definition le (n : nat) (v : Z) : list byte := le_split n v.

(** An ELF file with a code segment of sixteen bytes and a data segment. *)
Definition sample_elf : list byte :=
  le 4 ELF_MAGIC ++ replicate 12 Byte.x00 ++ le 2 2 ++ le 2 243 ++ le 4 1 ++ le 8 0x10078 ++
  le 8 64 ++ le 8 0 ++ le 4 0 ++ le 2 64 ++ le 2 56 ++ le 2 2 ++ le 2 0 ++ le 2 0 ++ le 2 0 ++
  (le 4 1 ++ le 4 5 ++ le 8 176 ++ le 8 0x10000 ++ le 8 0x10000 ++ le 8 16 ++ le 8 16 ++ le 8 0x1000) ++
  (le 4 1 ++ le 4 6 ++ le 8 192 ++ le 8 0x11000 ++ le 8 0x11000 ++ le 8 8 ++ le 8 8 ++ le 8 0x1000) ++
  le 8 0x13 ++ le 8 0x73 ++ le 8 0x1234.

(** A host with this file, and its name as the argument of the kernel. *)
Definition sample_serve (w : list Z) (k : machine) : Z * machine :=
  let arg i := nth i w 0 in
  let n := arg 0%nat in
  if n =? HTIFSYS_getmainvars then
    (0, set_mem (st64 (st64 (st64 (mem k) (arg 1%nat) 2) (arg 1%nat + 8) 0) (arg 1%nat + 16) 0x80003000) k)
  else if n =? HTIFSYS_openat then (3, k)
  else if n =? HTIFSYS_pread then
    let bs := take (Z.to_nat (arg 3%nat)) (drop (Z.to_nat (arg 4%nat)) sample_elf) in
    (Z.of_nat (length bs), set_mem (store_bytes (mem k) (arg 2%nat) bs) k)
  else (0, k).

Definition sample_elf_host : Host :=
  {| host_call w k := let '(r, k') := sample_serve w k in (r :: tl w, k') |}.

#[export] Instance sample_stack : ElfStack :=
  {| arg_bug_msg := 0x8000a000; elfloader := 0x8000a400; ph_addr := 0x8000a500 |}.

Definition sample_at_s_start : image :=
  Image (set_kmm (set_g_mem_size 0x400000 sample_boot_mm) (ik sample_image)) spike_start (HtifVar 1).

Lemma s_start_enters_user_witness :
  exists e s', s_start (H0 := sample_elf_host) sample_at_s_start = Stop e s' /\
    (is_error e \/ e = SRet).
Proof.
  destruct (s_start_enters_user (HH := sample_elf_host) sample_at_s_start eq_refl eq_refl
    ltac:(vm_compute; split; [discriminate|reflexivity])) as (e & s' & E & He).
  exists e, s'. split; [exact E|]. destruct He as [He|[He _]]; [by left|by right].
Defined.

(** The program of this host does start: from pmm_init on, with the kernel page
    table left out (it maps 2^15 pages). *)
Definition entered {A} (r : outcome image A) : bool :=
  match r with Stop SRet _ => true | _ => false end.

Definition start_program : M image unit :=
  (zoom pmm_init ;;;
   zoom init_proc_pool ;;;
   proc <- load_user_program (H0 := sample_elf_host) ;;
   zoom (insert_to_ready_queue proc) ;;;
   zoom schedule).

Lemma sample_program_starts :
  entered (start_program (lput (Lens := lens_image_mm)
    (set_g_mem_size 0x40000 sample_boot_mm) sample_at_s_start)) = true.
Proof. vm_compute. reflexivity. Qed.

Lemma machine_refines_scheduler_witness :
  exists e s1, (_mentry 1016 ;;; s_start (H0 := sample_elf_host)) sample_image = Stop e s1 /\
    (is_error e \/ e = SRet).
Proof.
  destruct (machine_refines_scheduler (HH := sample_elf_host) 1016 sample_fdt [sample_tree]
              0x400000 sample_image eq_refl eq_refl sample_good_dtb ltac:(done)
              ltac:(vm_compute; reflexivity)
              ltac:(vm_compute; split; [discriminate|reflexivity]) ltac:(vm_compute; reflexivity)
              ltac:(vm_compute; reflexivity) ltac:(vm_compute; reflexivity))
    as (e & s1 & E & He).
  exists e, s1. split; [exact E|]. destruct He as [He|[He _]]; [by left|by right].
Defined.

(** ** The loader *)

(** A process with an empty address space, and the header of the file in the
    variables of the loader. *)
Definition loader_process : process :=
  Process 0x8000d000 sample_root 0x8000b000 0x80000000 3 0 FREE None None 0.

Definition loader_space : mm :=
  put_mem (store_bytes (smem (sample_mm 8)) 0x8000a408 (take 64 sample_elf)) (sample_mm 8).

Definition loader_image : image :=
  Image (KState loader_space [loader_process] None None 0 0)
    (Spike [SpikeFile 3 1] [] (replicate 8 0) 0) (HtifVar 1).

Lemma sample_host_file : host_file (H := sample_elf_host) 3 sample_elf.
Proof.
  intros k dest nb off Hd Hnb Hoff Hlen r.
  assert (length sample_elf = 200%nat) as El by (vm_compute; reflexivity). rewrite El in Hlen.
  subst r. cbn [host_call sample_elf_host map]. rewrite !u64_small by (unfold HTIFSYS_pread; lia).
  unfold sample_serve. cbn [nth List.hd].
  change (HTIFSYS_pread =? HTIFSYS_getmainvars) with false.
  change (HTIFSYS_pread =? HTIFSYS_openat) with false. change (HTIFSYS_pread =? HTIFSYS_pread) with true.
  cbv iota. split; [|reflexivity]. cbn [fst List.hd]. apply length_file_bytes; lia.
Qed.

Lemma loader_aspace :
  aspace loader_space (smem loader_space) sample_root [] (sample_pages 8) (fun _ => 0).
Proof.
  destruct (sample_vm_inv 8 ltac:(lia)) as (HI & He & Ht).
  apply (aspace_write (sample_mm 8) (smem (sample_mm 8)) sample_root [] (sample_pages 8) (fun _ => 0)
           0x8000a000).
  - split; [exact HI| |by intros va _|done]. intros p. rewrite Ht. split; [by left|].
    intros [?|H]; [done|by apply elem_of_nil in H].
  - split; [by split_and!|done|apply not_elem_of_nil|].
    intros Hi%elem_of_page_seq. destruct Hi as (i & Hi & E). consts. lia.
  - lia.
  - vm_compute. discriminate.
Qed.

Lemma loader_private p :
  ram_page p -> p = 0x80000000 \/ 0x8000a000 <= p -> private p sample_root [] (sample_pages 8).
Proof.
  intros Hr Hp. split; [done|unfold sample_root; lia|apply not_elem_of_nil|].
  intros Hi%elem_of_page_seq. destruct Hi as (i & Hi & E). consts. lia.
Qed.

Definition sample_segments : list segment :=
  [Seg 1 5 176 0x10000 16 16; Seg 1 6 192 0x11000 8 8].

Lemma sample_loadable : loadable sample_elf 64 2 = sample_segments.
Proof. vm_compute. reflexivity. Qed.

Lemma sample_segments_ok f :
  f 0x10000 = 0 -> f 0x11000 = 0 ->
  Forall (fun g => seg_ok sample_elf f g /\ sg_vaddr g <> 0) sample_segments.
Proof.
  intros Hf1 Hf2. repeat constructor; try (cbn [sg_vaddr]; rewrite ?Hf1, ?Hf2; reflexivity); try discriminate; try (vm_compute; discriminate);
    first [exact eq_refl|vm_compute; reflexivity|eexists; reflexivity].
Qed.

Lemma sample_loader_ok f :
  f 0x10000 = 0 -> f 0x11000 = 0 ->
  loader_ok (HH := sample_elf_host) sample_elf 0 3 0 loader_process 0x80000000 sample_root 0x8000a000
    0x8000a000 64 2 0 loader_image (smem loader_space) f (sample_pages 8).
Proof.
  intros Hf1 Hf2. split; try done.
  - exact sample_host_file.
  - split; [done|by exists 1|done].
  - split_and!; [discriminate|discriminate|left; vm_compute; discriminate].
  - rewrite sample_loadable. by apply sample_segments_ok.
  - rewrite sample_loadable. apply (bool_decide_unpack _). vm_compute. exact I.
  - rewrite sample_loadable. vm_compute. lia.
  - rewrite sample_loadable. split_and!; [done|vm_compute; discriminate|lia|].
    intros j Hj. rewrite (loadn_same_on 8 _ ∅); [done|].
    unfold loader_space. rewrite smem_put_mem. unfold region, mr_va.
    etransitivity; [apply store_bytes_same_on; left; lia|].
    apply link_mem_below. apply Forall_forall. intros p Hp.
    apply elem_of_page_seq in Hp as (x & Hx & ->). consts. lia.
Qed.

Lemma elf_load_loads_witness :
  exists s' q1 q2,
    elf_load (H0 := sample_elf_host) elfloader (ElfInfo (FFile 0) (Some 0%nat)) loader_image = Ok EL_OK s' /\
    entry (smem s') sample_root 0x10000 = map_pte q1 elf_perm /\
    page_holds (smem s') q1 (le 8 0x13 ++ le 8 0x73) /\
    entry (smem s') sample_root 0x11000 = map_pte q2 elf_perm /\
    page_holds (smem s') q2 (le 8 0x1234) /\
    region_at (smem s') 0x80000000 1 = (0x11000, 1, DATA_SEGMENT) /\
    entry (smem s') sample_root 0x12000 = 0.
Proof.
  destruct (wp_ok _ _ _ (elf_load_loads (HH := sample_elf_host) sample_elf 0 3 0 loader_process
    0x80000000 sample_root 0x8000a000 0x8000a000 64 2 0 loader_image (smem loader_space)
    (fun _ => 0) [] (sample_pages 8) (sample_loader_ok (fun _ => 0) eq_refl eq_refl) loader_aspace
    ltac:(split; [apply loader_private; [by split_and!|right; vm_compute; discriminate]|split; vm_compute; discriminate])
    (loader_private 0x80000000 ltac:(by split_and!) ltac:(by left))
    (loader_private 0x8000a000 ltac:(by split_and!) ltac:(right; vm_compute; discriminate))))
    as (r & s' & E & -> & qs & _ & Hlen & Hseg & Hother & _).
  rewrite sample_loadable in *. destruct qs as [|q1 [|q2 [|]]]; try discriminate Hlen.
  destruct (Hseg 0%nat _ q1 eq_refl eq_refl) as (E1 & P1 & _).
  destruct (Hseg 1%nat _ q2 eq_refl eq_refl) as (E2 & P2 & R2).
  exists s', q1, q2. split_and!; [exact E|exact E1|exact P1|exact E2|exact P2|exact R2|].
  apply Hother; [lia|]. repeat constructor; vm_compute; discriminate.
Defined.
