(* ===== verification/AppExamples.v ===== *)
(** One run of the application by evaluation: from reset, through the loader, to
    the end of the last process. *)
From S2P Require Import Prelude Mem Context CString Snprintf Console Pmm Fdt Devices Spike Sv39 Vmm Kstate Mmode Sched Process Strap System Elf Boot Examples BootExamples App.

#[local] Existing Instances sample_platform sample_hart sample_stack.

(** The code is in the page at 0x10000 and [flag] in the one at 0x11000, as in
    the file of [sample_elf_host]. *)
#[local] Instance sample_app : AppImage := {|
  app_entry := 0x10078; flag_addr := 0x11000; out_addr := 0x7fffe800; access_pc := 0x10080;
  fork_pc := 0x10090; fork_pc' := 0x10100; grandchild_printu_pc := 0x10110;
  child_wait_pc := 0x10120; child_printu_pc := 0x10130; parent_wait_pc := 0x10140;
  parent_printu_pc := 0x10150; exit_pc := 0x10160 |}.

(** From reset to the first return to user mode, then the application.  The
    start of the kernel is [start_program]: its own page table is left out. *)
Definition power_on (n : nat) (s : image) : outcome kstate Z :=
  match (_mentry 1016 ;;; start_program) s with
  | Stop SRet s' => run_program app_code n (ik s')
  | Stop e s' => Stop e (ik s')
  | Ok _ s' => Stop Undefined (ik s')
  end.

(** The lines on the console from the text [t] on. *)
Fixpoint from_line (t : string) (ls : list string) : list string :=
  match ls with
  | [] => []
  | l :: ls' => if String.eqb l t then ls else from_line t ls'
  end.

Definition report (r : outcome kstate Z) : stop * list string :=
  match r with
  | Stop e s => (e, from_line "going to schedule process 0 to run.
" (map String.string_of_list_byte (Mem.console (lget s))))
  | Ok _ _ => (Undefined, [])
  end.

(** A sample run, by evaluation: the application loaded into one image of the
    memory, from reset to power off, without the page table of the kernel.  The
    three processes print their own value of [flag], and the exit of the last
    one shuts the machine down with 0.  Nobody waits: the parent prints and
    exits first, before its child and its grandchild.  The grandchild finds no
    page for [flag]; its store is a page fault, which the kernel cures. *)
Example app_wait_sample : report (power_on 20 sample_image) = (Shutdown 0, [
"going to schedule process 0 to run.
"; "User call fork.
"; "will fork a child from parent 0.
"; "in alloc_proc. user frame 0x00000000803f0000, user stack 0x000000007ffff000, user kstack 0x00000000803ef000 
"; "do_fork map code segment at pa:00000000803f4000 of parent to child at va:0000000000010000.
"; "going to insert process 1 to ready queue.
"; "going to insert process 0 to ready queue.
"; "going to schedule process 1 to run.
"; "User call fork.
"; "will fork a child from parent 1.
"; "in alloc_proc. user frame 0x00000000803e3000, user stack 0x000000007ffff000, user kstack 0x00000000803e2000 
"; "do_fork map code segment at pa:00000000803f4000 of parent to child at va:0000000000010000.
"; "going to insert process 2 to ready queue.
"; "going to insert process 1 to ready queue.
"; "going to schedule process 0 to run.
"; "Parent process end, flag = 0.
"; "User exit with code:0.
"; "going to schedule process 2 to run.
"; "handle_page_fault: 0000000000011000
"; "Grandchild process end, flag = 2.
"; "User exit with code:0.
"; "going to schedule process 1 to run.
"; "Child process end, flag = 1.
"; "User exit with code:0.
"; "no more ready processes, system shutdown now.
"; "System is shutting down with exit code 0.
"]%string).
Proof. vm_compute. reflexivity. Qed.
