(* ===== verification/ForkExamples.v ===== *)
(** A process with a code and a data segment: do_fork, and what the library does for it: printu and fork. *)
From S2P Require Import Prelude Mem Context CString Snprintf Console Pmm Sv39 Vmm Space Kstate Sched Process NewProc Fork Syscall Strap User UserFork Examples.

Definition fork_pages : list Z := page_seq 0x80010000 24.

Definition fork_root : Z := 0x8000e000.
Definition fork_info : Z := 0x8000f000.
Definition fork_frame : Z := 0x8000d000.
Definition fork_data_page : Z := 0x8000a000.

(** The registers of the machine while the process runs. *)
Definition fork_csrs : gmap Z Z :=
  <[sscratch := fork_frame]> (<[stvec := u64 smode_trap_vector]>
    (<[satp := u64 (MAKE_SATP fork_root)]> ∅)).

(** An empty page table. *)
Definition fork_mm0 : mm :=
  Mm (Machine (link_mem fork_pages) (replicate 31 0) fork_csrs 0 0 [])
     0x80010000 PHYS_TOP 0x80010000 PKE_MAX_ALLOWABLE_RAM 0.

Lemma fork_pages_above p : p ∈ fork_pages -> 0x80010000 <= p.
Proof. intros (i & Hi & ->)%elem_of_page_seq. consts. lia. Qed.

Lemma fork_pages_free : pmm_free fork_mm0 fork_pages.
Proof.
  assert (Forall (managed fork_mm0) fork_pages) as Hm.
  { apply Forall_forall. intros p (i & Hi & ->)%elem_of_page_seq. unfold managed, ram_page, page_aligned.
    simpl. consts. split_and!; try lia. dlia. }
  assert (NoDup fork_pages) as Hnd by (apply (bool_decide_unpack _); vm_compute; exact I).
  split_and!; [|done|done]. change (linked (link_mem fork_pages) (List.hd 0 fork_pages) fork_pages).
  apply link_mem_linked; [done|]. eapply Forall_impl; [exact Hm|]. by intros p [Hp _].
Qed.

Lemma fork_private p taken l' :
  ram_page p -> p < 0x80010000 -> p <> fork_root -> fork_pages = taken ++ l' -> private p fork_root taken l'.
Proof.
  intros Hr Hp Hn E. split; [done|done|intros H..].
  all: assert (p ∈ fork_pages) as H' by (rewrite E; apply elem_of_app; auto).
  all: apply fork_pages_above in H'; lia.
Qed.

Lemma fork_space0 : aspace fork_mm0 (link_mem fork_pages) fork_root [] fork_pages (fun _ => 0).
Proof.
  destruct (pt_wf_empty (link_mem fork_pages) fork_root) as (Hwf & Ht & He).
  - by split_and!.
  - intros i Hi. rewrite (loadn_same_on 8 _ ∅); [done|]. apply link_mem_below.
    apply Forall_forall. intros p Hp%fork_pages_above. unfold index_ok, fork_root in *. lia.
  - split; [|intros p; rewrite elem_of_nil; change (smem fork_mm0) with (link_mem fork_pages); rewrite Ht; tauto
             |intros va _; apply He|done].
    split_and!; [done|apply fork_pages_free|]. intros p Hp%fork_pages_above Hin. apply Ht in Hin as ->.
    unfold fork_root in Hp. lia.
Qed.

(** The stack, a page of code and a page of data are mapped. *)
Definition fork_map : M mm unit :=
  zoom (user_vm_map fork_root stack_va PGSIZE 0x8000c000 stack_perm) ;;;
  zoom (user_vm_map fork_root 0x10000 PGSIZE 0x8000b000 stack_perm) ;;;
  zoom (user_vm_map fork_root 0x11000 PGSIZE fork_data_page stack_perm) ;;;
  ret tt.

Definition fork_entries : Z -> Z := map_all (fun _ => 0)
  [(stack_va, 0x8000c000, stack_perm); (0x10000, 0x8000b000, stack_perm); (0x11000, fork_data_page, stack_perm)].

(** The table of regions, and data. *)
Definition fork_regions (m : memory) : memory :=
  let m := region_mem m fork_info 0 stack_va 1 STACK_SEGMENT in
  let m := region_mem m fork_info 1 fork_frame 1 CONTEXT_SEGMENT in
  let m := region_mem m fork_info 2 trap_sec_start 1 SYSTEM_SEGMENT in
  let m := region_mem m fork_info 3 0x10000 1 CODE_SEGMENT in
  region_mem m fork_info 4 0x11000 1 DATA_SEGMENT.

Definition fork_dress (t : mm) : mm :=
  put_mem (st64 (st64 (st64 (fork_regions (smem t)) (fork_frame + 8 * 2) 0x1234)
    (fork_frame + tf_kernel_trap) (u64 smode_trap_handler_addr)) fork_data_page 0xbeef) t.

Definition fork_mm : mm := fork_dress (final (fork_map fork_mm0)).

Lemma fork_map_space :
  exists t taken l', fork_map fork_mm0 = Ok tt t /\ fork_pages = taken ++ l' /\ (length taken <= 6)%nat /\
    aspace t (link_mem fork_pages) fork_root taken l' fork_entries.
Proof.
  assert (wp fork_map (fun _ t => exists taken l', fork_pages = taken ++ l' /\ (length taken <= 6)%nat /\
    aspace t (link_mem fork_pages) fork_root taken l' fork_entries) never fork_mm0) as H.
  { unfold fork_map.
    apply (sp_map (L := lens_id mm) _ _ _ _ _ fork_mm0 _ _ _ _ _ _ fork_space0);
      [reflexivity|split; vm_compute; congruence|reflexivity|split; vm_compute; congruence|vm_compute; reflexivity|vm_compute; lia|].
    intros s1 t1 l1 _ E1 Ht1 H1.
    assert (length fork_pages = 24%nat) as Hlen by (vm_compute; reflexivity).
    rewrite E1, length_app in Hlen.
    apply (sp_map (L := lens_id mm) _ _ _ _ _ s1 _ _ _ _ _ _ H1);
      [reflexivity|split; vm_compute; congruence|reflexivity|split; vm_compute; congruence|vm_compute; reflexivity|lia|].
    intros s2 t2 l2 _ E2 Ht2 H2. rewrite E2, length_app in Hlen.
    apply (sp_map (L := lens_id mm) _ _ _ _ _ s2 _ _ _ _ _ _ H2);
      [reflexivity|split; vm_compute; congruence|reflexivity|split; vm_compute; congruence|vm_compute; reflexivity|lia|].
    intros s3 t3 l3 _ E3 Ht3 H3. apply wp_ret.
    exists (((([] ++ t1) ++ t2) ++ t3)), l3. split; [by rewrite E1, E2, E3, <- !app_assoc|].
    split; [rewrite !length_app; simpl; lia|exact H3]. }
  destruct (wp_ok _ _ _ H) as ([] & t & E & taken & l' & H1 & H2 & H3). exists t, taken, l'. exact (conj E (conj H1 (conj H2 H3))).
Qed.

Lemma aspace_store t m root taken l f p k a v :
  aspace t m root taken l f -> private p root taken l -> p <= a -> a + Z.of_nat k <= p + PGSIZE ->
  aspace (put_mem (storen k (smem t) a v) t) (storen k m a v) root taken l f.
Proof.
  intros HA Hp Hlo Hhi. apply (aspace_write t m root taken l f p); [done|done|done|].
  by rewrite length_le_split.
Qed.

(** Writing a region. *)
Lemma aspace_region t m root taken l f info i va n ty :
  aspace t m root taken l f -> private info root taken l -> 0 <= i < 256 ->
  aspace (put_mem (region_mem (smem t) info i va n ty) t) (region_mem m info i va n ty) root taken l f.
Proof.
  intros HA Hp Hi. unfold region_mem.
  unfold region, mr_va, mr_npages, mr_seg_type.
  pose proof (aspace_store _ _ _ _ _ _ _ 8%nat (info + 16 * i + 0) va HA Hp ltac:(lia) ltac:(consts; lia)) as H1.
  pose proof (aspace_store _ _ _ _ _ _ _ 4%nat (info + 16 * i + 8) n H1 Hp ltac:(lia) ltac:(consts; lia)) as H2.
  pose proof (aspace_store _ _ _ _ _ _ _ 4%nat (info + 16 * i + 12) ty H2 Hp ltac:(lia) ltac:(consts; lia)) as H3.
  by rewrite !smem_put_mem, !put_mem_put_mem in H3.
Qed.

Lemma fork_dress_space t m taken l f :
  aspace t m fork_root taken l f -> private fork_info fork_root taken l ->
  private fork_frame fork_root taken l -> private fork_data_page fork_root taken l ->
  exists m', aspace (fork_dress t) m' fork_root taken l f.
Proof.
  intros HA P1 P2 P3. unfold fork_dress, fork_regions. cbv zeta.
  pose proof (aspace_region _ _ _ _ _ _ _ 0 stack_va 1 STACK_SEGMENT HA P1 ltac:(lia)) as H1.
  pose proof (aspace_region _ _ _ _ _ _ _ 1 fork_frame 1 CONTEXT_SEGMENT H1 P1 ltac:(lia)) as H2.
  pose proof (aspace_region _ _ _ _ _ _ _ 2 trap_sec_start 1 SYSTEM_SEGMENT H2 P1 ltac:(lia)) as H3.
  pose proof (aspace_region _ _ _ _ _ _ _ 3 0x10000 1 CODE_SEGMENT H3 P1 ltac:(lia)) as H4.
  pose proof (aspace_region _ _ _ _ _ _ _ 4 0x11000 1 DATA_SEGMENT H4 P1 ltac:(lia)) as H5.
  assert (fork_frame <= fork_frame + 8 * 2 /\ fork_frame + 8 * 2 + Z.of_nat 8 <= fork_frame + PGSIZE) as [L1 L2]
    by (consts; lia).
  pose proof (aspace_store _ _ _ _ _ _ fork_frame 8 (fork_frame + 8 * 2) 0x1234 H5 P2 L1 L2) as H6.
  assert (fork_data_page <= fork_data_page /\ fork_data_page + Z.of_nat 8 <= fork_data_page + PGSIZE) as [L3 L4]
    by (consts; lia).
  assert (fork_frame <= fork_frame + tf_kernel_trap /\
    fork_frame + tf_kernel_trap + Z.of_nat 8 <= fork_frame + PGSIZE) as [L5 L6] by (unfold tf_kernel_trap; consts; lia).
  pose proof (aspace_store _ _ _ _ _ _ fork_frame 8 (fork_frame + tf_kernel_trap)
    (u64 smode_trap_handler_addr) H6 P2 L5 L6) as H7.
  pose proof (aspace_store _ _ _ _ _ _ fork_data_page 8 fork_data_page 0xbeef H7 P3 L3 L4) as H8.
  rewrite !smem_put_mem, !put_mem_put_mem in H8. eexists. exact H8.
Qed.

Lemma fork_space :
  exists m taken l', fork_pages = taken ++ l' /\ (length taken <= 6)%nat /\
    aspace fork_mm m fork_root taken l' fork_entries.
Proof.
  destruct fork_map_space as (t & taken & l' & E & El & Ht & HA).
  assert (ram_page fork_info) as R1 by (by split_and!).
  assert (ram_page fork_frame) as R2 by (by split_and!).
  assert (ram_page fork_data_page) as R3 by (by split_and!).
  destruct (fork_dress_space t _ taken l' _ HA) as [m' HA'].
  - by apply fork_private.
  - by apply fork_private.
  - by apply fork_private.
  - exists m', taken, l'. split; [exact El|]. split; [exact Ht|].
    unfold fork_mm. rewrite E. exact HA'.
Qed.

Lemma fork_mm_facts :
  g_free_mem_list fork_mm = 0x80014000 /\ free_mem_start_addr fork_mm = 0x80010000 /\
  region_at (smem fork_mm) fork_info 0 = (stack_va, 1, STACK_SEGMENT) /\
  region_at (smem fork_mm) fork_info 1 = (fork_frame, 1, CONTEXT_SEGMENT) /\
  region_at (smem fork_mm) fork_info 2 = (trap_sec_start, 1, SYSTEM_SEGMENT) /\
  region_at (smem fork_mm) fork_info 3 = (0x10000, 1, CODE_SEGMENT) /\
  region_at (smem fork_mm) fork_info 4 = (0x11000, 1, DATA_SEGMENT) /\
  lookup_val (entry (smem fork_mm) fork_root stack_va) = 0x8000c000 /\
  lookup_val (entry (smem fork_mm) fork_root 0x10000) = 0x8000b000 /\
  lookup_val (entry (smem fork_mm) fork_root 0x11000) = fork_data_page /\
  ld64 (smem fork_mm) (fork_frame + 8 * 2) = 0x1234 /\ ld64 (smem fork_mm) fork_data_page = 0xbeef /\
  ld64 (smem fork_mm) (fork_frame + tf_kernel_trap) = u64 smode_trap_handler_addr /\
  entry (smem fork_mm) fork_root (stack_va + 0x800) = map_pte 0x8000c000 stack_perm /\
  gpr (lget fork_mm) = replicate 31 0 /\ csr sscratch (lget fork_mm) = fork_frame /\
  csr stvec (lget fork_mm) = u64 smode_trap_vector /\ csr satp (lget fork_mm) = u64 (MAKE_SATP fork_root).
Proof. vm_compute. repeat split. Qed.

Lemma fork_mm_space :
  exists m taken, (forall p, p ∈ taken -> p ∉ page_seq 0x80014000 20 /\ p ∈ fork_pages) /\
    aspace fork_mm m fork_root taken (page_seq 0x80014000 20) fork_entries.
Proof.
  destruct fork_space as (m & taken & l' & El & Ht & HA).
  assert (l' = drop (length taken) fork_pages) as El' by (by rewrite El, drop_app_length).
  assert (List.hd 0 l' = 0x80014000) as Hh.
  { pose proof (as_inv _ _ _ _ _ _ HA) as (_ & (Hl & _) & _).
    rewrite (proj1 fork_mm_facts) in Hl. destruct l' as [|p l']; [discriminate Hl|]. symmetry. apply Hl. }
  assert (length taken = 4%nat) as E4.
  { rewrite El' in Hh. destruct (length taken) as [|[|[|[|[|[|[|]]]]]]]; try lia; discriminate Hh. }
  rewrite E4 in El'. assert (l' = page_seq 0x80014000 20) as -> by (rewrite El'; vm_compute; reflexivity).
  exists m, taken. split; [|exact HA]. intros p Hp.
  split; [|rewrite El; apply elem_of_app; by left]. intros Hn.
  pose proof fork_pages_free as (_ & Hnd & _). rewrite El in Hnd. apply NoDup_app in Hnd as (_ & Hnd & _).
  by apply (Hnd p).
Qed.

Definition fork_parent : process :=
  Process 0x80009000 fork_root fork_frame fork_info 5 0 READY None None 0.

Definition fork_kstate : kstate :=
  KState fork_mm (fork_parent :: ((fun i => set_pid i zero_process) <$> seqZ 1 31)) (Some 0%nat) None 0 0.

Definition fork_segs_ : list seg := [(0x10000, CODE_SEGMENT); (0x11000, DATA_SEGMENT)].

Lemma fork_kept p :
  ram_page p -> p < 0x80010000 -> kept (page_seq 0x80014000 20) p.
Proof.
  intros Hr Hp. split; [exact Hr|]. intros (i & Hi & ->)%elem_of_page_seq. consts. lia.
Qed.

Lemma fork_kept_all :
  Forall (kept (page_seq 0x80014000 20)) [fork_info; fork_frame; 0x8000c000; 0x8000b000; fork_data_page].
Proof. repeat (apply Forall_cons; split; [apply fork_kept; [by split_and!|reflexivity]|]). done. Qed.

Lemma fork_parent_ok :
  parent_ok (smem fork_kstate) (page_seq 0x80014000 20) fork_parent fork_segs_.
Proof.
  destruct fork_mm_facts as (_ & _ & R0 & R1 & R2 & R3 & R4 & P0 & P1 & P2 & _).
  destruct fork_mm_space as (m & taken & Htk & HA). pose proof HA as [(Hwf & _ & Hd) Ht _ _].
  change (smem fork_kstate) with (smem fork_mm).
  pose proof fork_kept_all as Hk. rewrite !Forall_cons in Hk. destruct Hk as (K1 & K2 & K3 & K4 & K5 & _).
  split.
  - exact K1.
  - exact K2.
  - exact Hwf.
  - intros p Hp Hn. by apply (Hd p).
  - reflexivity.
  - vm_compute. discriminate.
  - exact R0.
  - exact R1.
  - exact R2.
  - intros [|[|x]] g Hg; [injection Hg as <-; exact R3|injection Hg as <-; exact R4|discriminate Hg].
  - unfold parent_page. change (pagetable fork_parent) with fork_root. rewrite P0. exact K3.
  - apply Forall_cons; split; [|apply Forall_cons; split; [|done]]; cbn [fst snd];
      unfold parent_page, stack_va, USER_STACK_TOP; change (pagetable fork_parent) with fork_root;
      rewrite ?P1, ?P2; (split; [consts; lia|split; [exact K4 || exact K5|]]).
    + by left.
    + right. by split.
  - apply (bool_decide_unpack _). vm_compute. exact I.
Qed.

Definition fork_free : list Z := page_seq 0x80014000 20.

Lemma fork_ok_sample :
  fork_ok fork_kstate 0 fork_parent fork_segs_ 1 (set_pid 1 zero_process) [] 0x80014000 0x80015000
    0x80016000 0x80017000 0x80018000 (page_seq 0x80019000 15).
Proof.
  split.
  - reflexivity.
  - split; [reflexivity|discriminate].
  - intros [|j] p Hj Hp; [injection Hp as <-; discriminate|lia].
  - split; reflexivity.
  - split; [split; [reflexivity|apply NoDup_nil_2]|]. split; [vm_compute; lia|apply not_elem_of_nil].
  - destruct fork_mm_space as (m & taken & _ & HA). apply (as_inv _ _ _ _ _ _ HA).
  - vm_compute. lia.
  - change (kmm fork_kstate) with fork_mm. rewrite (proj1 (proj2 fork_mm_facts)). vm_compute. discriminate.
  - exact fork_parent_ok.
Qed.

Lemma do_fork_copies_witness :
  exists s' p, do_fork (Some 0%nat) fork_kstate = Ok 1 s' /\ ready s' [1%nat] /\
    ld64 (smem s') (0x80014000 + 8 * 2) = 0x1234 /\ ld64 (smem s') (0x80014000 + 8 * 9) = 0 /\
    entry (smem s') 0x80015000 0x10000 = map_pte 0x8000b000 code_perm /\
    entry (smem s') 0x80015000 0x11000 = map_pte p data_perm /\ p <> fork_data_page /\
    load_bytes (smem s') p (Z.to_nat PGSIZE) =
      load_bytes (smem fork_kstate) fork_data_page (Z.to_nat PGSIZE).
Proof.
  destruct fork_mm_facts as (_ & _ & _ & _ & _ & _ & _ & _ & P1 & P2 & W & _).
  pose proof (wp_ok _ _ _ (do_fork_copies _ _ _ _ _ _ _ _ _ _ _ _ _ fork_ok_sample)) as H.
  cbv zeta in H. destruct H as (r & s' & E & H).
  destruct H as (-> & H). destruct H as (Hr & _ & Hw & _ & _ & (ps & Hlen & _ & Hp) & _).
  change (smem fork_kstate) with (smem fork_mm) in *. change (pagetable fork_parent) with fork_root in *.
  destruct ps as [|p1 [|p2 [|]]]; try discriminate Hlen.
  destruct (Hp 0%nat (0x10000, CODE_SEGMENT) p1 eq_refl eq_refl) as [E1 Q1].
  destruct (Hp 1%nat (0x11000, DATA_SEGMENT) p2 eq_refl eq_refl) as [E2 Q2].
  cbn [fst snd] in E1, E2, Q1, Q2. rewrite P1 in Q1. rewrite P2 in Q2.
  destruct (decide (CODE_SEGMENT = CODE_SEGMENT)) as [_|n]; [|by destruct n].
  destruct (decide (DATA_SEGMENT = CODE_SEGMENT)) as [n|_]; [discriminate n|].
  destruct Q2 as (Hf & _ & _ & _ & Hb). exists s', p2. split; [exact E|]. split; [exact Hr|].
  pose proof (Hw 2 ltac:(lia)) as W2. rewrite decide_False in W2 by discriminate.
  change (trapframe fork_parent) with fork_frame in W2. rewrite W in W2.
  pose proof (Hw 9 ltac:(lia)) as W9. rewrite decide_True in W9 by reflexivity.
  split; [exact W2|]. split; [exact W9|].
  rewrite Q1 in E1. split; [exact E1|]. split; [exact E2|]. split; [|exact Hb].
  intros ->. pose proof fork_kept_all as Hk. rewrite !Forall_cons in Hk.
  destruct Hk as (_ & _ & _ & _ & [_ Hn] & _). exact (Hn Hf).
Defined.

(** ** The process in user mode *)

Lemma fork_user : user_mode fork_kstate 0 fork_parent (replicate 31 0).
Proof.
  destruct fork_mm_facts as (_ & _ & _ & _ & _ & _ & _ & _ & _ & _ & _ & _ & T & _ & G & C1 & C2 & C3).
  split.
  - reflexivity.
  - reflexivity.
  - exact G.
  - reflexivity.
  - apply (bool_decide_unpack _). vm_compute. exact I.
  - exact C1.
  - exact C2.
  - exact C3.
  - by split_and!.
  - exact T.
Qed.

Lemma fork_not_table p : p < 0x80010000 -> p <> fork_root -> ~ in_tree (smem fork_kstate) fork_root p.
Proof.
  intros Hp Hn Hin. destruct fork_space as (m & taken & l' & El & _ & HA).
  apply (as_tree _ _ _ _ _ _ HA) in Hin as [->|Hin]; [done|].
  assert (p ∈ fork_pages) as H by (rewrite El; apply elem_of_app; by left).
  apply fork_pages_above in H. lia.
Qed.

Lemma fork_writable : writable (smem fork_kstate) fork_root (stack_va + 0x800) 0x8000c000.
Proof.
  destruct fork_mm_facts as (_ & _ & _ & _ & _ & _ & _ & _ & _ & _ & _ & _ & _ & E & _).
  destruct fork_space as (m & taken & l' & _ & _ & HA).
  split.
  - apply (as_inv _ _ _ _ _ _ HA).
  - exact E.
  - by split_and!.
  - by apply fork_not_table.
Qed.

Lemma printu_prints_witness :
  exists s', printu 0x10100 0x10200 (stack_va + 0x800) (replicate 256 Byte.x00)
    (String.list_byte_of_string "n = %d") [VInt 42] fork_kstate = Ok 0 s' /\
    console (lget s') = [String.list_byte_of_string "n = 42"] /\ csr sepc (lget s') = 0x10104.
Proof.
  destruct (printu_prints 0x10100 0x10200 (stack_va + 0x800) (replicate 256 Byte.x00)
    (String.list_byte_of_string "n = %d") [VInt 42] (String.list_byte_of_string "n = 42")
    fork_kstate 0 fork_parent (replicate 31 0) 0x8000c000 fork_user fork_writable
    ltac:(discriminate) (fork_not_table fork_frame ltac:(reflexivity) ltac:(discriminate))
    ltac:(split; vm_compute; congruence) ltac:(vm_compute; congruence) eq_refl
    ltac:(vm_compute; reflexivity) ltac:(vm_compute; repeat constructor)
    ltac:(apply (bool_decide_unpack _); vm_compute; exact I)
    ltac:(apply (bool_decide_unpack _); vm_compute; exact I)) as (s' & E & Hc & _ & He & _).
  exists s'. split; [exact E|]. split; [exact Hc|exact He].
Defined.

Lemma fork_returns_twice_witness :
  exists s', fork 0x10100 fork_kstate = Ok 1 s' /\ csr sepc (lget s') = 0x10104 /\
    gpr (lget s') !! r_a0 = Some 1 /\ ready s' [1%nat] /\
    saved_regs (smem s') 0x80014000 !! r_a0 = Some 0 /\ ld64 (smem s') (0x80014000 + tf_epc) = 0x10104.
Proof.
  destruct (fork_returns_twice 0x10100 _ _ _ _ _ _ _ _ _ _ _ _ _ _ fork_user fork_ok_sample
    (fork_not_table fork_frame ltac:(reflexivity) ltac:(discriminate)) ltac:(discriminate))
    as (s' & pp' & E & HU & He & Hq & (_ & Hregs & Hepc)).
  exists s'. split; [exact E|]. split; [exact He|]. split; [rewrite (um_gpr _ _ _ _ HU); reflexivity|].
  split; [exact Hq|]. split; [rewrite Hregs; reflexivity|exact Hepc].
Defined.
