(* ===== verification/IsolationExamples.v ===== *)
(** The systems of ForkExamples.v and of BootExamples.v are partitioned; the
    theorems on isolation, on pages on demand and on the application in them. *)
From S2P Require Import Prelude Mem Context CString Snprintf Console Pmm Sv39 Vmm Space Kstate Sched Process NewProc Fork Syscall Strap User UserFork Isolation IsolationFork Paging IsolationTrap Spike Mmode Elf ElfLoad IsolationLoad App Examples BootExamples ForkExamples.

Lemma fork_used j q : used fork_kstate j q -> j = 0%nat /\ q = fork_parent.
Proof.
  intros [Hj Hst]. destruct j as [|j]; [split; [reflexivity|by injection Hj]|].
  exfalso. apply Hst. change (((fun i => set_pid i zero_process) <$> seqZ 1 31) !! j = Some q) in Hj.
  apply list_lookup_fmap_Some in Hj as (x & -> & _). reflexivity.
Qed.

Lemma fork_private_page taken p :
  (forall z, z ∈ taken -> z ∉ fork_free /\ z ∈ fork_pages) -> ram_page p -> p < 0x80010000 -> p <> fork_root ->
  private p fork_root taken fork_free.
Proof.
  intros Htk Hr Hp Hne. split; [exact Hr|exact Hne|..].
  - intros Hin. destruct (Htk p Hin) as [_ H%fork_pages_above]. lia.
  - intros (i & Hi & ->)%elem_of_page_seq. consts. lia.
Qed.

Lemma fork_user_pages va z flags :
  grants flags (fork_entries va) z -> flags <> 0 -> z ∈ [0x8000c000; 0x8000b000; fork_data_page].
Proof.
  intros Hg Hf. unfold fork_entries in Hg.
  destruct (map_all_cases (fun _ => 0) [(stack_va, 0x8000c000, stack_perm);
    (0x10000, 0x8000b000, stack_perm); (0x11000, fork_data_page, stack_perm)] va) as [E|(va0 & pa & perm & Hin & _ & E)];
    rewrite E in Hg.
  - destruct Hg as [Hg _]. rewrite Z.land_0_l in Hg. by destruct Hf.
  - rewrite !elem_of_cons, elem_of_nil in Hin. rewrite !elem_of_cons.
    destruct Hin as [[= -> -> ->]|[[= -> -> ->]|[[= -> -> ->]|[]]]];
      (apply grants_map_pte in Hg as ->; [tauto|by split_and!|by vm_compute]).
Qed.

Lemma fork_isolated : isolated fork_kstate fork_free.
Proof.
  destruct fork_mm_space as (m & taken & Htk & HA).
  apply (isolated_one fork_kstate 0 fork_parent m taken fork_free fork_entries HA fork_used).
  - intros z Hz. apply fork_private_page; [exact Htk|..];
      change (z ∈ [fork_frame; fork_info; 0x80008000]) in Hz; rewrite !elem_of_cons, elem_of_nil in Hz;
      destruct Hz as [->|[->|[->|[]]]]; first [by split_and!|reflexivity|discriminate].
  - intros va z _ Hg. apply fork_user_pages in Hg; [|discriminate].
    rewrite !elem_of_cons, elem_of_nil in Hg. split.
    + apply fork_private_page; [exact Htk|..]; destruct Hg as [->|[->|[->|[]]]];
        first [by split_and!|reflexivity|discriminate].
    + change (z ∉ [fork_frame; fork_info; 0x80008000]). rewrite !not_elem_of_cons.
      destruct Hg as [->|[->|[->|[]]]]; (split_and!; [discriminate..|apply not_elem_of_nil]).
Qed.

Lemma fork_entry va : 0 <= va < 2 ^ 39 -> entry (smem fork_kstate) fork_root va = fork_entries va.
Proof. destruct fork_mm_space as (m & taken & _ & HA). exact (as_entry _ _ _ _ _ _ HA va). Qed.

Lemma fork_used0 : used fork_kstate 0 fork_parent.
Proof. split; [reflexivity|discriminate]. Qed.

Lemma fork_data_writable : user_writable (smem fork_kstate) fork_parent 0x11008 fork_data_page.
Proof.
  split; [by split|]. change (pagetable fork_parent) with fork_root. rewrite fork_entry by (by split).
  split; vm_compute; reflexivity.
Qed.

Lemma user_stores_confined_witness :
  exists s', user_store 0x10100 0x11008 Byte.x07 fork_kstate = Ok tt s' /\ isolated s' fork_free /\
    load_bytes (smem s') (fork_data_page + 8) 1 = [Byte.x07] /\
    same_page fork_frame (smem fork_kstate) (smem s').
Proof.
  destruct (user_stores_confined 0x10100 0x11008 Byte.x07 fork_kstate 0 fork_parent (replicate 31 0)
    fork_free fork_data_page fork_isolated fork_user ltac:(discriminate) fork_data_writable)
    as (s' & E & HI & _ & _ & Em & _ & Hk & _).
  exists s'. split; [exact E|]. split; [exact HI|]. split.
  - rewrite Em. exact (load_store_bytes (smem fork_kstate) (fork_data_page + 8) [Byte.x07]).
  - apply (Hk 0%nat fork_parent fork_frame fork_used0). right. left.
Defined.

Lemma malloc_free_roundtrip_witness :
  exists s', (va <- sys_user_allocate_page ;; sys_user_free_page va) fork_kstate = Ok 0 s' /\
    g_ufree_page s' = PGSIZE /\ exists l', isolated s' (0x80014000 :: l').
Proof.
  assert (pte_valid (entry (smem fork_kstate) (pagetable fork_parent) 0) = false) as Hv.
  { change (pagetable fork_parent) with fork_root. rewrite fork_entry by (by split). vm_compute. reflexivity. }
  assert (page_aligned 0 /\ 0 <= 0 < MAXVA) as [Ha Hva] by (by split_and!).
  assert (2 < length (page_seq 0x80015000 19))%nat as Hl by (vm_compute; lia).
  pose proof (malloc_free_roundtrip fork_kstate 0x80014000 (page_seq 0x80015000 19) 0 fork_parent 0
    fork_isolated eq_refl fork_used0 Hl eq_refl Ha Hva Hv) as H.
  apply wp_ok in H. destruct H as (r & s' & E & H). destruct H as (Hr & Hg & _ & (taken & l' & _ & _ & HI) & _).
  rewrite Hr in E.
  exists s'. split; [exact E|]. split; [exact Hg|]. exists l'. exact HI.
Defined.

Lemma store_pages_in_witness :
  exists s' l', user_store 0x10100 0x400010 Byte.x07 fork_kstate = Ok tt s' /\ isolated s' l' /\
    load_bytes (smem s') 0x80014010 1 = [Byte.x07] /\ csr sepc (lget s') = 0x10100.
Proof.
  destruct (store_pages_in 0x10100 0x400010 Byte.x07 fork_kstate 0 fork_parent (replicate 31 0)
    0x80014000 (page_seq 0x80015000 19) fork_isolated fork_user ltac:(discriminate)
    ltac:(vm_compute; lia) ltac:(by split)
    ltac:(change (pagetable fork_parent) with fork_root; rewrite fork_entry by (by split); vm_compute; reflexivity))
    as (s' & taken & l' & E & _ & _ & HI & _ & _ & _ & Hepc & _ & Hb & _).
  exists s', l'. split; [exact E|]. split; [exact HI|]. split; [exact Hb|]. exact Hepc.
Defined.

Lemma fork_keeps_isolation_witness :
  exists s' l', do_fork (Some 0%nat) fork_kstate = Ok 1 s' /\ isolated s' l'.
Proof.
  assert (forall g, g ∈ fork_segs_ -> snd g = CODE_SEGMENT ->
    user_page (smem fork_kstate) fork_parent (fst g)
      (lookup_val (entry (smem fork_kstate) (pagetable fork_parent) (fst g)))) as Hcode.
  { intros g Hg Hc. unfold fork_segs_ in Hg. rewrite !elem_of_cons, elem_of_nil in Hg.
    destruct Hg as [->|[->|[]]]; [|discriminate Hc]. change (pagetable fork_parent) with fork_root.
    cbn [fst]. split; [by split|]. change (pagetable fork_parent) with fork_root.
    rewrite fork_entry by (by split). split; vm_compute; reflexivity. }
  assert (isolated fork_kstate (0x80014000 :: 0x80015000 :: 0x80016000 :: 0x80017000 :: 0x80018000 ::
    page_seq 0x80019000 15)) as HI0 by exact fork_isolated.
  pose proof (fork_keeps_isolation fork_kstate 0 fork_parent fork_segs_ 1 (set_pid 1 zero_process) [] 0x80014000
    0x80015000 0x80016000 0x80017000 0x80018000 (page_seq 0x80019000 15) HI0 fork_ok_sample Hcode) as H.
  apply wp_ok in H. destruct H as (r & s' & E & Hr & l' & HI). rewrite Hr in E.
  exists s', l'. exact (conj E HI).
Defined.

(** A tick of the timer. *)
Definition fork_timer : kstate := put_csr scause CAUSE_MTIMER_S_TRAP fork_kstate.

Definition back_in_user {A} (r : outcome kstate A) : bool :=
  match r with Stop SRet _ => true | _ => false end.

Lemma fork_timer_back : back_in_user (smode_trap_handler (A := unit) fork_timer) = true.
Proof. vm_compute. reflexivity. Qed.

Lemma fork_timer_runs : runs fork_free 0 fork_parent fork_timer.
Proof.
  apply (runs_quiet fork_free 0 fork_parent fork_kstate); [apply quiet_csr|].
  exact (conj fork_isolated (conj fork_used0 eq_refl)).
Qed.

Lemma fork_timer_light : light_trap fork_timer (trapframe fork_parent).
Proof.
  assert (csr scause (lget fork_timer) = CAUSE_MTIMER_S_TRAP) as E by (vm_compute; reflexivity).
  split; rewrite E; discriminate.
Qed.

Lemma light_traps_keep_isolation_witness :
  exists s', smode_trap_handler (A := unit) fork_timer = Stop SRet s' /\ isolated s' fork_free.
Proof.
  destruct fork_timer_runs as (HI & Hu & Hc).
  pose proof (light_traps_keep_isolation fork_timer 0 fork_parent fork_free HI Hc Hu fork_timer_light) as H.
  pose proof fork_timer_back as Hb. unfold wp in H.
  remember (smode_trap_handler fork_timer) as r eqn:Er. destruct r as [a s'|e s']; [destruct H|].
  destruct e; try discriminate Hb. exists s'. split; [reflexivity|exact (H eq_refl)].
Defined.

(** ** The application *)

(** The data page holds [flag], the page of the stack the buffer. *)
Definition flag_app : AppImage := {|
  app_entry := 0x10078; flag_addr := 0x11000; out_addr := stack_va + 0x800; access_pc := 0x10080;
  fork_pc := 0x10090; fork_pc' := 0x10100; grandchild_printu_pc := 0x10110;
  child_wait_pc := 0x10120; child_printu_pc := 0x10130; parent_wait_pc := 0x10140;
  parent_printu_pc := 0x10150; exit_pc := 0x10160 |}.

Definition grandchild_fmt : string := "Grandchild process end, flag = %d.
".
Definition grandchild_line : list byte := String.list_byte_of_string "Grandchild process end, flag = 2.
".

Lemma flag_is_private_witness :
  exists s', (store_flag (H0 := flag_app) 2 ;;; print_flag (H0 := flag_app) 0x10110 grandchild_fmt) fork_kstate = Ok 0 s' /\
    console (lget s') = [grandchild_line] /\ load_flag (H0 := flag_app) s' = Ok 2 s' /\ isolated s' fork_free.
Proof.
  assert (user_writable (smem fork_kstate) fork_parent 0x11000 fork_data_page) as Hw.
  { split; [by split|]. change (pagetable fork_parent) with fork_root. rewrite fork_entry by (by split).
    split; vm_compute; reflexivity. }
  assert (user_readable (smem fork_kstate) fork_parent 0x11000 fork_data_page) as Hr.
  { split; [by split|]. change (pagetable fork_parent) with fork_root. rewrite fork_entry by (by split).
    split; vm_compute; reflexivity. }
  assert (entry (smem fork_kstate) (pagetable fork_parent) (stack_va + 0x800) = map_pte 0x8000c000 stack_perm) as He
    by exact (wr_entry _ _ _ _ fork_writable).
  destruct (flag_is_private (AI := flag_app) 2 0x10110 grandchild_fmt grandchild_line fork_kstate 0 fork_parent
    (replicate 31 0) fork_free fork_data_page 0x8000c000 fork_isolated fork_user ltac:(discriminate) Hw Hr
    ltac:(vm_compute; congruence) ltac:(split; vm_compute; congruence) ltac:(split; vm_compute; congruence)
    ltac:(vm_compute; congruence) He ltac:(by split_and!) ltac:(discriminate)
    ltac:(vm_compute; reflexivity) ltac:(vm_compute; repeat constructor)
    ltac:(apply (bool_decide_unpack _); vm_compute; exact I)
    ltac:(apply (bool_decide_unpack _); vm_compute; exact I)) as (s' & E & Hc & Hf & _ & _ & _ & HI & _).
  exists s'. split; [exact E|]. split; [exact Hc|]. split; [exact Hf|exact HI].
Defined.

(** ** The loader *)

Definition loading_process : process := set_status READY loader_process.
Notation loading_kstate := (upd_proc 0 (set_status READY) (ik loader_image)).

Lemma loading_used j q : used loading_kstate j q -> j = 0%nat /\ q = loading_process.
Proof. intros [Hj _]. destruct j as [|j]; [split; [reflexivity|by injection Hj]|discriminate Hj]. Qed.

Lemma loader_space_pages z : z ∈ space_pages loading_process -> private z sample_root [] (sample_pages 8).
Proof.
  change (z ∈ [0x8000b000; 0x80000000; 0x8000c000] -> private z sample_root [] (sample_pages 8)).
  rewrite !elem_of_cons, elem_of_nil. intros [->|[->|[->|[]]]];
    (apply loader_private; [by split_and!|first [by left|right; vm_compute; discriminate]]).
Qed.

Lemma loading_isolated : isolated loading_kstate (sample_pages 8).
Proof.
  apply (isolated_one loading_kstate 0 loading_process (smem loader_space) [] (sample_pages 8) (fun _ => 0)
    loader_aspace loading_used loader_space_pages).
  intros va z _ [Hg _]. rewrite Z.land_0_l in Hg. discriminate Hg.
Qed.

Lemma elf_load_keeps_isolation_witness :
  exists s' l' q1 q2, elf_load (H0 := sample_elf_host) elfloader (ElfInfo (FFile 0) (Some 0%nat)) loader_image = Ok EL_OK s' /\
    isolated (upd_proc 0 (set_status READY) (ik s')) l' /\
    q1 ∈ sample_pages 8 /\ q1 ∉ l' /\ entry (smem s') sample_root 0x10000 = map_pte q1 elf_perm /\
    page_holds (smem s') q1 (le 8 0x13 ++ le 8 0x73) /\
    q2 ∈ sample_pages 8 /\ q2 ∉ l' /\ entry (smem s') sample_root 0x11000 = map_pte q2 elf_perm.
Proof.
  pose proof (as_entry _ _ _ _ _ _ loader_aspace) as He. pose proof (as_tree _ _ _ _ _ _ loader_aspace) as Ht.
  assert (private 0x8000a000 sample_root [] (sample_pages 8)) as Hp
    by (apply loader_private; [by split_and!|right; vm_compute; discriminate]).
  assert (READY <> FREE) as Hst by discriminate.
  assert (header_page 0x8000a000 sample_root [] (sample_pages 8)) as Hh
    by (split; [exact Hp|split; vm_compute; discriminate]).
  assert (forall j p, used loading_kstate j p -> ~ kernel_page (smem loader_image) p 0x8000a000) as Hk.
  { intros j p Hj. destruct (loading_used j p Hj) as [_ ->]. intros [Hin|Hin].
    - apply Ht in Hin. destruct Hin as [Hin|Hin]; [discriminate Hin|by apply elem_of_nil in Hin].
    - change (0x8000a000 ∈ [0x8000b000; 0x80000000; 0x8000c000]) in Hin.
      rewrite !elem_of_cons, elem_of_nil in Hin. destruct Hin as [E|[E|[E|[]]]]; discriminate E. }
  pose proof (elf_load_keeps_isolation (HH := sample_elf_host) sample_elf 0 3 0 loader_process READY
    0x8000a000 0x8000a000 64 2 0 loader_image [] (sample_pages 8) Hst loading_isolated
    (sample_loader_ok _ (He 0x10000 ltac:(by split)) (He 0x11000 ltac:(by split))) Ht Hh Hp Hk) as H.
  apply wp_ok in H. destruct H as (r & s' & E & Hr & l' & qs & HI & _ & Hlen & Hseg & _). rewrite Hr in E.
  rewrite sample_loadable in Hlen, Hseg. destruct qs as [|q1 [|q2 [|]]]; try discriminate Hlen.
  destruct (Hseg 0%nat _ q1 eq_refl eq_refl) as (L1 & N1 & E1 & P1 & _).
  destruct (Hseg 1%nat _ q2 eq_refl eq_refl) as (L2 & N2 & E2 & _).
  exists s', l', q1, q2.
  exact (conj E (conj HI (conj L1 (conj N1 (conj E1 (conj P1 (conj L2 (conj N2 E2)))))))).
Defined.
