(* ===== verification/HtifExamples.v ===== *)
(** A console and a system-call proxy behind HTIF, and the theorems of Htif.v
    and HtifHost.v applied to them. *)
From S2P Require Import Prelude Mem CString Snprintf Atomic Htif Spike HtifHost Mmode BootExamples.

(** ** A terminal: what has been printed and the keys to come *)
Definition tty : Type := list Z * list Z.

Definition tty_respond (c : Z) (w : tty) : option (tty * list Z) :=
  if c =? 1 then None
  else if c =? TOHOST_CMD 1 0 0 then
    match w.2 with
    | [] => Some (w, [])
    | k :: ks => Some ((w.1, ks), [TOHOST_CMD 1 0 (256 + u8 k)])
    end
  else if (FROMHOST_DEV c =? 1) && (FROMHOST_CMD c =? 1) then
    Some ((w.1 ++ [u8 c], w.2), [TOHOST_CMD 1 1 (256 + u8 c)])
  else Some (w, [1]).

#[local] Instance tty_device : HtifDevice dev_state tty := emulator tty_respond.

Lemma tty_ok :
  device_ok tty_respond fst (fun d : dev_state => if d.2 then 1%nat else 0%nat) 1.
Proof.
  apply emulator_ok. intros c w w' rs. unfold tty_respond.
  destruct (c =? 1); [discriminate|]. destruct (c =? TOHOST_CMD 1 0 0).
  { destruct (w.2) as [|k ks]; intros H; injection H as _ <-; [by constructor|].
    constructor; [apply TOHOST_CMD_1|by constructor]. }
  destruct (_ && _); intros H; injection H as _ <-; constructor; try by constructor.
  - apply TOHOST_CMD_1.
  - discriminate.
Qed.

(** The key 'B' is on its way, 'A' is being printed, and 'C' comes next. *)
Definition tty_state : hstate dev_state tty :=
  HState (HRegs (TOHOST_CMD 1 1 65) 0 (-1) 0) ([TOHOST_CMD 1 0 (256 + 66)], false) ([], [67]).

Definition tty_world : tty := ([65], [67]).
Definition tty_responses : list Z := [TOHOST_CMD 1 0 (256 + 66); TOHOST_CMD 1 1 (256 + 65)].

Lemma tty_outlook : outlook tty_respond fst tty_state tty_world tty_responses.
Proof.
  split; [repeat constructor; discriminate|]. exists [TOHOST_CMD 1 1 (256 + 65)].
  rewrite decide_False by (vm_compute; discriminate). split; [by vm_compute|done].
Qed.

Lemma tty_console : Forall console tty_responses.
Proof.
  constructor; [split; [reflexivity|left; reflexivity]|].
  constructor; [split; [reflexivity|right; reflexivity]|constructor].
Qed.

(** A system call while the console is busy. *)
Example do_tohost_fromhost_sample :
  exists s', do_tohost_fromhost 100 0 0 4096 tty_state = Ok tt s' /\
    hr s' = HRegs 0 0 67 0 /\ (hdev s').1 = [] /\ hworld s' = tty_world.
Proof.
  exact (do_tohost_fromhost_spec tty_respond fst _ 1 tty_ok 100 0 0 4096 tty_state tty_world
    tty_responses tty_world [] 1 tty_outlook tty_console eq_refl ltac:(vm_compute; discriminate)
    eq_refl ltac:(constructor) eq_refl eq_refl ltac:(discriminate) ltac:(vm_compute; reflexivity)).
Qed.

(** The key pressed is handed over, and the next one requested. *)
Lemma htif_console_getchar_next_witness :
  exists v s' os', htif_console_getchar 100 tty_state = Ok v s' /\ htif_lk (hr s') = 0 /\
    (v = -2 \/ v = 66 /\ coming (htif_console_buf (hr s')) os' = [67]).
Proof.
  destruct (htif_console_getchar_next tty_respond fst _ 1 tty_ok 100 tty_state tty_world
    tty_responses ([65], []) [TOHOST_CMD 1 0 (256 + 67)] tty_outlook tty_console eq_refl
    ltac:(left; split; vm_compute; [reflexivity|repeat constructor]) eq_refl
    ltac:(constructor; [split; [|left]; reflexivity|constructor])
    ltac:(vm_compute; repeat constructor) ltac:(vm_compute; reflexivity))
    as (v & s' & os' & E & H1 & _ & _ & [(-> & _ & _)|(Hb & _ & Ha)]).
  - exists (-2), s', os'. split; [exact E|]. split; [exact H1|by left].
  - exists v, s', os'. split; [exact E|]. split; [exact H1|]. right.
    destruct Hb as [Hb|[_ Hb]]; [|discriminate Hb]. injection Hb as <-. split; [reflexivity|exact Ha].
Defined.

(** What the terminal shows of a message. *)
Definition tty_emit (ch : Z) (w : tty) : tty := (w.1 ++ [ch], w.2).

Definition print_ok (ch : Z) : bool :=
  let c := TOHOST_CMD 1 1 ch in
  let r := TOHOST_CMD 1 1 (256 + u8 c) in
  negb (c =? 1) && negb (c =? TOHOST_CMD 1 0 0) && (FROMHOST_DEV c =? 1) && (FROMHOST_CMD c =? 1) &&
  (u8 c =? ch) && (FROMHOST_DEV r =? 1) && (FROMHOST_CMD r =? 1).

Lemma print_ok_all : forallb print_ok (seqZ 1 255) = true.
Proof. by vm_compute. Qed.

Lemma tty_emits ch w : 0 < ch < 256 -> exists rs,
  tty_respond (TOHOST_CMD 1 1 ch) w = Some (tty_emit ch w, rs) /\ Forall console rs /\ (length rs <= 1)%nat.
Proof.
  intros Hch. pose proof (proj1 (forallb_forall _ _) print_ok_all ch) as H.
  specialize (H ltac:(apply list_elem_of_In, elem_of_seqZ; lia)). unfold print_ok in H.
  rewrite !andb_true_iff, !negb_true_iff, !Z.eqb_eq in H.
  destruct H as ((((((H1 & H2) & H3) & H4) & H5) & H6) & H7).
  exists [TOHOST_CMD 1 1 (256 + u8 (TOHOST_CMD 1 1 ch))]. split; [|split].
  - unfold tty_respond, tty_emit. rewrite H1, H2, H3, H4, H5. reflexivity.
  - constructor; [|constructor]. split; [exact H6|by right].
  - apply le_n.
Qed.

Lemma vprintm_emits_witness :
  exists s' os', vprintm 10000 1 (String.list_byte_of_string "n = %d") [VInt 42] tty_state = Ok tt s' /\
    htif_lk (hr s') = 0 /\
    outlook tty_respond fst s' ([65; 110; 32; 61; 32; 52; 50], [67]) os'.
Proof.
  destruct (vprintm_emits tty_respond fst _ 1 tty_ok tty_emit tty_emits 10000 1
    (String.list_byte_of_string "n = %d") [VInt 42] (String.list_byte_of_string "n = 42")
    tty_state tty_world tty_responses ltac:(discriminate) ltac:(vm_compute; reflexivity)
    ltac:(apply (bool_decide_unpack _); vm_compute; exact I) tty_outlook tty_console eq_refl
    ltac:(vm_compute; reflexivity)) as (s' & os' & E & H1 & _ & H2).
  exists s', os'. split; [exact E|]. split; [exact H1|exact H2].
Defined.

(** The command to print 'A' is still in tohost when the kernel powers off. *)
Lemma htif_poweroff_ends_witness :
  exists s', htif_poweroff (A := unit) 100 tty_state = Stop PowerOff s'.
Proof.
  exact (htif_poweroff_ends tty_respond fst _ 1 tty_ok 100 tty_state tty_world tty_responses
    (fun _ => eq_refl) tty_outlook ltac:(vm_compute; reflexivity)).
Defined.

(** ** A proxy of system calls *)
#[local] Instance reply_host : Host := { host_call w k := (5 :: tl w, k) }.

Definition magic : Z := 0x80010000.

Definition proxy_respond (c : Z) (w : list Z * machine) : option (list Z * machine * list Z) :=
  if c =? 1 then None
  else if c =? magic then Some (host_call w.1 w.2, [1]) else Some (w, []).

#[local] Instance proxy_device : HtifDevice dev_state (list Z * machine) := emulator proxy_respond.

Lemma proxy_ok :
  device_ok proxy_respond fst (fun d : dev_state => if d.2 then 1%nat else 0%nat) 1.
Proof.
  apply emulator_ok. intros c w w' rs. unfold proxy_respond.
  destruct (c =? 1); [discriminate|].
  destruct (c =? magic); intros H; injection H as _ <-; repeat constructor. discriminate.
Qed.

Definition proxy_image : image := lput (Spike [] [] [64; 1; 0; 0; 0; 0; 0; 0] (-1)) sample_image.

Definition proxy_state : hstate dev_state (list Z * machine) :=
  HState (HRegs 0 0 0 0) ([], true) (magic_mem (lget proxy_image), lget proxy_image).

Lemma proxy_same_host :
  same_host proxy_respond fst 0 proxy_state proxy_image.
Proof.
  exists []. split; [|split; [constructor|split; [apply le_n|reflexivity]]].
  split; [constructor|]. exists []. split; [|reflexivity]. by rewrite decide_True.
Qed.

Lemma htif_syscall_refines_witness :
  exists hs' s', Htif.htif_syscall 100 magic proxy_state = Ok tt hs' /\
    Spike.htif_syscall proxy_image = Ok tt s' /\ same_host proxy_respond fst 0 hs' s'.
Proof.
  exact (htif_syscall_refines proxy_respond fst _ 1 proxy_ok magic
    (fun w => ex_intro _ 1 (conj eq_refl (conj eq_refl eq_refl)))
    100 0 proxy_state proxy_image ltac:(discriminate) proxy_same_host ltac:(vm_compute; reflexivity)).
Defined.
